(* ===== verification/_CoqProject ===== *)
-Q . S2P
Prelude.v
Net.v
GoValue.v
Binary64.v
Msgp.v
Generics.v
Fanout.v
Metrics.v
Exporters.v
Usage.v
Event.v
SamplerConfig.v
Config.v
Payload.v
PayloadFacts.v
PayloadWire.v
PayloadSend.v
Transmit.v
TransmitFacts.v
TransmitSend.v
TransmitDefault.v
MemorySize.v
Validate.v
ValidateFacts.v
Settings.v
Load.v
LoadFacts.v
Accessors.v
Serializer.v
Loggers.v
Convert.v
ConvertText.v
ConvertRules.v
Http.v
BatchedEvents.v
TraceKey.v
Rules.v
Samplers.v
StressRelief.v
TraceCache.v
SentCache.v
Collector.v
Worker.v
InMemCollector.v
Sharder.v
Peers.v
Membership.v
Redimem.v
PubSubRedis.v
Health.v
Agent.v
AgentConnect.v
App.v
Router.v
Handlers.v
Otlp.v
Routes.v
Serving.v
Cluster.v
