(* ===== verification/Prelude.v ===== *)
(** * Refinery: a verification development

    Refinery (src/README.md) is a sampling proxy for traces.  Spans arrive over HTTP or gRPC, as
    MessagePack, JSON or OTLP; the spans of one trace are sent to one node of the cluster and held there
    until the trace is complete, too big or too old; a sampler then decides whether the trace is
    kept; the spans of a kept trace, their sample rate set, leave in batches for the API.  This
    library models that path and what it leans on, and proves what makes each part correct.

    ** The parts, and where they are

    The way of an event through the program, and the files that model it:

    - Http.v and Serving.v (route/middleware.go, route/errors.go, and the parts of route/route.go about
      requests and responses): bodies, writers, errors, keys and tokens; panics, the log of requests,
      the gRPC health service.  Routes.v: the table of routes.  Handlers.v: the handlers of events and
      batches, the queries, the proxy (route/proxy.go).  Otlp.v (route/otlp_trace.go,
      route/otlp_logs.go): traces and logs of OpenTelemetry.
    - BatchedEvents.v (route/batched_event.go, types/json_to_msgp.go): the body of a request becomes
      events.  Payload.v (types/payload.go, types/msgp_payload_map.go): an event's fields, kept as
      the bytes they arrived in; PayloadFacts.v, PayloadWire.v and PayloadSend.v are its theorems
      (reading and writing, arriving, leaving).
    - Router.v (route/route.go): where an event goes: upstream, to a peer, to the collector.
      Sharder.v (sharder/) says which node owns a trace, from the list of the nodes that Peers.v
      (internal/peer/, pubsub/pubsub_local.go, internal/configwatcher/) keeps; Membership.v is how a
      node keeps itself in that list, and file peers; PubSubRedis.v (pubsub/pubsub_goredis.go) carries
      the messages.  Redimem.v (internal/redimem/) is an older membership, kept in Redis itself.
    - InMemCollector.v and Worker.v, over the shared definitions of Collector.v (collect/collect.go,
      collect/collector_worker.go): the collector, its workers and the queue of traces to send.  A
      worker keeps live traces in TraceCache.v (collect/cache/cache.go) and remembers the decided
      ones in SentCache.v (the other files of collect/cache/).
    - Samplers.v (sample/), with TraceKey.v (sample/trace_key.go) and Rules.v (sample/rules.go): the
      decision; SamplerConfig.v (config/sampler_config.go): its configuration.
    - StressRelief.v (collect/stressRelief.go): what replaces the decision when the node, or the
      cluster, is overloaded.
    - Transmit.v (transmit/direct_transmit.go, types/router_types.go): batches, requests, answers;
      TransmitFacts.v (batching) and TransmitSend.v (sending) are its theorems.  TransmitDefault.v
      (transmit/transmit.go) is the older transmission, which the program no longer puts together.
    - Cluster.v puts a transmission and the router of another node together, end to end.

    The configuration: Load.v (config/configLoadHelpers.go and the start of config/file_config.go) reads
    and merges the files; Validate.v (config/validate.go, config/metadata.go, config/version.go) checks
    them against the metadata; Settings.v (config/cmdenv.go) gives each setting its value from the
    files, the options, the environment and the defaults; MemorySize.v (config/memorysize.go,
    config/level.go, internal/headers/) reads sizes and levels; Config.v and Accessors.v
    (config/file_config.go, config/config.go) are what the rest of the program asks; Serializer.v
    (config/config_serializer.go) reports it.  ValidateFacts.v and LoadFacts.v are theorems.

    Around them: Metrics.v (metrics/multi_metrics.go) and Exporters.v (its two backends); Loggers.v
    (logger/); Health.v (internal/health/); Usage.v, Agent.v and AgentConnect.v (agent/), which report to
    an OpAMP server and load what it sends; App.v (cmd/refinery/main.go, app/app.go, service/debug/): from a
    configuration to a running process; Convert.v, ConvertText.v and ConvertRules.v (tools/convert/),
    the tool that turns an old configuration into a new one.

    Used everywhere: GoValue.v (dynamic values, floats), Binary64.v (whole numbers as floats), Net.v
    (package net's addresses), Generics.v and Fanout.v (generics/), Event.v (types/event.go), Msgp.v (the
    interface of the MessagePack library).  This file holds the notations, tactics and generic lemmas.

    Interfaces.  A component is proved against the class of what it uses, and the implementation
    has an instance: [Event.PayloadOps] and [Event.PayloadLaws] (what samplers and the collector
    ask of a payload; the instance is Payload's, proved in PayloadFacts), [Event.MetaOps] (the
    metadata fields the router and the collector write), [Router.CollectorOps] (the collector the
    router hands spans to; InMemCollector's instance), [Sharder.Sharder] (two instances).

    ** How the code is translated

    A struct is a record with the code's field names (a prefix keeps them apart); a function keeps
    its name, with an underscore where Rocq has the word.  A method with a pointer receiver returns
    the new contents.  Where several parts hold the same object and one writes through it, there is
    a store and locations: events in Router.v and Transmit.v, dynsamplers in Samplers.v, entries of
    the kept traces in SentCache.v, subscriptions in Peers.v and PubSubRedis.v.

    A function that can fail returns [res] (a Go pair of value and error); [None] where the result
    is an [option] is a panic or os.Exit, unless said otherwise.  What the state is after an error
    that the caller answers by dropping the object is not kept.

    Integers are [Z] with Go's wrap-around written out ([u64], [s64], [u32], ...); a float is an IEEE
    binary64.  Times and durations are nanoseconds in [Z]; an operation takes the reading of the
    clock [now] as an argument and makes one reading per call; random draws, what other nodes and the
    network answer ([peers], [net]), and durations that only feed histograms ([elapsed]) are arguments
    as well, and the theorems hold for all of them.  Calls to the metrics are a list of [metric_op].
    Go's order of iteration over a map is an argument where the result depends on it.  The contents of
    a configuration file are association lists, in the order the decoder gives.

    Code that is not in the repository is a class: its operations, and laws where the code relies on
    documented behaviour (MessagePack, the cuckoo filter, the LRU cache, the priority queue,
    wyhash, dynsampler-go, gjson, fastjson, net/http, gorilla/mux, husky, the decoders of YAML, TOML and
    JSON, Redis, OpAMP, Prometheus, OpenTelemetry, ...).  Each class with laws has a concrete instance,
    by which the witnesses compute.

    Goroutines.  An operation under a lock, or on state that one goroutine owns, is one step; the
    interleavings are the sequences of steps ([InMemCollector.step], [SentCache.sent_step], [TransmitFacts.step],
    [Fanout.step], [PubSubRedis.step], the ticks and messages of Agent.v, the logs of messages of
    Peers.v).  Channels are unbounded but for a worker's two input queues, whose capacity is what
    AddSpan's error is about, and those of Fanout.v.

    Recursion.  Most loops are structural.  [TraceCache.take_loop] takes the size of the queue as
    fuel, one entry leaving it at each round; iterations over bytes and over texts ([Payload],
    [BatchedEvents], [ConvertText], [Redimem.split_text]) take their length, a round taking at least one
    byte; [Validate] takes the nesting of the contents, and [ValidateFacts.validate_decides] proves it
    enough; [Transmit.send_loop] takes the number of events, and [TransmitSend.sendBatch_terminates]
    proves it enough; [Transmit.send_tries] is the code's two attempts; [Redimem.scan] takes the number
    of commands that fit into the code's five seconds, an argument.

    ** What is proved

    - Nothing is lost.  Every span handed to the collector is in a queue, in a live trace, decided, or
      refused with an error, whatever the interleaving ([InMemCollector.spans_conserved],
      [Worker.span_disposition], [InMemCollector.sends_every_span]); every event enqueued for
      transmission leaves in one batch, in order, in bounded time ([TransmitFacts.batches_conserve],
      [TransmitFacts.tick_bounds_wait]), and is accounted for once whatever the network answers
      ([TransmitSend.sendBatch_accounts], with [sendBatch_requests] and [sendBatch_terminates]); a
      group of events handed from node to node is disposed of there and accounted for here
      ([Cluster.group_handed_over]).
    - Fields survive.  A payload is the map it stands for ([PayloadFacts.payload_refines_map],
      [PayloadWire.arrival_presents_fields]) and crosses from node to node
      ([PayloadSend.hop_preserves_fields], [BatchedEvents.batch_crosses]); a JSON event presents its
      object ([BatchedEvents.json_event_presents_fields]).
    - A trace is decided in one place and once: the nodes' lists converge and all nodes agree on its
      owner ([Membership.cluster_converges], [Sharder.shard_agreement], [Peers.peers_track_messages]),
      clusters that share one Redis stay apart ([PubSubRedis.messages_stay_in_cluster]), a span sent to
      the owner stays there ([Cluster.forwarded_span_settles]), all spans of it reach one worker
      ([InMemCollector.workers_divide_traces]), a late span follows the decision made
      ([SentCache.late_spans_counted], [SentCache.dropped_trace_found]).
    - The decision is what the configuration says: rules ([Rules.ruleMatchesTrace_spec],
      [Rules.ruleMatchesSpanInTrace_spec], [Samplers.rules_first_match],
      [SamplerConfig.typed_comparison_correct]), keys ([TraceKey.build_canonical]), the samplers
      ([Samplers.deterministic_sampling], [Samplers.dynamic_sampling],
      [Samplers.workers_share_dynsampler], ...).
    - The configuration is what the files, the options and the environment say
      ([Settings.settings_decided]); validation decides conformance to the metadata
      ([ValidateFacts.validate_decides]); what is in use has been through both, and a reload changes
      all of it or nothing ([LoadFacts.configuration_in_use], [Config.reload_atomic],
      [Agent.remote_config_settles]); the report of it is faithful ([Serializer.report_faithful]);
      the conversion tool removes what is deprecated and keeps the rest ([Convert.deprecated_removed],
      [ConvertRules.rules_converted], [ConvertText.wordwrap_keeps]).
    - Requests: who may ask ([Routes.requests_guarded], [Otlp.otlp_keys]), what is answered and done
      ([Handlers.batch_answered], [Otlp.otlp_traces_processed], [Router.event_disposition]), and what
      becomes of a panic ([Serving.panics_answered]).
    - Time and memory: expiry ([Worker.expired_traces_decided], [TraceCache.take_expired_correct]),
      ejection ([Worker.ejects_heaviest]), stress ([StressRelief.stress_hysteresis],
      [InMemCollector.immediate_decides_trace]).
    - What is reported: health ([Health.health_tracks_subsystems]), usage ([Usage.usage_conserved]), the
      metrics, which the backends show as the node reads them ([Exporters.backends_agree]), and the logs
      ([Loggers.loggers_agree]).

    ** What is not modelled

    Logging and tracing have no influence on the behaviour and are left out, but for the loggers
    themselves.  Left out because they are input and output around third-party clients: the sockets and
    servers of route/route.go's LnS, the set-up of the exporters of metrics/ and the gauges their
    libraries ask for, the tracing of internal/otelutil/, the pages of service/debug/, the demonstration program
    cmd/test_redimem/.  Left out because they are a library's work: the parsing of the command line and
    the injection of dependencies (cmd/refinery/).  Left out because they produce documents from
    templates: the templates of tools/convert/, its metrics.go, and the helpers formatExample and
    pattern that only they use.  The mocks (config/mock.go and others) are test doubles, and LICENSES/
    holds sources of dependencies.  None of these decides what becomes of a span. *)
From Stdlib Require Import ZArith Ascii DecimalString DecimalZ DecimalPos Lia.
From stdpp Require Export prelude gmap strings sorting list.

#[global] Open Scope string_scope.
#[global] Open Scope list_scope.
#[global] Open Scope Z_scope.

(** ** Automation shared by the development *)

Create HintDb refinery.
Create Rewrite HintDb refinery.

(** Case analysis on the scrutinee of the innermost [match] or [if] of the goal. *)
Ltac split_match :=
  match goal with
  | |- context [match ?x with _ => _ end] =>
      lazymatch x with
      | context [match _ with _ => _ end] => fail
      | _ => destruct x eqn:?
      end
  end.

(** Case analysis on the scrutinee of a [match] of a hypothesis. *)
Ltac split_match_in H :=
  match type of H with
  | context [match ?x with _ => _ end] =>
      lazymatch x with
      | context [match _ with _ => _ end] => fail
      | _ => destruct x eqn:?
      end
  end.

(** Turns the boolean comparisons of the context into propositions. *)
Ltac reflect_bools :=
  repeat match goal with
  | H : (_ && _)%bool = true |- _ => apply andb_prop in H; destruct H
  | H : (_ || _)%bool = false |- _ => apply orb_false_elim in H; destruct H
  | H : negb _ = true |- _ => apply negb_true_iff in H
  | H : negb _ = false |- _ => apply negb_false_iff in H
  | H : (_ <? _) = true |- _ => apply Z.ltb_lt in H
  | H : (_ <? _) = false |- _ => apply Z.ltb_ge in H
  | H : (_ <=? _) = true |- _ => apply Z.leb_le in H
  | H : (_ <=? _) = false |- _ => apply Z.leb_gt in H
  | H : (_ =? _) = true |- _ => apply Z.eqb_eq in H
  | H : (_ =? _) = false |- _ => apply Z.eqb_neq in H
  | H : String.eqb _ _ = true |- _ => apply String.eqb_eq in H
  | H : String.eqb _ _ = false |- _ => apply String.eqb_neq in H
  | H : bool_decide _ = true |- _ => apply bool_decide_eq_true_1 in H
  | H : bool_decide _ = false |- _ => apply bool_decide_eq_false_1 in H
  end.

(** The routine finish: split every match, reflect the tests, close by arithmetic
    or first-order reasoning. *)
Ltac crush := repeat split_match; reflect_bools; simplify_eq/=; try lia; try naive_solver.

(** ** Errors as values *)

(** A Go pair [(T, error)]: the value, or the error's text. *)
Inductive res (A : Type) : Type :=
| Ok (a : A)
| Err (e : string).
Arguments Ok {A} a.
Arguments Err {A} e.

Definition res_bind {A B} (r : res A) (k : A → res B) : res B :=
  match r with Ok a => k a | Err e => Err e end.

Declare Scope refinery_scope.
Delimit Scope refinery_scope with refinery.
Notation "'let!' x ':=' r 'in' k" := (res_bind r (λ x, k))
  (at level 10, x pattern, r at level 100, k at level 200) : refinery_scope.
#[global] Open Scope refinery_scope.

Definition is_ok {A} (r : res A) : bool := match r with Ok _ => true | Err _ => false end.

Lemma res_bind_ok {A B} (r : res A) (k : A → res B) b :
  res_bind r k = Ok b ↔ ∃ a, r = Ok a ∧ k a = Ok b.
Proof.
  destruct r as [a|e]; simpl; split; [eauto|by intros (? & [= <-] & ?)|done|by intros (? & ? & ?)].
Qed.

(** ** Machine integers

    A Go [uint32], [uint]/[uint64] or [int]/[int64] is a [Z] in its range; the arithmetic
    that can leave the range is written with the wrap-around of its width. *)

Definition u32 (x : Z) : Z := x mod 2 ^ 32.
Definition u64 (x : Z) : Z := x mod 2 ^ 64.
Definition s64 (x : Z) : Z := (x + 2 ^ 63) mod 2 ^ 64 - 2 ^ 63.

Definition MaxUint32 : Z := 2 ^ 32 - 1.
Definition MaxUint64 : Z := 2 ^ 64 - 1.
Definition MaxInt32 : Z := 2 ^ 31 - 1.

Definition in_u32 (x : Z) : Prop := 0 ≤ x < 2 ^ 32.
Definition in_u64 (x : Z) : Prop := 0 ≤ x < 2 ^ 64.
Definition in_s64 (x : Z) : Prop := - 2 ^ 63 ≤ x < 2 ^ 63.

Lemma u32_range x : in_u32 (u32 x).
Proof. apply Z.mod_pos_bound. lia. Qed.
Lemma u64_range x : in_u64 (u64 x).
Proof. apply Z.mod_pos_bound. lia. Qed.
Lemma s64_range x : in_s64 (s64 x).
Proof. unfold in_s64, s64. pose proof (Z.mod_pos_bound (x + 2 ^ 63) (2 ^ 64)). lia. Qed.
Lemma u32_id x : in_u32 x → u32 x = x.
Proof. apply Z.mod_small. Qed.
Lemma u64_id x : in_u64 x → u64 x = x.
Proof. apply Z.mod_small. Qed.
Lemma s64_id x : in_s64 x → s64 x = x.
Proof. unfold in_s64, s64. intros. rewrite Z.mod_small by lia. lia. Qed.
Lemma u64_s64 x : u64 (s64 x) = u64 x.
Proof.
  unfold u64, s64. rewrite Zminus_mod_idemp_l. f_equal. lia.
Qed.
Lemma s64_u64 x : s64 (u64 x) = s64 x.
Proof. unfold s64, u64. by rewrite Zplus_mod_idemp_l. Qed.

#[export] Hint Resolve u32_range u64_range s64_range : refinery.
#[export] Hint Rewrite u64_s64 s64_u64 : refinery.

(** A sampler keeps the hashes up to [max / rate], [max] the largest hash: how many that is, out
    of the [max + 1] there are. *)
Definition hashes_kept (max rate : Z) : Z := max / rate + 1.

Lemma hashes_kept_bounds max rate :
  0 ≤ max → 0 < rate → max + 1 ≤ rate * hashes_kept max rate < max + 1 + rate.
Proof.
  intros Hm Hr. unfold hashes_kept.
  pose proof (Z.div_mod max rate). pose proof (Z.mod_pos_bound max rate). lia.
Qed.

Lemma hashes_kept_mono max r1 r2 : 0 ≤ max → 0 < r1 ≤ r2 → hashes_kept max r2 ≤ hashes_kept max r1.
Proof.
  intros Hm Hr. unfold hashes_kept. assert (max / r2 ≤ max / r1); [|lia].
  by apply Z.div_le_compat_l.
Qed.

(** ** Strings

    A Go string is a byte string: [String.string], one [ascii] per byte. *)

(** strings.HasPrefix, with the arguments in Go's order. *)
Definition HasPrefix (s p : string) : bool := String.prefix p s.

(** The slice [s[n:]] for [n <= len(s)]. *)
Fixpoint str_drop (n : nat) (s : string) : string :=
  match n, s with
  | O, _ => s
  | S n, String _ s => str_drop n s
  | S _, EmptyString => EmptyString
  end.

(** The slice [s[:n]] for [n <= len(s)]. *)
Fixpoint str_take (n : nat) (s : string) : string :=
  match n, s with
  | S n, String c s => String c (str_take n s)
  | _, _ => EmptyString
  end.

(** strings.Contains. *)
Fixpoint str_contains (s sub : string) : bool :=
  HasPrefix s sub ||
  match s with EmptyString => false | String _ s' => str_contains s' sub end.

(** strings.IndexRune for a one-byte rune: the first position of [c], if any. *)
Fixpoint index_char (c : Ascii.ascii) (s : string) : option nat :=
  match s with
  | EmptyString => None
  | String d s' => if Ascii.eqb c d then Some O else S <$> index_char c s'
  end.

(** strings.HasSuffix. *)
Definition HasSuffix (s p : string) : bool :=
  (String.length p <=? String.length s)%nat &&
  String.eqb (str_drop (String.length s - String.length p) s) p.

Fixpoint str_forallb (f : Ascii.ascii → bool) (s : string) : bool :=
  match s with EmptyString => true | String c s' => f c && str_forallb f s' end.

Lemma HasPrefix_cons c s d p :
  HasPrefix (String c s) (String d p) = Ascii.eqb d c && HasPrefix s p.
Proof.
  unfold HasPrefix. simpl. destruct (Ascii.ascii_dec d c) as [->|N].
  - by rewrite Ascii.eqb_refl.
  - by apply Ascii.eqb_neq in N as ->.
Qed.

Lemma HasPrefix_spec s p : HasPrefix s p = true ↔ ∃ r, s = p +:+ r.
Proof.
  revert s. induction p as [|d p IH]; intros s.
  - split; [by exists s|by destruct s].
  - destruct s as [|c s]; [by split; [|intros (? & ?)]|].
    rewrite HasPrefix_cons, andb_true_iff, Ascii.eqb_eq, IH. simpl. split.
    + intros [-> [r ->]]. eauto.
    + intros [r [= -> ->]]. eauto.
Qed.

Lemma HasPrefix_app p r : HasPrefix (p +:+ r) p = true.
Proof. apply HasPrefix_spec. eauto. Qed.

Lemma str_drop_app p r : str_drop (String.length p) (p +:+ r) = r.
Proof. by induction p. Qed.

Lemma str_take_app p r : str_take (String.length p) (p +:+ r) = p.
Proof. induction p; simpl; [by destruct r|congruence]. Qed.

Lemma str_contains_spec s sub :
  str_contains s sub = true ↔ ∃ a b, s = a +:+ sub +:+ b.
Proof.
  induction s as [|c s IH].
  - change (str_contains "" sub) with (HasPrefix "" sub || false).
    rewrite orb_false_r, HasPrefix_spec. split.
    + intros [r E]. by exists "", r.
    + intros ([|] & b & E); [by exists b|done].
  - change (str_contains (String c s) sub) with (HasPrefix (String c s) sub || str_contains s sub).
    rewrite orb_true_iff, HasPrefix_spec, IH. split.
    + intros [[r E]|(a & b & ->)]; [by exists "", r|by exists (String c a), b].
    + intros ([|c' a] & b & E); simpl in E; [left; by exists b|right].
      injection E as -> ->. by exists a, b.
Qed.

Lemma index_char_app c p r :
  str_forallb (λ d, negb (Ascii.eqb c d)) p = true →
  index_char c (p +:+ String c r) = Some (String.length p).
Proof.
  induction p as [|d p IH]; simpl.
  - by rewrite Ascii.eqb_refl.
  - intros [->%negb_true_iff ?]%andb_prop. by rewrite IH.
Qed.

(** [s1 <= s2] in Go's bytewise string order, decidable and total. *)
Definition str_le (s1 s2 : string) : Prop := String.leb s1 s2 = true.
#[export] Instance str_le_dec : RelDecision str_le.
Proof. intros s1 s2. unfold str_le. apply _. Defined.

Lemma String_compare_trans_le s1 s2 s3 :
  String.leb s1 s2 = true → String.leb s2 s3 = true → String.leb s1 s3 = true.
Proof.
  unfold String.leb. revert s2 s3.
  induction s1 as [|c1 s1 IH]; intros [|c2 s2] [|c3 s3]; simpl; try done.
  unfold Ascii.compare.
  destruct (N.compare_spec (Ascii.N_of_ascii c1) (Ascii.N_of_ascii c2)) as [E1|E1|E1];
  destruct (N.compare_spec (Ascii.N_of_ascii c2) (Ascii.N_of_ascii c3)) as [E2|E2|E2];
  destruct (N.compare_spec (Ascii.N_of_ascii c1) (Ascii.N_of_ascii c3)) as [E3|E3|E3];
    try done; try (exfalso; lia). apply IH.
Qed.

#[export] Instance str_le_trans : Transitive str_le.
Proof. intros s1 s2 s3. apply String_compare_trans_le. Qed.
#[export] Instance str_le_total : Total str_le.
Proof.
  intros s1 s2. unfold str_le, String.leb. rewrite (String.compare_antisym s2 s1).
  destruct (String.compare s1 s2); simpl; auto.
Qed.
#[export] Instance str_le_antisym : AntiSymm eq str_le.
Proof.
  intros s1 s2. unfold str_le, String.leb. rewrite (String.compare_antisym s2 s1).
  destruct (String.compare s1 s2) eqn:E; simpl; try done.
  intros _ _. by apply String.compare_eq_iff.
Qed.

(** sort.Strings: for a total order the sorted permutation is unique, so any correct
    sort computes this list. *)
Definition sort_strings (l : list string) : list string := merge_sort str_le l.

Lemma sort_strings_perm l : sort_strings l ≡ₚ l.
Proof. apply merge_sort_Permutation. Qed.
Lemma sort_strings_sorted l : StronglySorted str_le (sort_strings l).
Proof. apply StronglySorted_merge_sort; apply _. Qed.
Lemma sort_strings_unique l1 l2 : l1 ≡ₚ l2 → sort_strings l1 = sort_strings l2.
Proof.
  intros E. apply (StronglySorted_unique str_le); auto using sort_strings_sorted.
  by rewrite !sort_strings_perm.
Qed.

(** strings.Join. *)
Fixpoint str_join (sep : string) (l : list string) : string :=
  match l with
  | [] => ""
  | [x] => x
  | x :: l => x +:+ sep +:+ str_join sep l
  end.

Lemma str_app_cons c (s t : string) : String c s +:+ t = String c (s +:+ t).
Proof. done. Qed.
Lemma str_app_nil_r (s : string) : s +:+ "" = s.
Proof. induction s as [|a s IH]; [done|]. rewrite !str_app_cons. by rewrite IH. Qed.
Lemma str_app_assoc (a b c : string) : (a +:+ b) +:+ c = a +:+ b +:+ c.
Proof. induction a as [|x a IH]; [done|]. rewrite !str_app_cons. by rewrite IH. Qed.

Lemma str_length_app (a b : string) : String.length (a +:+ b) = (String.length a + String.length b)%nat.
Proof. induction a as [|x a IH]; [done|]. rewrite str_app_cons. simpl. by rewrite IH. Qed.

Lemma str_app_inj_l (p a b : string) : p +:+ a = p +:+ b → a = b.
Proof. induction p as [|c p IH]; [done|]. rewrite !str_app_cons. intros [= E]. by apply IH. Qed.
Lemma str_app_inj_r (a b r : string) : a +:+ r = b +:+ r → a = b.
Proof.
  revert b. induction a as [|c a IH]; intros b E.
  - apply (f_equal String.length) in E as El. rewrite !str_length_app in El. destruct b; simpl in El; [done|lia].
  - destruct b as [|d b].
    + apply (f_equal String.length) in E. rewrite !str_length_app in E. simpl in E. lia.
    + rewrite !str_app_cons in E. injection E as -> E. by rewrite (IH b).
Qed.

(** All the strings of a list, one after the other. *)
Definition str_concat (l : list string) : string := foldr String.append "" l.

Lemma str_concat_app l1 l2 : str_concat (l1 ++ l2) = str_concat l1 +:+ str_concat l2.
Proof. induction l1 as [|x l1 IH]; [done|]. simpl. by rewrite IH, str_app_assoc. Qed.

(** ** Decimal integers: strconv.FormatInt(_, 10) and strconv.Atoi *)

Definition format_int (z : Z) : string := NilZero.string_of_int (Z.to_int z).

(** An optional sign, at least one digit, in the range of a 64-bit [int]. *)
Definition parse_decimal (s : string) : option Z :=
  match s with
  | String "+"%char s' => Z.of_uint <$> NilZero.uint_of_string s'
  | _ => Z.of_int <$> NilZero.int_of_string s
  end.

Definition Atoi (s : string) : option Z :=
  match parse_decimal s with
  | Some z => if (- 2 ^ 63 <=? z) && (z <? 2 ^ 63) then Some z else None
  | None => None
  end.

Lemma string_of_uint_not_plus d r : NilZero.string_of_uint d ≠ String "+"%char r.
Proof. by destruct d. Qed.

Lemma parse_format_int z : parse_decimal (format_int z) = Some z.
Proof.
  unfold parse_decimal, format_int.
  assert (Z.to_int z ≠ Decimal.Pos Decimal.Nil ∧ Z.to_int z ≠ Decimal.Neg Decimal.Nil) as [H1 H2].
  { destruct z as [|p|p]; simpl; split; try done; intros [= E];
      by apply (DecimalPos.Unsigned.to_uint_nonnil p). }
  pose proof (NilZero.isi _ H1 H2) as E.
  transitivity (Z.of_int <$> Some (Z.to_int z)); [|simpl; by rewrite DecimalZ.of_to].
  rewrite <-E.
  destruct (NilZero.string_of_int (Z.to_int z)) as [|c s] eqn:Es; [done|].
  destruct (Ascii.ascii_dec c "+"%char) as [->|Hc].
  - exfalso. unfold NilZero.string_of_int in Es.
    destruct (Z.to_int z) as [d|d]; [by apply string_of_uint_not_plus in Es|done].
  - by destruct c as [[] [] [] [] [] [] [] []].
Qed.

Lemma Atoi_format_int z : in_s64 z → Atoi (format_int z) = Some z.
Proof.
  intros Hz. unfold Atoi. rewrite parse_format_int. unfold in_s64 in Hz.
  destruct (Z.leb_spec (- 2 ^ 63) z), (Z.ltb_spec z (2 ^ 63)); simpl; (done || lia).
Qed.

(** ** Lists *)

Lemma elem_of_concat {A} (x : A) (ls : list (list A)) : x ∈ concat ls ↔ ∃ l, x ∈ l ∧ l ∈ ls.
Proof.
  rewrite list_elem_of_In, in_concat. split; intros (l & H1 & H2); exists l; rewrite ?list_elem_of_In in *; tauto.
Qed.

Lemma filter_all {A} (P : A → Prop) `{!∀ x, Decision (P x)} l : Forall P l → filter P l = l.
Proof. induction 1 as [|x l Hx _ IH]; [done|]. rewrite filter_cons, decide_True by done. by rewrite IH. Qed.

Lemma NoDup_fmap_eq {A B} (f : A → B) (l : list A) x y :
  NoDup (f <$> l) → x ∈ l → y ∈ l → f x = f y → x = y.
Proof.
  induction l as [|z l IH]; intros Hnd Hx Hy E; [by apply elem_of_nil in Hx|].
  rewrite fmap_cons, NoDup_cons in Hnd. destruct Hnd as [Hni Hnd].
  apply elem_of_cons in Hx as [->|Hx], Hy as [->|Hy]; [done|..|by apply IH].
  - destruct Hni. rewrite E. by apply list_elem_of_fmap_2.
  - destruct Hni. rewrite <-E. by apply list_elem_of_fmap_2.
Qed.

(** ** Maps *)

(** A map's entries passing a test are the entries of the filtered map. *)
Lemma map_to_list_filter_perm `{Countable K} {A} (P : K * A → Prop) `{!∀ x, Decision (P x)}
    (m : gmap K A) :
  map_to_list (filter P m) ≡ₚ filter P (map_to_list m).
Proof.
  apply NoDup_Permutation.
  - apply NoDup_map_to_list.
  - apply NoDup_filter, NoDup_map_to_list.
  - intros [k x]. rewrite elem_of_map_to_list, list_elem_of_filter, elem_of_map_to_list.
    rewrite map_lookup_filter_Some. tauto.
Qed.
