(* ===== verification/Net.v ===== *)
(** package net's addresses, as the configuration, the peers and the debug service use them: a host
    and a port joined, and taken apart. *)
From Stdlib Require Import Ascii.
From S2P Require Import Prelude.

Definition colon : ascii := ":".
Definition lbracket : ascii := "[".
Definition rbracket : ascii := "]".
Definition has_char (c : ascii) (s : string) : bool := match index_char c s with Some _ => true | None => false end.

(** The last position of a byte. *)
Fixpoint last_index (c : ascii) (s : string) : option nat :=
  match s with
  | EmptyString => None
  | String d s =>
      match last_index c s with Some i => Some (S i) | None => if Ascii.eqb c d then Some O else None end
  end.

Definition missingPort := "missing port in address".
Definition tooManyColons := "too many colons in address".
Definition addrErr {A} (addr why : string) : res A := Err ("address " +:+ addr +:+ ": " +:+ why).

(** The brackets that may not be in the rest of an address, from two positions on. *)
Definition no_brackets (hostport : string) (j k : nat) (host port : string) : res (string * string) :=
  if has_char lbracket (str_drop j hostport) then addrErr hostport "unexpected '[' in address"
  else if has_char rbracket (str_drop k hostport) then addrErr hostport "unexpected ']' in address"
  else Ok (host, port).

Definition SplitHostPort (hostport : string) : res (string * string) :=
  match last_index colon hostport with
  | None => addrErr hostport missingPort
  | Some i =>
      let port := str_drop (S i) hostport in
      match hostport with
      | String "["%char rest =>
          match index_char rbracket hostport with
          | None => addrErr hostport "missing ']' in address"
          | Some close =>
              if (S close =? String.length hostport)%nat then addrErr hostport missingPort
              else if (S close =? i)%nat then no_brackets hostport 1 (S close) (str_take (close - 1) rest) port
              else if String.eqb (str_take 1 (str_drop (S close) hostport)) ":" then addrErr hostport tooManyColons
              else addrErr hostport missingPort
          end
      | _ =>
          let host := str_take i hostport in
          if has_char colon host then addrErr hostport tooManyColons else no_brackets hostport 0 0 host port
      end
  end.

Definition JoinHostPort (host port : string) : string :=
  if has_char colon host then "[" +:+ host +:+ "]:" +:+ port else host +:+ ":" +:+ port.

(** ** There and back *)

Lemma has_char_cons c d s : has_char c (String d s) = Ascii.eqb c d || has_char c s.
Proof. unfold has_char. cbn. destruct (Ascii.eqb c d); [done|]. by destruct (index_char c s). Qed.
Lemma has_char_app c s t : has_char c (s +:+ t) = has_char c s || has_char c t.
Proof.
  induction s as [|d s IH]; [done|]. change (String d s +:+ t) with (String d (s +:+ t)). by rewrite !has_char_cons, IH, orb_assoc.
Qed.

Lemma last_index_none c s : has_char c s = false → last_index c s = None.
Proof.
  induction s as [|d s IH]; [done|]. rewrite has_char_cons, orb_false_iff. intros [Hd Hs]. cbn. by rewrite IH, Hd.
Qed.

Lemma last_index_cons c d s :
  last_index c (String d s) = match last_index c s with Some i => Some (S i) | None => if Ascii.eqb c d then Some O else None end.
Proof. done. Qed.
Lemma last_index_app c s t : has_char c t = false → last_index c (s +:+ String c t) = Some (String.length s).
Proof.
  intros Ht. induction s as [|d s IH].
  - change ("" +:+ String c t) with (String c t). by rewrite last_index_cons, last_index_none, Ascii.eqb_refl.
  - change (String d s +:+ String c t) with (String d (s +:+ String c t)). by rewrite last_index_cons, IH.
Qed.

Lemma index_char_cons c d s : index_char c (String d s) = if Ascii.eqb c d then Some O else S <$> index_char c s.
Proof. done. Qed.
Lemma index_char_after c s t : has_char c s = false → index_char c (s +:+ String c t) = Some (String.length s).
Proof.
  induction s as [|d s IH].
  - change ("" +:+ String c t) with (String c t). by rewrite index_char_cons, Ascii.eqb_refl.
  - rewrite has_char_cons, orb_false_iff. intros [Hd Hs]. change (String d s +:+ String c t) with (String d (s +:+ String c t)).
    by rewrite index_char_cons, Hd, IH.
Qed.

Lemma str_drop_past s t n : str_drop (String.length s + n) (s +:+ t) = str_drop n t.
Proof. induction s as [|c s IH]; [done|]. exact IH. Qed.
Lemma str_drop_after s t n k : n = (String.length s + k)%nat → str_drop n (s +:+ t) = str_drop k t.
Proof. intros ->. apply str_drop_past. Qed.

Lemma split_plain host port :
  has_char colon host = false → has_char lbracket host = false → has_char rbracket host = false →
  has_char colon port = false → has_char lbracket port = false → has_char rbracket port = false →
  SplitHostPort (host +:+ String colon port) = Ok (host, port).
Proof.
  intros Hc Hl Hr Hpc Hpl Hpr. unfold SplitHostPort. rewrite last_index_app by done.
  replace (S (String.length host)) with (String.length host + 1)%nat by lia. rewrite str_drop_past, str_take_app. cbn [str_drop].
  assert (Hb : no_brackets (host +:+ String colon port) 0 0 host port = Ok (host, port)).
  { unfold no_brackets. cbn [str_drop]. rewrite !has_char_app, Hl, Hr. change (String colon port) with ((String colon "") +:+ port).
    by rewrite !has_char_app, Hpl, Hpr. }
  rewrite Hc, Hb. destruct host as [|c host]; [done|]. cbn [String.append]. destruct (Ascii.eqb_spec c "[") as [->|Hne]; [done|].
  by destruct c as [[] [] [] [] [] [] [] []].
Qed.

Lemma split_bracketed host port :
  has_char lbracket host = false → has_char rbracket host = false →
  has_char colon port = false → has_char lbracket port = false → has_char rbracket port = false →
  SplitHostPort ("[" +:+ host +:+ "]:" +:+ port) = Ok (host, port).
Proof.
  intros Hl Hr Hpc Hpl Hpr. set (rest := host +:+ String rbracket (String colon port)). change ("[" +:+ host +:+ "]:" +:+ port) with (String lbracket rest).
  assert (El : last_index colon (String lbracket rest) = Some (S (S (String.length host)))).
  { cbn [last_index]. unfold rest. change (String rbracket (String colon port)) with ("]" +:+ String colon port).
    rewrite <-str_app_assoc, last_index_app, str_length_app by done. cbn. do 2 f_equal. lia. }
  assert (Er : index_char rbracket (String lbracket rest) = Some (S (String.length host))).
  { cbn [index_char]. unfold rest. by rewrite index_char_after. }
  assert (Ed : str_drop (S (S (S (String.length host)))) (String lbracket rest) = port).
  { change (str_drop (S (S (String.length host))) rest = port). unfold rest. by rewrite (str_drop_after _ _ _ 2) by lia. }
  assert (Elen : (S (S (String.length host)) =? String.length (String lbracket rest))%nat = false).
  { apply Nat.eqb_neq. cbn. unfold rest. rewrite str_length_app. cbn. lia. }
  unfold SplitHostPort. rewrite El, Er, Ed, Elen, Nat.eqb_refl. cbn [lbracket].
  replace (S (String.length host) - 1)%nat with (String.length host) by lia. unfold rest at 2. rewrite str_take_app.
  unfold no_brackets. change (str_drop 1 (String lbracket rest)) with rest.
  change (str_drop (S (S (String.length host))) (String lbracket rest)) with (str_drop (S (String.length host)) rest).
  unfold rest. rewrite has_char_app, !has_char_cons, Hl, Hpl. cbn [orb].
  rewrite (str_drop_after _ _ _ 1) by lia. cbn [str_drop]. by rewrite has_char_cons, Hpr.
Qed.

(** An address that is joined is taken apart into what it was made of. *)
Lemma join_split host port :
  has_char lbracket host = false → has_char rbracket host = false →
  has_char colon port = false → has_char lbracket port = false → has_char rbracket port = false →
  SplitHostPort (JoinHostPort host port) = Ok (host, port).
Proof.
  intros Hl Hr Hpc Hpl Hpr. unfold JoinHostPort. destruct (has_char colon host) eqn:Hc; [by apply split_bracketed|].
  by apply split_plain.
Qed.

(** A port that comes out of an address has no colon, and neither has the host unless it was in brackets. *)
Lemma last_index_drop c s i : last_index c s = Some i → has_char c (str_drop (S i) s) = false.
Proof.
  revert i. induction s as [|d s IH]; intros i; [done|]. cbn [last_index]. destruct (last_index c s) as [j|] eqn:E.
  - intros [= <-]. cbn [str_drop]. by apply IH.
  - destruct (Ascii.eqb c d); [|done]. intros [= <-]. cbn [str_drop]. clear IH. induction s as [|e s IH]; [done|].
    cbn [last_index] in E. rewrite has_char_cons. destruct (last_index c s); [done|]. destruct (Ascii.eqb c e); [done|]. by apply IH.
Qed.

Lemma split_port hostport host port : SplitHostPort hostport = Ok (host, port) → has_char colon port = false.
Proof.
  unfold SplitHostPort. destruct (last_index colon hostport) as [i|] eqn:E; [|done]. apply last_index_drop in E.
  intros Hs. assert (Hp : port = str_drop (S i) hostport); [|by rewrite Hp].
  unfold no_brackets, addrErr in Hs. repeat case_match; congruence.
Qed.
