(* ===== verification/GoValue.v ===== *)
(** Dynamic values: what a Go [any] can hold in a span's fields or a rule's [Value], the
    64-bit floats, and the standard library's conversions between them.  A float is a
    [spec_float] of the Standard Library (binary64: 53 bits, exponent 1024); its decimal
    rendering and parsing, and what [int(f)] gives out of range (the language leaves it to
    the implementation), are the operations of the class [GoFloat]. *)
From Stdlib Require Import SpecFloat.
From S2P Require Import Prelude.

(** ** binary64 *)

Abbreviation float64 := spec_float.

Definition f64_of_Z (z : Z) : float64 := binary_normalize 53 1024 z 0 false.
Definition f64_ltb (a b : float64) : bool := SFltb a b.
Definition f64_leb (a b : float64) : bool := SFleb a b.
Definition f64_eqb (a b : float64) : bool := SFeqb a b.
Definition f64_div (a b : float64) : float64 := SFdiv 53 1024 a b.
Definition f64_mul (a b : float64) : float64 := SFmul 53 1024 a b.
Definition f64_add (a b : float64) : float64 := SFadd 53 1024 a b.
Definition f64_sub (a b : float64) : float64 := SFsub 53 1024 a b.
Definition f64_sqrt (a : float64) : float64 := SFsqrt 53 1024 a.

(** The integer part of a finite float, rounding towards zero. *)
Definition f64_trunc (f : float64) : option Z :=
  match f with
  | S754_zero _ => Some 0
  | S754_finite s m e =>
      let a := Z.shiftl (Zpos m) e in Some (if s then - a else a)
  | _ => None
  end.

Class GoFloat := {
  fmt_float_v : float64 → string;         (** fmt's [%v] *)
  fmt_float_f : float64 → string;         (** strconv.AppendFloat(_, 'f', -1, 64) *)
  parse_float : string → option float64;  (** strconv.ParseFloat(_, 64) *)
  f64_int_oob : float64 → Z;              (** [int(f)] when the result is out of range *)
  f64_uint_oob : float64 → Z;             (** [uint(f)] when the result is out of range *)
}.

Definition f64_to_int `{GoFloat} (f : float64) : Z :=
  match f64_trunc f with
  | Some z => if (- 2 ^ 63 <=? z) && (z <? 2 ^ 63) then z else f64_int_oob f
  | None => f64_int_oob f
  end.

Definition f64_to_uint `{GoFloat} (f : float64) : Z :=
  match f64_trunc f with
  | Some z => if (0 <=? z) && (z <? 2 ^ 64) then z else f64_uint_oob f
  | None => f64_uint_oob f
  end.

(** ** Values of type [any]

    One constructor per dynamic type the sources' type switches name; [VOther] is a value
    of any other type, by its [%v] rendering. *)
Inductive value : Type :=
| VNil
| VInt (z : Z)
| VInt64 (z : Z)
| VFloat64 (f : float64)
| VBool (b : bool)
| VString (s : string)
| VBytes (s : string)
| VList (l : list value)
| VMap (m : list (string * value))
| VOther (shown : string).

Definition format_bool (b : bool) : string := if b then "true" else "false".

(** The order in which fmt prints a map's entries: by key. *)
Definition entry_le {A} (a b : string * A) : Prop := str_le a.1 b.1.
#[export] Instance entry_le_dec {A} : RelDecision (@entry_le A).
Proof. intros a b. unfold entry_le. apply _. Defined.

Section Fmt.
Context `{GoFloat}.

(** fmt.Sprintf("%v", v): a slice in brackets, a map's entries in the order of its keys. *)
Fixpoint fmt_v (v : value) : string :=
  match v with
  | VNil => "<nil>"
  | VInt z | VInt64 z => format_int z
  | VFloat64 f => fmt_float_v f
  | VBool b => format_bool b
  | VString s => s
  | VBytes s =>
      "[" +:+ str_join " " ((λ c, format_int (Z.of_N (Ascii.N_of_ascii c))) <$> String.list_ascii_of_string s) +:+ "]"
  | VList l => "[" +:+ str_join " " (map fmt_v l) +:+ "]"
  | VMap m =>
      let entries := map (λ kv, (kv.1, fmt_v kv.2)) m in
      "map[" +:+ str_join " "
        (map (λ kv, kv.1 +:+ ":" +:+ kv.2)
           (merge_sort entry_le entries)) +:+ "]"
  | VOther shown => shown
  end.
End Fmt.

(** strconv.ParseBool. *)
Definition parse_bool (s : string) : option bool :=
  if bool_decide (s ∈ ["1"; "t"; "T"; "TRUE"; "true"; "True"]) then Some true
  else if bool_decide (s ∈ ["0"; "f"; "F"; "FALSE"; "false"; "False"]) then Some false
  else None.

(** ** Facts about float comparison *)

(** A float is less than, equal to or greater than another, or one of them is a NaN. *)
Definition is_nan (f : float64) : bool := match f with S754_nan => true | _ => false end.

Lemma f64_compare_some a b :
  is_nan a = false → is_nan b = false → SFcompare a b ≠ None.
Proof. destruct a as [[]|[]| |[] m e], b as [[]|[]| |[] m' e']; simpl; done. Qed.

(** ** A concrete instance, for evaluating examples: integers only, printed in decimal *)

Definition example_float : GoFloat := {|
  fmt_float_v := λ f, match f64_trunc f with Some z => format_int z | None => "NaN" end;
  fmt_float_f := λ f, match f64_trunc f with Some z => format_int z | None => "NaN" end;
  parse_float := λ s, f64_of_Z <$> Atoi s;
  f64_int_oob := λ _, - 2 ^ 63;
  f64_uint_oob := λ _, 2 ^ 63;
|}.
