(* ===== verification/Binary64.v ===== *)
(** Whole numbers in binary64: below 2^53 they are represented exactly, and sums and differences of
    them are exact. *)
From Stdlib Require Import SpecFloat.
From S2P Require Import Prelude GoValue.

Abbreviation digits p := (Zpos (digits2_pos p)).

(** ** Shifts *)

Definition shl (p : positive) (k : nat) : positive := Nat.iter k xO p.

Lemma shl_value p k : Zpos (shl p k) = Zpos p * 2 ^ Z.of_nat k.
Proof.
  induction k as [|k IH]; [cbn; lia|]. change (shl p (S k)) with (xO (shl p k)). rewrite Pos2Z.inj_xO, IH, Nat2Z.inj_succ, Z.pow_succ_r by lia. lia.
Qed.
Lemma shl_shl p i j : shl (shl p i) j = shl p (j + i).
Proof. unfold shl. by rewrite Nat.iter_add. Qed.
Lemma digits_shl p k : digits (shl p k) = digits p + Z.of_nat k.
Proof.
  induction k as [|k IH]; [cbn; lia|]. change (shl p (S k)) with (xO (shl p k)). cbn [digits2_pos]. rewrite Pos2Z.inj_succ, IH. lia.
Qed.

Lemma digits_bounds p : 2 ^ (digits p - 1) ≤ Zpos p < 2 ^ digits p.
Proof.
  induction p as [p IH|p IH|]; [..|cbn; lia]; cbn [digits2_pos]; rewrite Pos2Z.inj_succ;
    replace (2 ^ (Z.succ (digits p) - 1)) with (2 * 2 ^ (digits p - 1)) by (rewrite <-Z.pow_succ_r by lia; f_equal; lia);
    rewrite Z.pow_succ_r by lia; lia.
Qed.
Lemma digits_le p n : 0 ≤ n → Zpos p < 2 ^ n → digits p ≤ n.
Proof.
  intros Hn Hp. destruct (Z.le_gt_cases (digits p) n) as [|Hlt]; [done|]. pose proof (digits_bounds p) as [Hlo _].
  assert (2 ^ n ≤ 2 ^ (digits p - 1)) by (apply Z.pow_le_mono_r; lia). lia.
Qed.

Lemma iter_xO p d : Pos.iter xO p d = shl p (Pos.to_nat d).
Proof. rewrite Pos2Nat.inj_iter. unfold shl. induction (Pos.to_nat d) as [|n IH]; [done|]. cbn. by rewrite IH. Qed.

Lemma iter_pos_nat {A} (f : A → A) n x : SpecFloat.iter_pos f n x = Nat.iter (Pos.to_nat n) f x.
Proof.
  revert x. induction n as [n IH|n IH|]; intros x; cbn [SpecFloat.iter_pos].
  - rewrite !IH, Pos2Nat.inj_xI. cbn [Nat.iter]. rewrite <-Nat.iter_succ_r, <-!Nat.iter_add. f_equal. lia.
  - rewrite !IH, Pos2Nat.inj_xO, <-Nat.iter_add. f_equal. lia.
  - done.
Qed.

Lemma shr_shl p k : Nat.iter k shr_1 (Build_shr_record (Zpos (shl p k)) false false) = Build_shr_record (Zpos p) false false.
Proof. induction k as [|k IH]; [done|]. rewrite Nat.iter_succ_r. exact IH. Qed.

Lemma shift_by p e e' : shl_align p e e' = if e' <? e then (shl p (Z.to_nat (e - e')), e') else (p, e).
Proof.
  unfold shl_align. destruct (Z.ltb_spec e' e) as [Hlt|Hge]; destruct (e' - e) as [|d|d] eqn:E; try lia; [|done..].
  rewrite iter_xO. do 2 f_equal. lia.
Qed.

(** ** The representation of a whole number *)

(** The mantissa has all its 53 bits. *)
Definition exact (p : positive) : float64 := S754_finite false (shl p (Z.to_nat (53 - digits p))) (digits p - 53).

Lemma fexp_small d : 1 ≤ d ≤ 53 → fexp 53 1024 d = d - 53.
Proof. intros Hd. unfold fexp, emin. lia. Qed.

Lemma full_mantissa p : digits p ≤ 53 →
  binary_round_aux 53 1024 false (Zpos (shl p (Z.to_nat (53 - digits p)))) (digits p - 53) loc_Exact = exact p.
Proof.
  intros Hd. unfold binary_round_aux, shr_fexp. cbn [Zdigits2 shr_record_of_loc].
  rewrite digits_shl, Z2Nat.id by lia. replace (digits p + (53 - digits p) + (digits p - 53)) with (digits p) by lia.
  rewrite fexp_small, Z.sub_diag by lia. cbn [shr loc_of_shr_record round_nearest_even shr_m Zdigits2].
  rewrite digits_shl, Z2Nat.id by lia. replace (digits p + (53 - digits p) + (digits p - 53)) with (digits p) by lia.
  rewrite fexp_small, Z.sub_diag by lia. cbn [shr shr_m]. destruct (Z.leb_spec (digits p - 53) (1024 - 53)); [done|lia].
Qed.

Lemma long_mantissa p n : digits p ≤ 53 → (0 < n)%nat →
  binary_round_aux 53 1024 false (Zpos (shl p (Z.to_nat (53 - digits p) + n))) (digits p - 53 - Z.of_nat n) loc_Exact = exact p.
Proof.
  intros Hd Hn. rewrite <-(full_mantissa p Hd). unfold binary_round_aux at 1, shr_fexp at 1. cbn [Zdigits2 shr_record_of_loc].
  rewrite digits_shl, Nat2Z.inj_add, Z2Nat.id by lia.
  replace (digits p + (53 - digits p + Z.of_nat n) + (digits p - 53 - Z.of_nat n)) with (digits p) by lia.
  rewrite fexp_small by lia. replace (digits p - 53 - (digits p - 53 - Z.of_nat n)) with (Zpos (Pos.of_nat n)) by lia.
  cbn [shr]. rewrite iter_pos_nat, Nat2Pos.id, Nat.add_comm, <-shl_shl, shr_shl by lia.
  cbn [loc_of_shr_record round_nearest_even shr_m]. replace (digits p - 53 - Z.of_nat n + Zpos (Pos.of_nat n)) with (digits p - 53) by lia.
  unfold binary_round_aux. unfold shr_fexp at 2. cbn [Zdigits2 shr_record_of_loc]. rewrite digits_shl, Z2Nat.id by lia.
  replace (digits p + (53 - digits p) + (digits p - 53)) with (digits p) by lia. rewrite fexp_small, Z.sub_diag by lia. done.
Qed.

(** Rounding p·2^k·2^-k gives p. *)
Lemma round_exact p k : digits p ≤ 53 → binary_round 53 1024 false (shl p k) (- Z.of_nat k) = exact p.
Proof.
  intros Hd. unfold binary_round. rewrite digits_shl. replace (digits p + Z.of_nat k + - Z.of_nat k) with (digits p) by lia.
  rewrite fexp_small, shift_by by lia. destruct (Z.ltb_spec (digits p - 53) (- Z.of_nat k)) as [Hlt|Hge].
  - rewrite shl_shl. replace (Z.to_nat (- Z.of_nat k - (digits p - 53)) + k)%nat with (Z.to_nat (53 - digits p)) by lia. by apply full_mantissa.
  - destruct (decide (- Z.of_nat k = digits p - 53)) as [E|Hne].
    + replace k with (Z.to_nat (53 - digits p)) at 1 by lia. rewrite E. by apply full_mantissa.
    + pose (n := Z.to_nat (digits p - 53 + Z.of_nat k)).
      replace k with (Z.to_nat (53 - digits p) + n)%nat at 1 by (unfold n; lia).
      replace (- Z.of_nat k) with (digits p - 53 - Z.of_nat n) by (unfold n; lia). apply long_mantissa; [done|unfold n; lia].
Qed.

Lemma f64_of_pos p : digits p ≤ 53 → f64_of_Z (Zpos p) = exact p.
Proof. intros Hd. apply (round_exact p 0 Hd). Qed.

(** ** Sums and differences *)

Lemma align_exact p ez : ez ≤ digits p - 53 → digits p ≤ 53 →
  (shl_align (shl p (Z.to_nat (53 - digits p))) (digits p - 53) ez).1 = shl p (Z.to_nat (- ez)).
Proof.
  intros He Hd. rewrite shift_by. destruct (Z.ltb_spec ez (digits p - 53)) as [Hlt|Hge]; cbn [fst].
  - rewrite shl_shl. f_equal. lia.
  - f_equal. lia.
Qed.

Lemma normalize_exact p k : digits p ≤ 53 → binary_normalize 53 1024 (Zpos (shl p k)) (- Z.of_nat k) false = exact p.
Proof. apply round_exact. Qed.

Section Exact.
Context (a b : positive).
Hypothesis (Ha : digits a ≤ 53) (Hb : digits b ≤ 53).
Let ez := Z.min (digits a - 53) (digits b - 53).

Lemma add_exact : digits (a + b) ≤ 53 → f64_add (exact a) (exact b) = exact (a + b).
Proof.
  intros Hab. unfold f64_add, exact at 1 2. cbn [SFadd cond_Zopp]. rewrite !align_exact by lia.
  fold ez. replace (Zpos (shl a _) + Zpos (shl b _)) with (Zpos (shl (a + b) (Z.to_nat (- ez)))) by (rewrite !shl_value, Pos2Z.inj_add; ring).
  replace ez with (- Z.of_nat (Z.to_nat (- ez))) at 2 by (unfold ez; lia). by apply normalize_exact.
Qed.

Lemma sub_exact : (b < a)%positive → digits (a - b) ≤ 53 → f64_sub (exact a) (exact b) = exact (a - b).
Proof.
  intros Hlt Hab. unfold f64_sub, exact at 1 2. cbn [SFsub cond_Zopp]. rewrite !align_exact by lia.
  fold ez. replace (Zpos (shl a _) - Zpos (shl b _)) with (Zpos (shl (a - b) (Z.to_nat (- ez)))) by (rewrite !shl_value, Pos2Z.inj_sub by done; ring).
  replace ez with (- Z.of_nat (Z.to_nat (- ez))) at 2 by (unfold ez; lia). by apply normalize_exact.
Qed.
End Exact.

Lemma sub_same a : digits a ≤ 53 → f64_sub (exact a) (exact a) = S754_zero false.
Proof. intros Ha. unfold f64_sub, exact. cbn [SFsub cond_Zopp]. by rewrite Z.sub_diag. Qed.

(** ** Whole numbers below 2^53 *)

Lemma digits_53 p : Zpos p < 2 ^ 53 → digits p ≤ 53.
Proof. intros Hp. by apply digits_le. Qed.

Lemma f64_of_zero : f64_of_Z 0 = S754_zero false.
Proof. done. Qed.

Lemma f64_of_Z_pos p : Zpos p < 2 ^ 53 → f64_of_Z (Zpos p) = exact p.
Proof. intros Hp. by apply f64_of_pos, digits_53. Qed.

Lemma f64_add_whole a b : 0 ≤ a → 0 ≤ b → a + b < 2 ^ 53 → f64_add (f64_of_Z a) (f64_of_Z b) = f64_of_Z (a + b).
Proof.
  intros Ha Hb Hab. destruct a as [|a|a], b as [|b|b]; try lia.
  - done.
  - by rewrite Z.add_0_l, f64_of_Z_pos.
  - by rewrite Z.add_0_r, f64_of_Z_pos by lia.
  - rewrite !f64_of_Z_pos, add_exact by first [apply digits_53; lia|lia]. rewrite <-f64_of_Z_pos by done. done.
Qed.

Lemma f64_sub_whole a b : 0 ≤ b ≤ a → a < 2 ^ 53 → f64_sub (f64_of_Z a) (f64_of_Z b) = f64_of_Z (a - b).
Proof.
  intros [Hb Hab] Ha. destruct a as [|a|a], b as [|b|b]; try lia.
  - done.
  - by rewrite Z.sub_0_r, f64_of_Z_pos by lia.
  - destruct (decide (a = b)) as [->|Hne].
    + rewrite Z.sub_diag, f64_of_Z_pos by lia. apply sub_same. by apply digits_53.
    + assert (Hlt : (b < a)%positive) by lia. rewrite !f64_of_Z_pos, sub_exact by first [apply digits_53; lia|lia].
      rewrite <-Pos2Z.inj_sub by done. rewrite f64_of_Z_pos by lia. done.
Qed.

Lemma f64_trunc_whole a : 0 ≤ a < 2 ^ 53 → f64_trunc (f64_of_Z a) = Some a.
Proof.
  intros [Ha Hlt]. destruct a as [|p|p]; [done| |lia]. pose proof (digits_53 p Hlt) as Hd. rewrite f64_of_Z_pos by done. cbn [exact f64_trunc].
  f_equal. rewrite Z.shiftl_div_pow2 by lia. rewrite shl_value, Z2Nat.id by lia. replace (- (digits p - 53)) with (53 - digits p) by lia.
  apply Z.div_mul. apply Z.pow_nonzero; lia.
Qed.

Lemma f64_zero_whole a : 0 ≤ a < 2 ^ 53 → f64_eqb (f64_of_Z a) (f64_of_Z 0) = (a =? 0).
Proof. intros [Ha Hlt]. destruct a as [|p|p]; [done| |lia]. by rewrite f64_of_Z_pos. Qed.

Lemma f64_whole_range a : 0 ≤ a < 2 ^ 53 →
  f64_ltb (f64_of_Z (2 ^ 63 - 1)) (f64_of_Z a) = false ∧ f64_ltb (f64_of_Z a) (f64_of_Z 0) = false.
Proof.
  intros [Ha Hlt]. destruct a as [|p|p]; [done| |lia]. pose proof (digits_53 p Hlt) as Hd. rewrite f64_of_Z_pos by done. split; [|done].
  assert (E : f64_of_Z (2 ^ 63 - 1) = S754_finite false 4503599627370496 11) by by vm_compute.
  rewrite E. unfold f64_ltb, SFltb, exact. cbn [SFcompare]. assert (Hc : (11 ?= digits p - 53) = Gt) by (apply Z.compare_gt_iff; lia).
  by rewrite Hc.
Qed.
