(* ===== verification/Msgp.v ===== *)
(** The MessagePack library github.com/tinylib/msgp, as the sources use it: the functions that
    append an object to a buffer or take one off its front.  The class [Msgp] has the functions,
    [MsgpLaws] what their documentation promises: what is appended is read back, and a reader
    depends only on the bytes of the object it takes.  Bytes are a [string]; an [Append] function
    is given by the bytes it adds.  [ExampleMsgp] is a concrete codec, a part of the format: nil,
    booleans, 64-bit integers, strings and byte strings with 32-bit lengths, timestamps. *)
From Stdlib Require Import Ascii.
From S2P Require Import Prelude GoValue.

(** msgp.Type. *)
Inductive msgpType :=
| InvalidType | StrType | BinType | MapType | ArrayType | Float64Type | Float32Type | BoolType
| IntType | UintType | NilType | DurationType | ExtensionType | Complex64Type | Complex128Type
| TimeType | NumberType.
#[export] Instance msgpType_eq_dec : EqDecision msgpType.
Proof. solve_decision. Defined.

(** [be n z] is [z] modulo [256^n], in [n] bytes, big-endian. *)
Definition byte_of (z : Z) : ascii := ascii_of_N (Z.to_N (z mod 256)).
Definition of_byte (c : ascii) : Z := Z.of_N (N_of_ascii c).
Fixpoint be (n : nat) (z : Z) : string :=
  match n with
  | O => ""
  | S n => String (byte_of (z / 256 ^ Z.of_nat n)) (be n z)
  end.

Class Msgp := {
  AppendString : string → string;
  AppendBool : bool → string;
  AppendInt64 : Z → string;
  AppendTimeExt : Z → string;
  AppendIntf : value → res string;
  AppendArrayHeader : Z → string;
  AppendMapHeader : Z → string;
  AppendFloat64 : float64 → string;
  AppendNil : string;
  ReadMapHeaderBytes : string → res (Z * string);
  ReadArrayHeaderBytes : string → res (Z * string);
  ReadMapKeyZC : string → res (string * string);
  ReadStringBytes : string → res (string * string);
  ReadBoolBytes : string → res (bool * string);
  ReadInt64Bytes : string → res (Z * string);
  ReadTimeBytes : string → res (Z * string);
  ReadIntfBytes : string → res (value * string);
  ReadNilBytes : string → res string;
  Skip : string → res string;
  NextType : string → msgpType;
}.

(** [raw] is one object, which the reader [R] reads as [a] whatever follows it. *)
Definition reads {A} (R : string → res (A * string)) (raw : string) (a : A) : Prop :=
  ∀ rest, R (raw +:+ rest) = Ok (a, rest).
Definition skips `{Msgp} (raw : string) : Prop := ∀ rest, Skip (raw +:+ rest) = Ok rest.

(** A reader of values takes exactly one object off its input. *)
Definition reads_object `{Msgp} {A} (R : string → res (A * string)) : Prop :=
  ∀ d a rest, R d = Ok (a, rest) → ∃ raw, d = raw +:+ rest ∧ raw ≠ "" ∧ reads R raw a ∧ skips raw.

(** A string the format has a length for. *)
Definition fits (s : string) : Prop := Z.of_nat (String.length s) < 2 ^ 32.

(** The values that read back as they were written: a Go [int] is read as an [int64]. *)
Definition scalar (v : value) : Prop :=
  match v with
  | VNil | VBool _ | VFloat64 _ => True
  | VInt64 z => in_s64 z
  | VString s | VBytes s => fits s
  | _ => False
  end.

(** The marker of a map of up to 65535 entries. *)
Definition map16 : ascii := ascii_of_N 222.

(** The marker, with the length in it, of a map of up to 15 entries and of a string of up to 31
    bytes: what code that knows the length writes as constants. *)
Definition fixmap (n : Z) : string := String (byte_of (128 + n)) "".
Definition fixstr (s : string) : string := String (byte_of (160 + Z.of_nat (String.length s))) s.

(** msgp.IsNil. *)
Definition IsNil `{Msgp} (d : string) : bool := bool_decide (NextType d = NilType).

Class MsgpLaws `{!Msgp} := {
  read_key k : fits k → reads ReadMapKeyZC (AppendString k) k;
  read_string s : fits s → reads ReadStringBytes (AppendString s) s;
  read_bool b : reads ReadBoolBytes (AppendBool b) b;
  read_int64 z : in_s64 z → reads ReadInt64Bytes (AppendInt64 z) z;
  read_time t : in_s64 t → reads ReadTimeBytes (AppendTimeExt t) t;
  read_intf v b : scalar v → AppendIntf v = Ok b → reads ReadIntfBytes b v;
  intf_string s : AppendIntf (VString s) = Ok (AppendString s);
  intf_bool b : AppendIntf (VBool b) = Ok (AppendBool b);
  intf_nil : AppendIntf VNil = Ok AppendNil;
  intf_int64 z : AppendIntf (VInt64 z) = Ok (AppendInt64 z);
  read_array n : 0 ≤ n < 2 ^ 32 → reads ReadArrayHeaderBytes (AppendArrayHeader n) n;
  array_header_length n : (String.length (AppendArrayHeader n) ≤ 5)%nat;
  read_map16 n : 0 ≤ n < 65536 → reads ReadMapHeaderBytes (String map16 (be 2 n)) n;
  read_map n : 0 ≤ n < 2 ^ 32 → reads ReadMapHeaderBytes (AppendMapHeader n) n;
  read_fixmap n : 0 ≤ n < 16 → reads ReadMapHeaderBytes (fixmap n) n;
  read_fixkey s : Z.of_nat (String.length s) < 32 → reads ReadMapKeyZC (fixstr s) s;
  map_header_object d n rest : ReadMapHeaderBytes d = Ok (n, rest) →
    0 ≤ n ∧ ∃ raw, d = raw +:+ rest ∧ raw ≠ "" ∧ reads ReadMapHeaderBytes raw n;
  key_object d k rest : ReadMapKeyZC d = Ok (k, rest) →
    ∃ raw, d = raw +:+ rest ∧ raw ≠ "" ∧ reads ReadMapKeyZC raw k;
  string_object : reads_object ReadStringBytes;
  bool_object : reads_object ReadBoolBytes;
  int64_object : reads_object ReadInt64Bytes;
  time_object : reads_object ReadTimeBytes;
  intf_object : reads_object ReadIntfBytes;
  (** ReadIntfBytes decodes an object as the type its first bytes announce. *)
  intf_of_string raw s : NextType raw = StrType → reads ReadStringBytes raw s → reads ReadIntfBytes raw (VString s);
  intf_of_bool raw b : NextType raw = BoolType → reads ReadBoolBytes raw b → reads ReadIntfBytes raw (VBool b);
  intf_of_int raw z : NextType raw = IntType → reads ReadInt64Bytes raw z → reads ReadIntfBytes raw (VInt64 z);
  skip_object d rest : Skip d = Ok rest → ∃ raw, d = raw +:+ rest ∧ raw ≠ "" ∧ skips raw;
  type_object raw rest : raw ≠ "" → skips raw → NextType (raw +:+ rest) = NextType raw;
  type_time t : NextType (AppendTimeExt t) ≠ NilType;
  type_string s : NextType (AppendString s) = StrType;
  type_nil : NextType AppendNil = NilType;
  type_bool b : NextType (AppendBool b) = BoolType;
  type_int64 z : NextType (AppendInt64 z) ∈ [IntType; UintType];
  string_typed raw : skips raw → NextType raw = StrType → ∃ s, reads ReadStringBytes raw s;
  type_valid raw : skips raw → NextType raw ≠ InvalidType;
}.

Section Facts.
Context `{!Msgp, !MsgpLaws}.

(** An object read whatever follows it is taken off as one object. *)
Lemma reads_skips {A} (R : string → res (A * string)) raw a :
  reads_object R → reads R raw a → raw ≠ "" ∧ skips raw.
Proof.
  intros Hobj Hr. specialize (Hr ""). rewrite str_app_nil_r in Hr.
  destruct (Hobj _ _ _ Hr) as (raw' & E & Hne & _ & Hs). rewrite str_app_nil_r in E. by subst raw'.
Qed.

(** On one object and what follows it, a reader of values takes the object or fails. *)
Lemma reads_rest {A} (R : string → res (A * string)) raw rest a r :
  reads_object R → skips raw → R (raw +:+ rest) = Ok (a, r) → r = rest ∧ reads R raw a.
Proof.
  intros Hobj Hs E. destruct (Hobj _ _ _ E) as (raw' & Eq & _ & Hr & Hs').
  assert (Er : Ok rest = Ok r) by (rewrite <-(Hs rest), Eq; apply Hs'). injection Er as ->.
  split; [done|]. apply str_app_inj_r in Eq as ->. done.
Qed.

Lemma reads_det {A} (R : string → res (A * string)) raw a b : reads R raw a → reads R raw b → a = b.
Proof. intros Ha Hb. specialize (Ha ""). rewrite (Hb "") in Ha. by injection Ha. Qed.

Lemma intf_skips v b : scalar v → AppendIntf v = Ok b → b ≠ "" ∧ skips b.
Proof. intros Hv E. eapply reads_skips; [apply intf_object|by apply read_intf]. Qed.
End Facts.

(** ** Big-endian integers *)

Fixpoint unbe_acc (n : nat) (acc : Z) (d : string) : option (Z * string) :=
  match n, d with
  | O, _ => Some (acc, d)
  | S n, String c d => unbe_acc n (acc * 256 + of_byte c) d
  | S _, EmptyString => None
  end.
Definition unbe (n : nat) : string → option (Z * string) := unbe_acc n 0.

Lemma of_byte_range c : 0 ≤ of_byte c < 256.
Proof. unfold of_byte. pose proof (N_ascii_bounded c). lia. Qed.

Lemma of_byte_of z : of_byte (byte_of z) = z mod 256.
Proof.
  unfold of_byte, byte_of. pose proof (Z.mod_pos_bound z 256).
  rewrite N_ascii_embedding by lia. lia.
Qed.

Lemma unbe_acc_be n acc z rest :
  unbe_acc n acc (be n z +:+ rest) = Some (acc * 256 ^ Z.of_nat n + z mod 256 ^ Z.of_nat n, rest).
Proof.
  revert acc. induction n as [|n IH]; intros acc; cbn [be unbe_acc].
  { change (256 ^ Z.of_nat 0) with 1. rewrite Z.mod_1_r, Z.mul_1_r, Z.add_0_r. done. }
  rewrite str_app_cons. rewrite IH, of_byte_of. do 2 f_equal.
  rewrite Nat2Z.inj_succ, Z.pow_succ_r by lia. set (p := 256 ^ Z.of_nat n).
  assert (0 < p) by (apply Z.pow_pos_nonneg; lia).
  rewrite (Z.mul_comm 256 p), Z.rem_mul_r by lia. lia.
Qed.

Lemma unbe_be n z rest : unbe n (be n z +:+ rest) = Some (z mod 256 ^ Z.of_nat n, rest).
Proof. apply unbe_acc_be. Qed.

Lemma unbe_acc_object n acc d z rest :
  unbe_acc n acc d = Some (z, rest) →
  ∃ raw, d = raw +:+ rest ∧ String.length raw = n ∧ ∀ r, unbe_acc n acc (raw +:+ r) = Some (z, r).
Proof.
  revert acc d. induction n as [|n IH]; intros acc d; cbn [unbe_acc].
  { intros [= -> ->]. by exists "". }
  destruct d as [|c d]; [done|]. intros E. destruct (IH _ _ E) as (raw & -> & Hl & Hr).
  exists (String c raw). split_and!; [done|simpl; lia|exact Hr].
Qed.

Lemma unbe_acc_bounds n acc d z rest :
  0 ≤ acc → unbe_acc n acc d = Some (z, rest) → 0 ≤ z < (acc + 1) * 256 ^ Z.of_nat n.
Proof.
  revert acc d. induction n as [|n IH]; intros acc d Hacc; cbn [unbe_acc].
  { intros [= <- _]. change (256 ^ Z.of_nat 0) with 1. lia. }
  destruct d as [|c d]; [done|]. intros E. pose proof (of_byte_range c).
  apply IH in E; [|lia]. rewrite Nat2Z.inj_succ, Z.pow_succ_r by lia.
  assert (0 < 256 ^ Z.of_nat n) by (apply Z.pow_pos_nonneg; lia). nia.
Qed.

(** The first [n] bytes, if there are as many. *)
Fixpoint split_at (n : nat) (d : string) : option (string * string) :=
  match n, d with
  | O, _ => Some ("", d)
  | S n, String c d => (λ p, (String c p.1, p.2)) <$> split_at n d
  | S _, EmptyString => None
  end.

Lemma split_at_app s r : split_at (String.length s) (s +:+ r) = Some (s, r).
Proof. induction s as [|c s IH]; [done|]. rewrite str_app_cons. cbn. by rewrite IH. Qed.

Lemma split_at_object n d s rest : split_at n d = Some (s, rest) → d = s +:+ rest ∧ String.length s = n.
Proof.
  revert d s. induction n as [|n IH]; intros d s; cbn.
  { by intros [= <- <-]. }
  destruct d as [|c d]; [done|]. destruct (split_at n d) as [[s' r']|] eqn:E; [|done].
  intros [= <- <-]. apply IH in E as [-> <-]. done.
Qed.

(** ** A concrete codec *)

Module ExampleMsgp.

Inductive object := ONil | OBool (b : bool) | OInt (z : Z) | OStr (s : string) | OBin (s : string) | OTime (t : Z).

Definition marker (n : N) : ascii := ascii_of_N n.

(** nil, false, true, int64, str32, bin32, and a fixext8 for a timestamp. *)
Definition print (o : object) : string :=
  match o with
  | ONil => String (marker 192) ""
  | OBool false => String (marker 194) ""
  | OBool true => String (marker 195) ""
  | OInt z => String (marker 211) (be 8 z)
  | OStr s => String (marker 219) (be 4 (Z.of_nat (String.length s)) +:+ s)
  | OBin s => String (marker 198) (be 4 (Z.of_nat (String.length s)) +:+ s)
  | OTime t => String (marker 215) (be 8 t)
  end.

Definition sized (f : string → object) (d : string) : option (object * string) :=
  match unbe 4 d with
  | Some (n, d) => (λ p, (f p.1, p.2)) <$> split_at (Z.to_nat n) d
  | None => None
  end.
Definition integer (f : Z → object) (d : string) : option (object * string) :=
  (λ p, (f (s64 p.1), p.2)) <$> unbe 8 d.

Definition parse (d : string) : option (object * string) :=
  match d with
  | EmptyString => None
  | String c d =>
      match N_of_ascii c with
      | 192%N => Some (ONil, d)
      | 194%N => Some (OBool false, d)
      | 195%N => Some (OBool true, d)
      | 211%N => integer OInt d
      | 219%N => sized OStr d
      | 198%N => sized OBin d
      | 215%N => integer OTime d
      | _ => None
      end
  end.

Definition valid (o : object) : Prop :=
  match o with
  | ONil | OBool _ => True
  | OInt z | OTime z => in_s64 z
  | OStr s | OBin s => fits s
  end.

Lemma sized_print f s r : fits s → sized f (be 4 (Z.of_nat (String.length s)) +:+ s +:+ r) = Some (f s, r).
Proof.
  intros Hs. unfold fits in Hs. unfold sized. rewrite unbe_be.
  change (256 ^ Z.of_nat 4) with (2 ^ 32). rewrite Z.mod_small by lia. rewrite Nat2Z.id, split_at_app. done.
Qed.

Lemma integer_print f z r : in_s64 z → integer f (be 8 z +:+ r) = Some (f z, r).
Proof.
  intros Hz. unfold integer. rewrite unbe_be. change (256 ^ Z.of_nat 8) with (2 ^ 64). simpl.
  change (z mod 2 ^ 64) with (u64 z). by rewrite s64_u64, s64_id.
Qed.

Lemma parse_print o r : valid o → parse (print o +:+ r) = Some (o, r).
Proof.
  destruct o as [|[]|z|s|s|t]; intros Hv; try done.
  - apply (integer_print OInt). done.
  - change (sized OStr ((be 4 (Z.of_nat (String.length s)) +:+ s) +:+ r) = Some (OStr s, r)).
    rewrite str_app_assoc. by apply sized_print.
  - change (sized OBin ((be 4 (Z.of_nat (String.length s)) +:+ s) +:+ r) = Some (OBin s, r)).
    rewrite str_app_assoc. by apply sized_print.
  - apply (integer_print OTime). done.
Qed.

(** A parser whose result is determined by the bytes it takes. *)
Definition framed (p : string → option (object * string)) : Prop :=
  ∀ d o rest, p d = Some (o, rest) → ∃ raw, d = raw +:+ rest ∧ ∀ r, p (raw +:+ r) = Some (o, r).

Lemma sized_framed f : framed (sized f).
Proof.
  intros d o rest. unfold sized, unbe. destruct (unbe_acc 4 0 d) as [[n d']|] eqn:E; [|done].
  destruct (split_at (Z.to_nat n) d') as [[s r']|] eqn:E2; [|done]. intros [= <- <-].
  apply unbe_acc_object in E as (raw & -> & _ & Hr). apply split_at_object in E2 as [-> Hl].
  exists (raw +:+ s). split; [by rewrite str_app_assoc|]. intros r. rewrite str_app_assoc, Hr, <-Hl, split_at_app. done.
Qed.

Lemma integer_framed f : framed (integer f).
Proof.
  intros d o rest. unfold integer, unbe. destruct (unbe_acc 8 0 d) as [[n d']|] eqn:E; [|done].
  intros [= <- <-]. apply unbe_acc_object in E as (raw & -> & _ & Hr). exists raw. split; [done|].
  intros r. by rewrite Hr.
Qed.

Lemma ret_framed o : framed (λ d, Some (o, d)).
Proof. intros d o' rest [= <- <-]. by exists "". Qed.

Lemma none_framed : framed (λ _, None).
Proof. by intros d o rest. Qed.

Lemma parse_framed d o rest :
  parse d = Some (o, rest) → ∃ raw, d = raw +:+ rest ∧ raw ≠ "" ∧ ∀ r, parse (raw +:+ r) = Some (o, r).
Proof.
  destruct d as [|c d]; [done|]. intros E.
  enough (∃ p, framed p ∧ ∀ d, parse (String c d) = p d) as (p & Hp & Ep).
  { rewrite Ep in E. destruct (Hp _ _ _ E) as (raw & -> & Hr). exists (String c raw).
    split_and!; [done..|]. intros r. rewrite str_app_cons, Ep. apply Hr. }
  unfold parse. destruct c as [[] [] [] [] [] [] [] []]; simpl;
    first [exists (λ _, None); split; [apply none_framed|reflexivity]
          |exists (λ d, Some (ONil, d)); split; [apply ret_framed|reflexivity]
          |exists (λ d, Some (OBool true, d)); split; [apply ret_framed|reflexivity]
          |exists (λ d, Some (OBool false, d)); split; [apply ret_framed|reflexivity]
          |exists (sized OStr); split; [apply sized_framed|reflexivity]
          |exists (sized OBin); split; [apply sized_framed|reflexivity]
          |exists (integer OInt); split; [apply integer_framed|reflexivity]
          |exists (integer OTime); split; [apply integer_framed|reflexivity]].
Qed.

Definition get {A} (f : object → option A) (d : string) : res (A * string) :=
  match parse d with
  | Some (o, rest) => match f o with Some a => Ok (a, rest) | None => Err "wrong type" end
  | None => Err "short"
  end.
Definition as_string (o : object) := match o with OStr s => Some s | _ => None end.
Definition as_value (o : object) : option value :=
  match o with
  | ONil => Some VNil | OBool b => Some (VBool b) | OInt z => Some (VInt64 z)
  | OStr s => Some (VString s) | OBin s => Some (VBytes s) | OTime _ => None
  end.
Definition object_of (v : value) : option object :=
  match v with
  | VNil => Some ONil | VBool b => Some (OBool b) | VInt z | VInt64 z => Some (OInt z)
  | VString s => Some (OStr s) | VBytes s => Some (OBin s) | _ => None
  end.
Definition header (m : ascii) (n : nat) (d : string) : res (Z * string) :=
  match d with
  | String c d =>
      if Ascii.eqb c m then match unbe n d with Some p => Ok p | None => Err "short" end else Err "wrong type"
  | EmptyString => Err "short"
  end.
(** A map's header, and a map's key, in their two forms each. *)
Definition map_header (d : string) : res (Z * string) :=
  match d with
  | String c d' =>
      if (128 <=? of_byte c) && (of_byte c <? 144) then Ok (of_byte c - 128, d')
      else if Ascii.eqb c (marker 223) then header (marker 223) 4 d else header map16 2 d
  | EmptyString => Err "short"
  end.
Definition map_key (d : string) : res (string * string) :=
  match d with
  | String c d' =>
      if (160 <=? of_byte c) && (of_byte c <? 192)
      then match split_at (Z.to_nat (of_byte c - 160)) d' with Some p => Ok p | None => Err "short" end
      else get as_string d
  | EmptyString => Err "short"
  end.
Definition type_of (d : string) : msgpType :=
  match d with
  | EmptyString => InvalidType
  | String c _ =>
      match N_of_ascii c with
      | 192%N => NilType | 194%N | 195%N => BoolType | 211%N => IntType | 219%N => StrType
      | 198%N => BinType | 215%N => TimeType | _ => InvalidType
      end
  end.

#[export] Instance codec : Msgp := {|
  AppendString s := print (OStr s);
  AppendBool b := print (OBool b);
  AppendInt64 z := print (OInt z);
  AppendTimeExt t := print (OTime t);
  AppendIntf v := match object_of v with Some o => Ok (print o) | None => Err "unsupported" end;
  AppendArrayHeader n := String (marker 221) (be 4 n);
  AppendMapHeader n := String (marker 223) (be 4 n);
  AppendFloat64 _ := "";
  AppendNil := print ONil;
  ReadMapHeaderBytes := map_header;
  ReadArrayHeaderBytes := header (marker 221) 4;
  ReadMapKeyZC := map_key;
  ReadStringBytes := get as_string;
  ReadBoolBytes := get (λ o, match o with OBool b => Some b | _ => None end);
  ReadInt64Bytes := get (λ o, match o with OInt z => Some z | _ => None end);
  ReadTimeBytes := get (λ o, match o with OTime t => Some t | _ => None end);
  ReadIntfBytes := get as_value;
  ReadNilBytes d := match parse d with Some (ONil, rest) => Ok rest | _ => Err "wrong type" end;
  Skip d := match parse d with Some (_, rest) => Ok rest | None => Err "short" end;
  NextType := type_of;
|}.

Lemma get_print {A} (f : object → option A) o a : valid o → f o = Some a → reads (get f) (print o) a.
Proof. intros Hv Hf rest. unfold get. by rewrite parse_print, Hf. Qed.

Lemma get_object {A} (f : object → option A) : reads_object (get f).
Proof.
  intros d a rest. unfold get. destruct (parse d) as [[o r]|] eqn:E; [|done].
  destruct (f o) as [a'|] eqn:Ef; [|done]. intros [= -> ->].
  apply parse_framed in E as (raw & -> & Hne & Hr). exists raw. split_and!; [done..| |].
  - intros r. by rewrite Hr, Ef.
  - intros r. cbn. by rewrite Hr.
Qed.

Lemma header_be m n z : 0 ≤ z < 256 ^ Z.of_nat n → reads (header m n) (String m (be n z)) z.
Proof.
  intros Hz rest. rewrite str_app_cons. unfold header. rewrite Ascii.eqb_refl, unbe_be.
  by rewrite Z.mod_small.
Qed.

Lemma header_object m n d z rest :
  header m n d = Ok (z, rest) → 0 ≤ z ∧ ∃ raw, d = raw +:+ rest ∧ raw ≠ "" ∧ reads (header m n) raw z.
Proof.
  destruct d as [|c d]; [done|]. unfold header. destruct (Ascii.eqb c m) eqn:Ec; [|done].
  destruct (unbe n d) as [[z' r']|] eqn:E; [|done]. intros [= -> ->]. split.
  { apply unbe_acc_bounds in E; lia. }
  apply unbe_acc_object in E as (raw & -> & _ & Hr). exists (String c raw). split_and!; [done..|].
  intros r. unfold reads, header. rewrite str_app_cons, Ec. unfold unbe. by rewrite Hr.
Qed.

Lemma map_header_be n : 0 ≤ n < 65536 → reads map_header (String map16 (be 2 n)) n.
Proof. intros Hn. exact (header_be map16 2 n Hn). Qed.

Lemma map_header_be4 n : 0 ≤ n < 2 ^ 32 → reads map_header (String (marker 223) (be 4 n)) n.
Proof. intros Hn. exact (header_be (marker 223) 4 n Hn). Qed.

Lemma map_header_object d n rest :
  map_header d = Ok (n, rest) → 0 ≤ n ∧ ∃ raw, d = raw +:+ rest ∧ raw ≠ "" ∧ reads map_header raw n.
Proof.
  destruct d as [|c d]; [done|].
  assert (Hheader : ∀ m k, (∀ d, map_header (String c d) = header m k (String c d)) → map_header (String c d) = Ok (n, rest) →
    0 ≤ n ∧ ∃ raw, String c d = raw +:+ rest ∧ raw ≠ "" ∧ reads map_header raw n).
  { intros m k Hc. rewrite Hc. intros E. apply header_object in E as (Hn & raw & Eq & Hne & Hr). split; [done|].
    exists raw. split_and!; [done..|]. intros r. rewrite <-(Hr r). destruct raw as [|c' raw]; [done|].
    rewrite str_app_cons in Eq |- *. injection Eq as <- _. apply Hc. }
  destruct ((128 <=? of_byte c) && (of_byte c <? 144)) eqn:Ec.
  - unfold map_header at 1. rewrite Ec. intros [= <- ->]. split; [lia|]. exists (String c ""). split_and!; [done..|].
    intros r. rewrite str_app_cons. unfold map_header. by rewrite Ec.
  - destruct (Ascii.eqb c (marker 223)) eqn:E32; [apply (Hheader (marker 223) 4%nat)|apply (Hheader map16 2%nat)];
      intros d'; unfold map_header; by rewrite Ec, E32.
Qed.

Lemma map_header_fix n : 0 ≤ n < 16 → reads map_header (fixmap n) n.
Proof.
  intros Hn r. unfold fixmap. rewrite str_app_cons. unfold map_header.
  rewrite of_byte_of, Z.mod_small by lia. rewrite (proj2 (andb_true_iff _ _)) by lia.
  do 2 f_equal. lia.
Qed.

Lemma map_key_string s : fits s → reads map_key (print (OStr s)) s.
Proof. intros Hs r. exact (get_print as_string (OStr s) s Hs eq_refl r). Qed.

Lemma map_key_fix s : Z.of_nat (String.length s) < 32 → reads map_key (fixstr s) s.
Proof.
  intros Hs r. unfold fixstr. rewrite str_app_cons. unfold map_key.
  rewrite of_byte_of, Z.mod_small by lia. rewrite (proj2 (andb_true_iff _ _)) by lia.
  replace (Z.to_nat _) with (String.length s) by lia. by rewrite split_at_app.
Qed.

Lemma map_key_object d k rest :
  map_key d = Ok (k, rest) → ∃ raw, d = raw +:+ rest ∧ raw ≠ "" ∧ reads map_key raw k.
Proof.
  destruct d as [|c d]; [done|]. unfold map_key at 1.
  destruct ((160 <=? of_byte c) && (of_byte c <? 192)) eqn:Ec.
  - destruct (split_at _ d) as [[s r]|] eqn:E; [|done]. intros [= -> ->].
    apply split_at_object in E as [-> Hl]. exists (String c k). split_and!; [done..|].
    intros r. rewrite str_app_cons. unfold map_key. by rewrite Ec, <-Hl, split_at_app.
  - intros E. apply get_object in E as (raw & Eq & Hne & Hr & _). exists raw. split_and!; [done..|].
    intros r. rewrite <-(Hr r). destruct raw as [|c' raw]; [done|]. rewrite str_app_cons in Eq |- *. injection Eq as <- _.
    unfold map_key. by rewrite Ec.
Qed.

Lemma get_value {A} (f : object → option A) (g : A → value) raw a :
  (∀ o a, f o = Some a → as_value o = Some (g a)) → reads (get f) raw a → reads (get as_value) raw (g a).
Proof.
  intros Hfg Hr rest. specialize (Hr rest). unfold get in *. destruct (parse _) as [[o r]|]; [|done].
  destruct (f o) as [a'|] eqn:E; [|done]. injection Hr as -> ->. by rewrite (Hfg _ _ E).
Qed.

Lemma type_of_parse d o rest : parse d = Some (o, rest) → type_of d ≠ InvalidType.
Proof. destruct d as [|c d]; [done|]. by destruct c as [[] [] [] [] [] [] [] []]. Qed.

Lemma type_of_string d o rest : parse d = Some (o, rest) → type_of d = StrType → ∃ s, o = OStr s.
Proof.
  destruct d as [|c d]; [done|]. destruct c as [[] [] [] [] [] [] [] []]; try done.
  unfold parse, sized. simpl. destruct (unbe 4 d) as [[n d']|]; [|done].
  destruct (split_at _ _) as [[s r]|]; [|done]. intros [= <- _] _. eauto.
Qed.

Lemma be_length n z : String.length (be n z) = n.
Proof. induction n as [|n IH]; [done|]. simpl. by rewrite IH. Qed.

#[export] Instance codec_laws : MsgpLaws.
Proof.
  split; cbn [AppendString AppendBool AppendInt64 AppendTimeExt AppendIntf AppendArrayHeader AppendMapHeader AppendNil ReadMapHeaderBytes
    ReadArrayHeaderBytes ReadMapKeyZC ReadStringBytes ReadBoolBytes ReadInt64Bytes ReadTimeBytes ReadIntfBytes
    NextType codec]; eauto using get_print, get_object, header_object, map_header_be, map_header_be4, map_header_object,
    map_header_fix, map_key_string, map_key_fix, map_key_object.
  - by intros b; apply get_print.
  - intros v b Hv. destruct (object_of v) as [o|] eqn:E; [|done]. intros [= <-].
    apply get_print; by destruct v; simplify_eq/=.
  - intros n Hn. apply (header_be (marker 221) 4). exact Hn.
  - intros raw s _. apply (get_value _ VString). by intros [] ? [= ->].
  - intros raw b _. apply (get_value _ VBool). by intros [] ? [= ->].
  - intros raw z _. apply (get_value _ VInt64). by intros [] ? [= ->].
  - intros d rest. cbn [Skip codec]. destruct (parse d) as [[o r]|] eqn:E; [|done]. intros [= ->].
    apply parse_framed in E as (raw & -> & Hne & Hr). exists raw. split_and!; [done..|].
    intros r. cbn. by rewrite Hr.
  - intros [|c raw] rest Hne _; [done|]. by rewrite str_app_cons.
  - by intros [].
  - intros z. simpl. set_solver.
  - intros raw Hs Ht. specialize (Hs ""). rewrite str_app_nil_r in Hs. cbn in Hs.
    destruct (parse raw) as [[o r]|] eqn:E; [|done]. injection Hs as ->.
    assert (∃ s, o = OStr s) as [s ->] by (by eapply type_of_string).
    exists s. destruct (parse_framed _ _ _ E) as (raw' & -> & _ & Hr). rewrite str_app_nil_r.
    intros r. cbn. unfold get. by rewrite Hr.
  - intros raw Hs. specialize (Hs ""). rewrite str_app_nil_r in Hs. cbn in Hs.
    destruct (parse raw) as [[o r]|] eqn:E; [|done]. by eapply type_of_parse.
Qed.
End ExampleMsgp.
