(* ===== verification/Generics.v ===== *)
(** The collections of package generics: [Set] (generics/set.go), [SetWithTTL]
    (generics/setttl.go) and [MapWithTTL] (generics/mapttl.go).

    A Go map is a [gmap]; a method with a pointer receiver returns the new contents.  The
    clock is an argument [now] (nanoseconds) of the operations that read it, one reading per
    call.  [maps.Keys] and [range] visit a map in an unspecified order: [Members] and [Keys]
    are stated up to permutation, and their order is never relied upon. *)
From S2P Require Import Prelude.

(** ** Set *)

Module GSet.
Section set.
Context `{Countable T}.
Implicit Types (s b : gset T) (es : list T).

Definition Add s es : gset T := foldl (λ s e, {[e]} ∪ s) s es.
Definition NewSet es : gset T := Add ∅ es.
Definition NewSetWithCapacity (c : Z) : gset T := ∅.
Definition Remove s es : gset T := foldl (λ s e, s ∖ {[e]}) s es.
Definition Members s : list T := elements s.
Definition AddMembers s b : gset T := foldl (λ s v, {[v]} ∪ s) s (Members b).
Definition Contains s (e : T) : bool := bool_decide (e ∈ s).
Definition Intersect s b : gset T :=
  foldl (λ c v, if Contains b v then Add c [v] else c) (NewSet []) (Members s).
Definition Difference s b : gset T :=
  foldl (λ c v, if negb (Contains b v) then Add c [v] else c) (NewSet []) (Members s).
Definition Union s b : gset T := AddMembers (AddMembers ∅ s) b.

Lemma Add_spec s es : Add s es = s ∪ list_to_set es.
Proof.
  unfold Add. revert s. induction es as [|e es IH]; intros s; simpl; [set_solver|].
  rewrite IH. set_solver.
Qed.
Lemma AddMembers_spec s b : AddMembers s b = s ∪ b.
Proof.
  change (AddMembers s b) with (Add s (elements b)).
  rewrite Add_spec. by rewrite list_to_set_elements_L.
Qed.
Lemma Remove_spec s es : Remove s es = s ∖ list_to_set es.
Proof.
  unfold Remove. revert s. induction es as [|e es IH]; intros s; simpl; [set_solver|].
  rewrite IH. set_solver.
Qed.
Lemma Contains_spec s e : Contains s e = true ↔ e ∈ s.
Proof. apply bool_decide_eq_true. Qed.

(** A loop that adds the elements passing a test. *)
Lemma add_if_spec (f : T → bool) es c :
  foldl (λ c v, if f v then Add c [v] else c) c es
  = c ∪ list_to_set (filter (λ v, f v = true) es).
Proof.
  revert c. induction es as [|e es IH]; intros c; simpl; [set_solver|].
  rewrite IH. rewrite filter_cons. destruct (f e) eqn:E; simpl.
  - unfold Add. simpl. set_solver.
  - done.
Qed.

Lemma Intersect_spec s b : Intersect s b = s ∩ b.
Proof.
  unfold Intersect. rewrite (add_if_spec (Contains b)). unfold Members, NewSet, Add. simpl.
  apply set_eq. intros x. rewrite elem_of_union, elem_of_list_to_set, list_elem_of_filter.
  rewrite Contains_spec. set_solver.
Qed.
Lemma Difference_spec s b : Difference s b = s ∖ b.
Proof.
  unfold Difference. rewrite (add_if_spec (λ v, negb (Contains b v))).
  unfold Members, NewSet, Add. simpl.
  apply set_eq. intros x. rewrite elem_of_union, elem_of_list_to_set, list_elem_of_filter.
  rewrite negb_true_iff, <-not_true_iff_false, Contains_spec. set_solver.
Qed.
Lemma Union_spec s b : Union s b = s ∪ b.
Proof. unfold Union. rewrite !AddMembers_spec. set_solver. Qed.

#[export] Instance Intersect_proper : Proper ((≡) ==> (≡) ==> (≡)) Intersect.
Proof. intros s s' Hs b b' Hb. rewrite !Intersect_spec. set_solver. Qed.
End set.
End GSet.

#[export] Hint Rewrite @GSet.Add_spec @GSet.Remove_spec @GSet.AddMembers_spec
  @GSet.Intersect_spec @GSet.Difference_spec @GSet.Union_spec : refinery.

(** ** SetWithTTL *)

Module SetTTL.
Section setttl.
Context `{Countable T}.

Record t := mk { Items : gmap T Z; TTL : Z }.
Implicit Types (s : t) (e : T) (now : Z).

Definition Add now s (es : list T) : t :=
  mk (foldl (λ m e, <[e := now + TTL s]> m) (Items s) es) (TTL s).
Definition NewSetWithTTL now (ttl : Z) (es : list T) : t := Add now (mk ∅ ttl) es.
Definition Remove s (es : list T) : t :=
  mk (foldl (λ m e, delete e m) (Items s) es) (TTL s).
(** [item.After(now)]: strictly later. *)
Definition Contains now s e : bool :=
  match Items s !! e with Some item => now <? item | None => false end.
(** maps.DeleteFunc with [exp.Before(now)]: strictly earlier. *)
Definition cleanup now s : t * Z :=
  let items := filter (λ kv, ¬ (kv.2 < now)) (Items s) in
  (mk items (TTL s), Z.of_nat (size items)).
Definition Members (le : relation T) `{!RelDecision le} now s : t * list T :=
  let s' := (cleanup now s).1 in (s', merge_sort le (map_to_list (Items s')).*1).
Definition Length now s : t * Z := cleanup now s.

(** The elements whose expiry is still ahead: what the set promises to contain. *)
Definition live now s : gset T := dom (filter (λ kv, now < kv.2) (Items s)).

Lemma elem_of_live now s e : e ∈ live now s ↔ ∃ exp, Items s !! e = Some exp ∧ now < exp.
Proof.
  unfold live. rewrite elem_of_dom. unfold is_Some.
  setoid_rewrite map_lookup_filter_Some. naive_solver.
Qed.

Lemma Contains_live now s e : Contains now s e = true ↔ e ∈ live now s.
Proof.
  rewrite elem_of_live. unfold Contains. destruct (Items s !! e) as [exp|].
  - rewrite Z.ltb_lt. naive_solver.
  - naive_solver.
Qed.

Lemma insert_all_lookup (m : gmap T Z) es x e :
  foldl (λ m e, <[e := x]> m) m es !! e = if decide (e ∈ es) then Some x else m !! e.
Proof.
  revert m. induction es as [|e' es IH]; intros m; cbn [foldl].
  - by rewrite decide_False by set_solver.
  - rewrite IH. destruct (decide (e ∈ es)); [by rewrite decide_True by set_solver|].
    destruct (decide (e = e')) as [->|].
    + rewrite decide_True by set_solver. by rewrite lookup_insert_eq.
    + rewrite decide_False by set_solver. by rewrite lookup_insert_ne.
Qed.

Lemma delete_all_lookup (m : gmap T Z) es e :
  foldl (λ m e, delete e m) m es !! e = if decide (e ∈ es) then None else m !! e.
Proof.
  revert m. induction es as [|e' es IH]; intros m; cbn [foldl].
  - by rewrite decide_False by set_solver.
  - rewrite IH. destruct (decide (e ∈ es)); [by rewrite decide_True by set_solver|].
    destruct (decide (e = e')) as [->|].
    + rewrite decide_True by set_solver. by rewrite lookup_delete_eq.
    + rewrite decide_False by set_solver. by rewrite lookup_delete_ne.
Qed.

Lemma Contains_Add now t0 s es e :
  Contains now (Add t0 s es) e =
  if decide (e ∈ es) then now <? t0 + TTL s else Contains now s e.
Proof.
  unfold Contains, Add. simpl. rewrite insert_all_lookup. by case_decide.
Qed.

Lemma Contains_Remove now s es e :
  Contains now (Remove s es) e = if decide (e ∈ es) then false else Contains now s e.
Proof. unfold Contains, Remove. simpl. rewrite delete_all_lookup. by case_decide. Qed.

Lemma cleanup_lookup now s e :
  Items (cleanup now s).1 !! e =
  match Items s !! e with Some exp => if exp <? now then None else Some exp | None => None end.
Proof.
  unfold cleanup. simpl. rewrite map_lookup_filter.
  destruct (Items s !! e) as [exp|]; simpl; [|done].
  destruct (Z.ltb_spec exp now); case_guard; simpl; (done || lia).
Qed.

Lemma Contains_cleanup now t0 s e :
  t0 ≤ now → Contains now (cleanup t0 s).1 e = Contains now s e.
Proof.
  intros Ht. unfold Contains. rewrite cleanup_lookup.
  destruct (Items s !! e) as [exp|]; [|done].
  destruct (Z.ltb_spec exp t0); [|done]. symmetry. apply Z.ltb_ge. lia.
Qed.

Lemma elem_of_Members (le : relation T) `{!RelDecision le} now s e :
  e ∈ (Members le now s).2 ↔ ∃ exp, Items s !! e = Some exp ∧ now ≤ exp.
Proof.
  unfold Members. simpl. rewrite merge_sort_Permutation, list_elem_of_fmap.
  setoid_rewrite elem_of_map_to_list'. unfold cleanup. simpl.
  setoid_rewrite map_lookup_filter_Some. split.
  - intros ([k v] & -> & Hl & Hv). simpl in *. exists v. split; [done|lia].
  - intros (exp & Hl & Hv). exists (e, exp). simpl. split_and!; (done || lia).
Qed.
End setttl.
End SetTTL.

(** ** MapWithTTL *)

Module MapTTL.
Record itemWithTTL (V : Type) := mkItem { Value : V; Expiration : Z }.
Arguments mkItem {V} _ _.
Arguments Value {V} _.
Arguments Expiration {V} _.

Section mapttl.
Context `{Countable K} {V : Type}.

Record t := mk { Items : gmap K (itemWithTTL V); TTL : Z }.
Implicit Types (m : t) (k : K) (v : V) (now : Z).

Definition Set_ now m k v : t := mk (<[k := mkItem v (now + TTL m)]> (Items m)) (TTL m).
Definition NewMapWithTTL now (ttl : Z) (initialValues : gmap K V) : t :=
  foldl (λ m kv, Set_ now m kv.1 kv.2) (mk ∅ ttl) (map_to_list initialValues).
Definition Get now m k : option V :=
  match Items m !! k with
  | Some item => if Expiration item <? now then None else Some (Value item)
  | None => None
  end.
Definition Delete m k : t := mk (delete k (Items m)) (TTL m).

(** The loop counts the entries it does not delete. *)
Definition cleanup now m : t * Z :=
  foldl (λ '(m, count) kv,
           if Expiration kv.2 <? now then (Delete m kv.1, count) else (m, count + 1))
        (m, 0) (map_to_list (Items m)).
Definition Keys now m : t * list K :=
  let m := (cleanup now m).1 in (m, (map_to_list (Items m)).*1).
Definition SortedKeys (le : relation K) `{!RelDecision le} now m : t * list K :=
  let '(m, keys) := Keys now m in (m, merge_sort le keys).
Definition Values now m : t * list V :=
  let m := (cleanup now m).1 in (m, (λ kv, Value kv.2) <$> map_to_list (Items m)).
(** [m.Items[k].Value] of a missing key is the zero value. *)
Definition SortedValues (le : relation K) `{!RelDecision le} (zero : V) now m : t * list V :=
  let '(m, keys) := SortedKeys le now m in
  (m, (λ k, match Items m !! k with Some i => Value i | None => zero end) <$> keys).
Definition Length now m : t * Z := cleanup now m.

(** What the map promises: the entries that have not expired. *)
Definition live now m : gmap K V :=
  Value <$> filter (λ kv, ¬ (Expiration kv.2 < now)) (Items m).

Lemma Get_live now m k : Get now m k = live now m !! k.
Proof.
  unfold Get, live. rewrite lookup_fmap, map_lookup_filter.
  destruct (Items m !! k) as [i|]; simpl; [|done].
  destruct (Z.ltb_spec (Expiration i) now); case_guard; simpl; (done || lia).
Qed.

(** The loop of [cleanup] over any part [l] of the entries. *)
Lemma cleanup_loop now l m c :
  foldl (λ '(m, count) kv,
           if Expiration kv.2 <? now then (Delete m kv.1, count) else (m, count + 1))
        (m, c) l
  = (mk (foldl (λ its k, delete k its) (Items m)
           (filter (λ kv, Expiration kv.2 < now) l).*1) (TTL m),
     c + Z.of_nat (length (filter (λ kv : K * itemWithTTL V, ¬ (Expiration kv.2 < now)) l))).
Proof.
  revert m c. induction l as [|[k i] l IH]; intros m c; cbn [foldl].
  - rewrite Z.add_0_r. by destruct m.
  - rewrite !filter_cons. simpl. destruct (Z.ltb_spec (Expiration i) now).
    + rewrite IH. rewrite decide_True by done. by rewrite decide_False by lia.
    + rewrite IH. rewrite decide_False by lia. rewrite decide_True by lia.
      simpl. f_equal. lia.
Qed.

Lemma deletes_lookup (its : gmap K (itemWithTTL V)) ks k :
  foldl (λ its k, delete k its) its ks !! k = if decide (k ∈ ks) then None else its !! k.
Proof.
  revert its. induction ks as [|k' ks IH]; intros its; cbn [foldl].
  - by rewrite decide_False by set_solver.
  - rewrite IH. destruct (decide (k ∈ ks)); [by rewrite decide_True by set_solver|].
    destruct (decide (k = k')) as [->|].
    + rewrite decide_True by set_solver. by rewrite lookup_delete_eq.
    + rewrite decide_False by set_solver. by rewrite lookup_delete_ne.
Qed.

Lemma cleanup_items now m :
  Items (cleanup now m).1 = filter (λ kv, ¬ (Expiration kv.2 < now)) (Items m).
Proof.
  unfold cleanup. rewrite cleanup_loop. simpl. apply map_eq. intros k.
  rewrite deletes_lookup, map_lookup_filter.
  destruct (Items m !! k) as [i|] eqn:E; simpl.
  - destruct (decide (Expiration i < now)).
    + rewrite decide_True; [by case_guard|]. apply list_elem_of_fmap. exists (k, i).
      split; [done|]. apply list_elem_of_filter. split; [done|]. by apply elem_of_map_to_list.
    + rewrite decide_False; [by case_guard|]. intros Hin.
      apply list_elem_of_fmap in Hin as ([k' i'] & -> & Hin).
      apply list_elem_of_filter in Hin as [Hlt Hin].
      apply elem_of_map_to_list in Hin. simpl in *. congruence.
  - by case_decide.
Qed.

Lemma cleanup_live now m : live now (cleanup now m).1 = live now m.
Proof.
  unfold live. rewrite cleanup_items. f_equal. apply map_eq. intros k.
  rewrite !map_lookup_filter. destruct (Items m !! k); simpl; [|done].
  by repeat (case_guard; simpl).
Qed.

Lemma cleanup_count now m : (cleanup now m).2 = Z.of_nat (size (live now m)).
Proof.
  unfold cleanup. rewrite cleanup_loop. simpl. rewrite Z.add_0_l. f_equal.
  unfold live. rewrite map_size_fmap.
  rewrite <-length_map_to_list. apply Permutation_length.
  symmetry. apply map_to_list_filter_perm.
Qed.

Lemma Keys_live now m : (Keys now m).2 ≡ₚ (map_to_list (live now m)).*1.
Proof.
  unfold Keys. simpl. rewrite cleanup_items. unfold live.
  rewrite map_to_list_fmap, <-list_fmap_compose. apply Permutation_refl'.
  by apply list_fmap_ext.
Qed.

Lemma elem_of_Keys now m k : k ∈ (Keys now m).2 ↔ is_Some (Get now m k).
Proof.
  rewrite Keys_live, Get_live, list_elem_of_fmap. split.
  - intros ([k' v] & -> & Hin). exists v. by apply elem_of_map_to_list in Hin.
  - intros [v Hv]. exists (k, v). split; [done|]. by apply elem_of_map_to_list.
Qed.
End mapttl.
End MapTTL.

(** ** What the two TTL collections promise *)

Section ttl_properties.
Context `{Countable K} (le : relation K) `{!RelDecision le, !Total le, !Transitive le}.

(** [SetWithTTL] implements the set of its unexpired elements: at any later time [Add]
    puts its arguments in that set for exactly [TTL] nanoseconds (refreshing those already
    there), [Remove] takes them out, a clean-up changes nothing, and [Contains] decides
    membership. *)
Theorem setttl_refines_live (s : SetTTL.t) (t0 now : Z) (es : list K) :
  t0 ≤ now →
  SetTTL.live now (SetTTL.Add t0 s es) =
    (if decide (now < t0 + SetTTL.TTL s)
     then SetTTL.live now s ∪ list_to_set es else SetTTL.live now s ∖ list_to_set es) ∧
  SetTTL.live now (SetTTL.Remove s es) = SetTTL.live now s ∖ list_to_set es ∧
  SetTTL.live now (SetTTL.cleanup t0 s).1 = SetTTL.live now s ∧
  (∀ e, SetTTL.Contains now s e = true ↔ e ∈ SetTTL.live now s).
Proof.
  intros Ht. split_and!.
  - apply set_eq. intros e. rewrite <-SetTTL.Contains_live, SetTTL.Contains_Add.
    destruct (decide (e ∈ es)) as [He|He]; case_decide;
      rewrite ?elem_of_union, ?elem_of_difference, ?elem_of_list_to_set, <-?SetTTL.Contains_live.
    + rewrite Z.ltb_lt. naive_solver.
    + rewrite Z.ltb_lt. naive_solver.
    + naive_solver.
    + naive_solver.
  - apply set_eq. intros e. rewrite <-SetTTL.Contains_live, SetTTL.Contains_Remove.
    rewrite elem_of_difference, elem_of_list_to_set, <-SetTTL.Contains_live.
    case_decide; naive_solver.
  - apply set_eq. intros e. by rewrite <-!SetTTL.Contains_live, SetTTL.Contains_cleanup.
  - apply SetTTL.Contains_live.
Qed.

(** [SetWithTTL.Members] is sorted, without repetition, of the length [Length] reports, and
    lists exactly the elements [Contains] accepts together with those expiring at this very
    instant, which [Contains] already rejects. *)
Theorem setttl_members (s : SetTTL.t) (now : Z) :
  Sorted le (SetTTL.Members le now s).2 ∧
  NoDup (SetTTL.Members le now s).2 ∧
  Z.of_nat (length (SetTTL.Members le now s).2) = (SetTTL.Length now s).2 ∧
  ∀ e, e ∈ (SetTTL.Members le now s).2 ↔
       SetTTL.Contains now s e = true ∨ SetTTL.Items s !! e = Some now.
Proof.
  split_and!.
  - apply Sorted_merge_sort. done.
  - unfold SetTTL.Members. simpl. rewrite merge_sort_Permutation. apply NoDup_fst_map_to_list.
  - unfold SetTTL.Members. simpl. rewrite merge_sort_Permutation, length_fmap.
    by rewrite length_map_to_list.
  - intros e. rewrite SetTTL.elem_of_Members. unfold SetTTL.Contains.
    destruct (SetTTL.Items s !! e) as [exp|]; [rewrite Z.ltb_lt|naive_solver].
    split.
    + intros (x & [= <-] & Hx). destruct (decide (exp = now)) as [->|]; [by right|left; lia].
    + intros [Hlt|[= Heq]]; exists exp; split; (done || lia).
Qed.

(** [MapWithTTL]'s views agree with its lookups: [SortedKeys] lists, sorted and once each,
    exactly the keys [Get] finds, [SortedValues] is the list of the values [Get] returns for
    them in that order, and [Length] is their number. *)
Theorem mapttl_views {V} (zero : V) (m : MapTTL.t (K := K)) (now : Z) :
  let keys := (MapTTL.SortedKeys le now m).2 in
  Sorted le keys ∧ NoDup keys ∧
  (∀ k, k ∈ keys ↔ is_Some (MapTTL.Get now m k)) ∧
  Some <$> (MapTTL.SortedValues le zero now m).2 = MapTTL.Get now m <$> keys ∧
  (MapTTL.Length now m).2 = Z.of_nat (length keys).
Proof.
  cbn zeta. assert (Hp : (MapTTL.SortedKeys le now m).2 ≡ₚ (MapTTL.Keys now m).2).
  { unfold MapTTL.SortedKeys. destruct (MapTTL.Keys now m). apply merge_sort_Permutation. }
  split_and!.
  - unfold MapTTL.SortedKeys. destruct (MapTTL.Keys now m). by apply Sorted_merge_sort.
  - rewrite Hp, MapTTL.Keys_live. apply NoDup_fst_map_to_list.
  - intros k. by rewrite Hp, MapTTL.elem_of_Keys.
  - unfold MapTTL.SortedValues. destruct (MapTTL.SortedKeys le now m) as [m' keys] eqn:E.
    assert (m' = (MapTTL.cleanup now m).1) as ->.
    { unfold MapTTL.SortedKeys, MapTTL.Keys in E. by simplify_eq. }
    simpl in *. rewrite <-list_fmap_compose. apply list_fmap_ext. intros i k Hk. simpl.
    assert (is_Some (MapTTL.Get now m k)) as [v Hv].
    { rewrite <-MapTTL.elem_of_Keys, <-Hp. by eapply list_elem_of_lookup_2. }
    rewrite Hv. unfold MapTTL.Get in Hv. rewrite MapTTL.cleanup_items, map_lookup_filter.
    destruct (MapTTL.Items m !! k) as [it|]; [|done]. simpl.
    destruct (Z.ltb_spec (MapTTL.Expiration it) now); [done|].
    case_guard; simpl; [congruence|lia].
  - unfold MapTTL.Length. rewrite MapTTL.cleanup_count. f_equal.
    rewrite Hp, MapTTL.Keys_live, length_fmap. by rewrite length_map_to_list.
Qed.
End ttl_properties.

Definition ttl_example : SetTTL.t (T:=string) := SetTTL.NewSetWithTTL 100 3 ["b"; "a"].

Lemma setttl_refines_live_witness :
  101 ≤ 102 ∧
  SetTTL.live 102 (SetTTL.Remove ttl_example ["b"]) = SetTTL.live 102 ttl_example ∖ list_to_set ["b"] ∧
  SetTTL.Contains 102 ttl_example "a" = true ∧ SetTTL.Contains 103 ttl_example "a" = false.
Proof.
  assert (Ht : 101 ≤ 102) by lia.
  split; [exact Ht|split; [|by vm_compute]].
  exact (proj1 (proj2 (setttl_refines_live ttl_example 101 102 ["b"] Ht))).
Defined.
