(* ===== verification/Fanout.v ===== *)
(** generics/fanout.go: a pool of goroutines between two channels.

    One goroutine sends the tasks, [parallelism] workers receive a task, work, and send what passes
    the predicate, and one goroutine collects.  A step is what one of them, or the caller waiting for
    them, does next; a send waits for room in its channel, and a receive for a value or for the channel
    to be closed.  A worker's work on a task is a function of its number and the task, and what it
    has to send for it a list: one product in Fanout and FanoutToMap, the entries of a map in
    FanoutChunksToMap. *)
From S2P Require Import Prelude.

Inductive worker (O : Type) := Receiving | Sending (products : list O) | Done.
Arguments Receiving {O}. Arguments Sending {O}. Arguments Done {O}.

Section Fanout.
Context {T O R : Type}.
(** The products that pass the predicate, and how the collector adds one to its result. *)
Context (work : nat → T → list O) (add : R → O → R).

Record fanout := mkFanout {
  fo_input : list T;                (** not sent yet *)
  fo_closed : bool;                 (** the first channel *)
  fo_fanout : list T;
  fo_workers : list (worker O);
  fo_cleanups : list nat;           (** the calls of the workers' cleanup functions *)
  fo_fanin : list O;
  fo_fanin_closed : bool;
  fo_result : R;
  fo_collected : bool;              (** the collector has returned *)
  fo_returned : bool }.

Definition start (input : list T) (parallelism : nat) (empty : R) : fanout :=
  mkFanout input false [] (replicate parallelism Receiving) [] [] false empty false false.

Definition set_worker (s : fanout) (i : nat) (w : worker O) : fanout :=
  mkFanout (fo_input s) (fo_closed s) (fo_fanout s) (<[i := w]> (fo_workers s)) (fo_cleanups s) (fo_fanin s) (fo_fanin_closed s)
    (fo_result s) (fo_collected s) (fo_returned s).
Definition set_fanout (s : fanout) (input chan : list T) (closed : bool) : fanout :=
  mkFanout input closed chan (fo_workers s) (fo_cleanups s) (fo_fanin s) (fo_fanin_closed s) (fo_result s) (fo_collected s) (fo_returned s).
Definition set_fanin (s : fanout) (chan : list O) (closed : bool) (result : R) : fanout :=
  mkFanout (fo_input s) (fo_closed s) (fo_fanout s) (fo_workers s) (fo_cleanups s) chan closed result (fo_collected s) (fo_returned s).
Definition cleaned (s : fanout) (i : nat) : fanout :=
  mkFanout (fo_input s) (fo_closed s) (fo_fanout s) (fo_workers s) (fo_cleanups s ++ [i]) (fo_fanin s) (fo_fanin_closed s)
    (fo_result s) (fo_collected s) (fo_returned s).
Definition ended (s : fanout) (collected returned : bool) : fanout :=
  mkFanout (fo_input s) (fo_closed s) (fo_fanout s) (fo_workers s) (fo_cleanups s) (fo_fanin s) (fo_fanin_closed s)
    (fo_result s) collected returned.

(** Both channels have room for as many values as there are workers. *)
Definition parallelism (s : fanout) : nat := length (fo_workers s).
Definition all_done (s : fanout) : Prop := Forall (λ w, w = Done) (fo_workers s).

Inductive step : fanout → fanout → Prop :=
| send_task s x input :
    fo_input s = x :: input → (length (fo_fanout s) < parallelism s)%nat →
    step s (set_fanout s input (fo_fanout s ++ [x]) (fo_closed s))
| close_tasks s :
    fo_input s = [] → fo_closed s = false → step s (set_fanout s [] (fo_fanout s) true)
| receive_task s i x chan :
    fo_workers s !! i = Some Receiving → fo_fanout s = x :: chan →
    step s (set_worker (set_fanout s (fo_input s) chan (fo_closed s)) i (Sending (work i x)))
| send_product s i o products :
    fo_workers s !! i = Some (Sending (o :: products)) → (length (fo_fanin s) < parallelism s)%nat →
    step s (set_worker (set_fanin s (fo_fanin s ++ [o]) (fo_fanin_closed s) (fo_result s)) i (Sending products))
| next_task s i :
    fo_workers s !! i = Some (Sending []) → step s (set_worker s i Receiving)
| worker_ends s i :
    fo_workers s !! i = Some Receiving → fo_fanout s = [] → fo_closed s = true →
    step s (cleaned (set_worker s i Done) i)
| collect_product s o chan :
    fo_fanin s = o :: chan → fo_collected s = false →
    step s (set_fanin s chan (fo_fanin_closed s) (add (fo_result s) o))
| close_products s :
    all_done s → fo_fanin_closed s = false → step s (set_fanin s (fo_fanin s) true (fo_result s))
| collector_ends s :
    fo_fanin s = [] → fo_fanin_closed s = true → fo_collected s = false → step s (ended s true (fo_returned s))
| caller_returns s :
    fo_closed s = true → fo_fanin_closed s = true → fo_collected s = true → fo_returned s = false → step s (ended s true true).

(** So many steps. *)
Inductive steps : nat → fanout → fanout → Prop :=
| no_steps s : steps 0 s s
| more_steps n s1 s2 s3 : step s1 s2 → steps n s2 s3 → steps (S n) s1 s3.

Definition runs_from (input : list T) (p : nat) (empty : R) (s : fanout) : Prop := ∃ n, steps n (start input p empty) s.

(** ** What holds throughout *)

Definition pending (w : worker O) : list O := match w with Sending products => products | _ => [] end.
Definition pendings (ws : list (worker O)) : list O := concat (pending <$> ws).

(** Which worker worked on which task: the tasks are worked on, waiting or not sent; what the work
    gave is collected, waiting or being sent. *)
Definition accounted (input : list T) (p : nat) (empty : R) (s : fanout) (log : list (nat * T)) (outs : list O) : Prop :=
  log.*2 ++ fo_fanout s ++ fo_input s ≡ₚ input ∧ Forall (λ i, (i < p)%nat) log.*1 ∧
  outs ++ fo_fanin s ++ pendings (fo_workers s) ≡ₚ concat ((λ t, work t.1 t.2) <$> log) ∧
  fo_result s = foldl add empty outs.

Definition ordered (p : nat) (s : fanout) : Prop :=
  parallelism s = p ∧ (fo_closed s = true → fo_input s = []) ∧
  (∀ i, fo_workers s !! i = Some Done → fo_fanout s = [] ∧ fo_closed s = true) ∧
  (fo_fanin_closed s = true → all_done s) ∧ (fo_collected s = true → fo_fanin s = [] ∧ fo_fanin_closed s = true) ∧
  (fo_returned s = true → fo_closed s = true ∧ fo_collected s = true) ∧
  NoDup (fo_cleanups s) ∧ ∀ i, i ∈ fo_cleanups s ↔ fo_workers s !! i = Some Done.

Lemma pendings_insert ws i w w' :
  ws !! i = Some w → pendings (<[i := w']> ws) ++ pending w ≡ₚ pendings ws ++ pending w'.
Proof.
  intros Hi. rewrite <-(take_drop_middle ws i w Hi) at 2. rewrite insert_take_drop by by eapply lookup_lt_Some.
  unfold pendings. rewrite !fmap_app, !fmap_cons, !concat_app. cbn [concat]. solve_Permutation.
Qed.

Lemma accounted_start input p empty : accounted input p empty (start input p empty) [] [].
Proof.
  split_and!; [done|constructor| |done]. cbn. unfold pendings. by induction p.
Qed.

Lemma ordered_start input p empty : ordered p (start input p empty).
Proof.
  split_and!; try done; [by apply length_replicate|intros i Hi; by apply lookup_replicate in Hi as [? _]|constructor|].
  intros i. split; [by intros ?%elem_of_nil|]. intros Hi. by apply lookup_replicate in Hi as [? _].
Qed.

Lemma accounted_step input p empty s s' log outs :
  parallelism s = p → step s s' → accounted input p empty s log outs → ∃ log' outs', accounted input p empty s' log' outs'.
Proof.
  intros Hp Hs (Ht & Hi & Ho & Hr). destruct Hs as [s x inp E _|s E _|s i x chan Ew E|s i o os Ew _|s i Ew|s i Ew _ _|s o chan E _|s _ _|s _ _ _|s _ _ _ _];
    try (exists log, outs; split_and!; done).
  - exists log, outs. split_and!; [|done..]. cbn. rewrite <-Ht, E. solve_Permutation.
  - exists log, outs. split_and!; [|done..]. cbn. by rewrite <-Ht, E.
  - exists (log ++ [(i, x)]), outs. split_and!; cbn [set_worker set_fanout fo_fanout fo_input fo_fanin fo_workers fo_result].
    + rewrite fmap_app, <-Ht, E. cbn. solve_Permutation.
    + rewrite fmap_app. apply Forall_app. split; [done|]. constructor; [|done]. cbn. rewrite <-Hp. by eapply lookup_lt_Some.
    + rewrite fmap_app, concat_app. cbn [fmap list_fmap concat fst snd]. rewrite <-Ho, app_nil_r.
      pose proof (pendings_insert (fo_workers s) i Receiving (Sending (work i x)) Ew) as Hpi. cbn [pending] in Hpi. rewrite app_nil_r in Hpi.
      rewrite Hpi. by rewrite !app_assoc.
    + done.
  - exists log, outs. split_and!; [done..| |done]. cbn. rewrite <-Ho.
    pose proof (pendings_insert (fo_workers s) i _ (Sending os) Ew) as Hpi. cbn [pending] in Hpi.
    apply (Permutation_app_inv_r os). rewrite <-!app_assoc.
    assert (E1 : pendings (fo_workers s) ++ os ≡ₚ pendings (<[i:=Sending os]> (fo_workers s)) ++ o :: os) by done.
    rewrite E1. solve_Permutation.
  - exists log, outs. split_and!; [done..| |done]. cbn. rewrite <-Ho.
    pose proof (pendings_insert (fo_workers s) i _ Receiving Ew) as Hpi. cbn [pending] in Hpi. rewrite !app_nil_r in Hpi. by rewrite Hpi.
  - exists log, outs. split_and!; [done..| |done]. cbn. rewrite <-Ho.
    pose proof (pendings_insert (fo_workers s) i _ Done Ew) as Hpi. cbn [pending] in Hpi. rewrite !app_nil_r in Hpi. by rewrite Hpi.
  - exists log, (outs ++ [o]). split_and!; [done..| |].
    + cbn. rewrite <-Ho, E. by rewrite <-app_assoc.
    + cbn. by rewrite foldl_app, <-Hr.
Qed.

Lemma lookup_inserted (ws : list (worker O)) (i j : nat) w w' :
  ws !! i = Some w → <[i := w']> ws !! j = Some Done → (i = j ∧ w' = Done) ∨ (i ≠ j ∧ ws !! j = Some Done).
Proof.
  intros Hi Hj. destruct (decide (i = j)) as [<-|Hne]; [|rewrite list_lookup_insert_ne in Hj by done; by right].
  rewrite list_lookup_insert_eq in Hj by by eapply lookup_lt_Some. injection Hj as ->. by left.
Qed.

Lemma all_done_at s i w : all_done s → fo_workers s !! i = Some w → w = Done.
Proof. intros Hd Hi. unfold all_done in Hd. rewrite Forall_lookup in Hd. by eapply Hd. Qed.

(** A worker that is not done goes on to something else than Done. *)
Lemma ordered_worker p s i w w' :
  ordered p s → fo_workers s !! i = Some w → w ≠ Done → w' ≠ Done → ordered p (set_worker s i w').
Proof.
  intros (Hp & Hc & Hd & Hf & Hk & Hr & Hn & Hcl) Hi Hw Hw'. assert (Hno : ∀ j, <[i := w']> (fo_workers s) !! j = Some Done ↔ fo_workers s !! j = Some Done).
  { intros j. split; [intros Hj; by destruct (lookup_inserted _ _ _ _ _ Hi Hj) as [[_ ?]|[_ ?]]|].
    intros Hj. rewrite list_lookup_insert_ne; [done|]. intros <-. congruence. }
  split_and!; cbn; try done.
  - unfold parallelism in *. cbn. by rewrite length_insert.
  - intros j Hj. by apply (Hd j), Hno.
  - intros Hx. exfalso. apply Hw. by eapply all_done_at; [apply Hf|].
  - intros j. by rewrite Hcl, Hno.
Qed.

Lemma ordered_ends p s i :
  ordered p s → fo_workers s !! i = Some Receiving → fo_fanout s = [] → fo_closed s = true → ordered p (cleaned (set_worker s i Done) i).
Proof.
  intros (Hp & Hc & Hd & Hf & Hk & Hr & Hn & Hcl) Hi Ef Ec. split_and!; cbn; try done.
  - unfold parallelism in *. cbn. by rewrite length_insert.
  - intros Hx. pose proof (all_done_at _ _ _ (Hf Hx) Hi). done.
  - apply NoDup_app. split; [done|]. split; [|apply NoDup_singleton]. intros j Hj ->%list_elem_of_singleton. apply Hcl in Hj. congruence.
  - intros j. rewrite elem_of_app, list_elem_of_singleton, Hcl. split.
    + intros [Hj| ->]; [|by rewrite list_lookup_insert_eq by by eapply lookup_lt_Some].
      rewrite list_lookup_insert_ne; [done|]. intros <-. congruence.
    + intros Hj. destruct (lookup_inserted _ _ _ _ _ Hi Hj) as [[-> _]|[_ ?]]; [by right|by left].
Qed.

Lemma ordered_step p s s' : step s s' → ordered p s → ordered p s'.
Proof.
  intros Hs Ho. pose proof Ho as (Hp & Hc & Hd & Hf & Hk & Hr & Hn & Hcl).
  destruct Hs as [s x inp E _|s E Ec|s i x chan Ew E|s i o os Ew _|s i Ew|s i Ew E Ec|s o chan E Ec|s Hall Ec|s E Ec Ek|s Ec Ef Ek Er].
  - assert (Hnc : fo_closed s ≠ true) by (intros Hx; by rewrite Hc in E). split_and!; cbn; try done.
    intros i Hi. by apply Hd in Hi as [_ ?].
  - split_and!; cbn; try done; [intros i Hi; split; [by apply (Hd i)|done]|]. intros Hx. apply Hr in Hx as [Hx _]. congruence.
  - apply ordered_worker with (w := Receiving); [|done..]. split_and!; cbn; try done. intros j Hj. apply Hd in Hj as [Hj _]. congruence.
  - apply ordered_worker with (w := Sending (o :: os)); [|done..]. split_and!; cbn; try done. intros Hx. apply Hk in Hx as [_ Hx].
    by pose proof (all_done_at _ _ _ (Hf Hx) Ew).
  - by apply ordered_worker with (w := Sending []).
  - by apply ordered_ends.
  - split_and!; cbn; try done. intros Hx. congruence.
  - split_and!; cbn; try done. intros Hx. by apply Hk in Hx as [? _].
  - split_and!; cbn; try done. intros Hx. by apply Hr in Hx as [? _].
  - split_and!; cbn; try done. intros _. by apply Hk.
Qed.

(** ** It never stops before its end *)

Lemma some_worker (ws : list (worker O)) : Forall (λ w, w = Done) ws ∨ ∃ i w, ws !! i = Some w ∧ w ≠ Done.
Proof.
  induction ws as [|w ws [IH|(i & w' & Hi & Hw)]]; [by left|..]; [|right; by exists (S i), w'].
  destruct w; [right; exists 0%nat; by eexists..|left; by constructor].
Qed.

Lemma fanout_progress p s : (0 < p)%nat → ordered p s → fo_returned s = true ∨ ∃ s', step s s'.
Proof.
  intros Hpos (Hp & Hc & Hd & Hf & Hk & Hr & Hn & Hcl). destruct (fo_returned s) eqn:Er; [by left|right].
  destruct (fo_fanin s) as [|o chan] eqn:Ei.
  2: { eexists. apply (collect_product s o chan Ei). destruct (fo_collected s); [by destruct (Hk eq_refl)|done]. }
  destruct (some_worker (fo_workers s)) as [Hall|(i & w & Hi & Hw)].
  - destruct (fo_fanin_closed s) eqn:Ef; [|eexists; by apply close_products].
    destruct (fo_collected s) eqn:Ek; [|eexists; by apply collector_ends].
    assert (Hi : ∃ w, fo_workers s !! 0%nat = Some w) by (apply lookup_lt_is_Some_2; unfold parallelism in Hp; lia).
    destruct Hi as [w Hi]. assert (w = Done) as -> by by eapply all_done_at. destruct (Hd _ Hi) as [_ Ec].
    eexists. by apply caller_returns.
  - destruct w as [|[|o os]|]; [|eexists; by eapply next_task|eexists; eapply send_product; [done|rewrite Ei; cbn; lia]|done].
    destruct (fo_fanout s) as [|x chan] eqn:Ex; [|eexists; by eapply receive_task].
    destruct (fo_closed s) eqn:Ec; [eexists; by eapply worker_ends|].
    destruct (fo_input s) as [|x inp] eqn:Einp; [eexists; by apply close_tasks|].
    eexists. eapply send_task; [done|]. rewrite Ex. cbn. lia.
Qed.

(** ** So many steps are enough *)

Definition products (p : nat) (x : T) : nat := sum_list ((λ i, length (work i x)) <$> seq 0 p).
Definition cost (w : worker O) : nat := match w with Receiving => 1 | Sending os => 2 + 2 * length os | Done => 0 end.
Definition open (b : bool) : nat := if b then 0 else 1.
Definition steps_left (p : nat) (s : fanout) : nat :=
  sum_list ((λ x, 3 + 2 * products p x)%nat <$> fo_input s) + sum_list ((λ x, 2 + 2 * products p x)%nat <$> fo_fanout s) +
  sum_list (cost <$> fo_workers s) + length (fo_fanin s) +
  open (fo_closed s) + open (fo_fanin_closed s) + open (fo_collected s) + open (fo_returned s).

Lemma sum_list_app l1 l2 : sum_list (l1 ++ l2) = (sum_list l1 + sum_list l2)%nat.
Proof. induction l1 as [|x l1 IH]; [done|]. cbn. lia. Qed.

Lemma cost_insert ws i w w' :
  ws !! i = Some w → (sum_list (cost <$> <[i := w']> ws) + cost w = sum_list (cost <$> ws) + cost w')%nat.
Proof.
  intros Hi. rewrite <-(take_drop_middle ws i w Hi) at 2. rewrite insert_take_drop by by eapply lookup_lt_Some.
  rewrite !fmap_app, !fmap_cons, !sum_list_app. cbn [sum_list sum_list_with]. cbn. lia.
Qed.

Lemma work_products p i x : (i < p)%nat → (length (work i x) ≤ products p x)%nat.
Proof.
  intros Hi. unfold products. assert (Hin : i ∈ seq 0 p) by (apply elem_of_seq; lia). revert Hin. generalize (seq 0 p). intros l Hin.
  induction l as [|j l IH]; [by apply elem_of_nil in Hin|]. rewrite fmap_cons. cbn.
  apply elem_of_cons in Hin as [->|Hin]; [lia|]. apply IH in Hin. cbn in Hin. lia.
Qed.

Lemma step_left p s s' : step s s' → ordered p s → (steps_left p s' < steps_left p s)%nat.
Proof.
  intros Hs (Hp & Hc & Hd & Hf & Hk & Hr & Hn & Hcl).
  destruct Hs as [s x inp E _|s E Ec|s i x chan Ew E|s i o os Ew _|s i Ew|s i Ew E Ec|s o chan E Ec|s Hall Ec|s E Ec Ek|s Ec Ef Ek Er];
    unfold steps_left;
    cbn [fo_input fo_fanout fo_workers fo_fanin fo_closed fo_fanin_closed fo_collected fo_returned set_worker set_fanout set_fanin cleaned ended].
  - rewrite E, fmap_app, sum_list_app, fmap_cons. cbn [fmap list_fmap sum_list sum_list_with]. cbn. lia.
  - rewrite E, Ec. cbn. lia.
  - pose proof (cost_insert _ _ _ (Sending (work i x)) Ew) as Hi. cbn [cost] in Hi. rewrite E, fmap_cons. cbn [sum_list sum_list_with].
    assert (Hw : (length (work i x) ≤ products p x)%nat) by (apply work_products; rewrite <-Hp; by eapply lookup_lt_Some). cbn. lia.
  - pose proof (cost_insert _ _ _ (Sending os) Ew) as Hi. cbn [cost length] in Hi. rewrite length_app. cbn. lia.
  - pose proof (cost_insert _ _ _ Receiving Ew) as Hi. cbn [cost length] in Hi. lia.
  - pose proof (cost_insert _ _ _ Done Ew) as Hi. cbn [cost] in Hi. lia.
  - rewrite E. cbn. lia.
  - rewrite Ec. cbn. lia.
  - rewrite Ek. cbn. lia.
  - rewrite Ek, Er. cbn. lia.
Qed.

Lemma fanout_steps_inv input p empty n s1 s2 log outs :
  steps n s1 s2 → ordered p s1 → accounted input p empty s1 log outs →
  ordered p s2 ∧ (∃ log outs, accounted input p empty s2 log outs) ∧ (n + steps_left p s2 ≤ steps_left p s1)%nat.
Proof.
  intros Hs. revert log outs. induction Hs as [s|n s1 s2 s3 Hs _ IH]; intros log outs Ho Ha; [split_and!; [done|by exists log, outs|done]|].
  pose proof (step_left _ _ _ Hs Ho) as Hl. pose proof (proj1 Ho) as Hp.
  destruct (accounted_step _ _ _ _ _ _ _ Hp Hs Ha) as (log' & outs' & Ha').
  destruct (IH log' outs' (ordered_step _ _ _ Hs Ho) Ha') as (Ho3 & Ha3 & Hl3). split_and!; [done..|lia].
Qed.

Lemma pendings_done ws : Forall (λ w, w = Done) ws → pendings ws = [].
Proof. unfold pendings. induction 1 as [|w ws -> _ IH]; [done|exact IH]. Qed.

(** Every worker's end, and the collector's, come before the caller's return. *)
Lemma returned_outcome input p empty s log outs :
  (0 < p)%nat → fo_returned s = true → ordered p s → accounted input p empty s log outs →
  log.*2 ≡ₚ input ∧ Forall (λ i, (i < p)%nat) log.*1 ∧ outs ≡ₚ concat ((λ t, work t.1 t.2) <$> log) ∧
  fo_result s = foldl add empty outs ∧ fo_cleanups s ≡ₚ seq 0 p.
Proof.
  intros Hpos Hret (Hp & Hc & Hd & Hf & Hk & Hr & Hn & Hcl) (Ht & Hi & Ho & Hres). destruct (Hr Hret) as [Ec Ek].
  destruct (Hk Ek) as [Efi Efc]. pose proof (Hf Efc) as Hall.
  assert (Hdone : ∀ i, (i < p)%nat → fo_workers s !! i = Some Done).
  { intros i Hlt. assert (Hx : is_Some (fo_workers s !! i)) by (apply lookup_lt_is_Some_2; unfold parallelism in Hp; lia).
    destruct Hx as [w Hw]. by rewrite Hw, (all_done_at _ _ _ Hall Hw). }
  pose proof (pendings_done _ Hall) as Hpend.
  split_and!; [|done| |done|].
  - rewrite (Hc Ec), app_nil_r in Ht. destruct (Hd 0%nat) as [Ef _]; [apply Hdone; lia|]. by rewrite Ef, app_nil_r in Ht.
  - by rewrite Efi, Hpend, app_nil_r in Ho.
  - apply NoDup_Permutation; [done|apply NoDup_seq|]. intros i. rewrite Hcl, elem_of_seq. split.
    + intros Hx. apply lookup_lt_Some in Hx. unfold parallelism in Hp. lia.
    + intros Hx. apply Hdone. lia.
Qed.

(** C34: [Fanout] and its kin end however their goroutines are scheduled, and lose or repeat nothing:
    with at least one worker a run takes at most as many steps as its input and its products allow,
    it can always go on until the call returns, and when it has returned every task was worked on
    exactly once, by some worker that exists, the result was built from exactly the products those
    workers gave, and every worker's cleanup was called exactly once. *)
Theorem fanout_returns input p empty n s :
  (0 < p)%nat → steps n (start input p empty) s →
  (n ≤ steps_left p (start input p empty))%nat ∧ (fo_returned s = false → ∃ s', step s s') ∧
  (fo_returned s = true → ∃ log outs,
    log.*2 ≡ₚ input ∧ Forall (λ i, (i < p)%nat) log.*1 ∧ outs ≡ₚ concat ((λ t, work t.1 t.2) <$> log) ∧
    fo_result s = foldl add empty outs ∧ fo_cleanups s ≡ₚ seq 0 p).
Proof.
  intros Hpos Hs. destruct (fanout_steps_inv _ _ _ _ _ _ _ _ Hs (ordered_start input p empty) (accounted_start input p empty)) as (Ho & (log & outs & Ha) & Hl).
  split_and!; [lia| |].
  - intros Er. destruct (fanout_progress p s Hpos Ho) as [Hx|Hx]; [congruence|done].
  - intros Er. exists log, outs. by eapply returned_outcome.
Qed.

Lemma fanout_outcome input p empty s :
  (0 < p)%nat → runs_from input p empty s → fo_returned s = true → ∃ log outs,
    log.*2 ≡ₚ input ∧ outs ≡ₚ concat ((λ t, work t.1 t.2) <$> log) ∧ fo_result s = foldl add empty outs.
Proof.
  intros Hpos [n Hs] Er. destruct (fanout_steps_inv _ _ _ _ _ _ _ _ Hs (ordered_start input p empty) (accounted_start input p empty)) as (Ho & (log & outs & Ha) & _).
  destruct (returned_outcome _ _ _ _ _ _ Hpos Er Ho Ha) as (Hlog & _ & Hout & Hres & _). by exists log, outs.
Qed.

(** Without a worker nothing takes the first task, and the caller waits for ever for the goroutine that
    wants to send it. *)
Lemma no_worker_no_return input empty s : input ≠ [] → runs_from input 0 empty s → fo_returned s = false.
Proof.
  intros Hne [n Hs]. assert (Hk : ∀ n s1 s2, steps n s1 s2 → fo_workers s1 = [] → fo_input s1 ≠ [] → fo_closed s1 = false →
    fo_returned s1 = false → fo_returned s2 = false).
  2: { by eapply Hk. }
  clear n s Hs. intros n s1 s2 Hs. induction Hs as [s|n s1 s2 s3 Hs _ IH]; [done|]. intros Hw Hi Hc Hr.
  destruct Hs as [s x inp E Hl|s E _|s i x chan Ew _|s i o os Ew _|s i Ew|s i Ew _ _|s o chan _ _|s _ _|s _ _ _|s Ec _ _ _];
    try (by rewrite Hw in Ew); [|done|by apply IH..|congruence].
  unfold parallelism in Hl. rewrite Hw in Hl. cbn in Hl. lia.
Qed.
End Fanout.

(** ** The helpers *)

Section Helpers.
Context {T U : Type}.

Definition passes (predicate : option (U → bool)) (product : U) : bool := match predicate with Some p => p product | None => true end.

(** What a worker of [Fanout] sends for a task, and the goroutine that appends it. *)
Definition Fanout_work (workerFactory : nat → T → U) (predicate : option (U → bool)) (i : nat) (u : T) : list U :=
  let product := workerFactory i u in if passes predicate product then [product] else [].
Definition Fanout_collect (result : list U) (r : U) : list U := result ++ [r].

(** The states the call can be in. *)
Definition Fanout (input : list T) (parallelism : nat) workerFactory predicate : fanout → Prop :=
  runs_from (Fanout_work workerFactory predicate) Fanout_collect input parallelism [].
Definition EasyFanout (input : list T) (parallelism : nat) (worker : T → U) : fanout → Prop :=
  Fanout input parallelism (λ _, worker) None.

Lemma foldl_collect outs result : foldl Fanout_collect result outs = result ++ outs.
Proof. revert result. induction outs as [|o outs IH]; intros result; cbn; [by rewrite app_nil_r|]. rewrite IH. unfold Fanout_collect. by rewrite <-app_assoc. Qed.

(** The outputs, in some order. *)
Lemma EasyFanout_result input p worker s :
  (0 < p)%nat → EasyFanout input p worker s → fo_returned s = true → fo_result s ≡ₚ worker <$> input.
Proof.
  intros Hp Hs Er. destruct (fanout_outcome _ _ _ _ _ _ Hp Hs Er) as (log & outs & Hlog & Hout & Hres).
  rewrite Hres, foldl_collect. cbn. rewrite Hout, <-Hlog. clear. unfold Fanout_work. cbn.
  induction log as [|t log IH]; [done|]. rewrite !fmap_cons. cbn. by rewrite IH.
Qed.

Context `{Countable T}.

Definition FanoutToMap_work (workerFactory : nat → T → U) (predicate : option (U → bool)) (i : nat) (t : T) : list (T * U) :=
  let product := workerFactory i t in if passes predicate product then [(t, product)] else [].
Definition FanoutToMap_collect (result : gmap T U) (r : T * U) : gmap T U := <[r.1 := r.2]> result.

Definition FanoutToMap (input : list T) (parallelism : nat) workerFactory predicate : fanout → Prop :=
  runs_from (FanoutToMap_work workerFactory predicate) FanoutToMap_collect input parallelism ∅.
Definition EasyFanoutToMap (input : list T) (parallelism : nat) (worker : T → U) : fanout → Prop :=
  FanoutToMap input parallelism (λ _, worker) None.

(** When a key always comes with the same value, the order in which they are stored is indifferent. *)
Lemma foldl_store (f : T → U) outs m k :
  Forall (λ kv, kv.2 = f kv.1) outs →
  foldl FanoutToMap_collect m outs !! k = if bool_decide (k ∈ outs.*1) then Some (f k) else m !! k.
Proof.
  intros Hall. revert m. induction Hall as [|[k' v] outs Hv _ IH]; intros m; [done|]. cbn in *. rewrite IH. subst v.
  unfold FanoutToMap_collect. cbn. destruct (decide (k = k')) as [->|Hne].
  - rewrite lookup_insert_eq, (bool_decide_eq_true_2 (k' ∈ k' :: _)) by constructor. by case_bool_decide.
  - rewrite lookup_insert_ne by done. rewrite (bool_decide_ext (k ∈ k' :: outs.*1) (k ∈ outs.*1)); [done|].
    rewrite elem_of_cons. naive_solver.
Qed.

Lemma EasyFanoutToMap_result input p worker s k :
  (0 < p)%nat → EasyFanoutToMap input p worker s → fo_returned s = true →
  fo_result s !! k = if bool_decide (k ∈ input) then Some (worker k) else None.
Proof.
  intros Hp Hs Er. destruct (fanout_outcome _ _ _ _ _ _ Hp Hs Er) as (log & outs & Hlog & Hout & Hres).
  assert (E : outs ≡ₚ (λ t, (t, worker t)) <$> log.*2).
  { rewrite Hout. clear. induction log as [|t log IH]; [done|]. rewrite !fmap_cons. cbn. by rewrite IH. }
  rewrite Hres, (foldl_store worker), lookup_empty.
  - rewrite (bool_decide_ext (k ∈ outs.*1) (k ∈ input)); [done|]. rewrite E, <-list_fmap_compose, Hlog.
    rewrite list_elem_of_fmap. cbn. naive_solver.
  - rewrite E. apply Forall_fmap, Forall_true. done.
Qed.

(** The slices of the input the first goroutine sends. *)
Fixpoint chunks (fuel chunkSize : nat) (input : list T) : list (list T) :=
  match fuel, input with
  | S fuel, _ :: _ => take chunkSize input :: chunks fuel chunkSize (drop chunkSize input)
  | _, _ => []
  end.
Definition FanoutChunksToMap_chunkSize (chunkSize : Z) : Z := if (chunkSize <=? 0)%Z then 1 else chunkSize.
Definition FanoutChunksToMap_parallelism (input : list T) (chunkSize maxParallelism : Z) : Z :=
  maxParallelism `min` ((Z.of_nat (length input) `quot` FanoutChunksToMap_chunkSize chunkSize) `max` 1).

(** The entries of a product, in the order the range of the map gives them. *)
Definition FanoutChunksToMap_work (workerFactory : nat → list T → gmap T U) (predicate : option (U → bool)) (i : nat) (u : list T)
    : list (T * U) :=
  List.filter (λ kv, passes predicate kv.2) (map_to_list (workerFactory i u)).

(** Making a channel of a negative size panics: the call does not get as far as its goroutines. *)
Definition FanoutChunksToMap (input : list T) (chunkSize maxParallelism : Z) workerFactory predicate (s : fanout) : Prop :=
  let parallelism := FanoutChunksToMap_parallelism input chunkSize maxParallelism in
  let size := Z.to_nat (FanoutChunksToMap_chunkSize chunkSize) in
  (0 ≤ parallelism)%Z ∧
  runs_from (FanoutChunksToMap_work workerFactory predicate) FanoutToMap_collect
    (chunks (length input) size input) (Z.to_nat parallelism) ∅ s.

Lemma concat_chunks fuel size input : (0 < size)%nat → (length input ≤ fuel)%nat → concat (chunks fuel size input) = input.
Proof.
  intros Hs. revert input. induction fuel as [|fuel IH]; intros [|x input] Hl; cbn in Hl |- *; try done; [lia|].
  rewrite IH; [apply (take_drop size)|]. rewrite length_drop. cbn. lia.
Qed.

Definition graph (f : T → U) (chunk : list T) : gmap T U := list_to_map ((λ t, (t, f t)) <$> chunk).

Lemma graph_lookup f chunk k v : graph f chunk !! k = Some v ↔ v = f k ∧ k ∈ chunk.
Proof.
  unfold graph. induction chunk as [|t chunk IH].
  { cbn. rewrite lookup_empty, elem_of_nil. naive_solver. }
  rewrite fmap_cons. cbn. destruct (decide (t = k)) as [->|Hne].
  - rewrite lookup_insert_eq, elem_of_cons. naive_solver.
  - rewrite lookup_insert_ne by done. rewrite IH, elem_of_cons. naive_solver.
Qed.

Lemma graph_work f i chunk k v : (k, v) ∈ FanoutChunksToMap_work (λ _, graph f) None i chunk ↔ v = f k ∧ k ∈ chunk.
Proof.
  unfold FanoutChunksToMap_work. rewrite list_elem_of_In, filter_In, <-list_elem_of_In, elem_of_map_to_list, graph_lookup. cbn. naive_solver.
Qed.

Lemma graph_works f (log : list (nat * list T)) k v :
  (k, v) ∈ concat ((λ t, FanoutChunksToMap_work (λ _, graph f) None t.1 t.2) <$> log) ↔ v = f k ∧ k ∈ concat log.*2.
Proof.
  induction log as [|[i chunk] log IH]; [rewrite !elem_of_nil; naive_solver|].
  rewrite !fmap_cons. cbn [concat fst snd]. rewrite !elem_of_app, IH, graph_work. naive_solver.
Qed.

(** A worker that gives the map of its chunk to a function gives, with the others, the map of the
    whole input. *)
Lemma FanoutChunksToMap_result input chunkSize maxp (f : T → U) s k :
  (0 < maxp)%Z → FanoutChunksToMap input chunkSize maxp (λ _, graph f) None s → fo_returned s = true →
  fo_result s !! k = if bool_decide (k ∈ input) then Some (f k) else None.
Proof.
  intros Hm [Hp0 Hs] Er. assert (Hsz : (0 < FanoutChunksToMap_chunkSize chunkSize)%Z) by (unfold FanoutChunksToMap_chunkSize; case_match; lia).
  assert (Hp : (0 < Z.to_nat (FanoutChunksToMap_parallelism input chunkSize maxp))%nat) by (unfold FanoutChunksToMap_parallelism; lia).
  destruct (fanout_outcome _ _ _ _ _ _ Hp Hs Er) as (log & outs & Hlog & Hout & Hres).
  assert (Hin : ∀ kv, kv ∈ outs ↔ kv.2 = f kv.1 ∧ kv.1 ∈ input).
  { intros [k' v]. rewrite Hout, graph_works, Hlog, concat_chunks by lia. done. }
  rewrite Hres, (foldl_store f), lookup_empty.
  - rewrite (bool_decide_ext (k ∈ outs.*1) (k ∈ input)); [done|]. rewrite list_elem_of_fmap. setoid_rewrite Hin. split; [naive_solver|].
    intros Hk. exists (k, f k). done.
  - apply Forall_forall. intros kv Hkv. by apply Hin.
Qed.
End Helpers.

Module FanoutExample.
(** Two tasks, one worker, which doubles: the run that lets each goroutine go as far as it can. *)
Definition work := Fanout_work (λ _ x, 2 * x)%Z (Some (λ y, (y <=? 5)%Z)).

Definition after : fanout (T := Z) (O := Z) (R := list Z) := mkFanout [] true [] [Done] [0%nat] [] true [4%Z] true true.

Lemma a_run : steps work Fanout_collect 13 (start [2; 3]%Z 1 []) after.
Proof.
  econstructor; [by eapply send_task; [reflexivity|cbn; lia]|]. econstructor; [by eapply (receive_task _ _ _ 0)|].
  econstructor; [by eapply send_task; [reflexivity|cbn; lia]|]. econstructor; [by apply close_tasks|].
  econstructor; [eapply (send_product _ _ _ 0); [reflexivity|cbn; lia]|].
  econstructor; [by eapply (next_task _ _ _ 0)|]. econstructor; [by eapply (receive_task _ _ _ 0)|].
  econstructor; [by eapply (next_task _ _ _ 0)|].
  econstructor; [by apply (worker_ends _ _ _ 0)|]. econstructor; [by eapply collect_product|].
  econstructor; [apply close_products; [by repeat constructor|done]|].
  econstructor; [by apply collector_ends|]. econstructor; [by apply caller_returns|]. constructor.
Qed.

(** Every run of it ends in the same way. *)
Lemma fanout_returns_witness :
  (0 < 1)%nat ∧ steps work Fanout_collect 13 (start [2; 3]%Z 1 []) after ∧
  (13 ≤ steps_left work 1 (start [2; 3]%Z 1 ([] : list Z)))%nat ∧
  ∃ log outs, log.*2 ≡ₚ [2; 3]%Z ∧ outs ≡ₚ concat ((λ t, work t.1 t.2) <$> log) ∧ fo_result after = foldl (Fanout_collect (U := Z)) [] outs.
Proof.
  split; [lia|]. split; [apply a_run|]. destruct (fanout_returns work Fanout_collect [2; 3]%Z 1 [] 13 after ltac:(lia) a_run) as (Hn & _ & Hr).
  split; [exact Hn|]. destruct (Hr eq_refl) as (log & outs & Hlog & _ & Hout & Hres & _). exists log, outs. by split_and!.
Defined.

(** The number of workers is the number of whole chunks: the chunk that is left over has none of its
    own. *)
Example rounded_down : FanoutChunksToMap_parallelism [1; 2; 3; 4; 5]%Z 3 8 = 1%Z ∧ length (chunks 5 3 [1; 2; 3; 4; 5]%Z) = 2%nat.
Proof. done. Qed.
End FanoutExample.
