(* ===== verification/Metrics.v ===== *)
(** metrics/metrics.go and metrics/multi_metrics.go: the metrics interface and the object that
    forwards every call to its backends and keeps the values [Get] reads back.

    A component's calls to the interface are a list of [metric_op]; an atomic 64-bit counter is
    a [Z] with its wrap-around.  A backend (Prometheus, OpenTelemetry) is the list of the calls
    it has received. *)
From S2P Require Import Prelude GoValue.

Inductive MetricType := Counter | Gauge | Histogram | UpDown.
#[export] Instance MetricType_eq_dec : EqDecision MetricType.
Proof. solve_decision. Defined.

(** A call through the interface. *)
Inductive metric_op :=
| MRegister (name : string) (type : MetricType)
| MIncrement (name : string)
| MGauge (name : string) (val : float64)
| MCount (name : string) (n : Z)
| MHistogram (name : string) (obs : float64)
| MUp (name : string)
| MDown (name : string)
| MStore (name : string) (val : float64).

Definition op_name (o : metric_op) : string :=
  match o with
  | MRegister n _ | MIncrement n | MGauge n _ | MCount n _ | MHistogram n _ | MUp n | MDown n | MStore n _ => n
  end.

Definition ConvertBoolToFloat (val : bool) : float64 := if val then f64_of_Z 1 else f64_of_Z 0.

Definition PrefixMetricName (prefix name : string) : string :=
  if negb (String.eqb prefix "") then prefix +:+ "_" +:+ name else name.

Module MultiMetrics.
Record t := mk {
  children : list (list metric_op);
  counters : gmap string Z;
  gauges : gmap string float64;
  updowns : gmap string Z;
  stores : gmap string float64;
  metricTypes : gmap string MetricType }.

Definition NewMultiMetrics : t := mk [] ∅ ∅ ∅ ∅ ∅.

Definition AddChild (m : t) : t :=
  mk (children m ++ [[]]) (counters m) (gauges m) (updowns m) (stores m) (metricTypes m).

Definition Start (promEnabled otelEnabled : bool) (m : t) : t :=
  let m := if promEnabled then AddChild m else m in
  if otelEnabled then AddChild m else m.

Definition forward (m : t) (o : metric_op) : list (list metric_op) := (λ ch, (ch ++ [o])%list) <$> children m.

Definition Register (m : t) (name : string) (type : MetricType) : t :=
  mk (forward m (MRegister name type))
    (match type with Counter => <[name := 0]> (counters m) | _ => counters m end)
    (match type with Gauge => <[name := f64_of_Z 0]> (gauges m) | _ => gauges m end)
    (match type with UpDown => <[name := 0]> (updowns m) | _ => updowns m end)
    (stores m) (<[name := type]> (metricTypes m)).

(** LoadOrStore then Add: a missing counter starts from zero. *)
Definition Count (m : t) (name : string) (n : Z) : t :=
  mk (forward m (MCount name n))
    (<[name := u64 (default 0 (counters m !! name) + u64 n)]> (counters m))
    (gauges m) (updowns m) (stores m) (metricTypes m).
Definition Increment (m : t) (name : string) : t :=
  mk (forward m (MIncrement name))
    (<[name := u64 (default 0 (counters m !! name) + 1)]> (counters m))
    (gauges m) (updowns m) (stores m) (metricTypes m).
Definition SetGauge (m : t) (name : string) (val : float64) : t :=
  mk (forward m (MGauge name val)) (counters m) (<[name := val]> (gauges m))
    (updowns m) (stores m) (metricTypes m).
Definition Observe (m : t) (name : string) (obs : float64) : t :=
  mk (forward m (MHistogram name obs)) (counters m) (gauges m) (updowns m) (stores m) (metricTypes m).
Definition Up (m : t) (name : string) : t :=
  mk (forward m (MUp name)) (counters m) (gauges m)
    (<[name := s64 (default 0 (updowns m !! name) + 1)]> (updowns m)) (stores m) (metricTypes m).
Definition Down (m : t) (name : string) : t :=
  mk (forward m (MDown name)) (counters m) (gauges m)
    (<[name := s64 (default 0 (updowns m !! name) - 1)]> (updowns m)) (stores m) (metricTypes m).
(** Stored values are not forwarded. *)
Definition Store (m : t) (name : string) (val : float64) : t :=
  mk (children m) (counters m) (gauges m) (updowns m) (<[name := val]> (stores m)) (metricTypes m).

Definition Get (m : t) (name : string) : option float64 :=
  match stores m !! name with
  | Some v => Some v
  | None =>
      match metricTypes m !! name with
      | None =>
          match counters m !! name with
          | Some c => Some (f64_of_Z c)
          | None =>
              match gauges m !! name with
              | Some v => Some v
              | None => f64_of_Z <$> (updowns m !! name)
              end
          end
      | Some Counter => f64_of_Z <$> (counters m !! name)
      | Some Gauge => gauges m !! name
      | Some UpDown => f64_of_Z <$> (updowns m !! name)
      | Some Histogram => None
      end
  end.

Definition step (m : t) (o : metric_op) : t :=
  match o with
  | MRegister n ty => Register m n ty
  | MIncrement n => Increment m n
  | MGauge n v => SetGauge m n v
  | MCount n k => Count m n k
  | MHistogram n v => Observe m n v
  | MUp n => Up m n
  | MDown n => Down m n
  | MStore n v => Store m n v
  end.
Definition run (m : t) (l : list metric_op) : t := foldl step m l.

(** ** Reading back *)

(** The op neither registers nor stores [name]. *)
Definition plain_op (name : string) (o : metric_op) : Prop :=
  match o with MRegister n _ | MStore n _ => n ≠ name | _ => True end.

(** What the plain calls contribute to a counter, to an up-down counter and to a gauge. *)
Definition count_of (name : string) (o : metric_op) : Z :=
  match o with
  | MIncrement n => if String.eqb n name then 1 else 0
  | MCount n k => if String.eqb n name then k else 0
  | _ => 0
  end.
Definition updown_of (name : string) (o : metric_op) : Z :=
  match o with
  | MUp n => if String.eqb n name then 1 else 0
  | MDown n => if String.eqb n name then -1 else 0
  | _ => 0
  end.
Definition gauge_of (name : string) (v : float64) (o : metric_op) : float64 :=
  match o with MGauge n v' => if String.eqb n name then v' else v | _ => v end.
Definition total (f : metric_op → Z) (l : list metric_op) : Z := foldr (λ o acc, f o + acc) 0 l.

Ltac at_name name n := destruct (String.eqb_spec n name) as [->|];
  [rewrite ?lookup_insert_eq|rewrite ?lookup_insert_ne by congruence]; simpl.

Lemma step_plain name o m :
  plain_op name o →
  stores (step m o) !! name = stores m !! name ∧
  metricTypes (step m o) !! name = metricTypes m !! name.
Proof.
  destruct o; simpl; intros Hp; split; try done; by rewrite lookup_insert_ne.
Qed.

Lemma run_plain name l m :
  Forall (plain_op name) l →
  stores (run m l) !! name = stores m !! name ∧
  metricTypes (run m l) !! name = metricTypes m !! name.
Proof.
  revert m. induction l as [|o l IH]; intros m Hl; [done|].
  apply Forall_cons in Hl as [Ho Hl]. cbn [run foldl].
  destruct (IH (step m o) Hl) as [E1 E2]. destruct (step_plain name o m Ho) as [E3 E4].
  unfold run in *. by rewrite E1, E2.
Qed.

Lemma u64_add_l a b : u64 (u64 a + b) = u64 (a + b).
Proof. unfold u64. by rewrite Zplus_mod_idemp_l. Qed.
Lemma u64_add_r a b : u64 (a + u64 b) = u64 (a + b).
Proof. unfold u64. by rewrite Zplus_mod_idemp_r. Qed.
Lemma s64_add_l a b : s64 (s64 a + b) = s64 (a + b).
Proof.
  unfold s64. f_equal.
  replace ((a + 2 ^ 63) mod 2 ^ 64 - 2 ^ 63 + b + 2 ^ 63) with ((a + 2 ^ 63) mod 2 ^ 64 + b) by lia.
  rewrite Zplus_mod_idemp_l. f_equal. lia.
Qed.

Lemma step_values name o m c u g :
  plain_op name o →
  (counters m !! name = Some (u64 c) → counters (step m o) !! name = Some (u64 (c + count_of name o))) ∧
  (updowns m !! name = Some (s64 u) → updowns (step m o) !! name = Some (s64 (u + updown_of name o))) ∧
  (gauges m !! name = Some g → gauges (step m o) !! name = Some (gauge_of name g o)).
Proof.
  intros Hp. destruct o as [n ty|n|n v|n k|n v|n|n|n v]; simpl in *;
    (split_and!; intros E); rewrite ?Z.add_0_r; try done;
    try (destruct ty; by rewrite ?lookup_insert_ne by done);
    at_name name n; rewrite ?Z.add_0_r; try done; rewrite E; simpl;
    by rewrite <-?Z.add_opp_r, ?u64_add_l, ?u64_add_r, ?s64_add_l.
Qed.

Lemma run_values name l m c u g :
  Forall (plain_op name) l →
  (counters m !! name = Some (u64 c) → counters (run m l) !! name = Some (u64 (c + total (count_of name) l))) ∧
  (updowns m !! name = Some (s64 u) → updowns (run m l) !! name = Some (s64 (u + total (updown_of name) l))) ∧
  (gauges m !! name = Some g → gauges (run m l) !! name = Some (foldl (gauge_of name) g l)).
Proof.
  revert m c u g. induction l as [|o l IH]; intros m c u g Hl.
  { unfold total. simpl. by rewrite !Z.add_0_r. }
  apply Forall_cons in Hl as [Ho Hl].
  destruct (step_values name o m c u g Ho) as (S1 & S2 & S3).
  destruct (IH (step m o) (c + count_of name o) (u + updown_of name o) (gauge_of name g o) Hl) as (I1 & I2 & I3).
  unfold run, total in *. simpl. rewrite !Z.add_assoc. split_and!; auto.
Qed.

(** A registered metric reads back what was written to it: from its registration on, whatever
    other metrics do, [Get] returns a counter's total (modulo 2^64), an up-down counter's balance
    and a gauge's last value, each starting from zero; a histogram is not readable; and a stored
    constant of that name would hide it. *)
Theorem multimetrics_get (m : t) (name : string) (ty : MetricType) (l : list metric_op) :
  Forall (plain_op name) l → stores m !! name = None →
  Get (run (Register m name ty) l) name =
    match ty with
    | Counter => Some (f64_of_Z (u64 (total (count_of name) l)))
    | UpDown => Some (f64_of_Z (s64 (total (updown_of name) l)))
    | Gauge => Some (foldl (gauge_of name) (f64_of_Z 0) l)
    | Histogram => None
    end ∧
  (∀ v, Get (Store (run (Register m name ty) l) name v) name = Some v).
Proof.
  intros Hl Hs. destruct (run_plain name l (Register m name ty) Hl) as [E1 E2].
  destruct (run_values name l (Register m name ty) 0 0 (f64_of_Z 0) Hl) as (V1 & V2 & V3).
  rewrite Z.add_0_l in V1, V2. simpl in *. rewrite lookup_insert_eq in E2. split.
  - unfold Get. rewrite E1, Hs, E2.
    destruct ty; simpl in *; rewrite ?lookup_insert_eq in *; [by rewrite V1|by rewrite V3|done|by rewrite V2].
  - intros v. unfold Get. simpl. by rewrite lookup_insert_eq.
Qed.

Lemma multimetrics_get_witness :
  let ops := [MIncrement "a"; MRegister "b" Gauge; MCount "a" 41; MUp "c"] in
  Forall (plain_op "a") ops ∧
  Get (run (Register NewMultiMetrics "a" Counter) ops) "a" = Some (f64_of_Z 42).
Proof.
  assert (Hl : Forall (plain_op "a") [MIncrement "a"; MRegister "b" Gauge; MCount "a" 41; MUp "c"])
    by (repeat constructor; done).
  split; [exact Hl|].
  exact (proj1 (multimetrics_get NewMultiMetrics "a" Counter _ Hl eq_refl)).
Defined.
End MultiMetrics.
