(* ===== verification/Exporters.v ===== *)
(** metrics/prometheus.go and metrics/otel_metrics.go: the two backends that [MultiMetrics] forwards
    every call to.

    The instruments are the libraries'.  What one of them holds is the list of what it was given,
    oldest first; its value is what its documentation says: a sum, the last value, or the
    observations.  An instrument of OpenTelemetry may be refused, one of Prometheus panics. *)
From S2P Require Import Prelude GoValue Binary64 Metrics.

(** ** Prometheus *)

Module Prom.
(** What is done to a gauge. *)
Inductive gauge_call := Set_ (v : float64) | Inc | Dec | Add (v : float64).
Inductive instrument := PCounter (adds : list float64) | PGauge (calls : list gauge_call) | PHistogram (obs : list float64).

(** The registry takes a name once, if it is one it allows; otherwise creating an instrument panics. *)
Class PromRegistry := { allowed : string → bool }.

Section Prom.
Context `{!PromRegistry}.
Abbreviation t := (gmap string instrument).
Implicit Types (p : t).

Definition new_instrument (type : MetricType) : instrument :=
  match type with Counter => PCounter [] | Gauge | UpDown => PGauge [] | Histogram => PHistogram [] end.

Definition Register p (name : string) (type : MetricType) : option t :=
  match p !! name with
  | Some _ => Some p
  | None => if allowed name then Some (<[name := new_instrument type]> p) else None
  end.

(** A gauge has the methods of a counter, so it is one where a counter is asked for.  A counter that
    is to be decreased panics. *)
Definition counter_Inc (i : instrument) : instrument :=
  match i with PCounter l => PCounter (l ++ [f64_of_Z 1]) | PGauge l => PGauge (l ++ [Inc]) | PHistogram l => PHistogram l end.
Definition counter_Add (i : instrument) (v : float64) : option instrument :=
  match i with
  | PCounter l => if f64_ltb v (f64_of_Z 0) then None else Some (PCounter (l ++ [v]))
  | PGauge l => Some (PGauge (l ++ [Add v]))
  | PHistogram l => Some (PHistogram l)
  end.
Definition gauge_do (i : instrument) (c : gauge_call) : instrument :=
  match i with PGauge l => PGauge (l ++ [c]) | i => i end.
Definition hist_Observe (i : instrument) (v : float64) : instrument :=
  match i with PHistogram l => PHistogram (l ++ [v]) | i => i end.

Definition Increment p (name : string) : t := alter counter_Inc name p.
Definition Count p (name : string) (n : Z) : option t :=
  match p !! name with
  | Some i => (λ i, <[name := i]> p) <$> counter_Add i (f64_of_Z n)
  | None => Some p
  end.
Definition SetGauge p (name : string) (val : float64) : t := alter (λ i, gauge_do i (Set_ val)) name p.
Definition Observe p (name : string) (obs : float64) : t := alter (λ i, hist_Observe i obs) name p.
Definition Up p (name : string) : t := alter (λ i, gauge_do i Inc) name p.
Definition Down p (name : string) : t := alter (λ i, gauge_do i Dec) name p.

(** Constants that are stored are not forwarded. *)
Definition step p (o : metric_op) : option t :=
  match o with
  | MRegister n ty => Register p n ty
  | MIncrement n => Some (Increment p n)
  | MGauge n v => Some (SetGauge p n v)
  | MCount n k => Count p n k
  | MHistogram n v => Some (Observe p n v)
  | MUp n => Some (Up p n)
  | MDown n => Some (Down p n)
  | MStore _ _ => Some p
  end.
Fixpoint run p (l : list metric_op) : option t :=
  match l with [] => Some p | o :: l => match step p o with Some p => run p l | None => None end end.
End Prom.

(** What a scrape reads. *)
Definition gauge_step (v : float64) (c : gauge_call) : float64 :=
  match c with Set_ v => v | Inc => f64_add v (f64_of_Z 1) | Dec => f64_sub v (f64_of_Z 1) | Add a => f64_add v a end.
Definition read (i : instrument) : option float64 :=
  match i with
  | PCounter l => Some (foldl f64_add (f64_of_Z 0) l)
  | PGauge l => Some (foldl gauge_step (f64_of_Z 0) l)
  | PHistogram _ => None
  end.
End Prom.

(** ** OpenTelemetry *)

Module OTel.
Record t := mk {
  counters : gmap string (list Z);
  gauges : gmap string (list float64);
  histograms : gmap string (list float64);
  updowns : gmap string (list Z) }.

(** The meter may refuse an instrument. *)
Class OTelMeter := { meter_ok : MetricType → string → bool }.

Section OTel.
Context `{!OTelMeter}.
Implicit Types (o : t).

Definition new : t := mk ∅ ∅ ∅ ∅.

(** Each is created on its first use; all but a gauge begin with a zero, so that they are sent. *)
Definition getOrInit {A} (type : MetricType) (first : list A) (m : gmap string (list A)) (name : string) : option (gmap string (list A)) :=
  match m !! name with
  | Some _ => Some m
  | None => if meter_ok type name then Some (<[name := first]> m) else None
  end.
Definition getOrInitCounter o name : option t :=
  (λ c, mk c (gauges o) (histograms o) (updowns o)) <$> getOrInit Counter [0] (counters o) name.
Definition getOrInitGauge o name : option t :=
  (λ g, mk (counters o) g (histograms o) (updowns o)) <$> getOrInit Gauge [] (gauges o) name.
Definition getOrInitHistogram o name : option t :=
  (λ h, mk (counters o) (gauges o) h (updowns o)) <$> getOrInit Histogram [f64_of_Z 0] (histograms o) name.
Definition getOrInitUpDown o name : option t :=
  (λ u, mk (counters o) (gauges o) (histograms o) u) <$> getOrInit UpDown [0] (updowns o) name.

(** What cannot be created is logged, or ignored. *)
Definition Register o (name : string) (type : MetricType) : t :=
  default o (match type with
             | Counter => getOrInitCounter o name
             | Gauge => getOrInitGauge o name
             | Histogram => getOrInitHistogram o name
             | UpDown => getOrInitUpDown o name
             end).

Definition record {A} (v : A) (m : gmap string (list A)) (name : string) : gmap string (list A) := alter (λ l, l ++ [v]) name m.

Definition Count o (name : string) (n : Z) : t :=
  match getOrInitCounter o name with
  | Some o => mk (record n (counters o) name) (gauges o) (histograms o) (updowns o)
  | None => o
  end.
Definition Increment o (name : string) : t := Count o name 1.
Definition SetGauge o (name : string) (val : float64) : t :=
  match getOrInitGauge o name with
  | Some o => mk (counters o) (record val (gauges o) name) (histograms o) (updowns o)
  | None => o
  end.
Definition Observe o (name : string) (val : float64) : t :=
  match getOrInitHistogram o name with
  | Some o => mk (counters o) (gauges o) (record val (histograms o) name) (updowns o)
  | None => o
  end.
Definition updown_Add (n : Z) o (name : string) : t :=
  match getOrInitUpDown o name with
  | Some o => mk (counters o) (gauges o) (histograms o) (record n (updowns o) name)
  | None => o
  end.
Definition Up o (name : string) : t := updown_Add 1 o name.
Definition Down o (name : string) : t := updown_Add (-1) o name.

Definition step o (c : metric_op) : t :=
  match c with
  | MRegister n ty => Register o n ty
  | MIncrement n => Increment o n
  | MGauge n v => SetGauge o n v
  | MCount n k => Count o n k
  | MHistogram n v => Observe o n v
  | MUp n => Up o n
  | MDown n => Down o n
  | MStore _ _ => o
  end.
Definition run o (l : list metric_op) : t := foldl step o l.
End OTel.

(** ** What a report has of an instrument *)

Definition sum (l : list Z) : Z := foldr Z.add 0 l.

(** Sums of what was added since the last report are kept for counters and histograms, and the whole
    sum for the others. *)
Inductive temporality := Delta | Cumulative.
Definition temporality_of (type : MetricType) : temporality :=
  match type with Counter | Histogram => Delta | _ => Cumulative end.

(** The headers of a report: a header that is configured for Honeycomb takes precedence. *)
Definition headers (additional : gmap string string) (apiKey dataset : string) : gmap string string :=
  let hdrs := if String.eqb apiKey "" then additional else <["x-honeycomb-team" := apiKey]> additional in
  if String.eqb dataset "" then hdrs else <["x-honeycomb-dataset" := dataset]> hdrs.
End OTel.

(** ** All that receive the calls agree *)

Section Agree.
Context `{!Prom.PromRegistry, !OTel.OTelMeter}.
Import MultiMetrics.
Implicit Types (c : metric_op) (name : string).

(** The calls that a metric of this type is made for. *)
Definition proper (name : string) (ty : MetricType) (c : metric_op) : bool :=
  if negb (String.eqb (op_name c) name) then true
  else
    match c, ty with
    | MIncrement _, Counter => true
    | MCount _ n, Counter => 0 <=? n
    | MGauge _ _, Gauge => true
    | MHistogram _ _, Histogram => true
    | MUp _, UpDown | MDown _, UpDown => true
    | _, _ => false
    end.

(** What a call adds to a sum, and what it sets or observes. *)
Definition delta (ty : MetricType) (name : string) (c : metric_op) : Z :=
  match ty with Counter => count_of name c | UpDown => updown_of name c | _ => 0 end.
Definition seen (name : string) (c : metric_op) : list float64 :=
  match c with
  | MGauge n v | MHistogram n v => if String.eqb n name then [v] else []
  | _ => []
  end.

(** At every moment the sum is a whole number that a float64 holds. *)
Fixpoint within (f : metric_op → Z) (t : Z) (l : list metric_op) : Prop :=
  0 ≤ t < 2 ^ 53 ∧ match l with [] => True | c :: l => within f (t + f c) l end.

(** The calls that are forwarded. *)
Definition forwarded (l : list metric_op) : list metric_op :=
  List.filter (λ c, match c with MStore _ _ => false | _ => true end) l.

Lemma children_run m l : children (run m l) = (λ ch, ch ++ forwarded l) <$> children m.
Proof.
  revert m. induction l as [|c l IH]; intros m.
  - cbn. rewrite <-(list_fmap_id (children m)) at 1. apply list_fmap_ext. intros i ch _. cbn. by rewrite app_nil_r.
  - change (run m (c :: l)) with (run (step m c) l). rewrite IH. destruct c; try done;
      cbn; unfold forward; rewrite <-list_fmap_compose; apply list_fmap_ext; intros i ch _; cbn; by rewrite <-app_assoc.
Qed.

Lemma forwarded_app a b : forwarded (a ++ b) = forwarded a ++ forwarded b.
Proof. apply List.filter_app. Qed.

(** *** One call *)

Lemma prom_other p c p' name : op_name c ≠ name → Prom.step p c = Some p' → p' !! name = p !! name.
Proof.
  intros Hne. destruct c as [n ty|n|n v|n k|n v|n|n|n v]; cbn in Hne |- *; 
    unfold Prom.Increment, Prom.SetGauge, Prom.Observe, Prom.Up, Prom.Down; try (intros [= <-]; by rewrite ?lookup_alter_ne by done).
  - unfold Prom.Register. destruct (p !! n); [by intros [= <-]|]. destruct (Prom.allowed n); [|done]. intros [= <-]. by rewrite lookup_insert_ne.
  - unfold Prom.Count. destruct (p !! n) as [i|]; [|by intros [= <-]]. destruct (Prom.counter_Add i _); [|done]. intros [= <-]. by rewrite lookup_insert_ne.
Qed.

Lemma prom_others p l p' name : Forall (λ c, op_name c ≠ name) l → Prom.run p l = Some p' → p' !! name = p !! name.
Proof.
  intros Hl. revert p. induction Hl as [|c l Hc _ IH]; intros p; cbn [Prom.run]; [by intros [= <-]|].
  destruct (Prom.step p c) as [q|] eqn:E; [|done]. intros Hr. rewrite (IH q Hr). by eapply prom_other.
Qed.

Definition otel_at (ty : MetricType) (o : OTel.t) (name : string) : option (list Z * list float64) :=
  match ty with
  | Counter => (λ l, (l, [])) <$> (OTel.counters o !! name)
  | UpDown => (λ l, (l, [])) <$> (OTel.updowns o !! name)
  | Gauge => (λ l, ([], l)) <$> (OTel.gauges o !! name)
  | Histogram => (λ l, ([], l)) <$> (OTel.histograms o !! name)
  end.

Lemma getOrInit_other {A} ty (first : list A) m m' n name : n ≠ name → OTel.getOrInit ty first m n = Some m' → m' !! name = m !! name.
Proof.
  intros Hne. unfold OTel.getOrInit. destruct (m !! n); [by intros [= <-]|]. destruct (OTel.meter_ok ty n); [|done].
  intros [= <-]. by rewrite lookup_insert_ne.
Qed.

Lemma otel_other ty o c name : op_name c ≠ name → otel_at ty (OTel.step o c) name = otel_at ty o name.
Proof.
  intros Hne. destruct c as [n ty'|n|n v|n k|n v|n|n|n v]; cbn in Hne |- *; try done;
    [destruct ty'; cbn [OTel.Register] | ..];
    unfold OTel.Register, OTel.Increment, OTel.Up, OTel.Down, OTel.Count, OTel.SetGauge, OTel.Observe, OTel.updown_Add, OTel.getOrInitCounter,
      OTel.getOrInitGauge, OTel.getOrInitHistogram, OTel.getOrInitUpDown, OTel.record;
    (destruct (OTel.getOrInit _ _ _ n) as [m'|] eqn:E; [|done]); destruct ty; cbn; try done;
    rewrite ?lookup_alter_ne by done; by rewrite (getOrInit_other _ _ _ _ _ _ Hne E).
Qed.
Lemma otel_others ty o l name : Forall (λ c, op_name c ≠ name) l → otel_at ty (OTel.run o l) name = otel_at ty o name.
Proof.
  intros Hl. revert o. induction Hl as [|c l Hc _ IH]; intros o; [done|]. unfold OTel.run in *. cbn [foldl]. by rewrite IH, otel_other.
Qed.

(** *** A call that is proper *)

Lemma not_own name ty c : op_name c ≠ name → delta ty name c = 0 ∧ seen name c = [].
Proof. intros Hne. destruct c, ty; cbn in *; by rewrite ?(proj2 (String.eqb_neq _ _) Hne). Qed.

Definition prom_holds (ty : MetricType) (t : Z) (vs : list float64) (i : Prom.instrument) : Prop :=
  match ty, i with
  | Counter, Prom.PCounter l => foldl f64_add (f64_of_Z 0) l = f64_of_Z t
  | UpDown, Prom.PGauge l => foldl Prom.gauge_step (f64_of_Z 0) l = f64_of_Z t
  | Gauge, Prom.PGauge l => foldl Prom.gauge_step (f64_of_Z 0) l = default (f64_of_Z 0) (last vs)
  | Histogram, Prom.PHistogram l => l = vs
  | _, _ => False
  end.
Definition otel_holds (ty : MetricType) (t : Z) (vs : list float64) (x : list Z * list float64) : Prop :=
  match ty with Counter | UpDown => OTel.sum x.1 = t | Gauge => x.2 = vs | Histogram => x.2 = f64_of_Z 0 :: vs end.

Lemma sum_snoc l n : OTel.sum (l ++ [n]) = OTel.sum l + n.
Proof. unfold OTel.sum. induction l as [|x l IH]; cbn; [lia|]. rewrite IH. lia. Qed.

Lemma own_call name ty c : proper name ty c = true → op_name c = name →
  match ty with
  | Counter => c = MIncrement name ∨ ∃ n, c = MCount name n ∧ 0 ≤ n
  | Gauge => ∃ v, c = MGauge name v
  | Histogram => ∃ v, c = MHistogram name v
  | UpDown => c = MUp name ∨ c = MDown name
  end.
Proof.
  intros Hp Hn. unfold proper in Hp. rewrite Hn, String.eqb_refl in Hp.
  destruct c, ty; cbn in Hp, Hn; try done; subst; eauto.
  right. eexists. split; [done|]. by apply Z.leb_le.
Qed.

Lemma prom_step_holds p c p' name ty t vs i :
  proper name ty c = true → 0 ≤ t → 0 ≤ t + delta ty name c → t + delta ty name c < 2 ^ 53 → t < 2 ^ 53 →
  Prom.step p c = Some p' → p !! name = Some i → prom_holds ty t vs i →
  ∃ i', p' !! name = Some i' ∧ prom_holds ty (t + delta ty name c) (vs ++ seen name c) i'.
Proof.
  intros Hp Ht Hd Hlt Htlt Hs Hi Hh. destruct (decide (op_name c = name)) as [Hn|Hn].
  2: { destruct (not_own name ty c Hn) as [-> ->]. exists i. rewrite Z.add_0_r, app_nil_r, (prom_other p c p' name Hn Hs). done. }
  pose proof (own_call name ty c Hp Hn) as Hc. destruct ty.
  - destruct i as [l|l|l]; [|done..]. destruct Hc as [->|(n & -> & Hpos)]; cbn [delta seen count_of updown_of Prom.step prom_holds] in *; rewrite ?String.eqb_refl in *.
    + injection Hs as <-. exists (Prom.PCounter (l ++ [f64_of_Z 1])). split; [unfold Prom.Increment; by rewrite lookup_alter_eq, Hi|].
      cbn [prom_holds]. rewrite foldl_app, Hh. cbn [foldl]. by rewrite f64_add_whole by lia.
    + unfold Prom.Count in Hs. rewrite Hi in Hs. cbn [fmap option_fmap option_map Prom.counter_Add] in Hs. destruct (f64_ltb _ _) eqn:E; [done|]. injection Hs as <-.
      exists (Prom.PCounter (l ++ [f64_of_Z n])). split; [by rewrite lookup_insert_eq|]. cbn [prom_holds]. rewrite foldl_app, Hh. cbn [foldl].
      by rewrite f64_add_whole by lia.
  - destruct i as [l|l|l]; try done. destruct Hc as (v & ->). cbn [delta seen count_of updown_of Prom.step prom_holds] in *. rewrite ?String.eqb_refl in *. injection Hs as <-.
    exists (Prom.PGauge (l ++ [Prom.Set_ v])). split; [unfold Prom.SetGauge; by rewrite lookup_alter_eq, Hi|]. cbn. by rewrite foldl_app, last_snoc.
  - destruct i as [l|l|l]; try done. destruct Hc as (v & ->). cbn [delta seen count_of updown_of Prom.step prom_holds] in *. rewrite ?String.eqb_refl in *. injection Hs as <-.
    exists (Prom.PHistogram (l ++ [v])). split; [unfold Prom.Observe; by rewrite lookup_alter_eq, Hi|]. cbn. by rewrite Hh.
  - destruct i as [l|l|l]; try done. destruct Hc as [-> | ->]; cbn [delta seen count_of updown_of Prom.step prom_holds] in *; rewrite ?String.eqb_refl in *; injection Hs as <-.
    + exists (Prom.PGauge (l ++ [Prom.Inc])). split; [unfold Prom.Up; by rewrite lookup_alter_eq, Hi|]. cbn [prom_holds]. rewrite foldl_app, Hh. cbn [foldl Prom.gauge_step].
      by rewrite f64_add_whole by lia.
    + exists (Prom.PGauge (l ++ [Prom.Dec])). split; [unfold Prom.Down; by rewrite lookup_alter_eq, Hi|]. cbn [prom_holds]. rewrite foldl_app, Hh. cbn [foldl Prom.gauge_step].
      by rewrite f64_sub_whole by lia.
Qed.

Lemma otel_step_holds o c name ty t vs x :
  proper name ty c = true → otel_at ty o name = Some x → otel_holds ty t vs x →
  ∃ x', otel_at ty (OTel.step o c) name = Some x' ∧ otel_holds ty (t + delta ty name c) (vs ++ seen name c) x'.
Proof.
  intros Hp Hx Hh. destruct (decide (op_name c = name)) as [Hn|Hn].
  2: { destruct (not_own name ty c Hn) as [-> ->]. exists x. by rewrite Z.add_0_r, app_nil_r, otel_other. }
  pose proof (own_call name ty c Hp Hn) as Hc.
  assert (Hload : ∀ {A} (first : list A) m l, m !! name = Some l → OTel.getOrInit ty first m name = Some m) by (intros A first m l E; unfold OTel.getOrInit; by rewrite E).
  destruct ty; cbn in Hx; apply fmap_Some in Hx as (l & Hl & ->); cbn [otel_holds fst snd] in Hh.
  - destruct Hc as [->|(n & -> & _)]; cbn; rewrite ?String.eqb_refl; unfold OTel.Increment, OTel.Count, OTel.getOrInitCounter, OTel.record;
      rewrite (Hload _ _ _ _ Hl); cbn; rewrite lookup_alter_eq, Hl; cbn; eexists; (split; [done|]); cbn [otel_holds fst snd]; rewrite sum_snoc; lia.
  - destruct Hc as (v & ->); cbn; rewrite ?String.eqb_refl; unfold OTel.SetGauge, OTel.getOrInitGauge, OTel.record;
      rewrite (Hload _ _ _ _ Hl); cbn; rewrite lookup_alter_eq, Hl; cbn; eexists; (split; [done|]); cbn. by rewrite Hh.
  - destruct Hc as (v & ->); cbn; rewrite ?String.eqb_refl; unfold OTel.Observe, OTel.getOrInitHistogram, OTel.record;
      rewrite (Hload _ _ _ _ Hl); cbn; rewrite lookup_alter_eq, Hl; cbn; eexists; (split; [done|]); cbn. by rewrite Hh.
  - destruct Hc as [->| ->]; cbn; rewrite ?String.eqb_refl; unfold OTel.Up, OTel.Down, OTel.updown_Add, OTel.getOrInitUpDown, OTel.record;
      rewrite (Hload _ _ _ _ Hl); cbn; rewrite lookup_alter_eq, Hl; cbn; eexists; (split; [done|]); cbn [otel_holds fst snd]; rewrite sum_snoc; lia.
Qed.

(** *** Any number of calls *)

Abbreviation all_proper name ty l := (Forall (λ c, proper name ty c = true) l).

Lemma prom_run_holds name ty l p p' t vs i :
  all_proper name ty l → within (delta ty name) t l → Prom.run p l = Some p' → p !! name = Some i → prom_holds ty t vs i →
  ∃ i', p' !! name = Some i' ∧ prom_holds ty (t + total (delta ty name) l) (vs ++ flat_map (seen name) l) i'.
Proof.
  intros Hl. revert p t vs i. induction Hl as [|c l Hc Hl IH]; intros p t vs i Hw Hr Hi Hh.
  - injection Hr as <-. exists i. unfold total. cbn [foldr flat_map]. by rewrite Z.add_0_r, app_nil_r.
  - cbn [Prom.run] in Hr. destruct (Prom.step p c) as [q|] eqn:Eq; [|done]. destruct Hw as [Ht Hw].
    assert (Hn : 0 ≤ t + delta ty name c < 2 ^ 53) by (destruct l; cbn in Hw; tauto).
    destruct (prom_step_holds p c q name ty t vs i) as (i' & Hi' & Hh'); try done; try lia.
    destruct (IH q _ _ i' Hw Hr Hi' Hh') as (i2 & E & Hh2). exists i2. split; [done|].
    unfold total in *. cbn [foldr flat_map]. by rewrite Z.add_assoc, app_assoc.
Qed.

Lemma otel_run_holds name ty l o t vs x :
  all_proper name ty l → otel_at ty o name = Some x → otel_holds ty t vs x →
  ∃ x', otel_at ty (OTel.run o l) name = Some x' ∧ otel_holds ty (t + total (delta ty name) l) (vs ++ flat_map (seen name) l) x'.
Proof.
  intros Hl. revert o t vs x. induction Hl as [|c l Hc Hl IH]; intros o t vs x Hx Hh.
  - exists x. unfold total. cbn [foldr flat_map OTel.run foldl]. by rewrite Z.add_0_r, app_nil_r.
  - destruct (otel_step_holds o c name ty t vs x Hc Hx Hh) as (x' & Hx' & Hh').
    destruct (IH _ _ _ x' Hx' Hh') as (x2 & E & Hh2). exists x2. split; [exact E|].
    unfold total in *. cbn [foldr flat_map]. by rewrite Z.add_assoc, app_assoc.
Qed.

Lemma proper_forwarded name ty l : all_proper name ty l →
  all_proper name ty (forwarded l) ∧ Forall (plain_op name) l ∧
  total (delta ty name) (forwarded l) = total (delta ty name) l ∧ flat_map (seen name) (forwarded l) = flat_map (seen name) l.
Proof.
  intros Hl. induction Hl as [|c l Hc Hl (Hf & Hp & Ht & Hs)]; [done|].
  assert (Hpl : plain_op name c).
  { destruct c as [n ty'|n|n v|n k|n v|n|n|n v]; try done; unfold proper in Hc; cbn in Hc |- *; intros ->; by rewrite String.eqb_refl in Hc. }
  destruct c; cbn [forwarded List.filter]; fold (forwarded l); unfold total in *; cbn [foldr flat_map];
    rewrite ?Ht, ?Hs; (split_and!; [by repeat constructor|by constructor|try lia; by destruct ty|done]).
Qed.

Lemma within_forwarded f t l : (∀ n v, f (MStore n v) = 0) → within f t l → within f t (forwarded l).
Proof.
  intros Hf. revert t. induction l as [|c l IH]; intros t; [done|]. intros [Ht Hw].
  destruct c; try (split; [done|]; by apply IH). rewrite Hf, Z.add_0_r in Hw. by apply IH.
Qed.

Lemma within_last f t l : within f t l → 0 ≤ t + total f l < 2 ^ 53.
Proof.
  revert t. unfold total. induction l as [|c l IH]; intros t; cbn [within foldr]; [lia|]. intros [_ Hw].
  apply IH in Hw. lia.
Qed.

Lemma last_seen name g l : Forall (λ c, proper name Gauge c = true) l →
  foldl (gauge_of name) g l = default g (last (flat_map (seen name) l)).
Proof.
  intros Hl. revert g. induction Hl as [|c l Hc Hl IH]; intros g; [done|]. cbn [foldl flat_map]. rewrite IH.
  assert (E : last (seen name c ++ flat_map (seen name) l) = match last (flat_map (seen name) l) with Some v => Some v | None => last (seen name c) end) by apply last_app.
  rewrite E. destruct (last (flat_map _ l)); [done|].
  destruct c as [| |n v| |n v| | |]; try done; cbn; destruct (String.eqb_spec n name) as [->|]; try done.
  unfold proper in Hc. cbn in Hc. by rewrite String.eqb_refl in Hc.
Qed.

(** *** From the registration on *)

Lemma start_children l : children (run (Start true true NewMultiMetrics) l) = [forwarded l; forwarded l].
Proof. by rewrite children_run. Qed.

Lemma prom_since name ty before after p :
  Forall (λ c, op_name c ≠ name) before → all_proper name ty after → within (delta ty name) 0 after →
  Prom.run ∅ (forwarded (before ++ MRegister name ty :: after)) = Some p →
  ∃ i, p !! name = Some i ∧ prom_holds ty (total (delta ty name) after) (flat_map (seen name) after) i.
Proof.
  intros Hb Ha Hw. rewrite forwarded_app. generalize (lookup_empty (M := gmap string) (A := Prom.instrument) name). generalize (∅ : gmap string Prom.instrument).
  induction Hb as [|c before Hc Hb IH]; intros q Hq.
  - cbn [forwarded List.filter app]. fold (forwarded after). cbn [app Prom.run Prom.step]. unfold Prom.Register. rewrite Hq.
    destruct (Prom.allowed name); [|done]. intros Hr. destruct (proper_forwarded name ty after Ha) as (Hf & _ & Et & Es).
    destruct (prom_run_holds name ty (forwarded after) (<[name := Prom.new_instrument ty]> q) p 0 [] (Prom.new_instrument ty) Hf) as (i & Hi & Hh); [|exact Hr|by rewrite lookup_insert_eq|by destruct ty|].
    + apply within_forwarded; [by intros n v; destruct ty|done].
    + exists i. by rewrite Et, Es, Z.add_0_l in Hh.
  - assert (E : forwarded (c :: before) = [c] ++ forwarded before ∨ forwarded (c :: before) = forwarded before) by (destruct c; auto).
    destruct E as [-> | ->]; [|by apply IH]. cbn [app Prom.run]. destruct (Prom.step q c) as [q'|] eqn:Eq; [|done].
    apply IH. by rewrite (prom_other q c q' name Hc Eq).
Qed.

Lemma otel_since name ty before after :
  Forall (λ c, op_name c ≠ name) before → all_proper name ty after → OTel.meter_ok ty name = true →
  ∃ x, otel_at ty (OTel.run OTel.new (forwarded (before ++ MRegister name ty :: after))) name = Some x ∧
    otel_holds ty (total (delta ty name) after) (flat_map (seen name) after) x.
Proof.
  intros Hb Ha Hm. destruct (proper_forwarded name ty after Ha) as (Hf & _ & Et & Es). rewrite forwarded_app. cbn [forwarded List.filter]. fold (forwarded after).
  unfold OTel.run. rewrite foldl_app. cbn [foldl]. set (o := foldl OTel.step OTel.new (forwarded before)).
  assert (Ho : otel_at ty o name = None).
  { unfold o. fold (OTel.run OTel.new (forwarded before)). rewrite otel_others; [by destruct ty|].
    apply Forall_forall. intros c Hc. apply list_elem_of_In, filter_In in Hc as [Hc _]. apply list_elem_of_In in Hc. by apply (proj1 (Forall_forall _ _) Hb). }
  assert (Hr : ∃ x, otel_at ty (OTel.step o (MRegister name ty)) name = Some x ∧ otel_holds ty 0 [] x).
  { destruct ty; cbn in Ho |- *; apply fmap_None in Ho;
      unfold OTel.Register, OTel.getOrInitCounter, OTel.getOrInitGauge, OTel.getOrInitHistogram, OTel.getOrInitUpDown, OTel.getOrInit; rewrite Ho, Hm; cbn;
      rewrite lookup_insert_eq; cbn; eexists; (split; [done|]); done. }
  destruct Hr as (x & Hx & Hh). destruct (otel_run_holds name ty (forwarded after) _ 0 [] x Hf Hx Hh) as (x' & E & Hh').
  exists x'. split; [exact E|]. by rewrite Et, Es, Z.add_0_l in Hh'.
Qed.

Lemma multi_since name ty before after :
  Forall (λ c, op_name c ≠ name) before → all_proper name ty after → within (delta ty name) 0 after →
  Get (run (Start true true NewMultiMetrics) (before ++ MRegister name ty :: after)) name =
    match ty with
    | Counter | UpDown => Some (f64_of_Z (total (delta ty name) after))
    | Gauge => Some (default (f64_of_Z 0) (last (flat_map (seen name) after)))
    | Histogram => None
    end.
Proof.
  intros Hb Ha Hw. destruct (proper_forwarded name ty after Ha) as (_ & Hp & _ & _). pose proof (within_last _ _ _ Hw) as Hlast.
  unfold run. rewrite foldl_app. cbn [foldl step]. set (m := foldl step _ before).
  assert (Hs : stores m !! name = None).
  { unfold m. fold (run (Start true true NewMultiMetrics) before). rewrite (proj1 (run_plain name before _ ltac:(eapply Forall_impl; [exact Hb|]; intros []; done))). done. }
  fold (run (Register m name ty) after). rewrite (proj1 (multimetrics_get m name ty after Hp Hs)). destruct ty; [| |done|].
  - change (delta Counter name) with (count_of name) in *. rewrite Z.add_0_l in Hlast. by rewrite u64_id by (unfold in_u64; lia).
  - f_equal. by apply last_seen.
  - change (delta UpDown name) with (updown_of name) in *. rewrite Z.add_0_l in Hlast. by rewrite s64_id by (unfold in_s64; lia).
Qed.

(** C38: the backends show what the node itself reads.  From its registration on, while it is used as
    a metric of its type and its sum stays a whole number below 2^53: a counter, an up-down counter
    and a gauge read the same through [Get], when Prometheus scrapes, and as the sum (or the last) of
    what OpenTelemetry was given; a histogram holds the same observations in both backends, in their
    order, but for a zero that OpenTelemetry is given first. *)
Theorem backends_agree name ty before after p :
  Forall (λ c, op_name c ≠ name) before → all_proper name ty after → within (delta ty name) 0 after → OTel.meter_ok ty name = true →
  let m := run (Start true true NewMultiMetrics) (before ++ MRegister name ty :: after) in
  ∃ toProm toOTel, children m = [toProm; toOTel] ∧
  (Prom.run ∅ toProm = Some p →
   let o := OTel.run OTel.new toOTel in
   ∃ i, p !! name = Some i ∧
   match ty with
   | Counter => ∃ l, OTel.counters o !! name = Some l ∧ Get m name = Some (f64_of_Z (OTel.sum l)) ∧ Prom.read i = Get m name
   | UpDown => ∃ l, OTel.updowns o !! name = Some l ∧ Get m name = Some (f64_of_Z (OTel.sum l)) ∧ Prom.read i = Get m name
   | Gauge => ∃ l, OTel.gauges o !! name = Some l ∧ Get m name = Some (default (f64_of_Z 0) (last l)) ∧ Prom.read i = Get m name
   | Histogram => ∃ l, OTel.histograms o !! name = Some (f64_of_Z 0 :: l) ∧ i = Prom.PHistogram l
   end).
Proof.
  intros Hb Ha Hw Hm m. exists (forwarded (before ++ MRegister name ty :: after)), (forwarded (before ++ MRegister name ty :: after)).
  split; [by apply start_children|]. intros Hp o. destruct (prom_since name ty before after p Hb Ha Hw Hp) as (i & Hi & Hph).
  destruct (otel_since name ty before after Hb Ha Hm) as (x & Hx & Hoh). exists i. split; [done|].
  pose proof (multi_since name ty before after Hb Ha Hw) as Hg. fold m in Hg. fold o in Hx.
  destruct ty, i as [l|l|l]; try done; cbn [otel_at] in Hx; apply fmap_Some in Hx as (l' & Hl & ->); cbn [otel_holds prom_holds fst snd] in Hoh, Hph;
    eexists; rewrite ?Hg, Hl; unfold Prom.read; rewrite ?Hoh, ?Hph; by split_and?.
Qed.
End Agree.

(** ** On concrete calls *)

Module ExportersExample.
Import MultiMetrics.
#[export] Instance registry : Prom.PromRegistry := {| Prom.allowed _ := true |}.
#[export] Instance meter : OTel.OTelMeter := {| OTel.meter_ok _ _ := true |}.
Definition before : list metric_op := [MRegister "up" Gauge; MGauge "up" (f64_of_Z 1)].
Definition after : list metric_op := [MIncrement "spans"; MUp "other"; MCount "spans" 41; MHistogram "size" (f64_of_Z 3)].
Definition node : MultiMetrics.t := run (Start true true NewMultiMetrics) (before ++ MRegister "spans" Counter :: after).

Lemma backends_agree_witness : ∃ toProm toOTel p i,
  children node = [toProm; toOTel] ∧ Prom.run ∅ toProm = Some p ∧ p !! "spans" = Some i ∧
  Prom.read i = Some (f64_of_Z 42) ∧ Get node "spans" = Some (f64_of_Z 42).
Proof.
  destruct (Prom.run ∅ (forwarded (before ++ MRegister "spans" Counter :: after))) as [p|] eqn:E; [|exfalso; revert E; by vm_compute].
  destruct (backends_agree "spans" Counter before after p) as (toProm & toOTel & Hc & Hp).
  - repeat constructor; discriminate.
  - repeat constructor.
  - cbn. lia.
  - reflexivity.
  - exists toProm, toOTel, p. rewrite (start_children (before ++ MRegister "spans" Counter :: after)) in Hc. injection Hc as <- <-.
    destruct (Hp E) as (i & Hi & l & _ & _ & Hr). exists i. split_and!; [by apply start_children|exact E|exact Hi| |by vm_compute].
    rewrite Hr. by vm_compute.
Defined.

(** An up-down counter that is counted like a counter: a scrape sees it, the node and
    OpenTelemetry's up-down counter do not. *)
Lemma counted_updown :
  let calls := [MRegister "spans_waiting" UpDown; MCount "spans_waiting" 5] in
  Get (run NewMultiMetrics calls) "spans_waiting" = Some (f64_of_Z 0) ∧
  (Prom.run ∅ calls ≫= λ p, p !! "spans_waiting" ≫= Prom.read) = Some (f64_of_Z 5) ∧
  OTel.updowns (OTel.run OTel.new calls) !! "spans_waiting" = Some [0].
Proof. split_and!; by vm_compute. Qed.

(** Registered once more, a counter starts again from zero in the node, and goes on in the backends. *)
Lemma registered_again :
  let calls := [MRegister "a" Counter; MIncrement "a"; MRegister "a" Counter] in
  Get (run NewMultiMetrics calls) "a" = Some (f64_of_Z 0) ∧
  (Prom.run ∅ calls ≫= λ p, p !! "a" ≫= Prom.read) = Some (f64_of_Z 1).
Proof. split; by vm_compute. Qed.

(** A counter that is decreased makes Prometheus panic. *)
Lemma decreased_panics : Prom.run ∅ [MRegister "a" Counter; MCount "a" (-1)] = None.
Proof. by vm_compute. Qed.
End ExportersExample.
