(* ===== verification/Usage.v ===== *)
(** agent/usage_report.go and agent/otlp_metrics.go: the bytes received, reported as the growth since
    the last report.

    The counters are cumulative; a report holds what each signal grew by since the report before, and
    once more what was in that report if it is not known to have been sent.  The encoder of the
    report (OpenTelemetry's pdata) is the class GoMetricsJSON. *)
From S2P Require Import Prelude GoValue Binary64.

Abbreviation usageSignal := string.
Definition signal_traces : usageSignal := "traces".
Definition signal_logs : usageSignal := "logs".
Definition errNoData := "no data to report".

Record dataPoint := mkPoint { dp_Timestamp : Z; dp_IntValue : Z; dp_signal : string }.

(** One resource, one scope and one sum, of delta temporality. *)
Record otlpMetrics := mkOtlpMetrics {
  om_service_name : string; om_service_version : string; om_host_name : string;
  om_Name : string; om_points : list dataPoint }.

(** fmt's [%f], and pmetric's JSON marshaler. *)
Class GoMetricsJSON := { fmt_f : float64 → string; MarshalMetrics : otlpMetrics → res string }.

Section Report.
Context `{!GoFloat, !GoMetricsJSON}.

Definition newOTLPMetrics (serviceName version hostname : string) : otlpMetrics :=
  mkOtlpMetrics serviceName version hostname "bytes_received" [].

Definition convertFloat64ToInt64 (value : float64) : res Z :=
  if f64_ltb (f64_of_Z (2 ^ 63 - 1)) value then Err ("value " +:+ fmt_f value +:+ " is too large to convert to int64")
  else if f64_ltb value (f64_of_Z 0) then Err ("invalid negative value " +:+ fmt_f value)
  else Ok (f64_to_int value).

Definition addOTLPSum (om : otlpMetrics) (timestamp : Z) (value : float64) (signal : usageSignal) : res otlpMetrics :=
  let! intVal := convertFloat64ToInt64 value in
  Ok (mkOtlpMetrics (om_service_name om) (om_service_version om) (om_host_name om) (om_Name om)
        (om_points om ++ [mkPoint timestamp intVal signal])).

Record usageTracker := mkTracker {
  lastUsageData : gmap usageSignal float64;
  lastDataPoints : gmap usageSignal float64;
  currentDataPoints : gmap usageSignal float64 }.

Definition newUsageTracker : usageTracker := mkTracker ∅ ∅ ∅.

(** A signal that is missing in a map counts zero. *)
Definition usage_at (m : gmap usageSignal float64) (signal : usageSignal) : float64 := default (f64_of_Z 0) (m !! signal).

Definition Add (ur : usageTracker) (signal : usageSignal) (data : float64) : usageTracker :=
  if f64_eqb data (f64_of_Z 0) then ur
  else
    let deltaTraceUsage := f64_sub data (usage_at (lastUsageData ur) signal) in
    mkTracker (<[signal := data]> (lastUsageData ur)) (lastDataPoints ur)
      (<[signal := f64_add (usage_at (currentDataPoints ur) signal) deltaTraceUsage]> (currentDataPoints ur)).

(** The range over a map, in the order it gives. *)
Fixpoint add_sums (om : otlpMetrics) (now : Z) (l : list (usageSignal * float64)) : res otlpMetrics :=
  match l with
  | [] => Ok om
  | (signal, usage) :: l => let! om := addOTLPSum om now usage signal in add_sums om now l
  end.

(** The report before it is encoded. *)
Definition report_of (ur : usageTracker) (serviceName version hostname : string) (now : Z) : res otlpMetrics :=
  let! om := add_sums (newOTLPMetrics serviceName version hostname) now (map_to_list (currentDataPoints ur)) in
  add_sums om now (map_to_list (lastDataPoints ur)).

Definition NewReport (ur : usageTracker) (serviceName version hostname : string) (now : Z) : res string * usageTracker :=
  if (size (currentDataPoints ur) =? 0)%nat && (size (lastDataPoints ur) =? 0)%nat then (Err errNoData, ur)
  else
    match (let! om := report_of ur serviceName version hostname now in MarshalMetrics om) with
    | Err e => (Err e, ur)
    | Ok data => (Ok data, mkTracker (lastUsageData ur) (currentDataPoints ur) ∅)
    end.

Definition completeSend (ur : usageTracker) : usageTracker := mkTracker (lastUsageData ur) ∅ (currentDataPoints ur).
End Report.

(** ** What is reported is what was counted *)

(** What happens to a tracker: a signal's total is read, or a report is made and, perhaps, sent. *)
Inductive usage_event := Observed (signal : usageSignal) (total : Z) | Attempt (now : Z) (sent : bool).

Section Ledger.
Context `{!GoFloat, !GoMetricsJSON}.
Context (serviceName version hostname : string).

(** The data points of the reports that were sent, with the tracker. *)
Definition usage_step (s : usageTracker * list dataPoint) (e : usage_event) : usageTracker * list dataPoint :=
  match e with
  | Observed signal total => (Add s.1 signal (f64_of_Z total), s.2)
  | Attempt now sent =>
      match NewReport s.1 serviceName version hostname now, report_of s.1 serviceName version hostname now with
      | (Ok _, ur), Ok om => if sent then (completeSend ur, s.2 ++ om_points om) else (ur, s.2)
      | _, _ => s
      end
  end.
Definition usage_run (l : list usage_event) : usageTracker * list dataPoint := foldl usage_step (newUsageTracker, []) l.

(** The last total read. *)
Definition total_step (signal : usageSignal) (t : Z) (e : usage_event) : Z :=
  match e with Observed s total => if String.eqb s signal then total else t | Attempt _ _ => t end.
Definition total_of (signal : usageSignal) (l : list usage_event) : Z := foldl (total_step signal) 0 l.

(** The totals never decrease, and stay below 2^53. *)
Fixpoint cumulative (t : usageSignal → Z) (l : list usage_event) : Prop :=
  match l with
  | [] => True
  | e :: l =>
      match e with Observed s total => t s ≤ total < 2 ^ 53 | Attempt _ _ => True end ∧
      cumulative (λ s, total_step s (t s) e) l
  end.

(** No two reports in a row fail. *)
Fixpoint mostly_sent (failed : bool) (l : list usage_event) : Prop :=
  match l with
  | [] => True
  | Observed _ _ :: l => mostly_sent failed l
  | Attempt _ sent :: l => (sent = true ∨ failed = false) ∧ mostly_sent (negb sent) l
  end.

Definition sum_of (signal : usageSignal) (l : list dataPoint) : Z :=
  foldr Z.add 0 (dp_IntValue <$> filter (λ p, dp_signal p = signal) l).

Definition whole_at (m : gmap usageSignal Z) (signal : usageSignal) : Z := default 0 (m !! signal).
Definition wholes (m : gmap usageSignal Z) : gmap usageSignal float64 := f64_of_Z <$> m.

(** The tracker over whole numbers, and what it owes: [lost] was in two reports that failed. *)
Definition ledger (t : usageSignal → Z) (last points current : gmap usageSignal Z) (lost : usageSignal → Z)
    (s : usageTracker * list dataPoint) : Prop :=
  s.1 = mkTracker (wholes last) (wholes points) (wholes current) ∧
  (∀ signal, 0 ≤ whole_at points signal ∧ 0 ≤ whole_at current signal ∧ 0 ≤ lost signal ∧ 0 ≤ sum_of signal s.2) ∧
  (∀ signal, whole_at last signal = t signal ∧ t signal < 2 ^ 53) ∧
  ∀ signal, sum_of signal s.2 + whole_at points signal + whole_at current signal + lost signal = t signal.

Lemma usage_at_wholes m signal : usage_at (wholes m) signal = f64_of_Z (whole_at m signal).
Proof. unfold usage_at, wholes, whole_at. rewrite lookup_fmap. by destruct (m !! signal). Qed.

Lemma wholes_insert m signal z : <[signal := f64_of_Z z]> (wholes m) = wholes (<[signal := z]> m).
Proof. unfold wholes. by rewrite fmap_insert. Qed.

Lemma whole_at_insert m signal z s : whole_at (<[signal := z]> m) s = if String.eqb signal s then z else whole_at m s.
Proof.
  unfold whole_at. destruct (String.eqb_spec signal s) as [->|Hne]; [by rewrite lookup_insert_eq|by rewrite lookup_insert_ne].
Qed.

Lemma Add_wholes last points current signal total :
  0 ≤ whole_at last signal ≤ total → total < 2 ^ 53 → 0 ≤ whole_at current signal ≤ whole_at last signal →
  Add (mkTracker (wholes last) (wholes points) (wholes current)) signal (f64_of_Z total) =
  if total =? 0 then mkTracker (wholes last) (wholes points) (wholes current)
  else mkTracker (wholes (<[signal := total]> last)) (wholes points)
         (wholes (<[signal := whole_at current signal + (total - whole_at last signal)]> current)).
Proof.
  intros Hl Ht Hc. unfold Add. rewrite f64_zero_whole by lia. destruct (total =? 0); [done|].
  cbn [lastUsageData lastDataPoints currentDataPoints]. rewrite !usage_at_wholes, f64_sub_whole, f64_add_whole by lia.
  by rewrite !wholes_insert.
Qed.

(** The data points of whole numbers. *)
Definition points_of (now : Z) (l : list (usageSignal * Z)) : list dataPoint := (λ kv, mkPoint now kv.2 kv.1) <$> l.
Definition extend (om : otlpMetrics) (l : list dataPoint) : otlpMetrics :=
  mkOtlpMetrics (om_service_name om) (om_service_version om) (om_host_name om) (om_Name om) (om_points om ++ l).

Lemma convert_whole z : 0 ≤ z < 2 ^ 53 → convertFloat64ToInt64 (f64_of_Z z) = Ok z.
Proof.
  intros Hz. unfold convertFloat64ToInt64. destruct (f64_whole_range z Hz) as [-> ->].
  unfold f64_to_int. rewrite f64_trunc_whole by done. destruct (Z.leb_spec (- 2 ^ 63) z); [|lia]. by destruct (Z.ltb_spec z (2 ^ 63)); [|lia].
Qed.

Lemma add_sums_wholes om now (l : list (usageSignal * Z)) :
  Forall (λ kv, 0 ≤ kv.2 < 2 ^ 53) l → add_sums om now (prod_map id f64_of_Z <$> l) = Ok (extend om (points_of now l)).
Proof.
  intros Hl. revert om. induction Hl as [|[signal z] l Hz _ IH]; intros om.
  - unfold extend. destruct om. cbn. by rewrite app_nil_r.
  - rewrite fmap_cons. cbn [prod_map add_sums id fst snd]. unfold addOTLPSum. rewrite convert_whole by done. cbn [res_bind].
    rewrite IH. unfold extend. cbn. by rewrite <-app_assoc.
Qed.

Definition in_range (m : gmap usageSignal Z) : Prop := ∀ signal, 0 ≤ whole_at m signal < 2 ^ 53.

Lemma in_range_list m : in_range m → Forall (λ kv, 0 ≤ kv.2 < 2 ^ 53) (map_to_list m).
Proof.
  intros Hm. apply Forall_forall. intros [signal z] Hin%elem_of_map_to_list. specialize (Hm signal). unfold whole_at in Hm.
  by rewrite Hin in Hm.
Qed.

Lemma report_wholes last points current now :
  in_range points → in_range current →
  report_of (mkTracker (wholes last) (wholes points) (wholes current)) serviceName version hostname now =
  Ok (extend (newOTLPMetrics serviceName version hostname) (points_of now (map_to_list current) ++ points_of now (map_to_list points))).
Proof.
  intros Hp Hc. unfold report_of, wholes. cbn [currentDataPoints lastDataPoints]. rewrite !map_to_list_fmap.
  rewrite add_sums_wholes by by apply in_range_list. cbn [res_bind].
  rewrite add_sums_wholes by by apply in_range_list. unfold extend. cbn. done.
Qed.

Lemma sum_of_app signal l1 l2 : sum_of signal (l1 ++ l2) = sum_of signal l1 + sum_of signal l2.
Proof. unfold sum_of. rewrite filter_app, fmap_app. induction (dp_IntValue <$> filter _ l1) as [|x l IH]; [done|]. cbn in *. lia. Qed.

Lemma sum_of_perm signal now l1 l2 : l1 ≡ₚ l2 → sum_of signal (points_of now l1) = sum_of signal (points_of now l2).
Proof. intros Hl. unfold sum_of, points_of. 
  assert (Hp : dp_IntValue <$> filter (λ p, dp_signal p = signal) ((λ kv, mkPoint now kv.2 kv.1) <$> l1) ≡ₚ
               dp_IntValue <$> filter (λ p, dp_signal p = signal) ((λ kv, mkPoint now kv.2 kv.1) <$> l2)) by by rewrite Hl.
  induction Hp; cbn; lia.
Qed.

Lemma sum_of_points signal now m : sum_of signal (points_of now (map_to_list m)) = whole_at m signal.
Proof.
  induction m as [|k z m Hk IH] using map_ind; [done|].
  rewrite (sum_of_perm _ _ _ _ (map_to_list_insert m k z Hk)), whole_at_insert.
  change (points_of now ((k, z) :: map_to_list m)) with ([mkPoint now z k] ++ points_of now (map_to_list m)).
  rewrite sum_of_app, IH. unfold sum_of. rewrite filter_cons, filter_nil. cbn [dp_signal].
  destruct (String.eqb_spec k signal) as [->|Hne].
  - rewrite decide_True by done. unfold whole_at. rewrite Hk. cbn. lia.
  - rewrite decide_False by done. done.
Qed.

(** ** The ledger *)

Hypothesis (Hmarshal : ∀ om, ∃ data, MarshalMetrics om = Ok data).

Lemma ledger_range t last points current lost s :
  ledger t last points current lost s → in_range points ∧ in_range current.
Proof. intros (_ & Hn & Hl & Hs). split; intros signal; specialize (Hn signal); specialize (Hl signal); specialize (Hs signal); lia. Qed.

Lemma ledger_observed t last points current lost s signal total :
  ledger t last points current lost s → t signal ≤ total < 2 ^ 53 →
  ∃ last' current', ledger (λ x, total_step x (t x) (Observed signal total)) last' points current' lost (usage_step s (Observed signal total)).
Proof.
  intros (E & Hn & Hl & Hs) Ht. destruct s as [ur sent]. cbn [fst snd usage_step] in *. subst ur.
  pose proof (Hn signal) as Hn0. pose proof (Hl signal) as [Hl0 _]. pose proof (Hs signal) as Hs0.
  rewrite Add_wholes by lia. destruct (Z.eqb_spec total 0) as [->|Hne].
  - exists last, current. split_and!; [done|done|..]; intros x; cbn [total_step snd]; specialize (Hl x); specialize (Hs x); specialize (Hn x);
      destruct (String.eqb_spec signal x) as [->|_]; lia.
  - eexists _, _. split_and!; [done|..]; intros x; cbn [total_step fst snd]; rewrite ?whole_at_insert; specialize (Hl x); specialize (Hs x);
      specialize (Hn x); destruct (String.eqb_spec signal x) as [->|_]; lia.
Qed.

Lemma empty_size (m : gmap usageSignal Z) : (size (wholes m) =? 0)%nat = true → m = ∅.
Proof. unfold wholes. rewrite map_size_fmap. intros E%Nat.eqb_eq. by apply map_size_empty_inv. Qed.

(** After an attempt either nothing is owed from before, or what a second failure loses is lost. *)
Lemma ledger_attempt t last points current lost s now sent :
  ledger t last points current lost s →
  ∃ points' current' lost', ledger t last points' current' lost' (usage_step s (Attempt now sent)) ∧
    (sent = true → points' = ∅ ∧ ∀ x, lost' x = lost x) ∧ (points = ∅ → ∀ x, lost' x = lost x).
Proof.
  intros Hled. destruct (ledger_range _ _ _ _ _ _ Hled) as [Hp Hc]. destruct Hled as (E & Hn & Hl & Hs).
  destruct s as [ur got]. cbn [fst snd] in *. subst ur. cbn [usage_step fst snd].
  rewrite report_wholes by done. unfold NewReport. cbn [currentDataPoints lastDataPoints].
  destruct ((size (wholes current) =? 0)%nat && (size (wholes points) =? 0)%nat) eqn:Ez.
  { apply andb_true_iff in Ez as [->%empty_size ->%empty_size]. exists ∅, ∅, lost. split; [by split_and!|done]. }
  rewrite report_wholes by done. cbn [res_bind]. destruct (Hmarshal (extend (newOTLPMetrics serviceName version hostname)
    (points_of now (map_to_list current) ++ points_of now (map_to_list points)))) as [data ->].
  assert (Hempty : ∀ x, whole_at ∅ x = 0) by (intros x; unfold whole_at; by rewrite lookup_empty).
  destruct sent.
  - exists ∅, ∅, lost. split; [|done]. split_and!; [done|..|done|]; cbn [snd om_points extend newOTLPMetrics app]; intros x;
      rewrite ?sum_of_app, ?sum_of_points, ?Hempty; specialize (Hn x); specialize (Hs x); lia.
  - exists current, ∅, (λ x, lost x + whole_at points x). split; [|split; [done|intros -> x; rewrite Hempty; lia]].
    split_and!; [done|..|done|]; cbn [snd]; intros x; rewrite ?Hempty; specialize (Hn x); specialize (Hs x); lia.
Qed.

Lemma run_ledger l : ∀ t last points current lost s failed,
  ledger t last points current lost s → cumulative t l → (failed = false → points = ∅) →
  ∃ last' points' current' lost',
    ledger (λ x, foldl (total_step x) (t x) l) last' points' current' lost' (foldl usage_step s l) ∧
    (mostly_sent failed l → ∀ x, lost' x = lost x).
Proof.
  induction l as [|[signal total|now sent] l IH]; intros t last points current lost s failed Hled Hc Hf.
  - by exists last, points, current, lost.
  - destruct Hc as [Ht Hc]. destruct (ledger_observed _ _ _ _ _ _ signal total Hled Ht) as (last' & current' & Hled').
    exact (IH _ _ _ _ _ _ failed Hled' Hc Hf).
  - destruct Hc as [_ Hc]. destruct (ledger_attempt _ _ _ _ _ _ now sent Hled) as (points1 & current1 & lost1 & Hled1 & Hsent & Hlost).
    destruct (IH _ _ _ _ _ _ (negb sent) Hled1 Hc) as (last' & points' & current' & lost' & Hled' & Hl').
    { destruct sent; [|done]. intros _. by apply Hsent. }
    exists last', points', current', lost'. split; [exact Hled'|]. intros [Hor Hm] x. rewrite (Hl' Hm).
    destruct Hor as [Hor|Hor]; [by apply Hsent|]. by apply Hlost, Hf.
Qed.

(** What is still owed: the reports to come hold it. *)
Definition owed (ur : usageTracker) (signal : usageSignal) : Z :=
  default 0 (f64_trunc (usage_at (lastDataPoints ur) signal)) + default 0 (f64_trunc (usage_at (currentDataPoints ur) signal)).

Lemma owed_wholes last points current signal : in_range points → in_range current →
  owed (mkTracker (wholes last) (wholes points) (wholes current)) signal = whole_at points signal + whole_at current signal.
Proof. intros Hp Hc. unfold owed. cbn [lastDataPoints currentDataPoints]. by rewrite !usage_at_wholes, !f64_trunc_whole by done. Qed.

(** C29: usage is reported once.  While the totals of a signal do not decrease and stay below 2^53,
    what the reports that were sent say of it, and what the reports to come owe, never exceed the last
    total that was read, and when no two attempts in a row fail they are exactly that total: nothing
    is lost and nothing is reported twice, although a report that failed is repeated in the next. *)
Theorem usage_conserved l signal :
  cumulative (λ _, 0) l →
  let s := usage_run l in
  0 ≤ sum_of signal s.2 ∧ sum_of signal s.2 + owed s.1 signal ≤ total_of signal l ∧
  (mostly_sent false l → sum_of signal s.2 + owed s.1 signal = total_of signal l).
Proof.
  intros Hc. cbn zeta. destruct (run_ledger l (λ _, 0) ∅ ∅ ∅ (λ _, 0) (newUsageTracker, []) false) as (last & points & current & lost & Hled & Hlost); [|done..|].
  { split_and!; [done|..]; intros x; unfold whole_at; rewrite ?lookup_empty; cbn; lia. }
  destruct (ledger_range _ _ _ _ _ _ Hled) as [Hp Hcu]. destruct Hled as (E & Hn & Hl & Hs).
  change (foldl usage_step (newUsageTracker, []) l) with (usage_run l) in *. rewrite E, owed_wholes by done.
  specialize (Hn signal). specialize (Hs signal). change (foldl (total_step signal) 0 l) with (total_of signal l) in *.
  split_and!; [lia..|]. intros Hm. specialize (Hlost Hm signal). lia.
Qed.
End Ledger.

(** ** An example *)

Module UsageExample.
#[export] Existing Instance example_float.
#[export] Instance encoder : GoMetricsJSON := {| fmt_f _ := ""; MarshalMetrics om := Ok (om_Name om) |}.

Definition history : list usage_event :=
  [Observed signal_traces 100; Attempt 1 true; Observed signal_traces 130; Attempt 2 false; Observed signal_traces 135; Attempt 3 true].

Lemma usage_conserved_witness :
  cumulative (λ _, 0) history ∧ mostly_sent false history ∧
  sum_of signal_traces (usage_run "" "" "" history).2 + owed (usage_run "" "" "" history).1 signal_traces = 135.
Proof.
  assert (Hc : cumulative (λ _, 0) history) by (cbn; lia). split; [exact Hc|].
  assert (Hm : mostly_sent false history) by (cbn; tauto). split; [exact Hm|].
  apply (usage_conserved "" "" "" ltac:(intros om; by eexists) history signal_traces Hc). exact Hm.
Defined.

(** Two attempts fail in a row: what grew before the first of them is in no report that is sent. *)
Lemma second_failure_loses :
  let history := [Observed signal_traces 100; Attempt 1 false; Observed signal_traces 130; Attempt 2 false; Attempt 3 true; Attempt 4 true] in
  sum_of signal_traces (usage_run "" "" "" history).2 + owed (usage_run "" "" "" history).1 signal_traces = 30 ∧
  total_of signal_traces history = 130.
Proof. by vm_compute. Qed.
End UsageExample.
