(* ===== verification/Event.v ===== *)
(** types/event.go: events, spans and traces.

    A payload is used through the interface [PayloadOps], whose laws [PayloadLaws] are what the
    samplers and the collector rely on; the package's own implementation is in Payload.v.
    A trace owns its spans: [RootSpan] is a pointer to one of them and is modelled as that
    span's index, so that a write through it is seen in the list, and conversely.  Times are
    nanoseconds, [now] is the reading of the clock an operation makes. *)
From S2P Require Import Prelude GoValue.

(** ** The interface of a payload *)

Class PayloadOps (P : Type) := {
  p_Exists : P → string → bool;
  p_Get : P → string → value;
  p_Set : P → string → value → P;
  p_MemoizeFields : P → list string → P;
  p_GetDataSize : P → Z;
  p_MarshalJSON : P → option string;
  p_MetaAnnotationType : P → string;
}.

Class PayloadLaws P `{PayloadOps P} := {
  (** a key [p_Set] stores as any other map would, not a dedicated metadata field *)
  p_plain : string → Prop;
  p_get_set_eq : ∀ p k v, p_plain k → p_Get (p_Set p k v) k = v;
  p_get_set_ne : ∀ p k k' v, k ≠ k' → p_Get (p_Set p k v) k' = p_Get p k';
  p_exists_set_eq : ∀ p k v, p_plain k → p_Exists (p_Set p k v) k = true;
  p_exists_set_ne : ∀ p k k' v, k ≠ k' → p_Exists (p_Set p k v) k' = p_Exists p k';
}.

(** The metadata fields of a payload the router reads and writes. *)
Class MetaOps (P : Type) := {
  p_ExtractMetadata : P → res P;
  p_MetaTraceID : P → string;
  p_MetaRefineryRoot : P → bool;
  p_MetaRefineryProbe : P → bool;
  p_SetProbe : P → P;
  p_MetaSignalType : P → string;
  p_MetaUserAgent : P → string;
  p_SetUserAgent : P → string → P;
  p_IsEmpty : P → bool;
}.

Class MetaLaws P `{MetaOps P} := {
  p_set_probe : ∀ p, p_MetaRefineryProbe (p_SetProbe p) = true;
  p_set_probe_trace : ∀ p, p_MetaTraceID (p_SetProbe p) = p_MetaTraceID p;
}.

(** ** The names of the metadata fields *)

Definition MetaSignalType := "meta.signal_type".
Definition MetaTraceID := "meta.trace_id".
Definition MetaAnnotationType := "meta.annotation_type".
Definition MetaRefineryProbe := "meta.refinery.probe".
Definition MetaRefineryRoot := "meta.refinery.root".
Definition MetaRefineryIncomingUserAgent := "meta.refinery.incoming_user_agent".
Definition MetaRefineryLocalHostname := "meta.refinery.local_hostname".
Definition MetaStressed := "meta.stressed".
Definition MetaRefineryReason := "meta.refinery.reason".
Definition MetaRefinerySendReason := "meta.refinery.send_reason".
Definition MetaRefinerySampleKey := "meta.refinery.sample_key".
Definition MetaSpanEventCount := "meta.span_event_count".
Definition MetaSpanLinkCount := "meta.span_link_count".
Definition MetaSpanCount := "meta.span_count".
Definition MetaEventCount := "meta.event_count".
Definition MetaRefineryOriginalSampleRate := "meta.refinery.original_sample_rate".
Definition MetaRefineryFinalSampleRate := "meta.refinery.final_sample_rate".

(** ** Events and spans *)

Record Event (P : Type) := mkEvent {
  ev_APIHost : string;
  ev_APIKey : string;
  ev_Dataset : string;
  ev_Environment : string;
  ev_SampleRate : Z;
  ev_Timestamp : Z;
  ev_Data : P;
  ev_EnqueuedUnixMicro : Z;
  ev_dataSize : Z;
}.
Arguments mkEvent {P}. Arguments ev_APIHost {P}. Arguments ev_APIKey {P}.
Arguments ev_Dataset {P}. Arguments ev_Environment {P}. Arguments ev_SampleRate {P}.
Arguments ev_Timestamp {P}. Arguments ev_Data {P}. Arguments ev_EnqueuedUnixMicro {P}.
Arguments ev_dataSize {P}.

Inductive SpanAnnotationType :=
| SpanAnnotationTypeUnSet
| SpanAnnotationTypeUnknown
| SpanAnnotationTypeSpanEvent
| SpanAnnotationTypeLink.

#[export] Instance annotation_eq_dec : EqDecision SpanAnnotationType.
Proof. solve_decision. Defined.

Definition SpanAnnotationType_String (sat : SpanAnnotationType) : string :=
  match sat with
  | SpanAnnotationTypeUnSet => ""
  | SpanAnnotationTypeUnknown => "unknown"
  | SpanAnnotationTypeSpanEvent => "span_event"
  | SpanAnnotationTypeLink => "link"
  end.

Record Span (P : Type) := mkSpan {
  sp_Event : Event P;
  sp_TraceID : string;
  sp_ArrivalTime : Z;
  sp_IsRoot : bool;
  sp_annotationType : SpanAnnotationType;
}.
Arguments mkSpan {P}. Arguments sp_Event {P}. Arguments sp_TraceID {P}.
Arguments sp_ArrivalTime {P}. Arguments sp_IsRoot {P}. Arguments sp_annotationType {P}.

Record Trace (P : Type) := mkTrace {
  tr_APIHost : string;
  tr_APIKey : string;
  tr_Dataset : string;
  tr_TraceID : string;
  tr_Environment : string;
  tr_sampleRate : Z;
  tr_KeepSample : bool;
  tr_Sent : bool;
  tr_keptReason : Z;
  tr_DeciderShardAddr : string;
  tr_SendBy : Z;
  tr_ArrivalTime : Z;
  tr_RootSpan : option nat;
  tr_DataSize : Z;
  tr_spans : list (Span P);
  tr_totalImpact : Z;
  tr_spanCount : Z;
  tr_spanEventCount : Z;
  tr_spanLinkCount : Z;
}.
Arguments mkTrace {P}. Arguments tr_APIHost {P}. Arguments tr_APIKey {P}.
Arguments tr_Dataset {P}. Arguments tr_TraceID {P}. Arguments tr_Environment {P}.
Arguments tr_sampleRate {P}. Arguments tr_KeepSample {P}. Arguments tr_Sent {P}.
Arguments tr_keptReason {P}. Arguments tr_DeciderShardAddr {P}. Arguments tr_SendBy {P}.
Arguments tr_ArrivalTime {P}. Arguments tr_RootSpan {P}. Arguments tr_DataSize {P}.
Arguments tr_spans {P}. Arguments tr_totalImpact {P}. Arguments tr_spanCount {P}.
Arguments tr_spanEventCount {P}. Arguments tr_spanLinkCount {P}.

(** Field updates, one per field the code assigns. *)
Section Updates.
Context {P : Type}.
Implicit Types (e : Event P) (sp : Span P) (t : Trace P).

Definition ev_set_Data e d : Event P := mkEvent (ev_APIHost e) (ev_APIKey e) (ev_Dataset e)
  (ev_Environment e) (ev_SampleRate e) (ev_Timestamp e) d (ev_EnqueuedUnixMicro e) (ev_dataSize e).
Definition ev_set_SampleRate e r : Event P := mkEvent (ev_APIHost e) (ev_APIKey e) (ev_Dataset e)
  (ev_Environment e) r (ev_Timestamp e) (ev_Data e) (ev_EnqueuedUnixMicro e) (ev_dataSize e).
Definition ev_set_APIHost e h : Event P := mkEvent h (ev_APIKey e) (ev_Dataset e)
  (ev_Environment e) (ev_SampleRate e) (ev_Timestamp e) (ev_Data e) (ev_EnqueuedUnixMicro e) (ev_dataSize e).
Definition ev_set_APIKey e k : Event P := mkEvent (ev_APIHost e) k (ev_Dataset e)
  (ev_Environment e) (ev_SampleRate e) (ev_Timestamp e) (ev_Data e) (ev_EnqueuedUnixMicro e) (ev_dataSize e).
Definition ev_set_Enqueued e x : Event P := mkEvent (ev_APIHost e) (ev_APIKey e) (ev_Dataset e)
  (ev_Environment e) (ev_SampleRate e) (ev_Timestamp e) (ev_Data e) x (ev_dataSize e).
Definition ev_set_dataSize e x : Event P := mkEvent (ev_APIHost e) (ev_APIKey e) (ev_Dataset e)
  (ev_Environment e) (ev_SampleRate e) (ev_Timestamp e) (ev_Data e) (ev_EnqueuedUnixMicro e) x.

Definition sp_set_Event sp e : Span P :=
  mkSpan e (sp_TraceID sp) (sp_ArrivalTime sp) (sp_IsRoot sp) (sp_annotationType sp).
Definition sp_set_ArrivalTime sp x : Span P :=
  mkSpan (sp_Event sp) (sp_TraceID sp) x (sp_IsRoot sp) (sp_annotationType sp).
Definition sp_set_annotationType sp a : Span P :=
  mkSpan (sp_Event sp) (sp_TraceID sp) (sp_ArrivalTime sp) (sp_IsRoot sp) a.
Definition sp_Data sp : P := ev_Data (sp_Event sp).
Definition sp_set_Data sp d : Span P := sp_set_Event sp (ev_set_Data (sp_Event sp) d).
Definition sp_SampleRate sp : Z := ev_SampleRate (sp_Event sp).
Definition sp_set_SampleRate sp r : Span P := sp_set_Event sp (ev_set_SampleRate (sp_Event sp) r).

Definition tr_set_decision t rate keep : Trace P := mkTrace (tr_APIHost t) (tr_APIKey t) (tr_Dataset t)
  (tr_TraceID t) (tr_Environment t) rate keep (tr_Sent t) (tr_keptReason t)
  (tr_DeciderShardAddr t) (tr_SendBy t) (tr_ArrivalTime t) (tr_RootSpan t) (tr_DataSize t)
  (tr_spans t) (tr_totalImpact t) (tr_spanCount t) (tr_spanEventCount t) (tr_spanLinkCount t).
Definition tr_set_Sent t b : Trace P := mkTrace (tr_APIHost t) (tr_APIKey t) (tr_Dataset t)
  (tr_TraceID t) (tr_Environment t) (tr_sampleRate t) (tr_KeepSample t) b (tr_keptReason t)
  (tr_DeciderShardAddr t) (tr_SendBy t) (tr_ArrivalTime t) (tr_RootSpan t) (tr_DataSize t)
  (tr_spans t) (tr_totalImpact t) (tr_spanCount t) (tr_spanEventCount t) (tr_spanLinkCount t).
Definition tr_set_SendBy t x : Trace P := mkTrace (tr_APIHost t) (tr_APIKey t) (tr_Dataset t)
  (tr_TraceID t) (tr_Environment t) (tr_sampleRate t) (tr_KeepSample t) (tr_Sent t) (tr_keptReason t)
  (tr_DeciderShardAddr t) x (tr_ArrivalTime t) (tr_RootSpan t) (tr_DataSize t)
  (tr_spans t) (tr_totalImpact t) (tr_spanCount t) (tr_spanEventCount t) (tr_spanLinkCount t).
Definition tr_set_RootSpan t r : Trace P := mkTrace (tr_APIHost t) (tr_APIKey t) (tr_Dataset t)
  (tr_TraceID t) (tr_Environment t) (tr_sampleRate t) (tr_KeepSample t) (tr_Sent t) (tr_keptReason t)
  (tr_DeciderShardAddr t) (tr_SendBy t) (tr_ArrivalTime t) r (tr_DataSize t)
  (tr_spans t) (tr_totalImpact t) (tr_spanCount t) (tr_spanEventCount t) (tr_spanLinkCount t).
Definition tr_set_spans t l : Trace P := mkTrace (tr_APIHost t) (tr_APIKey t) (tr_Dataset t)
  (tr_TraceID t) (tr_Environment t) (tr_sampleRate t) (tr_KeepSample t) (tr_Sent t) (tr_keptReason t)
  (tr_DeciderShardAddr t) (tr_SendBy t) (tr_ArrivalTime t) (tr_RootSpan t) (tr_DataSize t)
  l (tr_totalImpact t) (tr_spanCount t) (tr_spanEventCount t) (tr_spanLinkCount t).
Definition tr_set_keptReason t r : Trace P := mkTrace (tr_APIHost t) (tr_APIKey t) (tr_Dataset t)
  (tr_TraceID t) (tr_Environment t) (tr_sampleRate t) (tr_KeepSample t) (tr_Sent t) r
  (tr_DeciderShardAddr t) (tr_SendBy t) (tr_ArrivalTime t) (tr_RootSpan t) (tr_DataSize t)
  (tr_spans t) (tr_totalImpact t) (tr_spanCount t) (tr_spanEventCount t) (tr_spanLinkCount t).
Definition tr_set_totalImpact t x : Trace P := mkTrace (tr_APIHost t) (tr_APIKey t) (tr_Dataset t)
  (tr_TraceID t) (tr_Environment t) (tr_sampleRate t) (tr_KeepSample t) (tr_Sent t) (tr_keptReason t)
  (tr_DeciderShardAddr t) (tr_SendBy t) (tr_ArrivalTime t) (tr_RootSpan t) (tr_DataSize t)
  (tr_spans t) x (tr_spanCount t) (tr_spanEventCount t) (tr_spanLinkCount t).
End Updates.

Section Operations.
Context {P : Type} `{!PayloadOps P}.
Implicit Types (e : Event P) (sp : Span P) (t : Trace P).

(** The size is computed once and kept; a size of 0 is computed again. *)
Definition GetDataSize e : Z * Event P :=
  let e := if ev_dataSize e =? 0 then ev_set_dataSize e (p_GetDataSize (ev_Data e)) else e in
  (ev_dataSize e, e).

Definition Span_GetDataSize sp : Z * Span P :=
  let '(n, e) := GetDataSize (sp_Event sp) in (n, sp_set_Event sp e).

Definition AnnotationType sp : SpanAnnotationType * Span P :=
  if bool_decide (sp_annotationType sp ≠ SpanAnnotationTypeUnSet) then (sp_annotationType sp, sp)
  else
    let a :=
      if String.eqb (p_MetaAnnotationType (sp_Data sp)) "span_event" then SpanAnnotationTypeSpanEvent
      else if String.eqb (p_MetaAnnotationType (sp_Data sp)) "link" then SpanAnnotationTypeLink
      else SpanAnnotationTypeUnknown in
    (a, sp_set_annotationType sp a).

Definition cacheImpactFactor : Z := 4.

(** Go's integer division truncates; a zero divisor panics. *)
Definition Span_CacheImpact now sp (traceTimeout : Z) : option (Z * Span P) :=
  if traceTimeout =? 0 then None
  else
    let multiplier := s64 (Z.quot (s64 (cacheImpactFactor * (now - sp_ArrivalTime sp))) traceTimeout + 1) in
    let '(n, sp) := Span_GetDataSize sp in
    Some (s64 (multiplier * n), sp).

Definition AddSpan now t sp : Trace P :=
  let sp := sp_set_ArrivalTime sp now in
  let '(n, sp) := Span_GetDataSize sp in
  mkTrace (tr_APIHost t) (tr_APIKey t) (tr_Dataset t) (tr_TraceID t)
    (if String.eqb (tr_Environment t) "" && negb (String.eqb (ev_Environment (sp_Event sp)) "")
     then ev_Environment (sp_Event sp) else tr_Environment t)
    (tr_sampleRate t) (tr_KeepSample t) (tr_Sent t) (tr_keptReason t) (tr_DeciderShardAddr t)
    (tr_SendBy t) (tr_ArrivalTime t) (tr_RootSpan t)
    (s64 (tr_DataSize t + n)) (tr_spans t ++ [sp]) 0
    (tr_spanCount t) (tr_spanEventCount t) (tr_spanLinkCount t).

Fixpoint sum_impacts now (traceTimeout : Z) (l : list (Span P)) (acc : Z) : option (Z * list (Span P)) :=
  match l with
  | [] => Some (acc, [])
  | sp :: l =>
      match Span_CacheImpact now sp traceTimeout with
      | None => None
      | Some (n, sp) =>
          match sum_impacts now traceTimeout l (s64 (acc + n)) with
          | None => None
          | Some (acc, l) => Some (acc, sp :: l)
          end
      end
  end.

Definition CacheImpact now t (traceTimeout : Z) : option (Z * Trace P) :=
  if tr_totalImpact t =? 0 then
    match sum_impacts now traceTimeout (tr_spans t) 0 with
    | None => None
    | Some (acc, l) => Some (acc, tr_set_totalImpact (tr_set_spans t l) acc)
    end
  else Some (tr_totalImpact t, t).

(** The three counters after one more span of annotation [a]. *)
Definition count_one (c : Z * Z * Z) (a : SpanAnnotationType) : Z * Z * Z :=
  let '(spans, events, links) := c in
  match a with
  | SpanAnnotationTypeSpanEvent => (spans, u32 (events + 1), links)
  | SpanAnnotationTypeLink => (spans, events, u32 (links + 1))
  | _ => (u32 (spans + 1), events, links)
  end.

Definition calculateSpanCounts t : Trace P :=
  let typed := AnnotationType <$> tr_spans t in
  let '(spans, events, links) := foldl count_one (0, 0, 0) typed.*1 in
  mkTrace (tr_APIHost t) (tr_APIKey t) (tr_Dataset t) (tr_TraceID t) (tr_Environment t)
    (tr_sampleRate t) (tr_KeepSample t) (tr_Sent t) (tr_keptReason t) (tr_DeciderShardAddr t)
    (tr_SendBy t) (tr_ArrivalTime t) (tr_RootSpan t) (tr_DataSize t)
    typed.*2 (tr_totalImpact t) spans events links.

Definition DescendantCount t : Z := u32 (Z.of_nat (length (tr_spans t))).

(** The counters are calculated on the first request, when all three are still 0. *)
Definition ensure_counts t : Trace P :=
  if (tr_spanLinkCount t =? 0) && (tr_spanCount t =? 0) && (tr_spanEventCount t =? 0)
  then calculateSpanCounts t else t.
Definition SpanCount t : Z * Trace P := let t := ensure_counts t in (tr_spanCount t, t).
Definition SpanLinkCount t : Z * Trace P := let t := ensure_counts t in (tr_spanLinkCount t, t).
Definition SpanEventCount t : Z * Trace P := let t := ensure_counts t in (tr_spanEventCount t, t).

(** The span [RootSpan] points to. *)
Definition root_span t : option (Span P) := i ← tr_RootSpan t; tr_spans t !! i.
End Operations.

(** ** Facts *)

Section Facts.
Context {P : Type} `{!PayloadOps P}.
Implicit Types (sp : Span P) (t : Trace P).

(** The annotation type a span answers with, memoized or not. *)
Definition kind_of sp : SpanAnnotationType := (AnnotationType sp).1.

Definition is_event_kind (a : SpanAnnotationType) : bool := bool_decide (a = SpanAnnotationTypeSpanEvent).
Definition is_link_kind (a : SpanAnnotationType) : bool := bool_decide (a = SpanAnnotationTypeLink).
Definition is_span_kind (a : SpanAnnotationType) : bool := negb (is_event_kind a) && negb (is_link_kind a).

Definition count_kind (f : SpanAnnotationType → bool) (l : list SpanAnnotationType) : Z :=
  Z.of_nat (length (filter (λ a, f a = true) l)).

Lemma count_kind_cons f a l :
  count_kind f (a :: l) = (if f a then 1 else 0) + count_kind f l.
Proof.
  unfold count_kind. rewrite filter_cons. destruct (f a); simpl; [lia|done].
Qed.

Lemma count_kind_nonneg f l : 0 ≤ count_kind f l.
Proof. unfold count_kind. lia. Qed.

(** Every annotation is counted by exactly one of the three counters. *)
Lemma count_kinds_total l :
  count_kind is_span_kind l + count_kind is_event_kind l + count_kind is_link_kind l
  = Z.of_nat (length l).
Proof.
  induction l as [|a l IH]; [done|]. rewrite !count_kind_cons. simpl length.
  destruct a; simpl; lia.
Qed.

Lemma count_fold l s e k :
  0 ≤ s → 0 ≤ e → 0 ≤ k →
  s + e + k + Z.of_nat (length l) < 2 ^ 32 →
  foldl count_one (s, e, k) l =
  (s + count_kind is_span_kind l, e + count_kind is_event_kind l, k + count_kind is_link_kind l).
Proof.
  revert s e k. induction l as [|a l IH]; intros s e k Hs He Hk Hl.
  - unfold count_kind. simpl. by rewrite !Z.add_0_r.
  - simpl length in Hl. cbn [foldl]. rewrite !count_kind_cons.
    destruct a; simpl; rewrite u32_id by (unfold in_u32; lia); rewrite IH by lia;
      (apply f_equal2; [apply f_equal2|]; lia).
Qed.

Lemma AnnotationType_kind sp : kind_of (AnnotationType sp).2 = kind_of sp.
Proof.
  unfold kind_of. destruct (decide (sp_annotationType sp = SpanAnnotationTypeUnSet)) as [E|E].
  - unfold AnnotationType at 2 3. rewrite bool_decide_false by tauto. simpl.
    unfold AnnotationType. simpl. by repeat (case_bool_decide || split_match).
  - unfold AnnotationType at 2 3. rewrite bool_decide_true by done. simpl.
    unfold AnnotationType. by rewrite bool_decide_true.
Qed.

Lemma root_span_AddSpan now t sp s :
  root_span t = Some s → root_span (AddSpan now t sp) = Some s.
Proof.
  unfold root_span, AddSpan. destruct (Span_GetDataSize _) as [n sp']. simpl.
  destruct (tr_RootSpan t) as [i|]; simpl; [|done]. intros. by apply lookup_app_l_Some.
Qed.

Lemma length_AddSpan now t sp : length (tr_spans (AddSpan now t sp)) = S (length (tr_spans t)).
Proof.
  unfold AddSpan. destruct (Span_GetDataSize _). simpl. rewrite length_app. simpl. lia.
Qed.

(** No counter has been requested yet. *)
Definition counts_unset t : Prop := tr_spanLinkCount t = 0 ∧ tr_spanCount t = 0 ∧ tr_spanEventCount t = 0.
#[export] Instance counts_unset_dec t : Decision (counts_unset t).
Proof. unfold counts_unset. apply _. Defined.

Lemma ensure_counts_unset t : counts_unset t → ensure_counts t = calculateSpanCounts t.
Proof. intros (H1 & H2 & H3). unfold ensure_counts. by rewrite H1, H2, H3. Qed.

Lemma ensure_counts_values t :
  counts_unset t → Z.of_nat (length (tr_spans t)) < 2 ^ 32 →
  let kinds := kind_of <$> tr_spans t in
  let t' := ensure_counts t in
  tr_spanCount t' = count_kind is_span_kind kinds ∧
  tr_spanEventCount t' = count_kind is_event_kind kinds ∧
  tr_spanLinkCount t' = count_kind is_link_kind kinds ∧
  kind_of <$> tr_spans t' = kinds ∧ length (tr_spans t') = length (tr_spans t).
Proof.
  intros Hunset Hlen. cbn zeta. rewrite ensure_counts_unset by done. unfold calculateSpanCounts.
  rewrite <-!list_fmap_compose.
  assert (E : fst ∘ AnnotationType (P := P) <$> tr_spans t = kind_of <$> tr_spans t) by done.
  rewrite E, count_fold by (rewrite ?length_fmap; lia). simpl. rewrite !Z.add_0_l.
  split_and!; [done..| |].
  - rewrite <-list_fmap_compose. apply list_fmap_ext. intros i sp _. apply AnnotationType_kind.
  - by rewrite length_fmap.
Qed.

(** A second request changes nothing: only an empty trace still has three zero counters. *)
Lemma ensure_counts_again t :
  counts_unset t → Z.of_nat (length (tr_spans t)) < 2 ^ 32 →
  ensure_counts (ensure_counts t) = ensure_counts t.
Proof.
  intros Hunset Hlen. destruct (ensure_counts_values t Hunset Hlen) as (E1 & E2 & E3 & E4 & E5).
  destruct (decide (counts_unset (ensure_counts t))) as [Hu|Hu].
  - destruct Hu as (U1 & U2 & U3). pose proof (count_kinds_total (kind_of <$> tr_spans t)) as T.
    rewrite length_fmap in T. assert (Hnil : tr_spans t = []) by (apply length_zero_iff_nil; lia).
    rewrite (ensure_counts_unset t Hunset). unfold calculateSpanCounts. rewrite Hnil. done.
  - unfold ensure_counts at 1. unfold counts_unset in Hu.
    destruct (Z.eqb_spec (tr_spanLinkCount (ensure_counts t)) 0), (Z.eqb_spec (tr_spanCount (ensure_counts t)) 0),
      (Z.eqb_spec (tr_spanEventCount (ensure_counts t)) 0); simpl; tauto.
Qed.

(** Asked for the first time, the three counters of a trace partition its descendants:
    each is the number of spans of its annotation, together they are [DescendantCount]; and
    the span list keeps its order, length and annotations. *)
Theorem span_counts_partition t :
  counts_unset t → Z.of_nat (length (tr_spans t)) < 2 ^ 32 →
  let kinds := kind_of <$> tr_spans t in
  let t' := ensure_counts t in
  (SpanCount t).1 = count_kind is_span_kind kinds ∧
  (SpanEventCount t).1 = count_kind is_event_kind kinds ∧
  (SpanLinkCount t).1 = count_kind is_link_kind kinds ∧
  tr_spanCount t' + tr_spanEventCount t' + tr_spanLinkCount t' = DescendantCount t ∧
  kind_of <$> tr_spans t' = kinds ∧ DescendantCount t' = DescendantCount t.
Proof.
  intros Hunset Hlen. cbn zeta. unfold SpanCount, SpanEventCount, SpanLinkCount. simpl.
  destruct (ensure_counts_values t Hunset Hlen) as (E1 & E2 & E3 & E4 & E5).
  split_and!; [done..| |done|unfold DescendantCount; by rewrite E5].
  rewrite E1, E2, E3, count_kinds_total, length_fmap. unfold DescendantCount.
  by rewrite u32_id by (unfold in_u32; lia).
Qed.

(** A span's cache impact is its size weighted by its age: while the trace timeout has not
    elapsed the weight is between 1 and [cacheImpactFactor], and an older span never weighs
    less than a newer one of the same size. *)
Theorem cache_impact_bounds now sp timeout :
  0 < timeout → 4 * timeout < 2 ^ 62 →
  0 ≤ now - sp_ArrivalTime sp < timeout →
  0 ≤ (Span_GetDataSize sp).1 < 2 ^ 60 →
  ∃ w, Span_CacheImpact now sp timeout =
         Some (w * (Span_GetDataSize sp).1, (Span_GetDataSize sp).2) ∧
       1 ≤ w ≤ cacheImpactFactor ∧
       w = 4 * (now - sp_ArrivalTime sp) / timeout + 1.
Proof.
  intros Ht Ht2 Hage Hsize. unfold Span_CacheImpact, cacheImpactFactor.
  rewrite (proj2 (Z.eqb_neq _ _)) by lia.
  destruct (Span_GetDataSize sp) as [n sp'] eqn:E. simpl in Hsize |- *.
  set (d := now - sp_ArrivalTime sp) in *.
  rewrite (s64_id (4 * d)) by (unfold in_s64; lia).
  rewrite Z.quot_div_nonneg by lia.
  assert (0 ≤ 4 * d / timeout < 4).
  { split; [apply Z.div_pos; lia|]. apply Z.div_lt_upper_bound; lia. }
  rewrite (s64_id (4 * d / timeout + 1)) by (unfold in_s64; lia).
  exists (4 * d / timeout + 1). split_and!; try lia.
  do 2 f_equal. apply s64_id. unfold in_s64. nia.
Qed.
End Facts.

(** ** A concrete payload, for evaluating examples: a finite map *)

Module EventExamples.
#[local] Instance map_payload : PayloadOps (gmap string value) := {|
  p_Exists := λ m k, bool_decide (is_Some (m !! k));
  p_Get := λ m k, default VNil (m !! k);
  p_Set := λ m k v, <[k := v]> m;
  p_MemoizeFields := λ m _, m;
  p_GetDataSize := λ m, 10 * Z.of_nat (size m);
  p_MarshalJSON := λ _, None;
  p_MetaAnnotationType := λ m,
    match m !! "meta.annotation_type" with Some (VString s) => s | _ => "" end;
|}.

#[local] Instance map_payload_laws : PayloadLaws (gmap string value).
Proof.
  refine {| p_plain := λ _, True |}; unfold p_Get, p_Set, p_Exists; simpl.
  - intros p k v _. by rewrite lookup_insert_eq.
  - intros p k k' v Hne. by rewrite lookup_insert_ne.
  - intros p k v _. by rewrite lookup_insert_eq.
  - intros p k k' v Hne. by rewrite lookup_insert_ne.
Defined.

Definition event (fields : list (string * value)) : Event (gmap string value) :=
  mkEvent "" "key" "dataset" "env" 1 0 (list_to_map fields) 0 0.
Definition span (root : bool) (fields : list (string * value)) : Span (gmap string value) :=
  mkSpan (event fields) "t1" 100 root SpanAnnotationTypeUnSet.
Definition trace (root : option nat) (spans : list (Span (gmap string value))) : Trace (gmap string value) :=
  mkTrace "" "key" "dataset" "t1" "env" 0 false false 0 "" 1000 100 root 0 spans 0 0 0 0.

Definition three : Trace (gmap string value) :=
  trace (Some 0%nat)
    [span true [("a", VInt64 1)];
     span false [("meta.annotation_type", VString "span_event"); ("a", VInt64 2)];
     span false [("meta.annotation_type", VString "link")]].

Lemma span_counts_partition_witness :
  (SpanCount three).1 = 1 ∧
  tr_spanCount (ensure_counts three) + tr_spanEventCount (ensure_counts three)
    + tr_spanLinkCount (ensure_counts three) = DescendantCount three.
Proof.
  split; [by vm_compute|].
  refine (proj1 (proj2 (proj2 (proj2 (span_counts_partition three _ _)))));
    [by split_and!|done].
Defined.

Lemma cache_impact_bounds_witness :
  ∃ w, Span_CacheImpact 160 (span false [("a", VInt64 1)]) 100 = Some (w * 10, (Span_GetDataSize (span false [("a", VInt64 1)])).2)
       ∧ 1 ≤ w ≤ cacheImpactFactor.
Proof.
  destruct (cache_impact_bounds 160 (span false [("a", VInt64 1)]) 100) as (w & E & Hw & _);
    [lia|lia|simpl; lia|vm_compute; split; congruence|].
  exists w. split; [exact E|exact Hw].
Defined.
End EventExamples.
