(* ===== verification/SamplerConfig.v ===== *)
(** config/sampler_config.go: the samplers' configuration, and the predicates the conditions
    of a rules-based sampler are compiled to.

    [Matches], the predicate a condition stores once initialized, is a Rocq function of the
    value and of whether the field exists; it returns [None] where the call would panic (a
    closure over a nil function).  regexp.Compile is an operation of the class
    [GoRegexp]: [None] is a compile error, otherwise the function is MatchString. *)
From Stdlib Require Import SpecFloat.
From S2P Require Import Prelude GoValue Generics.

Class GoRegexp := { regexp_compile : string → option (string → bool) }.

(** ** Constants *)

Definition NEQ := "!=".
Definition EQ := "=".
Definition GT := ">".
Definition LT := "<".
Definition GTE := ">=".
Definition LTE := "<=".
Definition Contains := "contains".
Definition DoesNotContain := "does-not-contain".
Definition StartsWith := "starts-with".
Definition Exists := "exists".
Definition NotExists := "not-exists".
Definition HasRootSpan := "has-root-span".
Definition MatchesRegexp := "matches".
Definition In := "in".
Definition NotIn := "not-in".
Definition ComputedFieldPrefix := "?.".
Definition NUM_DESCENDANTS := "?.NUM_DESCENDANTS".
Definition RootPrefix := "root.".

(** ** The configuration structs *)

Record DeterministicSamplerConfig := { det_SampleRate : Z }.
Record DynamicSamplerConfig := {
  dyn_SampleRate : Z; dyn_ClearFrequency : Z; dyn_FieldList : list string;
  dyn_MaxKeys : Z; dyn_UseTraceLength : bool }.
Record EMADynamicSamplerConfig := {
  ema_GoalSampleRate : Z; ema_AdjustmentInterval : Z; ema_Weight : float64;
  ema_AgeOutValue : float64; ema_BurstMultiple : float64; ema_BurstDetectionDelay : Z;
  ema_FieldList : list string; ema_MaxKeys : Z; ema_UseTraceLength : bool }.
Record EMAThroughputSamplerConfig := {
  emat_GoalThroughputPerSec : Z; emat_UseClusterSize : bool; emat_InitialSampleRate : Z;
  emat_AdjustmentInterval : Z; emat_Weight : float64; emat_AgeOutValue : float64;
  emat_BurstMultiple : float64; emat_BurstDetectionDelay : Z; emat_FieldList : list string;
  emat_MaxKeys : Z; emat_UseTraceLength : bool }.
Record WindowedThroughputSamplerConfig := {
  win_UpdateFrequency : Z; win_LookbackFrequency : Z; win_GoalThroughputPerSec : Z;
  win_UseClusterSize : bool; win_FieldList : list string; win_MaxKeys : Z;
  win_UseTraceLength : bool }.
Record TotalThroughputSamplerConfig := {
  tot_GoalThroughputPerSec : Z; tot_UseClusterSize : bool; tot_ClearFrequency : Z;
  tot_FieldList : list string; tot_MaxKeys : Z; tot_UseTraceLength : bool }.

(** Only one of the fields should be set; the code takes the first in its own order. *)
Record RulesBasedDownstreamSampler := {
  ds_DynamicSampler : option DynamicSamplerConfig;
  ds_EMADynamicSampler : option EMADynamicSamplerConfig;
  ds_EMAThroughputSampler : option EMAThroughputSamplerConfig;
  ds_WindowedThroughputSampler : option WindowedThroughputSamplerConfig;
  ds_TotalThroughputSampler : option TotalThroughputSamplerConfig;
  ds_DeterministicSampler : option DeterministicSamplerConfig }.

(** [Fields] distinguishes a nil slice ([None]); [initDone] is the state of [initOnce]. *)
Record RulesBasedSamplerCondition := mkCondition {
  c_Field : string;
  c_Fields : option (list string);
  c_Operator : string;
  c_Value : value;
  c_Datatype : string;
  c_Matches : option (value → bool → option bool);
  c_initDone : bool }.

Record RulesBasedSamplerRule := mkRule {
  r_Name : string;
  r_SampleRate : Z;
  r_Drop : bool;
  r_Scope : string;
  r_Conditions : option (list RulesBasedSamplerCondition);
  r_Sampler : option RulesBasedDownstreamSampler }.

Record RulesBasedSamplerConfig := mkRulesConfig {
  rb_Rules : list RulesBasedSamplerRule;
  rb_CheckNestedFields : bool }.

Record V2SamplerChoice := {
  ch_DeterministicSampler : option DeterministicSamplerConfig;
  ch_RulesBasedSampler : option RulesBasedSamplerConfig;
  ch_DynamicSampler : option DynamicSamplerConfig;
  ch_EMADynamicSampler : option EMADynamicSamplerConfig;
  ch_EMAThroughputSampler : option EMAThroughputSamplerConfig;
  ch_WindowedThroughputSampler : option WindowedThroughputSamplerConfig;
  ch_TotalThroughputSampler : option TotalThroughputSamplerConfig }.

(** What [V2SamplerChoice.Sampler] returns as an [any]. *)
Inductive SamplerConfig :=
| CfgDeterministic (c : DeterministicSamplerConfig)
| CfgRulesBased (c : RulesBasedSamplerConfig)
| CfgDynamic (c : DynamicSamplerConfig)
| CfgEMADynamic (c : EMADynamicSamplerConfig)
| CfgEMAThroughput (c : EMAThroughputSamplerConfig)
| CfgWindowedThroughput (c : WindowedThroughputSamplerConfig)
| CfgTotalThroughput (c : TotalThroughputSamplerConfig).

Definition Sampler (v : V2SamplerChoice) : option SamplerConfig * string :=
  match ch_DeterministicSampler v, ch_RulesBasedSampler v, ch_DynamicSampler v,
        ch_EMADynamicSampler v, ch_EMAThroughputSampler v, ch_WindowedThroughputSampler v,
        ch_TotalThroughputSampler v with
  | Some c, _, _, _, _, _, _ => (Some (CfgDeterministic c), "DeterministicSampler")
  | _, Some c, _, _, _, _, _ => (Some (CfgRulesBased c), "RulesBasedSampler")
  | _, _, Some c, _, _, _, _ => (Some (CfgDynamic c), "DynamicSampler")
  | _, _, _, Some c, _, _, _ => (Some (CfgEMADynamic c), "EMADynamicSampler")
  | _, _, _, _, Some c, _, _ => (Some (CfgEMAThroughput c), "EMAThroughputSampler")
  | _, _, _, _, _, Some c, _ => (Some (CfgWindowedThroughput c), "WindowedThroughputSampler")
  | _, _, _, _, _, _, Some c => (Some (CfgTotalThroughput c), "TotalThroughputSampler")
  | _, _, _, _, _, _, _ => (None, "")
  end.

(** The choice after its sampler's configuration, a pointer, has been written to. *)
Definition set_Sampler (v : V2SamplerChoice) (c : SamplerConfig) : V2SamplerChoice :=
  {| ch_DeterministicSampler := match c with CfgDeterministic c => Some c | _ => ch_DeterministicSampler v end;
     ch_RulesBasedSampler := match c with CfgRulesBased c => Some c | _ => ch_RulesBasedSampler v end;
     ch_DynamicSampler := match c with CfgDynamic c => Some c | _ => ch_DynamicSampler v end;
     ch_EMADynamicSampler := match c with CfgEMADynamic c => Some c | _ => ch_EMADynamicSampler v end;
     ch_EMAThroughputSampler := match c with CfgEMAThroughput c => Some c | _ => ch_EMAThroughputSampler v end;
     ch_WindowedThroughputSampler :=
       match c with CfgWindowedThroughput c => Some c | _ => ch_WindowedThroughputSampler v end;
     ch_TotalThroughputSampler := match c with CfgTotalThroughput c => Some c | _ => ch_TotalThroughputSampler v end |}.

Definition NameMeaningfulRate (v : RulesBasedDownstreamSampler) : string :=
  match ds_DynamicSampler v, ds_EMADynamicSampler v, ds_EMAThroughputSampler v,
        ds_WindowedThroughputSampler v, ds_TotalThroughputSampler v with
  | Some c, _, _, _, _ => if 1 <? dyn_SampleRate c then "DynamicSampler" else ""
  | _, Some c, _, _, _ => if 1 <? ema_GoalSampleRate c then "EMADynamicSampler" else ""
  | _, _, Some c, _, _ => if 1 <? emat_GoalThroughputPerSec c then "EMAThroughputSampler" else ""
  | _, _, _, Some c, _ => if 0 <? win_GoalThroughputPerSec c then "WindowedThroughputSampler" else ""
  | _, _, _, _, Some c => if 0 <? tot_GoalThroughputPerSec c then "TotalThroughputSampler" else ""
  | _, _, _, _, _ => ""
  end.

(** The names are the keys of a map: their order is unspecified. *)
Definition NameMeaningfulSamplers (v : V2SamplerChoice) : gset string :=
  match ch_DeterministicSampler v, ch_RulesBasedSampler v, ch_DynamicSampler v,
        ch_EMADynamicSampler v, ch_EMAThroughputSampler v, ch_WindowedThroughputSampler v,
        ch_TotalThroughputSampler v with
  | Some _, _, _, _, _, _, _ => {["DeterministicSampler"]}
  | _, Some c, _, _, _, _, _ =>
      foldl (λ names rule,
        match r_Sampler rule with
        | Some ds =>
            if 1 <? r_SampleRate rule then names ∪ {["RulesBasedSampler(" +:+ r_Name rule +:+ ")"]}
            else if negb (String.eqb (NameMeaningfulRate ds) "") then
              names ∪ {["RulesBasedSampler(" +:+ r_Name rule +:+ ", downstream Sampler "
                          +:+ NameMeaningfulRate ds +:+ ")"]}
            else names
        | None => names
        end) ∅ (rb_Rules c)
  | _, _, Some _, _, _, _, _ => {["DynamicSampler"]}
  | _, _, _, Some _, _, _, _ => {["EMADynamicSampler"]}
  | _, _, _, _, Some _, _, _ => {["EMAThroughputSampler"]}
  | _, _, _, _, _, Some _, _ => {["WindowedThroughputSampler"]}
  | _, _, _, _, _, _, Some _ => {["TotalThroughputSampler"]}
  | _, _, _, _, _, _, _ => ∅
  end.

(** ** Conversions of dynamic values *)

Section Conversions.
Context `{GoFloat}.

Definition tryConvertToInt (v : value) : option Z :=
  match v with
  | VInt z => Some z
  | VInt64 z => Some z
  | VFloat64 f => Some (f64_to_int f)
  | VBool _ => None
  | VString s => Atoi s
  | _ => None
  end.

Definition tryConvertToFloat (v : value) : option float64 :=
  match v with
  | VFloat64 f => Some f
  | VInt z => Some (f64_of_Z z)
  | VInt64 z => Some (f64_of_Z z)
  | VBool _ => None
  | VString s => parse_float s
  | _ => None
  end.

Definition convertToString (v : value) : string := fmt_v v.

Definition TryConvertToBool (v : value) : bool :=
  match parse_bool (convertToString v) with Some b => b | None => false end.
End Conversions.

(** ** Conditions *)

Section Conditions.
Context `{GoFloat, GoRegexp}.
Implicit Types (r : RulesBasedSamplerCondition).

Definition set_Matches r (m : value → bool → bool) : RulesBasedSamplerCondition :=
  mkCondition (c_Field r) (c_Fields r) (c_Operator r) (c_Value r) (c_Datatype r)
    (Some (λ v ex, Some (m v ex))) (c_initDone r).
(** A closure that calls a nil function. *)
Definition set_Matches_panic r : RulesBasedSamplerCondition :=
  mkCondition (c_Field r) (c_Fields r) (c_Operator r) (c_Value r) (c_Datatype r)
    (Some (λ v ex, None)) (c_initDone r).
Definition set_Fields r (fs : list string) : RulesBasedSamplerCondition :=
  mkCondition (c_Field r) (Some fs) (c_Operator r) (c_Value r) (c_Datatype r) (c_Matches r) (c_initDone r).
Definition set_initDone r : RulesBasedSamplerCondition :=
  mkCondition (c_Field r) (c_Fields r) (c_Operator r) (c_Value r) (c_Datatype r) (c_Matches r) true.

(** The predicate of a comparison operator over a converted span value: the switch on the
    condition that each datatype repeats; [None] for an operator the switch does not list. *)
Definition int_comparison (condition : string) (cv : Z) : option (Z → bool) :=
  if String.eqb condition NEQ then Some (λ n, negb (n =? cv))
  else if String.eqb condition EQ then Some (λ n, n =? cv)
  else if String.eqb condition GT then Some (λ n, cv <? n)
  else if String.eqb condition GTE then Some (λ n, cv <=? n)
  else if String.eqb condition LT then Some (λ n, n <? cv)
  else if String.eqb condition LTE then Some (λ n, n <=? cv)
  else None.

Definition float_comparison (condition : string) (cv : float64) : option (float64 → bool) :=
  if String.eqb condition NEQ then Some (λ n, negb (f64_eqb n cv))
  else if String.eqb condition EQ then Some (λ n, f64_eqb n cv)
  else if String.eqb condition GT then Some (λ n, f64_ltb cv n)
  else if String.eqb condition GTE then Some (λ n, f64_leb cv n)
  else if String.eqb condition LT then Some (λ n, f64_ltb n cv)
  else if String.eqb condition LTE then Some (λ n, f64_leb n cv)
  else None.

Definition string_comparison (condition : string) (cv : string) : option (string → bool) :=
  if String.eqb condition NEQ then Some (λ s, negb (String.eqb s cv))
  else if String.eqb condition EQ then Some (λ s, String.eqb s cv)
  else if String.eqb condition GT then Some (λ s, String.ltb cv s)
  else if String.eqb condition GTE then Some (λ s, String.leb cv s)
  else if String.eqb condition LT then Some (λ s, String.ltb s cv)
  else if String.eqb condition LTE then Some (λ s, String.leb s cv)
  else None.

Definition bool_comparison (condition : string) (cv : bool) : option (bool → bool) :=
  if String.eqb condition NEQ then Some (λ b, negb (Bool.eqb b cv))
  else if String.eqb condition EQ then Some (λ b, Bool.eqb b cv)
  else None.

(** A string comparison ignores [exists]; the others need the field and a conversion. *)
Definition setCompareOperators r (condition : string) : RulesBasedSamplerCondition * option string :=
  if String.eqb (c_Datatype r) "string" then
    match string_comparison condition (convertToString (c_Value r)) with
    | Some f => (set_Matches r (λ v ex, f (convertToString v)), None)
    | None => (r, None)
    end
  else if String.eqb (c_Datatype r) "int" then
    match tryConvertToInt (c_Value r) with
    | None => (r, Some ("could not convert " +:+ fmt_v (c_Value r) +:+ " to string"))
    | Some cv =>
        match int_comparison condition cv with
        | Some f => (set_Matches r (λ v ex,
            match tryConvertToInt v with Some n => if ex then f n else false | None => false end), None)
        | None => (r, None)
        end
    end
  else if String.eqb (c_Datatype r) "float" then
    match tryConvertToFloat (c_Value r) with
    | None => (r, Some ("could not convert " +:+ fmt_v (c_Value r) +:+ " to string"))
    | Some cv =>
        match float_comparison condition cv with
        | Some f => (set_Matches r (λ v ex,
            match tryConvertToFloat v with Some n => if ex then f n else false | None => false end), None)
        | None => (r, None)
        end
    end
  else if String.eqb (c_Datatype r) "bool" then
    match bool_comparison condition (TryConvertToBool (c_Value r)) with
    | Some f => (set_Matches r (λ v ex, if ex then f (TryConvertToBool v) else false), None)
    | None => (r, None)
    end
  else if String.eqb (c_Datatype r) "" then (r, None)
  else (r, Some (c_Datatype r +:+ " must be either string, int, float or bool")).

Definition setMatchStringBasedOperators r (condition : string) : RulesBasedSamplerCondition * option string :=
  let cv := convertToString (c_Value r) in
  if String.eqb condition StartsWith then (set_Matches r (λ v ex, HasPrefix (convertToString v) cv), None)
  else if String.eqb condition Contains then (set_Matches r (λ v ex, str_contains (convertToString v) cv), None)
  else if String.eqb condition DoesNotContain then
    (set_Matches r (λ v ex, negb (str_contains (convertToString v) cv)), None)
  else (r, None).

(** Membership in a set of floats is Go's [==]: a NaN is never a member. *)
Definition setInBasedOperators r (condition : string) : RulesBasedSamplerCondition * option string :=
  let scalars :=
    match c_Value r with
    | VList l => Some l
    | VString _ | VInt _ | VFloat64 _ => Some [c_Value r]
    | _ => None
    end in
  match scalars with
  | None => (r, Some "value must be a list of scalars")
  | Some l =>
      let install (matches : value → bool → bool) :=
        if String.eqb condition In then (set_Matches r matches, None)
        else if String.eqb condition NotIn then (set_Matches r (λ v ex, negb (matches v ex)), None)
        else (r, None) in
      if String.eqb (c_Datatype r) "string" || String.eqb (c_Datatype r) "" then
        let values := GSet.NewSet (convertToString <$> l) in
        install (λ v ex, GSet.Contains values (convertToString v))
      else if String.eqb (c_Datatype r) "int" then
        let values := GSet.NewSet (omap tryConvertToInt l) in
        install (λ v ex, match tryConvertToInt v with Some i => GSet.Contains values i | None => false end)
      else if String.eqb (c_Datatype r) "float" then
        let values := omap tryConvertToFloat l in
        install (λ v ex, match tryConvertToFloat v with Some f => existsb (f64_eqb f) values | None => false end)
      else if String.eqb (c_Datatype r) "bool" then
        (r, Some ("cannot use " +:+ condition +:+ " operator with boolean datatype"))
      else
        (** no case of the switch: the nil function is installed, or closed over *)
        if String.eqb condition NotIn then (set_Matches_panic r, None) else (r, None)
  end.

Definition setRegexStringMatchOperator r : RulesBasedSamplerCondition * option string :=
  match regexp_compile (convertToString (c_Value r)) with
  | None => (r, Some ("'matches' pattern must be a valid Go regexp, but was '" +:+ fmt_v (c_Value r) +:+ "'"))
  | Some m => (set_Matches r (λ v ex, m (convertToString v)), None)
  end.

Definition setMatchesFunction r : RulesBasedSamplerCondition * option string :=
  let op := c_Operator r in
  if String.eqb op Exists then (set_Matches r (λ v ex, ex), None)
  else if String.eqb op NotExists then (set_Matches r (λ v ex, negb ex), None)
  else if bool_decide (op ∈ [NEQ; EQ; GT; LT; LTE; GTE]) then setCompareOperators r op
  else if bool_decide (op ∈ [StartsWith; Contains; DoesNotContain]) then setMatchStringBasedOperators r op
  else if bool_decide (op ∈ [In; NotIn]) then setInBasedOperators r op
  else if String.eqb op MatchesRegexp then setRegexStringMatchOperator r
  else if String.eqb op HasRootSpan then (r, None)
  else (r, Some ("unknown operator '" +:+ op +:+ "'")).
End Conditions.

Section Init.
Context `{GoFloat, GoRegexp}.
Implicit Types (r : RulesBasedSamplerCondition).

(** The body runs once ([initOnce]); later calls return a nil error. *)
Definition Init r : RulesBasedSamplerCondition * option string :=
  if c_initDone r then (r, None)
  else
    let r := set_initDone r in
    if negb (String.eqb (c_Field r) "") then
      if (0 <? Z.of_nat (length (default [] (c_Fields r)))) then
        (r, Some "both Field and Fields are defined in a single condition")
      else setMatchesFunction (set_Fields r [c_Field r])
    else setMatchesFunction r.

Definition GetComputedField r : option string :=
  if HasPrefix (c_Field r) ComputedFieldPrefix then Some (c_Field r) else None.

(** ** The fields a sampler samples on *)

Definition Downstream_GetSamplingFields (r : RulesBasedDownstreamSampler) : list string :=
  match ds_DeterministicSampler r, ds_DynamicSampler r, ds_EMADynamicSampler r,
        ds_EMAThroughputSampler r, ds_WindowedThroughputSampler r, ds_TotalThroughputSampler r with
  | Some _, _, _, _, _, _ => []
  | _, Some c, _, _, _, _ => dyn_FieldList c
  | _, _, Some c, _, _, _ => ema_FieldList c
  | _, _, _, Some c, _, _ => emat_FieldList c
  | _, _, _, _, Some c, _ => win_FieldList c
  | _, _, _, _, _, Some c => tot_FieldList c
  | _, _, _, _, _, _ => []
  end.

(** Initializes every condition of a rule and collects its fields. *)
Definition condition_fields (fields : gset string) r : RulesBasedSamplerCondition * gset string :=
  let r := (Init r).1 in
  (r, match c_Fields r with
      | Some fs => GSet.Add fields fs
      | None => if negb (String.eqb (c_Field r) "") then GSet.Add fields [c_Field r] else fields
      end).

Fixpoint conditions_fields (fields : gset string) (l : list RulesBasedSamplerCondition)
    : list RulesBasedSamplerCondition * gset string :=
  match l with
  | [] => ([], fields)
  | c :: l =>
      let '(c, fields) := condition_fields fields c in
      let '(l, fields) := conditions_fields fields l in (c :: l, fields)
  end.

Definition rule_fields (fields : gset string) (rule : RulesBasedSamplerRule)
    : RulesBasedSamplerRule * gset string :=
  let '(conds, fields) :=
    match r_Conditions rule with
    | Some l => let '(l, fields) := conditions_fields fields l in (Some l, fields)
    | None => (None, fields)
    end in
  let fields :=
    match r_Sampler rule with
    | Some ds => GSet.Add fields (Downstream_GetSamplingFields ds)
    | None => fields
    end in
  (mkRule (r_Name rule) (r_SampleRate rule) (r_Drop rule) (r_Scope rule) conds (r_Sampler rule), fields).

Fixpoint rules_fields (fields : gset string) (l : list RulesBasedSamplerRule)
    : list RulesBasedSamplerRule * gset string :=
  match l with
  | [] => ([], fields)
  | r :: l =>
      let '(r, fields) := rule_fields fields r in
      let '(l, fields) := rules_fields fields l in (r :: l, fields)
  end.

(** The configuration with its conditions initialized, and the set of fields. *)
Definition RulesBased_GetSamplingFields (r : RulesBasedSamplerConfig)
    : RulesBasedSamplerConfig * list string :=
  let '(rules, fields) := rules_fields (GSet.NewSet []) (rb_Rules r) in
  (mkRulesConfig rules (rb_CheckNestedFields r), GSet.Members fields).

Definition Choice_GetSamplingFields (v : V2SamplerChoice) : list string :=
  match ch_DeterministicSampler v, ch_RulesBasedSampler v, ch_DynamicSampler v,
        ch_EMADynamicSampler v, ch_EMAThroughputSampler v, ch_WindowedThroughputSampler v,
        ch_TotalThroughputSampler v with
  | Some _, _, _, _, _, _, _ => []
  | _, Some c, _, _, _, _, _ => (RulesBased_GetSamplingFields c).2
  | _, _, Some c, _, _, _, _ => dyn_FieldList c
  | _, _, _, Some c, _, _, _ => ema_FieldList c
  | _, _, _, _, Some c, _, _ => emat_FieldList c
  | _, _, _, _, _, Some c, _ => win_FieldList c
  | _, _, _, _, _, _, Some c => tot_FieldList c
  | _, _, _, _, _, _, _ => []
  end.
End Init.

(** ** What the compiled predicates decide *)

(** A comparison operator as a set of outcomes of a three-way comparison. *)
Definition op_holds (op : string) (c : comparison) : bool :=
  match c with
  | Eq => bool_decide (op ∈ [EQ; GTE; LTE])
  | Lt => bool_decide (op ∈ [NEQ; LT; LTE])
  | Gt => bool_decide (op ∈ [NEQ; GT; GTE])
  end.

Definition comparison_ops : list string := [NEQ; EQ; GT; GTE; LT; LTE].

Ltac each_op H :=
  unfold comparison_ops in H;
  repeat first
    [ apply list_elem_of_singleton in H as ->
    | apply elem_of_cons in H as [->|H] ].

Section Predicates.
Context `{GoFloat, GoRegexp}.
Implicit Types (r : RulesBasedSamplerCondition).

Lemma int_comparison_spec op cv :
  op ∈ comparison_ops →
  ∃ f, int_comparison op cv = Some f ∧ ∀ n, f n = op_holds op (n ?= cv).
Proof.
  intros Hop. each_op Hop; eexists; (split; [reflexivity|]); intros n; cbv beta;
    rewrite ?Z.eqb_compare, ?Z.ltb_compare, ?Z.leb_compare, ?(Z.compare_antisym n cv);
    destruct (n ?= cv); reflexivity.
Qed.

Lemma string_eqb_compare s1 s2 :
  String.eqb s1 s2 = match String.compare s1 s2 with Eq => true | _ => false end.
Proof.
  destruct (String.compare s1 s2) eqn:E.
  - apply String.compare_eq_iff in E as ->. apply String.eqb_refl.
  - apply String.eqb_neq. intros ->. pose proof (String.compare_antisym s2 s2) as A.
    by rewrite E in A.
  - apply String.eqb_neq. intros ->. pose proof (String.compare_antisym s2 s2) as A.
    by rewrite E in A.
Qed.

Lemma string_comparison_spec op cv :
  op ∈ comparison_ops →
  ∃ f, string_comparison op cv = Some f ∧ ∀ s, f s = op_holds op (String.compare s cv).
Proof.
  intros Hop. each_op Hop; eexists; (split; [reflexivity|]); intros s; cbv beta;
    unfold String.ltb, String.leb; rewrite ?string_eqb_compare, ?(String.compare_antisym cv s);
    destruct (String.compare s cv); reflexivity.
Qed.

(** Every comparison with a NaN is false, except [!=]. *)
Definition float_outcome (op : string) (c : option comparison) : bool :=
  match c with Some c => op_holds op c | None => String.eqb op NEQ end.

Lemma f64_compare_swap a b : SFcompare b a = CompOpp <$> SFcompare a b.
Proof.
  destruct a as [[]|[]| |[] m e], b as [[]|[]| |[] m' e']; simpl; try done.
  all: rewrite (Z.compare_antisym e e'); destruct (e ?= e')%Z; simpl; try done.
  all: change (Pos.compare_cont Eq m' m) with (m' ?= m)%positive;
    change (Pos.compare_cont Eq m m') with (m ?= m')%positive;
    rewrite (Pos.compare_antisym m m'); by destruct (Pos.compare m m').
Qed.

Lemma float_comparison_spec op cv :
  op ∈ comparison_ops →
  ∃ f, float_comparison op cv = Some f ∧ ∀ n, f n = float_outcome op (SFcompare n cv).
Proof.
  intros Hop. each_op Hop; eexists; (split; [reflexivity|]); intros n; cbv beta;
    unfold f64_eqb, f64_ltb, f64_leb, SFeqb, SFltb, SFleb; rewrite ?(f64_compare_swap n cv);
    destruct (SFcompare n cv) as [[]|]; reflexivity.
Qed.

(** The condition [r] before its first [Init]. *)
Definition uninitialized r : Prop := c_initDone r = false ∧ c_Matches r = None.

(** What [Init] leaves in a condition that could be initialized. *)
Definition installed r (m : value → bool → option bool) : Prop :=
  (Init r).2 = None ∧ c_Matches (Init r).1 = Some m.

(** [Field] and [Fields] are not both set. *)
Definition one_field r : Prop := c_Field r = "" ∨ default [] (c_Fields r) = [].

(** [Init] in terms of the condition with its field moved: only the operator, the value and
    the datatype matter to the predicate. *)
Lemma Init_unfold r :
  c_initDone r = false → one_field r →
  ∃ r0, Init r = setMatchesFunction r0 ∧ c_Operator r0 = c_Operator r ∧
        c_Value r0 = c_Value r ∧ c_Datatype r0 = c_Datatype r ∧ c_Matches r0 = c_Matches r.
Proof.
  intros Hd Hf. unfold Init. rewrite Hd. cbv zeta.
  change (c_Field (set_initDone r)) with (c_Field r).
  change (c_Fields (set_initDone r)) with (c_Fields r).
  destruct (String.eqb_spec (c_Field r) "") as [E|E]; simpl.
  - exists (set_initDone r). split_and!; done.
  - destruct Hf as [?|Hf]; [done|]. rewrite Hf. simpl.
    exists (set_Fields (set_initDone r) [c_Field r]). split_and!; done.
Qed.

(** A typed comparison compiles to the three-way comparison of its datatype: for each of the
    six operators, an [int] condition accepts an existing value iff the value converts to an
    integer standing in that relation to the condition's, a [float] condition likewise with
    binary64 comparison (a NaN satisfies only [!=]), and a [string] condition compares the
    rendering of the value bytewise, whether or not the field exists. *)
Theorem typed_comparison_correct r :
  uninitialized r → one_field r → c_Operator r ∈ comparison_ops →
  (∀ cv, c_Datatype r = "int" → tryConvertToInt (c_Value r) = Some cv →
     ∃ m, installed r m ∧ ∀ v ex, m v ex =
       Some (ex && match tryConvertToInt v with
                   | Some n => op_holds (c_Operator r) (n ?= cv) | None => false end)) ∧
  (∀ cv, c_Datatype r = "float" → tryConvertToFloat (c_Value r) = Some cv →
     ∃ m, installed r m ∧ ∀ v ex, m v ex =
       Some (ex && match tryConvertToFloat v with
                   | Some n => float_outcome (c_Operator r) (SFcompare n cv) | None => false end)) ∧
  (c_Datatype r = "string" →
     ∃ m, installed r m ∧ ∀ v ex, m v ex =
       Some (op_holds (c_Operator r) (String.compare (convertToString v) (convertToString (c_Value r))))).
Proof.
  intros [Hd Hm] Hf Hop. destruct (Init_unfold r Hd Hf) as (r0 & E & Eop & Ev & Edt & _).
  unfold installed. rewrite E. unfold setMatchesFunction. rewrite Eop.
  assert (String.eqb (c_Operator r) Exists = false ∧ String.eqb (c_Operator r) NotExists = false)
    as [-> ->] by (each_op Hop; done).
  rewrite bool_decide_true by (each_op Hop; set_solver).
  unfold setCompareOperators. rewrite Ev, Edt. split_and!.
  - intros cv -> ->. simpl. destruct (int_comparison_spec _ cv Hop) as (f & -> & Hfs).
    eexists. split; [by split|]. intros v ex. cbv beta. f_equal.
    destruct (tryConvertToInt v), ex; simpl; auto.
  - intros cv -> ->. simpl. destruct (float_comparison_spec _ cv Hop) as (f & -> & Hfs).
    eexists. split; [by split|]. intros v ex. cbv beta. f_equal.
    destruct (tryConvertToFloat v), ex; simpl; auto.
  - intros ->. simpl. destruct (string_comparison_spec _ (convertToString (c_Value r)) Hop) as (f & -> & Hfs).
    eexists. split; [by split|]. intros v ex. cbv beta. f_equal. apply Hfs.
Qed.
End Predicates.

Section MorePredicates.
Context `{GoFloat, GoRegexp}.
Implicit Types (r : RulesBasedSamplerCondition).

(** The same condition with another operator. *)
Definition with_Operator r (op : string) : RulesBasedSamplerCondition :=
  mkCondition (c_Field r) (c_Fields r) op (c_Value r) (c_Datatype r) (c_Matches r) (c_initDone r).

(** Two operators whose predicates are both installed and always answer the opposite. *)
Definition complementary r (op1 op2 : string) : Prop :=
  ∃ m1 m2, installed (with_Operator r op1) m1 ∧ installed (with_Operator r op2) m2 ∧
    ∀ v ex, ∃ b, m1 v ex = Some b ∧ m2 v ex = Some (negb b).

Lemma Init_with_Operator r op :
  uninitialized r → one_field r →
  ∃ r0, Init (with_Operator r op) = setMatchesFunction r0 ∧ c_Operator r0 = op ∧
        c_Value r0 = c_Value r ∧ c_Datatype r0 = c_Datatype r ∧ c_Matches r0 = None.
Proof.
  intros [Hd Hm] Hf. destruct (Init_unfold (with_Operator r op) Hd Hf) as (r0 & E & Hop & Hv & Hdt & Hm0).
  exists r0. rewrite E, Hop, Hv, Hdt, Hm0. split_and!; done.
Qed.

Definition scalar_or_list (v : value) : bool :=
  match v with VList _ | VString _ | VInt _ | VFloat64 _ => true | _ => false end.

(** The datatypes [In] and [NotIn] know. *)
Definition membership_datatypes : list string := ["string"; ""; "int"; "float"].

(** The negative operators are exact complements: on every value, present or missing,
    [not-exists] answers the opposite of [exists], [does-not-contain] of [contains] and, for a
    datatype they know and a list or scalar value, [not-in] of [in]. *)
Theorem negative_operators_complement r :
  uninitialized r → one_field r →
  complementary r Exists NotExists ∧
  complementary r Contains DoesNotContain ∧
  (c_Datatype r ∈ membership_datatypes → scalar_or_list (c_Value r) = true →
   complementary r In NotIn).
Proof.
  intros Hu Hf. unfold complementary, installed. split_and!.
  - destruct (Init_with_Operator r Exists Hu Hf) as (r1 & -> & E1 & _).
    destruct (Init_with_Operator r NotExists Hu Hf) as (r2 & -> & E2 & _).
    unfold setMatchesFunction. rewrite E1, E2. simpl.
    do 2 eexists. split_and!; [done..|]. intros v ex. by exists ex.
  - destruct (Init_with_Operator r Contains Hu Hf) as (r1 & -> & E1 & V1 & _).
    destruct (Init_with_Operator r DoesNotContain Hu Hf) as (r2 & -> & E2 & V2 & _).
    unfold setMatchesFunction. rewrite E1, E2. simpl.
    unfold setMatchStringBasedOperators. rewrite V1, V2. simpl.
    do 2 eexists. split_and!; [done..|]. intros v ex. eexists. split; reflexivity.
  - intros Hdt Hv.
    destruct (Init_with_Operator r In Hu Hf) as (r1 & -> & E1 & V1 & D1 & _).
    destruct (Init_with_Operator r NotIn Hu Hf) as (r2 & -> & E2 & V2 & D2 & _).
    unfold setMatchesFunction. rewrite E1, E2. simpl.
    unfold setInBasedOperators. rewrite V1, V2, D1, D2.
    destruct (c_Value r); try done; simpl;
      unfold membership_datatypes in Hdt;
      repeat (apply elem_of_cons in Hdt as [->|Hdt]; [simpl;
        do 2 eexists; split_and!; [done..|]; intros v ex; eexists; split; reflexivity|]);
      by apply elem_of_nil in Hdt.
Qed.

Lemma Init_idempotent r : Init (Init r).1 = ((Init r).1, None).
Proof.
  enough (c_initDone (Init r).1 = true) as E by (unfold Init at 1; by rewrite E).
  unfold Init. destruct (c_initDone r) eqn:Hd; [done|].
  unfold setMatchesFunction, setCompareOperators, setMatchStringBasedOperators,
    setInBasedOperators, setRegexStringMatchOperator.
  repeat (split_match || reflexivity).
Qed.

(** The operators and datatypes for which [NotIn] would close over a nil function. *)
Definition bad_not_in r : Prop :=
  c_Operator r = NotIn ∧ c_Datatype r ∉ "bool" :: membership_datatypes.

(** A condition that initializes without error never panics when it is evaluated, unless it is
    a [not-in] with a datatype that is none of string, int, float or bool. *)
Theorem initialized_predicate_total r m v ex :
  uninitialized r → ¬ bad_not_in r → installed r m → m v ex ≠ None.
Proof.
  intros [Hd Hm] Hbad [Herr Hi].
  assert (Hs : ∀ r0 r1 e, c_Operator r0 = c_Operator r → c_Datatype r0 = c_Datatype r →
                 c_Matches r0 = None → setMatchesFunction r0 = (r1, e) →
                 c_Matches r1 = Some m → m v ex ≠ None).
  { clear Herr Hi. intros r0 r1 e Hop Hdt Hm0 Hset Hr1. unfold bad_not_in in Hbad.
    rewrite <-Hop, <-Hdt in Hbad. unfold setMatchesFunction, setCompareOperators,
      setMatchStringBasedOperators, setInBasedOperators, setRegexStringMatchOperator in Hset.
    repeat split_match_in Hset; simplify_eq/=; try congruence; try (by simplify_eq).
    all: exfalso; apply Hbad; reflect_bools; split; [done|].
    all: repeat match goal with H : (_ || _)%bool = false |- _ => apply orb_false_elim in H; destruct H end.
    all: reflect_bools; unfold membership_datatypes; set_solver. }
  unfold Init in Herr, Hi. rewrite Hd in Herr, Hi. cbv zeta in Herr, Hi.
  destruct (negb _); [destruct (0 <? _)|].
  - done.
  - destruct (setMatchesFunction _) as [r1 e] eqn:E. by eapply Hs in E.
  - destruct (setMatchesFunction _) as [r1 e] eqn:E. by eapply Hs in E.
Qed.
End MorePredicates.

(** ** Examples *)

Module Examples.
#[export] Existing Instance example_float.
(** Literal patterns only: a pattern without metacharacters matches its occurrences. *)
#[export] Instance example_regexp : GoRegexp := {| regexp_compile := λ p, Some (λ s, str_contains s p) |}.

Definition status_ge_500 : RulesBasedSamplerCondition :=
  mkCondition "http.status_code" None ">=" (VInt 500) "int" None false.
Definition not_in_paths : RulesBasedSamplerCondition :=
  mkCondition "" (Some ["http.path"; "http.route"]) "not-in" (VList [VString "/a"; VString "/b"]) "" None false.

Example status_accepts :
  match c_Matches (Init status_ge_500).1 with
  | Some m => m (VInt64 503) true = Some true ∧ m (VString "499") true = Some false ∧
              m (VString "x") true = Some false ∧ m (VInt64 503) false = Some false
  | None => False
  end.
Proof. vm_compute. done. Qed.

Lemma typed_comparison_correct_witness :
  uninitialized status_ge_500 ∧ one_field status_ge_500 ∧
  ∃ m, installed status_ge_500 m ∧ ∀ v ex, m v ex =
       Some (ex && match tryConvertToInt v with
                   | Some n => op_holds ">=" (n ?= 500) | None => false end).
Proof.
  assert (Hu : uninitialized status_ge_500) by (split; reflexivity).
  assert (Hf : one_field status_ge_500) by (right; reflexivity).
  assert (Hop : c_Operator status_ge_500 ∈ comparison_ops) by (vm_compute; set_solver).
  split; [exact Hu|split; [exact Hf|]].
  exact (proj1 (typed_comparison_correct status_ge_500 Hu Hf Hop) 500 eq_refl eq_refl).
Defined.

Lemma negative_operators_complement_witness :
  uninitialized not_in_paths ∧ complementary not_in_paths In NotIn.
Proof.
  assert (Hu : uninitialized not_in_paths) by (split; reflexivity).
  assert (Hf : one_field not_in_paths) by (left; reflexivity).
  split; [exact Hu|].
  refine (proj2 (proj2 (negative_operators_complement not_in_paths Hu Hf)) _ eq_refl).
  vm_compute. set_solver.
Defined.

Lemma initialized_predicate_total_witness :
  ∃ m, installed status_ge_500 m ∧ m (VInt64 503) true ≠ None.
Proof.
  assert (Hu : uninitialized status_ge_500) by (split; reflexivity).
  eexists. assert (Hm : installed status_ge_500 _) by (split; reflexivity).
  split; [exact Hm|].
  refine (initialized_predicate_total status_ge_500 _ _ _ Hu _ Hm).
  intros [Hop _]. vm_compute in Hop. discriminate Hop.
Defined.
End Examples.
