(* ===== verification/Config.v ===== *)
(** config/config.go and config/file_config.go: the main configuration, the decisions computed
    from it, and the reload of a running instance.

    A [time.Duration] is a [Z] of nanoseconds, a [MemorySize] a [uint64].  Where the files are
    read from, and the validation and decoding of their contents (config/validate.go,
    config/configLoadHelpers.go and the YAML library), are parameters of the reload: the
    theorems hold for whatever they answer.  A pointer field that may be nil is an [option]. *)
From S2P Require Import Prelude GoValue Generics SamplerConfig.

(** ** The sections of the configuration file *)

Record GeneralConfig := {
  gen_ConfigurationVersion : Z; gen_MinRefineryVersion : string;
  gen_DatasetPrefix : string; gen_ConfigReloadInterval : Z }.

Record NetworkConfig := {
  net_ListenAddr : string; net_PeerListenAddr : string; net_HoneycombAPI : string;
  net_HTTPIdleTimeout : Z; net_AdditionalHeaders : gmap string string }.

Record AccessKeyConfig := {
  ak_ReceiveKeys : list string; ak_SendKey : string;
  ak_SendKeyMode : string; ak_AcceptOnlyListedKeys : bool }.

Record RefineryTelemetryConfig := {
  tel_AddRuleReasonToTrace : bool; tel_AddSpanCountToRoot : option bool;
  tel_AddCountsToRoot : bool; tel_AddHostMetadataToTrace : option bool }.

Record TracesConfig := {
  tc_SendDelay : Z; tc_BatchTimeout : Z; tc_TraceTimeout : Z; tc_MaxBatchSize : Z;
  tc_SendTicker : Z; tc_SpanLimit : Z; tc_MaxExpiredTraces : Z }.

Record DebuggingConfig := {
  dbg_DebugServiceAddr : string; dbg_QueryAuthToken : string;
  dbg_AdditionalErrorFields : list string; dbg_DryRun : bool }.

Record CollectionConfig := {
  col_PeerQueueSize : Z; col_IncomingQueueSize : Z; col_AvailableMemory : Z;
  col_HealthCheckTimeout : Z; col_MaxMemoryPercentage : Z; col_MaxAlloc : Z;
  col_ShutdownDelay : Z; col_WorkerCount : Z }.

Record SpecializedConfig := {
  spc_EnvironmentCacheTTL : Z; spc_CompressPeerCommunication : option bool;
  spc_AdditionalAttributes : gmap string string }.

Record IDFieldsConfig := { id_TraceNames : list string; id_ParentNames : list string }.

Record SampleCacheConfig := {
  sc_KeptSize : Z; sc_DroppedSize : Z; sc_SizeCheckInterval : Z; sc_WorkerCount : Z }.

Record StressReliefConfig := {
  sr_Mode : string; sr_ActivationLevel : Z; sr_DeactivationLevel : Z;
  sr_SamplingRate : Z; sr_MinimumActivationDuration : Z }.

(** The sections the modelled components read. *)
Record configContents := {
  General : GeneralConfig; Network : NetworkConfig; AccessKeys : AccessKeyConfig;
  Telemetry : RefineryTelemetryConfig; Traces : TracesConfig; Debugging : DebuggingConfig;
  Collection : CollectionConfig; Specialized : SpecializedConfig; IDFieldNames : IDFieldsConfig;
  SampleCache : SampleCacheConfig; StressRelief : StressReliefConfig }.

Record V2SamplerConfig := { v2_RulesVersion : Z; v2_Samplers : gmap string V2SamplerChoice }.

(** ** Access keys *)

(** The bytes of the first rune of a string: a valid UTF-8 sequence, or one byte. *)
Definition rune_width (s : string) : nat :=
  let code c := Z.of_N (Ascii.N_of_ascii c) in
  let between lo hi c := (lo <=? code c) && (code c <=? hi) in
  let cont := between 128 191 in
  match s with
  | EmptyString => O
  | String a s1 =>
      match s1 with
      | String b s2 =>
          if between 194 223 a && cont b then 2%nat
          else match s2 with
               | String c s3 =>
                   if ((code a =? 224) && between 160 191 b || between 225 236 a && cont b
                       || (code a =? 237) && between 128 159 b || between 238 239 a && cont b)
                      && cont c then 3%nat
                   else match s3 with
                        | String d _ =>
                            if ((code a =? 240) && between 144 191 b || between 241 243 a && cont b
                                || (code a =? 244) && between 128 143 b) && cont c && cont d
                            then 4%nat else 1%nat
                        | EmptyString => 1%nat
                        end
               | EmptyString => 1%nat
               end
      | EmptyString => 1%nat
      end
  end.

(** fmt's [%.ns]: the first [n] runes. *)
Fixpoint truncate_runes (n : nat) (s : string) : string :=
  match n with
  | O => ""
  | S n => str_take (rune_width s) s +:+ truncate_runes n (str_drop (rune_width s) s)
  end.

Definition key_listed (a : AccessKeyConfig) (key : string) : bool := bool_decide (key ∈ ak_ReceiveKeys a).

(** [None]: accepted; [Some err]: the error. *)
Definition IsAccepted (a : AccessKeyConfig) (key : string) : option string :=
  if ak_AcceptOnlyListedKeys a then
    if ((0 <? String.length (ak_SendKey a))%nat && String.eqb key (ak_SendKey a)) || key_listed a key
    then None
    else Some ("api key " +:+ truncate_runes 8 key +:+ "... not found in list of authorized keys")
  else None.

Definition GetReplaceKey (a : AccessKeyConfig) (apiKey : string) : res string :=
  let apiKey :=
    if negb (String.eqb (ak_SendKey a) "") then
      let mode := ak_SendKeyMode a in
      let overwriteWith :=
        if String.eqb mode "none" then ""
        else if String.eqb mode "all" then ak_SendKey a
        else if String.eqb mode "nonblank" then
          if negb (String.eqb apiKey "") then ak_SendKey a else ""
        else if String.eqb mode "listedonly" then
          if key_listed a apiKey then ak_SendKey a else apiKey
        else if String.eqb mode "missingonly" then
          if String.eqb apiKey "" then ak_SendKey a else apiKey
        else if String.eqb mode "unlisted" then
          if negb (String.eqb apiKey "") then
            if negb (key_listed a apiKey) then ak_SendKey a else apiKey
          else ""
        else "" in
      if negb (String.eqb overwriteWith "") then overwriteWith else apiKey
    else apiKey in
  if String.eqb apiKey "" then Err "blank API key is not permitted with this configuration"
  else Ok apiKey.

Definition is_hex_lower (c : Ascii.ascii) : bool :=
  let n := Z.of_N (Ascii.N_of_ascii c) in ((48 <=? n) && (n <=? 57)) || ((97 <=? n) && (n <=? 102)).
Definition is_lower (c : Ascii.ascii) : bool :=
  let n := Z.of_N (Ascii.N_of_ascii c) in (97 <=? n) && (n <=? 122).
Definition is_alnum_lower (c : Ascii.ascii) : bool :=
  let n := Z.of_N (Ascii.N_of_ascii c) in ((48 <=? n) && (n <=? 57)) || is_lower c.

Definition IsLegacyAPIKey (key : string) : bool :=
  let keyLen := String.length key in
  if (keyLen =? 32)%nat then str_forallb is_hex_lower key
  else if (keyLen =? 64)%nat then
    if negb (String.eqb (str_take 2 key) "hc") || negb (String.eqb (str_take 3 (str_drop 3 key)) "ic_")
    then false
    else if negb (match String.get 2 key with Some c => is_lower c | None => false end) then false
    else str_forallb is_alnum_lower (str_drop 6 key)
  else false.

(** ** Key fields *)

(** slices.Compact: runs of equal elements become one. *)
Fixpoint Compact (l : list string) : list string :=
  match l with
  | x :: ((y :: _) as l') => if String.eqb x y then Compact l' else x :: Compact l'
  | _ => l
  end.

(** The two slices the loop fills: [root.] fields without their prefix, and the others;
    [None] where [field[0]] panics on an empty name. *)
Fixpoint split_fields (fields : list string) : option (list string * list string) :=
  match fields with
  | [] => Some ([], [])
  | field :: fields =>
      if String.eqb field "" then None
      else
        match split_fields fields with
        | None => None
        | Some (roots, nonroots) =>
            if HasPrefix field RootPrefix then
              Some (str_drop (String.length RootPrefix) field :: roots, nonroots)
            else if HasPrefix field ComputedFieldPrefix then Some (roots, nonroots)
            else Some (roots, field :: nonroots)
        end
  end.

Definition GetKeyFields (fields : list string) : option (list string * list string) :=
  match split_fields fields with
  | None => None
  | Some ([], nonroots) => Some (nonroots, nonroots)
  | Some (roots, nonroots) => Some (Compact (roots ++ nonroots), nonroots)
  end.

(** ** Values computed from the sections *)

(** A nil [*DefaultTrue] is true. *)
Definition DefaultTrue_Get (dt : option bool) : bool := default true dt.

Definition GetMaxAlloc (c : CollectionConfig) : Z :=
  if (col_AvailableMemory c =? 0) || (col_MaxMemoryPercentage c =? 0) then col_MaxAlloc c
  else u64 (col_AvailableMemory c * u64 (col_MaxMemoryPercentage c)) / 100.

(** [procs] is runtime.GOMAXPROCS(0). *)
Definition GetWorkerCount (procs : Z) (c : CollectionConfig) : Z :=
  Z.max (if col_WorkerCount c =? 0 then procs else col_WorkerCount c) 1.

(** The worker count is positive, so the truncating division does not panic. *)
Definition GetPeerQueueSizePerWorker (procs : Z) (c : CollectionConfig) : Z :=
  let numWorkers := GetWorkerCount procs c in
  Z.quot (s64 (s64 (col_PeerQueueSize c + numWorkers) - 1)) numWorkers.
Definition GetIncomingQueueSizePerWorker (procs : Z) (c : CollectionConfig) : Z :=
  let numWorkers := GetWorkerCount procs c in
  Z.quot (s64 (s64 (col_IncomingQueueSize c + numWorkers) - 1)) numWorkers.

Definition GetKeptSizePerWorker (s : SampleCacheConfig) : Z :=
  u64 (u64 (sc_KeptSize s + sc_WorkerCount s) - 1) / Z.max (sc_WorkerCount s) 1.
Definition GetDroppedSizePerWorker (s : SampleCacheConfig) : Z :=
  u64 (u64 (sc_DroppedSize s + sc_WorkerCount s) - 1) / Z.max (sc_WorkerCount s) 1.

(** ** The configuration object *)

(** A registered callback is known by its position; [calls] logs the calls made to them. *)
Record fileConfig := mkFileConfig {
  mainConfig : configContents;
  mainHash : string;
  rulesConfig : V2SamplerConfig;
  rulesHash : string;
  callbacks : list nat;
}.

Section Getters.
Context `{GoFloat, GoRegexp}.
Implicit Types f : fileConfig.

Definition GetDatasetPrefix f : string := gen_DatasetPrefix (General (mainConfig f)).
Definition GetHashes f : string * string := (mainHash f, rulesHash f).
Definition GetTracesConfig f : TracesConfig := Traces (mainConfig f).
Definition GetCollectionConfig f : CollectionConfig := Collection (mainConfig f).
Definition GetAccessKeyConfig f : AccessKeyConfig := AccessKeys (mainConfig f).
Definition GetSampleCacheConfig f : SampleCacheConfig := SampleCache (mainConfig f).
Definition GetStressReliefConfig f : StressReliefConfig := StressRelief (mainConfig f).
Definition GetHoneycombAPI f : string := net_HoneycombAPI (Network (mainConfig f)).
Definition GetAdditionalHeaders f : gmap string string := net_AdditionalHeaders (Network (mainConfig f)).
Definition GetIsDryRun f : bool := dbg_DryRun (Debugging (mainConfig f)).
Definition GetAdditionalErrorFields f : list string := dbg_AdditionalErrorFields (Debugging (mainConfig f)).
Definition GetAddHostMetadataToTrace f : bool :=
  DefaultTrue_Get (tel_AddHostMetadataToTrace (Telemetry (mainConfig f))).
Definition GetAddRuleReasonToTrace f : bool := tel_AddRuleReasonToTrace (Telemetry (mainConfig f)).
Definition GetAddSpanCountToRoot f : bool :=
  DefaultTrue_Get (tel_AddSpanCountToRoot (Telemetry (mainConfig f))).
Definition GetAddCountsToRoot f : bool := tel_AddCountsToRoot (Telemetry (mainConfig f)).
Definition GetAdditionalAttributes f : gmap string string := spc_AdditionalAttributes (Specialized (mainConfig f)).
Definition GetCompressPeerCommunication f : bool :=
  DefaultTrue_Get (spc_CompressPeerCommunication (Specialized (mainConfig f))).
Definition GetEnvironmentCacheTTL f : Z := spc_EnvironmentCacheTTL (Specialized (mainConfig f)).
Definition GetTraceIdFieldNames f : list string := id_TraceNames (IDFieldNames (mainConfig f)).
Definition GetParentIdFieldNames f : list string := id_ParentNames (IDFieldNames (mainConfig f)).
Definition GetQueryAuthToken f : string := dbg_QueryAuthToken (Debugging (mainConfig f)).

Definition DetermineSamplerKey f (apiKey env dataset : string) : string :=
  if negb (IsLegacyAPIKey apiKey) then env
  else if negb (String.eqb (GetDatasetPrefix f) "") then GetDatasetPrefix f +:+ "." +:+ dataset
  else dataset.

Definition default_dest : string := "__default__".

Definition GetSamplingKeyFieldsForDestName f (samplerKey : string) : list string :=
  match v2_Samplers (rulesConfig f) !! samplerKey with
  | Some sampler => Choice_GetSamplingFields sampler
  | None =>
      match v2_Samplers (rulesConfig f) !! default_dest with
      | Some sampler => Choice_GetSamplingFields sampler
      | None => []
      end
  end.

Definition GetSamplerConfigForDestName f (destname : string) : option SamplerConfig * string :=
  match v2_Samplers (rulesConfig f) !! destname with
  | Some sampler => Sampler sampler
  | None =>
      match v2_Samplers (rulesConfig f) !! default_dest with
      | Some sampler => Sampler sampler
      | None => (None, "not found")
      end
  end.

(** The configuration after a write to what [GetSamplerConfigForDestName] returned. *)
Definition write_sampler (r : V2SamplerConfig) (destname : string) (c : SamplerConfig) : V2SamplerConfig :=
  let key := match v2_Samplers r !! destname with Some _ => destname | None => default_dest end in
  {| v2_RulesVersion := v2_RulesVersion r; v2_Samplers := alter (λ v, set_Sampler v c) key (v2_Samplers r) |}.
Definition set_sampler_config f (destname : string) (c : SamplerConfig) : fileConfig :=
  mkFileConfig (mainConfig f) (mainHash f) (write_sampler (rulesConfig f) destname c) (rulesHash f) (callbacks f).

Definition millisecond : Z := 1000000.

Definition GetHealthCheckTimeout f : Z :=
  let configured := col_HealthCheckTimeout (Collection (mainConfig f)) in
  let timeout :=
    if negb (tc_MaxExpiredTraces (Traces (mainConfig f)) =? 0)
    then s64 (s64 (s64 (tc_MaxExpiredTraces (Traces (mainConfig f))) * millisecond) * 5) else 0 in
  if configured <? timeout then timeout else configured.

Definition RegisterReloadCallback f (cb : nat) : fileConfig :=
  mkFileConfig (mainConfig f) (mainHash f) (rulesConfig f) (rulesHash f) (callbacks f ++ [cb]).
End Getters.

(** ** Reload *)

Section Reload.
(** The contents of a file, and the diagnostics of its validation. *)
Context {configData ValidationResult : Type}.
Variable IsError : ValidationResult → bool.
(** One reading of the configured locations: the configuration and the rules. *)
Variable newConfigAndRules : res (list configData * list configData).
Variable NoValidate : bool.
Variable validateConfigs : list configData → res (list ValidationResult).
Variable validateRules : list configData → res (list ValidationResult).
Variable applyConfig : list configData → res (configContents * string).
Variable applyRules : list configData → res (V2SamplerConfig * string).
Variable procs : Z.

Inductive load_error :=
| LoadFailed (e : string)
| FileConfigError (cfg rules : list ValidationResult).

Definition set_WorkerCount (c : configContents) : configContents :=
  let s := SampleCache c in
  {| General := General c; Network := Network c; AccessKeys := AccessKeys c;
     Telemetry := Telemetry c; Traces := Traces c; Debugging := Debugging c;
     Collection := Collection c; Specialized := Specialized c; IDFieldNames := IDFieldNames c;
     SampleCache := {| sc_KeptSize := sc_KeptSize s; sc_DroppedSize := sc_DroppedSize s;
                       sc_SizeCheckInterval := sc_SizeCheckInterval s;
                       sc_WorkerCount := GetWorkerCount procs (Collection c) |};
     StressRelief := StressRelief c |}.

(** Only the errors stop a load; [validated] is the warnings otherwise. *)
Definition validated (cData rulesData : list configData) : list ValidationResult + load_error :=
  if NoValidate then inl []
  else
    match validateConfigs cData with
    | Err e => inr (LoadFailed e)
    | Ok cfgResults =>
        match validateRules rulesData with
        | Err e => inr (LoadFailed e)
        | Ok ruleFails =>
            let cfgErrors := filter (λ r, IsError r = true) cfgResults in
            let cfgWarnings := filter (λ r, IsError r = false) cfgResults in
            if (0 <? length cfgErrors)%nat || existsb IsError ruleFails
            then inr (FileConfigError (cfgErrors ++ cfgWarnings) ruleFails)
            else inl cfgWarnings
        end
    end.

(** The configuration and the error are not exclusive: with warnings both are returned. *)
Definition newFileConfig (cData rulesData : list configData) : option fileConfig * option load_error :=
  match validated cData rulesData with
  | inr e => (None, Some e)
  | inl cfgWarnings =>
      match applyConfig cData with
      | Err e => (None, Some (LoadFailed e))
      | Ok (mainconf, mainhash) =>
          match applyRules rulesData with
          | Err e => (None, Some (LoadFailed e))
          | Ok (rulesconf, ruleshash) =>
              (Some (mkFileConfig (set_WorkerCount mainconf) mainhash rulesconf ruleshash []),
               match cfgWarnings with [] => None | _ => Some (FileConfigError cfgWarnings []) end)
          end
      end
  end.

(** [NewConfig] without the command's dump options. *)
Definition NewConfig : option fileConfig * option load_error :=
  match newConfigAndRules with
  | Err e => (None, Some (LoadFailed e))
  | Ok (cData, rData) => newFileConfig cData rData
  end.

(** [optData] is what the options add to the two lists read from the locations.  The result
    lists the calls of the callbacks, in order, each with the two new hashes. *)
Definition Reload (f : fileConfig) (optData : list configData * list configData)
    : fileConfig * list (nat * string * string) * option load_error :=
  match newConfigAndRules with
  | Err e => (f, [], Some (LoadFailed e))
  | Ok (cData, rData) =>
      match newFileConfig (cData ++ optData.1) (rData ++ optData.2) with
      | (_, Some e) => (f, [], Some e)
      | (None, None) => (f, [], None)
      | (Some cfg, None) =>
          if String.eqb (mainHash f) (mainHash cfg) && String.eqb (rulesHash f) (rulesHash cfg)
          then (f, [], None)
          else (mkFileConfig (mainConfig cfg) (mainHash cfg) (rulesConfig cfg) (rulesHash cfg) (callbacks f),
                (λ cb, (cb, mainHash cfg, rulesHash cfg)) <$> callbacks f, None)
      end
  end.
End Reload.

(** ** What the decisions guarantee *)

Section Keys.
(** What each mode makes of an incoming key, the configured [SendKey] being [send]. *)
Definition replaced (mode send key : string) (listed : bool) : string :=
  if String.eqb mode "all" then send
  else if String.eqb mode "nonblank" then if String.eqb key "" then "" else send
  else if String.eqb mode "listedonly" then if listed then send else key
  else if String.eqb mode "missingonly" then if String.eqb key "" then send else key
  else if String.eqb mode "unlisted" then if String.eqb key "" || listed then key else send
  else key.

(** A request's key, once replaced, is never blank: the result is the incoming key or the
    configured [SendKey] as the mode says, and a blank outcome is the error.  An accepted key is
    the send key or a listed one, unless all keys are accepted. *)
Theorem access_keys_correct (a : AccessKeyConfig) (key : string) :
  (let out := if String.eqb (ak_SendKey a) "" then key
              else replaced (ak_SendKeyMode a) (ak_SendKey a) key (key_listed a key) in
   GetReplaceKey a key =
     if String.eqb out "" then Err "blank API key is not permitted with this configuration" else Ok out) ∧
  (IsAccepted a key = None ↔
     ak_AcceptOnlyListedKeys a = false ∨ (key ≠ "" ∧ key = ak_SendKey a) ∨ key ∈ ak_ReceiveKeys a).
Proof.
  split.
  - cbv zeta. unfold GetReplaceKey, replaced.
    destruct (String.eqb_spec (ak_SendKey a) "") as [E|E]; simpl; [done|].
    destruct (String.eqb_spec (ak_SendKeyMode a) "none") as [->|]; [done|].
    apply String.eqb_neq in E. destruct (String.eqb key "") eqn:Ek, (key_listed a key);
      repeat (case_match; simpl); reflect_bools; simplify_eq; rewrite ?E in *; try done; congruence.
  - unfold IsAccepted, key_listed. destruct (ak_AcceptOnlyListedKeys a); [|naive_solver].
    case_match eqn:E; (split; [intros H|]); try done.
    + right. apply orb_prop in E as [[E1 E2]%andb_prop|E].
      * left. apply Nat.ltb_lt in E1. apply String.eqb_eq in E2 as ->.
        split; [|done]. destruct (ak_SendKey a); [simpl in E1; lia|done].
      * right. by apply bool_decide_eq_true in E.
    + apply orb_false_elim in E as [E1 E2]. apply bool_decide_eq_false in E2.
      intros [?|[[Hk ->]|?]]; [done| |done]. rewrite String.eqb_refl, andb_true_r in E1.
      destruct (ak_SendKey a); [done|]. by apply Nat.ltb_ge in E1; simpl in E1; lia.
Qed.
End Keys.

Section KeyFields.
Lemma elem_of_Compact x l : x ∈ Compact l ↔ x ∈ l.
Proof.
  induction l as [|a [|b l] IH]; [done..|].
  change (Compact (a :: b :: l)) with
    (if String.eqb a b then Compact (b :: l) else a :: Compact (b :: l)).
  destruct (String.eqb_spec a b) as [->|]; [set_solver|].
  rewrite !elem_of_cons, IH, elem_of_cons. done.
Qed.

Definition is_root_field (f : string) : bool := HasPrefix f RootPrefix.
Definition is_computed_field (f : string) : bool := HasPrefix f ComputedFieldPrefix.

Lemma root_not_computed f : is_root_field f = true → is_computed_field f = false.
Proof.
  unfold is_root_field, is_computed_field. rewrite HasPrefix_spec.
  by intros [r ->].
Qed.

Lemma split_fields_spec fields :
  "" ∉ fields →
  split_fields fields =
    Some (str_drop (String.length RootPrefix) <$> filter (λ f, is_root_field f = true) fields,
          filter (λ f, is_root_field f = false ∧ is_computed_field f = false) fields).
Proof.
  induction fields as [|f fields IH]; [done|]. intros Hne. cbn [split_fields].
  apply not_elem_of_cons in Hne as [Hf Hne].
  rewrite (proj2 (String.eqb_neq f "")) by congruence. rewrite IH by done.
  rewrite !filter_cons. unfold is_root_field, is_computed_field in *.
  destruct (HasPrefix f RootPrefix) eqn:E1.
  - rewrite decide_True by done. by rewrite decide_False by naive_solver.
  - rewrite decide_False by done. destruct (HasPrefix f ComputedFieldPrefix) eqn:E2.
    + by rewrite decide_False by naive_solver.
    + by rewrite decide_True by done.
Qed.

(** Key fields: on names that are not empty, [GetKeyFields] returns in order the names without
    the [root.] and [?.] prefixes, and beside them the set of the names a payload must provide:
    those and every [root.] name without its prefix. *)
Theorem key_fields_correct (fields : list string) :
  "" ∉ fields →
  ∃ allFields nonRootFields, GetKeyFields fields = Some (allFields, nonRootFields) ∧
    nonRootFields = filter (λ f, is_root_field f = false ∧ is_computed_field f = false) fields ∧
    (∀ f, f ∈ allFields ↔ f ∈ nonRootFields ∨ RootPrefix +:+ f ∈ fields).
Proof.
  intros Hne. unfold GetKeyFields. rewrite split_fields_spec by done.
  set (roots := _ <$> _). set (non := filter (λ f, is_root_field f = false ∧ _) fields).
  assert (Hr : ∀ f, f ∈ roots ↔ RootPrefix +:+ f ∈ fields).
  { intros f. unfold roots. rewrite list_elem_of_fmap. setoid_rewrite list_elem_of_filter.
    unfold is_root_field. split.
    - intros (g & -> & [r ->]%HasPrefix_spec & Hin). by rewrite str_drop_app.
    - intros Hin. exists (RootPrefix +:+ f). split_and!; [by rewrite str_drop_app| |done].
      apply HasPrefix_app. }
  destruct roots as [|r0 roots'] eqn:E.
  - exists non, non. split_and!; [done..|]. intros f. rewrite <-Hr. set_solver.
  - exists (Compact ((r0 :: roots') ++ non)), non. split_and!; [done..|].
    intros f. rewrite elem_of_Compact, elem_of_app, Hr. tauto.
Qed.
End KeyFields.

Section Capacity.
Lemma ceil_div_bounds size n :
  0 ≤ size → 1 ≤ n →
  size ≤ n * ((size + n - 1) / n) < size + n.
Proof.
  intros Hs Hn. pose proof (Z.div_mod (size + n - 1) n) as D.
  pose proof (Z.mod_pos_bound (size + n - 1) n). lia.
Qed.

(** The queues and caches shared out between the workers lose no capacity: there is at least
    one worker, and the per-worker sizes add up to at least the configured size and exceed it by
    less than one entry per worker. *)
Theorem worker_capacity procs (c : CollectionConfig) (s : SampleCacheConfig) :
  0 ≤ col_PeerQueueSize c < 2 ^ 62 → 0 ≤ col_IncomingQueueSize c < 2 ^ 62 →
  0 ≤ sc_KeptSize s < 2 ^ 62 → 0 ≤ sc_DroppedSize s < 2 ^ 62 →
  GetWorkerCount procs c < 2 ^ 62 → sc_WorkerCount s = GetWorkerCount procs c →
  let n := GetWorkerCount procs c in
  1 ≤ n ∧
  col_PeerQueueSize c ≤ n * GetPeerQueueSizePerWorker procs c < col_PeerQueueSize c + n ∧
  col_IncomingQueueSize c ≤ n * GetIncomingQueueSizePerWorker procs c < col_IncomingQueueSize c + n ∧
  sc_KeptSize s ≤ n * GetKeptSizePerWorker s < sc_KeptSize s + n ∧
  sc_DroppedSize s ≤ n * GetDroppedSizePerWorker s < sc_DroppedSize s + n.
Proof.
  intros Hp Hi Hk Hd Hn Hw. cbv zeta.
  unfold GetPeerQueueSizePerWorker, GetIncomingQueueSizePerWorker,
    GetKeptSizePerWorker, GetDroppedSizePerWorker. rewrite Hw.
  assert (1 ≤ GetWorkerCount procs c) by (unfold GetWorkerCount; lia).
  set (n := GetWorkerCount procs c) in *. rewrite (Z.max_l n 1) by lia.
  rewrite !s64_id by (unfold in_s64; rewrite ?s64_id by (unfold in_s64; lia); lia).
  rewrite !u64_id by (unfold in_u64; rewrite ?u64_id by (unfold in_u64; lia); lia).
  rewrite !Z.quot_div_nonneg by lia.
  split_and!; try lia; apply ceil_div_bounds; lia.
Qed.
End Capacity.

Section Samplers.
Context `{GoFloat, GoRegexp}.

(** The fields of the configuration a choice selects. *)
Definition Config_GetSamplingFields (c : SamplerConfig) : list string :=
  match c with
  | CfgDeterministic _ => []
  | CfgRulesBased c => (RulesBased_GetSamplingFields c).2
  | CfgDynamic c => dyn_FieldList c
  | CfgEMADynamic c => ema_FieldList c
  | CfgEMAThroughput c => emat_FieldList c
  | CfgWindowedThroughput c => win_FieldList c
  | CfgTotalThroughput c => tot_FieldList c
  end.

(** The fields memoized for a destination are those of the sampler used for it: an exact
    entry of the rules wins over [__default__], and the key fields are the sampling fields of
    the very configuration the sampler is built from (none when there is no sampler). *)
Theorem sampling_fields_agree (f : fileConfig) (dest : string) :
  GetSamplingKeyFieldsForDestName f dest =
    match (GetSamplerConfigForDestName f dest).1 with
    | Some c => Config_GetSamplingFields c
    | None => []
    end ∧
  (∀ choice, v2_Samplers (rulesConfig f) !! dest = Some choice →
     GetSamplerConfigForDestName f dest = Sampler choice) ∧
  (v2_Samplers (rulesConfig f) !! dest = None →
     GetSamplerConfigForDestName f dest =
       match v2_Samplers (rulesConfig f) !! default_dest with
       | Some choice => Sampler choice | None => (None, "not found") end).
Proof.
  unfold GetSamplingKeyFieldsForDestName, GetSamplerConfigForDestName.
  assert (Hc : ∀ c, Choice_GetSamplingFields c =
    match (Sampler c).1 with Some c => Config_GetSamplingFields c | None => [] end).
  { intros [[] [] [] [] [] [] []]; reflexivity. }
  destruct (_ !! dest) as [c|]; [|destruct (_ !! default_dest) as [c|]];
    split_and!; rewrite ?Hc; naive_solver.
Qed.
End Samplers.

Section ReloadCorrect.
Context {configData VR : Type} (IsError : VR → bool)
  (read : res (list configData * list configData)) (NoValidate : bool)
  (vC vR : list configData → res (list VR))
  (aC : list configData → res (configContents * string))
  (aR : list configData → res (V2SamplerConfig * string)) (procs : Z).

(** A reload is all or nothing: on an error, or when neither hash changed, the configuration in
    use stays as it is and no callback runs; otherwise both halves are those of one successful
    load, validated without any finding, and every registered callback is called once, in the
    order of registration, with the hashes now in force. *)
Theorem reload_atomic (f : fileConfig) opts :
  match Reload IsError read NoValidate vC vR aC aR procs f opts with
  | (f', calls, Some _) => f' = f ∧ calls = []
  | (f', calls, None) =>
      (f' = f ∧ calls = [])
      ∨ ∃ cData rData cfg, read = Ok (cData, rData) ∧
          newFileConfig IsError NoValidate vC vR aC aR procs (cData ++ opts.1) (rData ++ opts.2) = (Some cfg, None) ∧
          GetHashes f' ≠ GetHashes f ∧ GetHashes f' = GetHashes cfg ∧
          mainConfig f' = mainConfig cfg ∧ rulesConfig f' = rulesConfig cfg ∧
          callbacks f' = callbacks f ∧
          calls = (λ cb, (cb, (GetHashes f').1, (GetHashes f').2)) <$> callbacks f
  end.
Proof.
  unfold Reload. destruct read as [[cData rData]|e]; [|done].
  destruct (newFileConfig _ _ _ _ _ _ _ _ _) as [[cfg|] [e|]] eqn:E; [done| |done|by left].
  destruct (String.eqb_spec (mainHash f) (mainHash cfg)) as [E1|E1];
    destruct (String.eqb_spec (rulesHash f) (rulesHash cfg)) as [E2|E2]; simpl;
    try (right; exists cData, rData, cfg; unfold GetHashes; simpl; split_and!;
         [done|done|congruence|done..]).
  by left.
Qed.
End ReloadCorrect.

(** ** Concrete instances *)

Module ConfigExamples.
Definition coll : CollectionConfig := {|
  col_PeerQueueSize := 30000; col_IncomingQueueSize := 100; col_AvailableMemory := 0;
  col_HealthCheckTimeout := 0; col_MaxMemoryPercentage := 75; col_MaxAlloc := 0;
  col_ShutdownDelay := 0; col_WorkerCount := 7 |}.
Definition cache : SampleCacheConfig := {|
  sc_KeptSize := 10000; sc_DroppedSize := 1000000; sc_SizeCheckInterval := 0; sc_WorkerCount := 7 |}.

Lemma key_fields_correct_witness :
  GetKeyFields ["root.service"; "http.status"; "?.NUM_DESCENDANTS"; "http.status"]
    = Some (["service"; "http.status"], ["http.status"; "http.status"]) ∧
  ∃ allFields nonRootFields,
    GetKeyFields ["root.service"; "http.status"; "?.NUM_DESCENDANTS"; "http.status"]
      = Some (allFields, nonRootFields) ∧
    nonRootFields = ["http.status"; "http.status"].
Proof.
  split; [by vm_compute|].
  destruct (key_fields_correct ["root.service"; "http.status"; "?.NUM_DESCENDANTS"; "http.status"])
    as (a & n & E & En & _); [set_solver|].
  exists a, n. split; [exact E|]. rewrite En. by vm_compute.
Defined.

Lemma worker_capacity_witness :
  GetPeerQueueSizePerWorker 4 coll = 4286 ∧ GetDroppedSizePerWorker cache = 142858 ∧
  1 ≤ GetWorkerCount 4 coll.
Proof.
  split; [by vm_compute|split; [by vm_compute|]].
  apply (worker_capacity 4 coll cache); vm_compute; repeat split; discriminate.
Defined.
End ConfigExamples.
