(* ===== verification/Payload.v ===== *)
(** types/payload.go, types/msgp_payload_map.go: the fields of an event.

    A [Payload] is conceptually a map from names to values; it is kept as the MessagePack bytes it
    arrived in ([msgpData]), the values decoded from them or set since ([memoizedFields]), the
    names known not to be there ([missingFields]), and a struct field for each of the metadata
    fields.  The MessagePack library is the class [Msgp].  Go iterates over [memoizedFields] and
    [metadataFields] in no fixed order: [map_to_list]'s order is taken, and [MarshalMsg_in] and
    [extract_memoized] are given the order as an argument.  A map that is [nil] and an empty one
    behave alike here and are not told apart. *)
From Stdlib Require Import SpecFloat Ascii.
From S2P Require Import Prelude GoValue Msgp Event SamplerConfig Config.

(** ** The metadata fields *)

Record nullableBool := mkNullable { nb_HasValue : bool; nb_Value : bool }.
Definition nb_Set (v : bool) : nullableBool := mkNullable true v.
Definition unset : nullableBool := mkNullable false false.

Record MetaFields := mkMeta {
  f_SignalType : string;
  f_TraceID : string;
  f_AnnotationType : string;
  f_RefineryProbe : nullableBool;
  f_RefineryRoot : nullableBool;
  f_RefineryIncomingUserAgent : string;
  f_RefineryLocalHostname : string;
  f_Stressed : nullableBool;
  f_RefineryReason : string;
  f_RefinerySendReason : string;
  f_SpanEventCount : Z;
  f_SpanLinkCount : Z;
  f_SpanCount : Z;
  f_EventCount : Z;
  f_RefineryOriginalSampleRate : Z;
  f_RefineryFinalSampleRate : Z;
  f_RefinerySampleKey : string;
}.

Definition set_SignalType (m : MetaFields) (v : string) : MetaFields :=
  let 'mkMeta _ x1 x2 x3 x4 x5 x6 x7 x8 x9 x10 x11 x12 x13 x14 x15 x16 := m in
  mkMeta v x1 x2 x3 x4 x5 x6 x7 x8 x9 x10 x11 x12 x13 x14 x15 x16.
Definition set_TraceID (m : MetaFields) (v : string) : MetaFields :=
  let 'mkMeta x0 _ x2 x3 x4 x5 x6 x7 x8 x9 x10 x11 x12 x13 x14 x15 x16 := m in
  mkMeta x0 v x2 x3 x4 x5 x6 x7 x8 x9 x10 x11 x12 x13 x14 x15 x16.
Definition set_AnnotationType (m : MetaFields) (v : string) : MetaFields :=
  let 'mkMeta x0 x1 _ x3 x4 x5 x6 x7 x8 x9 x10 x11 x12 x13 x14 x15 x16 := m in
  mkMeta x0 x1 v x3 x4 x5 x6 x7 x8 x9 x10 x11 x12 x13 x14 x15 x16.
Definition set_RefineryProbe (m : MetaFields) (v : nullableBool) : MetaFields :=
  let 'mkMeta x0 x1 x2 _ x4 x5 x6 x7 x8 x9 x10 x11 x12 x13 x14 x15 x16 := m in
  mkMeta x0 x1 x2 v x4 x5 x6 x7 x8 x9 x10 x11 x12 x13 x14 x15 x16.
Definition set_RefineryRoot (m : MetaFields) (v : nullableBool) : MetaFields :=
  let 'mkMeta x0 x1 x2 x3 _ x5 x6 x7 x8 x9 x10 x11 x12 x13 x14 x15 x16 := m in
  mkMeta x0 x1 x2 x3 v x5 x6 x7 x8 x9 x10 x11 x12 x13 x14 x15 x16.
Definition set_RefineryIncomingUserAgent (m : MetaFields) (v : string) : MetaFields :=
  let 'mkMeta x0 x1 x2 x3 x4 _ x6 x7 x8 x9 x10 x11 x12 x13 x14 x15 x16 := m in
  mkMeta x0 x1 x2 x3 x4 v x6 x7 x8 x9 x10 x11 x12 x13 x14 x15 x16.
Definition set_RefineryLocalHostname (m : MetaFields) (v : string) : MetaFields :=
  let 'mkMeta x0 x1 x2 x3 x4 x5 _ x7 x8 x9 x10 x11 x12 x13 x14 x15 x16 := m in
  mkMeta x0 x1 x2 x3 x4 x5 v x7 x8 x9 x10 x11 x12 x13 x14 x15 x16.
Definition set_Stressed (m : MetaFields) (v : nullableBool) : MetaFields :=
  let 'mkMeta x0 x1 x2 x3 x4 x5 x6 _ x8 x9 x10 x11 x12 x13 x14 x15 x16 := m in
  mkMeta x0 x1 x2 x3 x4 x5 x6 v x8 x9 x10 x11 x12 x13 x14 x15 x16.
Definition set_RefineryReason (m : MetaFields) (v : string) : MetaFields :=
  let 'mkMeta x0 x1 x2 x3 x4 x5 x6 x7 _ x9 x10 x11 x12 x13 x14 x15 x16 := m in
  mkMeta x0 x1 x2 x3 x4 x5 x6 x7 v x9 x10 x11 x12 x13 x14 x15 x16.
Definition set_RefinerySendReason (m : MetaFields) (v : string) : MetaFields :=
  let 'mkMeta x0 x1 x2 x3 x4 x5 x6 x7 x8 _ x10 x11 x12 x13 x14 x15 x16 := m in
  mkMeta x0 x1 x2 x3 x4 x5 x6 x7 x8 v x10 x11 x12 x13 x14 x15 x16.
Definition set_SpanEventCount (m : MetaFields) (v : Z) : MetaFields :=
  let 'mkMeta x0 x1 x2 x3 x4 x5 x6 x7 x8 x9 _ x11 x12 x13 x14 x15 x16 := m in
  mkMeta x0 x1 x2 x3 x4 x5 x6 x7 x8 x9 v x11 x12 x13 x14 x15 x16.
Definition set_SpanLinkCount (m : MetaFields) (v : Z) : MetaFields :=
  let 'mkMeta x0 x1 x2 x3 x4 x5 x6 x7 x8 x9 x10 _ x12 x13 x14 x15 x16 := m in
  mkMeta x0 x1 x2 x3 x4 x5 x6 x7 x8 x9 x10 v x12 x13 x14 x15 x16.
Definition set_SpanCount (m : MetaFields) (v : Z) : MetaFields :=
  let 'mkMeta x0 x1 x2 x3 x4 x5 x6 x7 x8 x9 x10 x11 _ x13 x14 x15 x16 := m in
  mkMeta x0 x1 x2 x3 x4 x5 x6 x7 x8 x9 x10 x11 v x13 x14 x15 x16.
Definition set_EventCount (m : MetaFields) (v : Z) : MetaFields :=
  let 'mkMeta x0 x1 x2 x3 x4 x5 x6 x7 x8 x9 x10 x11 x12 _ x14 x15 x16 := m in
  mkMeta x0 x1 x2 x3 x4 x5 x6 x7 x8 x9 x10 x11 x12 v x14 x15 x16.
Definition set_RefineryOriginalSampleRate (m : MetaFields) (v : Z) : MetaFields :=
  let 'mkMeta x0 x1 x2 x3 x4 x5 x6 x7 x8 x9 x10 x11 x12 x13 _ x15 x16 := m in
  mkMeta x0 x1 x2 x3 x4 x5 x6 x7 x8 x9 x10 x11 x12 x13 v x15 x16.
Definition set_RefineryFinalSampleRate (m : MetaFields) (v : Z) : MetaFields :=
  let 'mkMeta x0 x1 x2 x3 x4 x5 x6 x7 x8 x9 x10 x11 x12 x13 x14 _ x16 := m in
  mkMeta x0 x1 x2 x3 x4 x5 x6 x7 x8 x9 x10 x11 x12 x13 x14 v x16.
Definition set_RefinerySampleKey (m : MetaFields) (v : string) : MetaFields :=
  let 'mkMeta x0 x1 x2 x3 x4 x5 x6 x7 x8 x9 x10 x11 x12 x13 x14 x15 _ := m in
  mkMeta x0 x1 x2 x3 x4 x5 x6 x7 x8 x9 x10 x11 x12 x13 x14 x15 v.

(** What a helper like [stringField] captures is a pointer to one field of the struct: a getter
    and a setter. *)
Inductive metadataField :=
| stringField (get : MetaFields → string) (set : MetaFields → string → MetaFields)
| boolField (get : MetaFields → nullableBool) (set : MetaFields → nullableBool → MetaFields)
| int64Field (get : MetaFields → Z) (set : MetaFields → Z → MetaFields).

Definition no_meta : MetaFields :=
  mkMeta "" "" "" unset unset "" "" unset "" "" 0 0 0 0 0 0 "".

Definition metadata_table : list (string * metadataField) :=
  [(MetaSignalType, stringField f_SignalType set_SignalType);
   (MetaTraceID, stringField f_TraceID set_TraceID);
   (MetaAnnotationType, stringField f_AnnotationType set_AnnotationType);
   (MetaRefineryProbe, boolField f_RefineryProbe set_RefineryProbe);
   (MetaRefineryRoot, boolField f_RefineryRoot set_RefineryRoot);
   (MetaRefineryIncomingUserAgent, stringField f_RefineryIncomingUserAgent set_RefineryIncomingUserAgent);
   (MetaRefineryLocalHostname, stringField f_RefineryLocalHostname set_RefineryLocalHostname);
   (MetaStressed, boolField f_Stressed set_Stressed);
   (MetaRefineryReason, stringField f_RefineryReason set_RefineryReason);
   (MetaRefinerySendReason, stringField f_RefinerySendReason set_RefinerySendReason);
   (MetaSpanEventCount, int64Field f_SpanEventCount set_SpanEventCount);
   (MetaSpanLinkCount, int64Field f_SpanLinkCount set_SpanLinkCount);
   (MetaSpanCount, int64Field f_SpanCount set_SpanCount);
   (MetaEventCount, int64Field f_EventCount set_EventCount);
   (MetaRefineryOriginalSampleRate, int64Field f_RefineryOriginalSampleRate set_RefineryOriginalSampleRate);
   (MetaRefineryFinalSampleRate, int64Field f_RefineryFinalSampleRate set_RefineryFinalSampleRate);
   (MetaRefinerySampleKey, stringField f_RefinerySampleKey set_RefinerySampleKey)].

Definition metadataFields : gmap string metadataField := list_to_map metadata_table.
#[global] Opaque metadataFields.

(** The value and [true], or nothing. *)
Definition field_get (f : metadataField) (m : MetaFields) : option value :=
  match f with
  | stringField get _ => if String.eqb (get m) "" then None else Some (VString (get m))
  | boolField get _ => if nb_HasValue (get m) then Some (VBool (nb_Value (get m))) else None
  | int64Field get _ => if get m =? 0 then None else Some (VInt64 (get m))
  end.

(** A value of another type is ignored. *)
Definition field_set (f : metadataField) (m : MetaFields) (v : value) : MetaFields :=
  match f, v with
  | stringField _ set, VString s => set m s
  | boolField _ set, VBool b => set m (nb_Set b)
  | int64Field _ set, VInt64 z => set m z
  | _, _ => m
  end.

Definition field_exist (f : metadataField) (m : MetaFields) : bool :=
  match f with
  | stringField get _ => negb (String.eqb (get m) "")
  | boolField get _ => nb_HasValue (get m)
  | int64Field get _ => negb (get m =? 0)
  end.

Section Fields.
Context `{!Msgp}.

(** The key and the value, if there is one. *)
Definition appendMsgp (key : string) (f : metadataField) (m : MetaFields) : option string :=
  match f with
  | stringField get _ => if String.eqb (get m) "" then None else Some (AppendString key +:+ AppendString (get m))
  | boolField get _ => if nb_HasValue (get m) then Some (AppendString key +:+ AppendBool (nb_Value (get m))) else None
  | int64Field get _ => if get m =? 0 then None else Some (AppendString key +:+ AppendInt64 (get m))
  end.

Definition unmarshalMsgp (f : metadataField) (m : MetaFields) (d : string) : res (MetaFields * string) :=
  match f with
  | stringField _ set => let! (s, d) := ReadStringBytes d in Ok (set m s, d)
  | boolField _ set => let! (b, d) := ReadBoolBytes d in Ok (set m (nb_Set b), d)
  | int64Field _ set => let! (z, d) := ReadInt64Bytes d in Ok (set m z, d)
  end.

(** The switch on the field's expected type. *)
Definition typeIsCorrect (f : metadataField) (t : msgpType) : bool :=
  match f with
  | stringField _ _ => bool_decide (t ∈ [StrType; BinType])
  | boolField _ _ => bool_decide (t = BoolType)
  | int64Field _ _ => bool_decide (t ∈ [IntType; UintType])
  end.
End Fields.

(** ** The payload *)

Record Payload := mkPayload {
  msgpData : string;
  isEmpty : bool;
  memoizedFields : gmap string value;
  missingFields : list string;
  hasExtractedMetadata : bool;
  pl_config : option fileConfig;
  pl_meta : MetaFields }.

Implicit Types p : Payload.

Definition with_meta p (m : MetaFields) : Payload :=
  mkPayload (msgpData p) (isEmpty p) (memoizedFields p) (missingFields p) (hasExtractedMetadata p) (pl_config p) m.
Definition with_memo p (memo : gmap string value) : Payload :=
  mkPayload (msgpData p) (isEmpty p) memo (missingFields p) (hasExtractedMetadata p) (pl_config p) (pl_meta p).
Definition with_missing p (l : list string) : Payload :=
  mkPayload (msgpData p) (isEmpty p) (memoizedFields p) l (hasExtractedMetadata p) (pl_config p) (pl_meta p).
Definition with_data p (d : string) : Payload :=
  mkPayload d (isEmpty p) (memoizedFields p) (missingFields p) (hasExtractedMetadata p) (pl_config p) (pl_meta p).
Definition with_flags p (empty extracted : bool) : Payload :=
  mkPayload (msgpData p) empty (memoizedFields p) (missingFields p) extracted (pl_config p) (pl_meta p).
Definition set_Root p (b : nullableBool) : Payload := with_meta p (set_RefineryRoot (pl_meta p) b).

Definition NewPayload (config : option fileConfig) (data : gmap string value) : Payload :=
  mkPayload "" false data [] false config no_meta.

Definition Set_ p (key : string) (v : value) : Payload :=
  match metadataFields !! key with
  | Some f => with_meta p (field_set f (pl_meta p) v)
  | None => with_memo p (<[key := v]> (memoizedFields p))
  end.

(** ** Reading the map of an event as it arrives *)

Section Extract.
Context `{!Msgp}.

Definition meta_field (key : string) : option metadataField :=
  if HasPrefix key "meta." then metadataFields !! key else None.

(** "Try to handle as a metadata field": the rest of the input, or [None] when it is not one. *)
Definition try_meta p (key d : string) : res (option (Payload * string)) :=
  match meta_field key with
  | Some f =>
      if typeIsCorrect f (NextType d)
      then let! (m, d) := unmarshalMsgp f (pl_meta p) d in Ok (Some (with_meta p m, d))
      else Ok None
  | None => Ok None
  end.

(** "Handle special trace ID and parent ID fields". *)
Definition try_ids (ids parents : list string) p (key d : string) : res (option (Payload * string)) :=
  if bool_decide (NextType d = StrType) then
    if String.eqb (f_TraceID (pl_meta p)) "" && bool_decide (key ∈ ids) then
      let! (s, d) := ReadStringBytes d in Ok (Some (with_meta p (set_TraceID (pl_meta p) s), d))
    else if bool_decide (key ∈ parents) then
      let! (s, d) := ReadStringBytes d in
      Ok (Some (if negb (String.eqb s "") then set_Root p (nb_Set false) else p, d))
    else Ok None
  else Ok None.

(** "Check if the key matches any of the key fields". *)
Definition try_key (keys : list string) (keysFound : nat) p (key d : string) : res (option (Payload * string)) :=
  if (keysFound <? length keys)%nat && bool_decide (key ∈ keys) && bool_decide (memoizedFields p !! key = None) then
    let! (v, d) := ReadIntfBytes d in Ok (Some (Set_ p key v, d))
  else Ok None.

(** One entry of the map: the payload, the number of key fields found so far, the rest. *)
Definition extract_entry (ids parents keys : list string) (keysFound : nat) p (d : string)
    : res (Payload * nat * string) :=
  let! (key, d) := ReadMapKeyZC d in
  let! m := try_meta p key d in
  match m with
  | Some (p, d) => Ok (p, keysFound, d)
  | None =>
      let! i := try_ids ids parents p key d in
      match i with
      | Some (p, d) => Ok (p, keysFound, d)
      | None =>
          let! k := try_key keys keysFound p key d in
          match k with
          | Some (p, d) => Ok (p, S keysFound, d)
          | None => let! d := Skip d in Ok (p, keysFound, d)
          end
      end
  end.

Fixpoint extract_entries (ids parents keys : list string) (n : nat) (keysFound : nat) p (d : string)
    : res (Payload * nat * string) :=
  match n with
  | O => Ok (p, keysFound, d)
  | S n =>
      let! (p, keysFound, d) := extract_entry ids parents keys keysFound p d in
      extract_entries ids parents keys n keysFound p d
  end.

(** "A log message cannot be a root span". *)
Definition log_not_root p : Payload :=
  if String.eqb (f_SignalType (pl_meta p)) "log" then set_Root p unset else p.

Definition default_root p : Payload :=
  if nb_HasValue (f_RefineryRoot (pl_meta p)) then p else set_Root p (nb_Set true).

Definition extractCriticalFieldsFromBytes p (data : string) (ids parents keys : list string)
    : res (Payload * nat) :=
  let p := default_root p in
  let! (mapSize, remaining) := ReadMapHeaderBytes data in
  let p := if mapSize =? 0 then with_flags p true (hasExtractedMetadata p) else p in
  let! (p, keysFound, remaining) := extract_entries ids parents keys (Z.to_nat mapSize) 0 p remaining in
  let p :=
    if (keysFound <? length keys)%nat
    then with_missing p (missingFields p ++ filter (λ k, memoizedFields p !! k = None) keys)
    else p in
  let p := log_not_root p in
  Ok (with_flags p (isEmpty p) true, (String.length data - String.length remaining)%nat).

Definition id_names p : list string * list string :=
  match pl_config p with
  | Some cfg => (GetTraceIdFieldNames cfg, GetParentIdFieldNames cfg)
  | None => ([], [])
  end.

(** The conversion of a number set from JSON; the default case sets the value as it is. *)
Definition meta_value `{GoFloat} (f : metadataField) (v : value) : value :=
  match f, v with
  | int64Field _ _, VFloat64 x => VInt64 (f64_to_int x)
  | int64Field _ _, VInt z => VInt64 z
  | _, _ => v
  end.

Definition extract_memoized_step `{GoFloat} (ids parents : list string) p (kv : string * value) : Payload :=
  match metadataFields !! kv.1 with
  | Some f => with_meta p (field_set f (pl_meta p) (meta_value f kv.2))
  | None =>
      if String.eqb (f_TraceID (pl_meta p)) "" && bool_decide (kv.1 ∈ ids) then
        match kv.2 with
        | VString s => if String.eqb s "" then p else with_meta p (set_TraceID (pl_meta p) s)
        | _ => p
        end
      else if bool_decide (kv.1 ∈ parents) then
        match kv.2 with VString s => if String.eqb s "" then p else set_Root p (nb_Set false) | _ => p end
      else p
  end.
Definition extract_memoized `{GoFloat} (ids parents : list string) p (entries : list (string * value)) : Payload :=
  foldl (extract_memoized_step ids parents) p entries.

Definition ExtractMetadata `{GoFloat} p : res Payload :=
  if hasExtractedMetadata p then Ok p
  else
    let p := default_root p in
    let '(ids, parents) := id_names p in
    let p := extract_memoized ids parents p (map_to_list (memoizedFields p)) in
    let! p :=
      if String.eqb (msgpData p) "" then Ok p
      else let! (p, _) := extractCriticalFieldsFromBytes p (msgpData p) ids parents [] in Ok p in
    let p := log_not_root p in
    Ok (with_flags p (isEmpty p) true).

(** ** CoreFieldsUnmarshaler *)

Record CoreFieldsUnmarshaler := mkCore {
  cu_traceIdFieldNames : list string; cu_parentIdFieldNames : list string; cu_samplingKeyFields : list string }.

(** [None] is the panic of [GetKeyFields] on an empty name. *)
Definition NewCoreFieldsUnmarshaler `{GoFloat, GoRegexp} (cfg : fileConfig) (APIKey Env Dataset : string) : option CoreFieldsUnmarshaler :=
  let samplerKey := DetermineSamplerKey cfg APIKey Env Dataset in
  (λ kf, mkCore (GetTraceIdFieldNames cfg) (GetParentIdFieldNames cfg) kf.1) <$>
    GetKeyFields (GetSamplingKeyFieldsForDestName cfg samplerKey).

Definition unmarshalMsgpEvent (cu : CoreFieldsUnmarshaler) (bts : string) p (keys : list string) : res Payload :=
  let! (p, _) := extractCriticalFieldsFromBytes p bts (cu_traceIdFieldNames cu) (cu_parentIdFieldNames cu) keys in
  Ok (with_data p bts).
Definition UnmarshalMsgpEventMetadataOnly cu bts p : res Payload := unmarshalMsgpEvent cu bts p [].
Definition UnmarshalMsgpEvent cu bts p : res Payload := unmarshalMsgpEvent cu bts p (cu_samplingKeyFields cu).

(** The payload and what follows it. *)
Definition UnmarshalMsgpFirstEvent (cu : CoreFieldsUnmarshaler) (bts : string) p : res (Payload * string) :=
  let! (p, consumed) :=
    extractCriticalFieldsFromBytes p bts (cu_traceIdFieldNames cu) (cu_parentIdFieldNames cu) (cu_samplingKeyFields cu) in
  Ok (with_data p (str_take consumed bts), str_drop consumed bts).

Definition UnmarshalMsgpack `{GoFloat} p (data : string) : res Payload := ExtractMetadata (with_data p data).

(** [None] is the panic on a nil configuration. *)
Definition UnmarshalMsg p (bts : string) : option (res (Payload * string)) :=
  (λ cfg,
    let! (p, consumed) :=
      extractCriticalFieldsFromBytes p bts (GetTraceIdFieldNames cfg) (GetParentIdFieldNames cfg) [] in
    Ok (with_data p (str_take consumed bts), str_drop consumed bts)) <$> pl_config p.
End Extract.

(** ** Iterating over the serialized map: types/msgp_payload_map.go *)

Inductive FieldType := FieldTypeUnknown | FieldTypeInt64 | FieldTypeFloat64 | FieldTypeString | FieldTypeBool | FieldTypeOther.

Definition msgpTypeToFieldType (t : msgpType) : res FieldType :=
  match t with
  | StrType | BinType => Ok FieldTypeString
  | IntType | UintType => Ok FieldTypeInt64
  | Float64Type | Float32Type | NumberType => Ok FieldTypeFloat64
  | BoolType => Ok FieldTypeBool
  | NilType | MapType | ArrayType | DurationType | ExtensionType | Complex64Type | Complex128Type | TimeType =>
      Ok FieldTypeOther
  | InvalidType => Err "msgpack: unknown msgp type"
  end.

Record msgpPayloadMapIter := mkIter { it_remaining : string; it_pendingValue : bool }.

Section Iterator.
Context `{!Msgp}.

Definition newMsgpPayloadMapIter (rawData : string) : res msgpPayloadMapIter :=
  if String.eqb rawData "" then Ok (mkIter "" false)
  else let! (n, remaining) := ReadMapHeaderBytes rawData in
       Ok (mkIter (if n <? 1 then "" else remaining) false).

(** The loops over an iterator end at the first error, so its state after one is not kept. *)
Definition nextKey (m : msgpPayloadMapIter) : res (string * FieldType * msgpPayloadMapIter) :=
  let! remaining := if it_pendingValue m then Skip (it_remaining m) else Ok (it_remaining m) in
  if String.eqb remaining "" then Err "EOF"
  else
    let! (key, remaining) := ReadMapKeyZC remaining in
    let! typ := msgpTypeToFieldType (NextType remaining) in
    Ok (key, typ, mkIter remaining true).

Definition valueAny (m : msgpPayloadMapIter) : res (value * msgpPayloadMapIter) :=
  if it_pendingValue m then
    let! (v, remaining) := ReadIntfBytes (it_remaining m) in Ok (v, mkIter remaining false)
  else Err "no pending value".

Definition valueSerializedBytesZC (m : msgpPayloadMapIter) : res (string * msgpPayloadMapIter) :=
  if it_pendingValue m then
    let! remainder := Skip (it_remaining m) in
    Ok (str_take (String.length (it_remaining m) - String.length remainder) (it_remaining m), mkIter remainder false)
  else Err "no pending value".

(** The search of [Exists] and [Get]: the iterator at the first entry of that name.  A key is
    at least one byte long, so the length of the data is enough fuel. *)
Fixpoint find_key (fuel : nat) (m : msgpPayloadMapIter) (key : string) : option msgpPayloadMapIter :=
  match fuel with
  | O => None
  | S fuel =>
      match nextKey m with
      | Err _ => None
      | Ok (k, _, m) => if String.eqb k key then Some m else find_key fuel m key
      end
  end.

Definition raw_key p (key : string) : option msgpPayloadMapIter :=
  match newMsgpPayloadMapIter (msgpData p) with
  | Err _ => None
  | Ok it => find_key (S (String.length (msgpData p))) it key
  end.

Definition Exists_ p (key : string) : bool :=
  match meta_field key with
  | Some f => field_exist f (pl_meta p)
  | None =>
      if bool_decide (is_Some (memoizedFields p !! key)) then true
      else if bool_decide (key ∈ missingFields p) then false
      else match raw_key p key with Some _ => true | None => false end
  end.

Definition Get p (key : string) : value :=
  match meta_field key with
  | Some f => default VNil (field_get f (pl_meta p))
  | None =>
      match memoizedFields p !! key with
      | Some v => v
      | None =>
          if bool_decide (key ∈ missingFields p) then VNil
          else match raw_key p key with
               | Some it => match valueAny it with Ok (v, _) => v | Err _ => VNil end
               | None => VNil
               end
      end
  end.

(** The loop of [MemoizeFields]: it stops when as many entries as names wanted were found. *)
Fixpoint memoize_loop (fuel : nat) (m : msgpPayloadMapIter) (keysToFind : gset string) (keysFound : nat) p : Payload :=
  match fuel with
  | O => p
  | S fuel =>
      if (keysFound <? size keysToFind)%nat then
        match nextKey m with
        | Err _ => p
        | Ok (k, _, m) =>
            if bool_decide (k ∈ keysToFind) then
              match valueAny m with
              | Err _ => p
              | Ok (v, m) => memoize_loop fuel m keysToFind (S keysFound) (Set_ p k v)
              end
            else memoize_loop fuel m keysToFind keysFound p
        end
      else p
  end.

Definition MemoizeFields p (keys : list string) : Payload :=
  let keysToFind : gset string :=
    list_to_set (filter (λ k, k ∉ missingFields p ∧ memoizedFields p !! k = None) keys) in
  if (size keysToFind =? 0)%nat then p
  else
    match newMsgpPayloadMapIter (msgpData p) with
    | Err _ => p
    | Ok it =>
        let p := memoize_loop (S (String.length (msgpData p))) it keysToFind 0 p in
        with_missing p (missingFields p ++ filter (λ k, memoizedFields p !! k = None) (elements keysToFind))
    end.

(** ** All, the size estimate, and serialization *)

Fixpoint all_loop (fuel : nat) (m : msgpPayloadMapIter) (memo : gmap string value) : list (string * value) :=
  match fuel with
  | O => []
  | S fuel =>
      match nextKey m with
      | Err _ => []
      | Ok (k, _, m) =>
          if bool_decide (is_Some (memo !! k)) || bool_decide (is_Some (metadataFields !! k)) then all_loop fuel m memo
          else match valueAny m with
               | Err _ => []
               | Ok (v, m) => (k, v) :: all_loop fuel m memo
               end
      end
  end.

Definition all_meta (m : MetaFields) : list (string * value) :=
  omap (λ kf : string * metadataField,
    if String.eqb kf.1 MetaTraceID then None
    else if String.eqb kf.1 MetaRefineryRoot && negb (nb_Value (f_RefineryRoot m)) then None
    else pair kf.1 <$> field_get kf.2 m) metadata_table.

Definition All p : list (string * value) :=
  all_meta (pl_meta p) ++
  filter (λ kv, metadataFields !! kv.1 = None) (map_to_list (memoizedFields p)) ++
  match newMsgpPayloadMapIter (msgpData p) with
  | Err _ => []
  | Ok it => all_loop (S (String.length (msgpData p))) it (memoizedFields p)
  end.

Fixpoint getByteSize (v : value) : Z :=
  match v with
  | VBool _ => 1
  | VFloat64 _ | VInt64 _ | VInt _ => 8
  | VString s | VBytes s => Z.of_nat (String.length s)
  | VList l => fold_right (λ v n, getByteSize v + n) 0 l
  | VMap m => fold_right (λ kv n, Z.of_nat (String.length kv.1) + getByteSize kv.2 + n) 0 m
  | VNil | VOther _ => 8
  end.

Definition GetDataSize_ p : Z :=
  Z.of_nat (String.length (msgpData p)) +
  foldr (λ kv n, Z.of_nat (String.length kv.1) + getByteSize kv.2 + n) 0 (map_to_list (memoizedFields p)).

(** The bytes of the metadata fields that have a value, and how many there are. *)
Definition marshal_meta (order : list (string * metadataField)) (m : MetaFields) : string * Z :=
  let l := omap (λ kf, appendMsgp kf.1 kf.2 m) order in (str_concat l, Z.of_nat (length l)).

Fixpoint marshal_memo (order : list (string * value)) : res (string * Z) :=
  match order with
  | [] => Ok ("", 0)
  | (k, v) :: order =>
      if bool_decide (is_Some (metadataFields !! k)) then marshal_memo order
      else
        let! b := AppendIntf v in
        let! (rest, n) := marshal_memo order in
        Ok (AppendString k +:+ b +:+ rest, n + 1)
  end.

Fixpoint marshal_raw (fuel : nat) (m : msgpPayloadMapIter) (memo : gmap string value) : res (string * Z) :=
  match fuel with
  | O => Ok ("", 0)
  | S fuel =>
      match nextKey m with
      | Err _ => Ok ("", 0)
      | Ok (k, _, m) =>
          if bool_decide (is_Some (memo !! k)) || bool_decide (is_Some (metadataFields !! k)) then marshal_raw fuel m memo
          else
            let! (raw, m) := valueSerializedBytesZC m in
            let! (rest, n) := marshal_raw fuel m memo in
            Ok (AppendString k +:+ raw +:+ rest, n + 1)
      end
  end.

(** The bytes appended to the buffer; the order in which Go iterates over its two maps is given. *)
Definition MarshalMsg_in (fields : list (string * metadataField)) (entries : list (string * value)) p : res string :=
  let '(meta, n) := marshal_meta fields (pl_meta p) in
  let! (memo, k) := marshal_memo entries in
  let! (raw, j) :=
    match newMsgpPayloadMapIter (msgpData p) with
    | Err _ => Ok ("", 0)
    | Ok it => marshal_raw (S (String.length (msgpData p))) it (memoizedFields p)
    end in
  let actualCount := n + k + j in
  if 65535 <? actualCount then Err "payload exceeds msgpack map16 limit of 65535"
  else Ok (String map16 (be 2 actualCount) +:+ meta +:+ memo +:+ raw).

Definition MarshalMsg p : res string := MarshalMsg_in metadata_table (map_to_list (memoizedFields p)) p.
End Iterator.

(** encoding/json on a map of values. *)
Class GoJSON := { json_Marshal : gmap string value → option string; json_Unmarshal : string → res (gmap string value) }.

Definition MarshalJSON `{!Msgp, !GoJSON} p : option string :=
  json_Marshal (delete MetaTraceID (foldl (λ m kv, <[kv.1 := kv.2]> m) ∅ (All p))).
Definition UnmarshalJSON `{!Msgp, !GoJSON, !GoFloat} p (data : string) : res Payload :=
  let! fields := json_Unmarshal data in ExtractMetadata (with_memo p fields).

(** ** The payload behind its interfaces *)

#[export] Instance payload_ops `{!Msgp, !GoJSON} : PayloadOps Payload := {|
  p_Exists := Exists_;
  p_Get := Get;
  p_Set := Set_;
  p_MemoizeFields := MemoizeFields;
  p_GetDataSize := GetDataSize_;
  p_MarshalJSON := MarshalJSON;
  p_MetaAnnotationType p := f_AnnotationType (pl_meta p) |}.

#[export] Instance payload_meta `{!Msgp, !GoFloat} : MetaOps Payload := {|
  p_ExtractMetadata := ExtractMetadata;
  p_MetaTraceID p := f_TraceID (pl_meta p);
  p_MetaRefineryRoot p := nb_Value (f_RefineryRoot (pl_meta p));
  p_MetaRefineryProbe p := nb_HasValue (f_RefineryProbe (pl_meta p)) && nb_Value (f_RefineryProbe (pl_meta p));
  p_SetProbe p := with_meta p (set_RefineryProbe (pl_meta p) (nb_Set true));
  p_MetaSignalType p := f_SignalType (pl_meta p);
  p_MetaUserAgent p := f_RefineryIncomingUserAgent (pl_meta p);
  p_SetUserAgent p s := with_meta p (set_RefineryIncomingUserAgent (pl_meta p) s);
  p_IsEmpty := isEmpty |}.
