(* ===== verification/PayloadFacts.v ===== *)
(** The payload as the map it stands for.

    [holds data es] says that [data] is the serialization of the entries [es]; [fields p es] is the
    map a payload over that data presents to the samplers and the collector, [wire p es] the map it
    sends.  The theorems: the operations of [Payload] are those of that map, what an arriving event
    presents is what its bytes say, and serialization followed by arrival on another node preserves
    the fields. *)
From Stdlib Require Import SpecFloat Ascii.
From stdpp Require Import fin_sets.
From S2P Require Import Prelude GoValue Msgp Event SamplerConfig Config Payload.

(** ** The metadata table *)

Lemma table_nodup : NoDup metadata_table.*1.
Proof. apply (bool_decide_unpack (NoDup _)). by vm_compute. Qed.

Lemma metadataFields_table k f : metadataFields !! k = Some f ↔ (k, f) ∈ metadata_table.
Proof. Transparent metadataFields. symmetry. apply elem_of_list_to_map, table_nodup. Qed.
Opaque metadataFields.

Lemma table_keys k f : (k, f) ∈ metadata_table → k ∈ metadata_table.*1.
Proof. intros Hin. by apply (list_elem_of_fmap_2 fst) in Hin. Qed.

Lemma table_prefix : Forall (λ k, HasPrefix k "meta." = true) metadata_table.*1.
Proof. repeat constructor. Qed.

Lemma meta_field_eq k : meta_field k = metadataFields !! k.
Proof.
  unfold meta_field. destruct (HasPrefix k "meta.") eqn:E; [done|]. symmetry.
  destruct (metadataFields !! k) as [f|] eqn:Ef; [|done].
  apply metadataFields_table, table_keys in Ef. pose proof table_prefix as Hp. rewrite Forall_forall in Hp.
  apply Hp in Ef. congruence.
Qed.

(** A getter reads what its setter wrote, and not what another's did. *)
Definition lens_ok (kf : string * metadataField) : Prop :=
  match kf.2 with
  | stringField get set => ∀ m v, get (set m v) = v
  | boolField get set => ∀ m v, get (set m v) = v
  | int64Field get set => ∀ m v, get (set m v) = v
  end.

Definition field_put (f : metadataField) (m : MetaFields) (s : string) (b : nullableBool) (z : Z) : MetaFields :=
  match f with
  | stringField _ set => set m s | boolField _ set => set m b | int64Field _ set => set m z
  end.

Lemma table_lens : Forall lens_ok metadata_table.
Proof. repeat (apply Forall_cons; split; [by intros [] ?|]). constructor. Qed.

Lemma table_apart :
  Forall (λ kf, Forall (λ kf', kf.1 ≠ kf'.1 →
    ∀ m s b z, field_get kf'.2 (field_put kf.2 m s b z) = field_get kf'.2 m) metadata_table) metadata_table.
Proof. repeat (apply Forall_cons; split; [repeat (apply Forall_cons; split; [by intros ? []|]); constructor|]). constructor. Qed.

Lemma field_set_put f m v : field_set f m v = m ∨ ∃ s b z, field_set f m v = field_put f m s b z.
Proof. destruct f, v; (by left) || (right; by repeat eexists). Unshelve. all: exact "" || exact unset || exact 0. Qed.

Lemma field_get_put_ne k k' f f' m s b z :
  metadataFields !! k = Some f → metadataFields !! k' = Some f' → k ≠ k' →
  field_get f' (field_put f m s b z) = field_get f' m.
Proof.
  intros Hf%metadataFields_table Hf'%metadataFields_table Hne. pose proof table_apart as Ha.
  rewrite Forall_forall in Ha. specialize (Ha _ Hf). rewrite Forall_forall in Ha. by apply (Ha _ Hf').
Qed.

Lemma field_get_set_ne k k' f f' m v :
  metadataFields !! k = Some f → metadataFields !! k' = Some f' → k ≠ k' →
  field_get f' (field_set f m v) = field_get f' m.
Proof.
  intros Hf Hf' Hne. destruct (field_set_put f m v) as [->|(s & b & z & ->)]; [done|].
  by apply (field_get_put_ne k k').
Qed.

(** The value a field takes: one of its type, and not its zero. *)
Definition storable (f : metadataField) (v : value) : Prop :=
  match f, v with
  | stringField _ _, VString s => s ≠ ""
  | boolField _ _, VBool _ => True
  | int64Field _ _, VInt64 z => z ≠ 0
  | _, _ => False
  end.

Lemma field_get_set_eq k f m v : metadataFields !! k = Some f → storable f v → field_get f (field_set f m v) = Some v.
Proof.
  intros Hf%metadataFields_table Hs. pose proof table_lens as Hl. rewrite Forall_forall in Hl.
  apply Hl in Hf. unfold lens_ok in Hf. simpl in Hf.
  destruct f as [get set|get set|get set], v as [|z|z|x|b|s|s|l|m'|o]; try done; simpl in *; rewrite Hf.
  - by apply String.eqb_neq in Hs as ->.
  - done.
  - by apply Z.eqb_neq in Hs as ->.
Qed.

(** What a field holds once it has been given a value: one of another type is ignored. *)
Definition stores (f : metadataField) (v : value) (old : option value) : option value :=
  match f, v with
  | stringField _ _, VString s => if String.eqb s "" then None else Some v
  | boolField _ _, VBool _ => Some v
  | int64Field _ _, VInt64 z => if z =? 0 then None else Some v
  | _, _ => old
  end.

Lemma field_get_set f k m v : metadataFields !! k = Some f → field_get f (field_set f m v) = stores f v (field_get f m).
Proof.
  intros Hf%metadataFields_table. pose proof table_lens as Hl. rewrite Forall_forall in Hl.
  apply Hl in Hf. unfold lens_ok in Hf. simpl in Hf.
  destruct f as [get set|get set|get set], v as [|z|z|x|b|s|s|l|m'|o]; simpl in *; by rewrite ?Hf.
Qed.

Lemma field_exist_get f m : field_exist f m = bool_decide (is_Some (field_get f m)).
Proof.
  destruct f as [get set|get set|get set]; simpl.
  - by destruct (String.eqb (get m) "").
  - by destruct (nb_HasValue (get m)).
  - by destruct (get m =? 0).
Qed.

(** ** Serialized entries *)

Implicit Types p : Payload.

Record entry := mkEntry { e_kb : string; e_key : string; e_raw : string }.

Definition entries_bytes (es : list entry) : string := str_concat ((λ e, e_kb e +:+ e_raw e) <$> es).

Lemma entries_bytes_cons e es : entries_bytes (e :: es) = e_kb e +:+ e_raw e +:+ entries_bytes es.
Proof. unfold entries_bytes. simpl. by rewrite str_app_assoc. Qed.

Section Entries.
Context `{!Msgp}.

Definition entry_ok (e : entry) : Prop :=
  e_kb e ≠ "" ∧ reads ReadMapKeyZC (e_kb e) (e_key e) ∧ e_raw e ≠ "" ∧ skips (e_raw e).

Definition holds (data : string) (es : list entry) : Prop :=
  Forall entry_ok es ∧
  (data = "" ∧ es = [] ∨
   ∃ hd, data = hd +:+ entries_bytes es ∧ hd ≠ "" ∧ reads ReadMapHeaderBytes hd (Z.of_nat (length es))).

Definition raw_val (e : entry) : value := match ReadIntfBytes (e_raw e) with Ok (v, _) => v | Err _ => VNil end.

(** The first entry of a name, and the entries after it. *)
Fixpoint raw_find (es : list entry) (key : string) : option (entry * list entry) :=
  match es with
  | [] => None
  | e :: es => if String.eqb (e_key e) key then Some (e, es) else raw_find es key
  end.
Definition raw_lookup (es : list entry) (key : string) : option value := (λ er, raw_val er.1) <$> raw_find es key.

(** The map a payload presents. *)
Definition fields p (es : list entry) (key : string) : option value :=
  match metadataFields !! key with
  | Some f => field_get f (pl_meta p)
  | None =>
      match memoizedFields p !! key with
      | Some v => Some v
      | None => if decide (key ∈ missingFields p) then None else raw_lookup es key
      end
  end.

(** The map it sends. *)
Definition wire p (es : list entry) (key : string) : option value :=
  match metadataFields !! key with
  | Some f => field_get f (pl_meta p)
  | None => match memoizedFields p !! key with Some v => Some v | None => raw_lookup es key end
  end.
End Entries.

Section Facts.
Context `{!Msgp, !MsgpLaws}.
Implicit Types (es : list entry) (e : entry) (it : msgpPayloadMapIter).

Lemma str_ne_app (a b : string) : a ≠ "" → a +:+ b ≠ "".
Proof. by destruct a. Qed.

Lemma str_eqb_ne s : s ≠ "" → String.eqb s "" = false.
Proof. apply String.eqb_neq. Qed.

Lemma type_app raw rest : raw ≠ "" → skips raw → NextType (raw +:+ rest) = NextType raw.
Proof. apply type_object. Qed.

Lemma field_type_ok t : t ≠ InvalidType → ∃ ft, msgpTypeToFieldType t = Ok ft.
Proof. destruct t; simpl; eauto; done. Qed.

(** *** The iterator stands before the entries [es] *)

Inductive it_at : msgpPayloadMapIter → list entry → Prop :=
| at_key es : it_at (mkIter (entries_bytes es) false) es
| at_value raw es : raw ≠ "" → skips raw → it_at (mkIter (raw +:+ entries_bytes es) true) es.

Lemma nextKey_at it es :
  it_at it es → Forall entry_ok es →
  match es with
  | [] => nextKey it = Err "EOF"
  | e :: es' => ∃ ft, nextKey it = Ok (e_key e, ft, mkIter (e_raw e +:+ entries_bytes es') true)
  end.
Proof.
  intros Hat Hok.
  assert (E : nextKey it = nextKey (mkIter (entries_bytes es) false)).
  { destruct Hat as [es|raw es Hne Hs]; [done|]. unfold nextKey. simpl. by rewrite Hs. }
  rewrite E. unfold nextKey. simpl. destruct es as [|e es]; [done|].
  apply Forall_cons in Hok as [(Hk & Hr & Hv & Hs) _]. rewrite entries_bytes_cons.
  rewrite str_eqb_ne by by apply str_ne_app. rewrite (Hr (e_raw e +:+ entries_bytes es)). simpl.
  rewrite type_app by done. destruct (field_type_ok (NextType (e_raw e))) as [ft ->]; [by apply type_valid|].
  eauto.
Qed.

(** The result of reading the value of an entry the iterator has just given. *)
Lemma valueAny_at e es v :
  reads ReadIntfBytes (e_raw e) v →
  valueAny (mkIter (e_raw e +:+ entries_bytes es) true) = Ok (v, mkIter (entries_bytes es) false).
Proof. intros Hr. unfold valueAny. simpl. by rewrite (Hr (entries_bytes es)). Qed.

Lemma valueAny_val e es :
  skips (e_raw e) →
  match valueAny (mkIter (e_raw e +:+ entries_bytes es) true) with Ok (v, _) => v | Err _ => VNil end = raw_val e.
Proof.
  intros Hs. unfold valueAny, raw_val. simpl.
  destruct (ReadIntfBytes (e_raw e +:+ entries_bytes es)) as [[v r]|err] eqn:E; simpl.
  - destruct (reads_rest _ _ _ _ _ intf_object Hs E) as [_ Hr]. specialize (Hr "").
    rewrite str_app_nil_r in Hr. by rewrite Hr.
  - destruct (ReadIntfBytes (e_raw e)) as [[v r]|] eqn:E2; [|done].
    rewrite <-(str_app_nil_r (e_raw e)) in E2. destruct (reads_rest _ _ _ _ _ intf_object Hs E2) as [_ Hr].
    by rewrite Hr in E.
Qed.

Lemma raw_val_reads e v : reads ReadIntfBytes (e_raw e) v → raw_val e = v.
Proof. intros Hr. specialize (Hr ""). rewrite str_app_nil_r in Hr. unfold raw_val. by rewrite Hr. Qed.

Lemma entry_of_reads {A} (R : string → res (A * string)) k raw a :
  reads_object R → fits k → reads R raw a → entry_ok (mkEntry (AppendString k) k raw).
Proof.
  intros Hobj Hk Hr. destruct (reads_skips R raw a Hobj Hr) as [Hne Hs].
  pose proof (read_key k Hk) as Hkey. unfold entry_ok. simpl. split_and!; try done.
  intros E. pose proof (Hkey "") as E1. rewrite E in E1. simpl in E1.
  destruct (key_object _ _ _ E1) as (raw' & Eq & Hne' & _). by destruct raw'.
Qed.

(** Entries and the data they make: a name and a string, after the header of a map. *)
Lemma holds_entries es :
  Forall entry_ok es → Z.of_nat (length es) < 65536 →
  holds (String map16 (be 2 (Z.of_nat (length es))) +:+ entries_bytes es) es.
Proof.
  intros Hok Hlen. split; [done|]. right. exists (String map16 (be 2 (Z.of_nat (length es)))).
  split_and!; [done..|]. apply read_map16. lia.
Qed.

Definition string_entry k s : entry := mkEntry (AppendString k) k (AppendString s).

Lemma string_entry_ok k s : fits k → fits s → entry_ok (string_entry k s) ∧ raw_val (string_entry k s) = VString s.
Proof.
  intros Hk Hs. split.
  - eapply entry_of_reads; [apply string_object|done|by apply read_string].
  - apply raw_val_reads. by apply read_intf; [|apply intf_string].
Qed.

Lemma string_entry_read k s : fits s → reads ReadIntfBytes (e_raw (string_entry k s)) (VString s).
Proof. intros Hs. by apply (read_intf (VString s)); [|apply intf_string]. Qed.

Lemma entries_bytes_length es : Forall entry_ok es → (length es ≤ String.length (entries_bytes es))%nat.
Proof.
  induction 1 as [|e es (Hk & _) _ IH]; [done|]. rewrite entries_bytes_cons, !str_length_app. simpl.
  destruct (e_kb e); [done|]. simpl. lia.
Qed.

Lemma holds_iter data es :
  holds data es → ∃ it, newMsgpPayloadMapIter data = Ok it ∧ it_at it es ∧ (length es ≤ String.length data)%nat.
Proof.
  intros [Hok [[-> ->]|(hd & -> & Hne & Hr)]].
  { eexists. split_and!; [done|apply (at_key [])|simpl; lia]. }
  unfold newMsgpPayloadMapIter. rewrite str_eqb_ne by by apply str_ne_app.
  rewrite (Hr (entries_bytes es)). simpl. eexists. split_and!; [done| |].
  - destruct es as [|e es]; [apply (at_key [])|].
    replace (_ <? 1) with false by (symmetry; apply Z.ltb_ge; simpl; lia). constructor.
  - rewrite str_length_app. pose proof (entries_bytes_length es Hok). lia.
Qed.

Lemma find_key_at fuel it es key :
  it_at it es → Forall entry_ok es → (length es < fuel)%nat →
  find_key fuel it key = (λ er, mkIter (e_raw er.1 +:+ entries_bytes er.2) true) <$> raw_find es key.
Proof.
  revert it es. induction fuel as [|fuel IH]; intros it es Hat Hok Hlen; [lia|]. cbn [find_key].
  pose proof (nextKey_at it es Hat Hok) as Hn. destruct es as [|e es]; [by rewrite Hn|].
  destruct Hn as [ft ->]. cbn [raw_find]. destruct (String.eqb (e_key e) key); [done|].
  apply Forall_cons in Hok as [(_ & _ & ? & ?) Hok]. apply IH; [by constructor|done|simpl in Hlen; lia].
Qed.

Lemma raw_key_find p es key :
  holds (msgpData p) es →
  raw_key p key = (λ er, mkIter (e_raw er.1 +:+ entries_bytes er.2) true) <$> raw_find es key.
Proof.
  intros Hh. destruct (holds_iter _ _ Hh) as (it & E & Hat & Hlen). unfold raw_key. rewrite E.
  apply find_key_at; [done|apply Hh|lia].
Qed.

Lemma raw_find_elem es key e es' : raw_find es key = Some (e, es') → e ∈ es ∧ e_key e = key.
Proof.
  induction es as [|e0 es IH]; simpl; [done|]. destruct (String.eqb _ _) eqn:E.
  - intros [= -> ->]. apply String.eqb_eq in E. split; [constructor|done].
  - intros Hf. apply IH in Hf as [? ?]. split; [by constructor|done].
Qed.

(** *** The readers and [Set_] *)

Lemma Get_fields p es key : holds (msgpData p) es → Get p key = default VNil (fields p es key).
Proof.
  intros Hh. unfold Get, fields. rewrite meta_field_eq. destruct (metadataFields !! key); [done|].
  destruct (memoizedFields p !! key) as [v|]; [done|].
  case_bool_decide; [by rewrite decide_True|rewrite decide_False by done].
  rewrite (raw_key_find _ _ _ Hh). unfold raw_lookup. destruct (raw_find es key) as [[e es']|] eqn:E; [|done].
  simpl. destruct Hh as [Hok _]. rewrite Forall_forall in Hok. apply raw_find_elem in E as [Hin _].
  apply valueAny_val. by apply Hok.
Qed.

Lemma Exists_fields p es key : holds (msgpData p) es → Exists_ p key = bool_decide (is_Some (fields p es key)).
Proof.
  intros Hh. unfold Exists_, fields. rewrite meta_field_eq. destruct (metadataFields !! key) as [f|].
  { apply field_exist_get. }
  destruct (memoizedFields p !! key) as [v|]; [done|]. rewrite bool_decide_eq_false_2 by by intros [].
  case_bool_decide; [by rewrite decide_True|rewrite decide_False by done].
  rewrite (raw_key_find _ _ _ Hh). unfold raw_lookup. by destruct (raw_find es key).
Qed.

Lemma fields_Set_ne p es k k' v : k ≠ k' → fields (Set_ p k v) es k' = fields p es k'.
Proof.
  intros Hne. unfold fields, Set_. destruct (metadataFields !! k) as [f|] eqn:Ef; simpl.
  - destruct (metadataFields !! k') as [f'|] eqn:Ef'; [|done]. by apply (field_get_set_ne k k').
  - by rewrite lookup_insert_ne.
Qed.

Lemma fields_Set_eq p es k v :
  match metadataFields !! k with Some f => storable f v | None => True end →
  fields (Set_ p k v) es k = Some v.
Proof.
  intros Hs. unfold fields, Set_. destruct (metadataFields !! k) as [f|] eqn:Ef; simpl.
  - by apply (field_get_set_eq k).
  - by rewrite lookup_insert_eq.
Qed.

Lemma Set_rest p k v :
  msgpData (Set_ p k v) = msgpData p ∧ missingFields (Set_ p k v) = missingFields p.
Proof. unfold Set_. by destruct (metadataFields !! k). Qed.

Lemma Set_plain p k v : metadataFields !! k = None → Set_ p k v = with_memo p (<[k := v]> (memoizedFields p)).
Proof. unfold Set_. by intros ->. Qed.

(** *** Memoizing *)

Lemma raw_lookup_cons e es key :
  raw_lookup (e :: es) key = if String.eqb (e_key e) key then Some (raw_val e) else raw_lookup es key.
Proof. unfold raw_lookup. simpl. by destruct (String.eqb (e_key e) key). Qed.

Lemma raw_lookup_notin es key : key ∉ e_key <$> es → raw_lookup es key = None.
Proof.
  unfold raw_lookup. destruct (raw_find es key) as [[e es']|] eqn:E; [|done].
  apply raw_find_elem in E as [Hin <-]. intros []. by apply list_elem_of_fmap_2.
Qed.

(** The wanted names still ahead of the iterator. *)
Definition ahead (K : gset string) es : nat := size (K ∩ list_to_set (e_key <$> es)).

Lemma ahead_cons K e es :
  e_key e ∉ e_key <$> es → ahead K (e :: es) = ((if decide (e_key e ∈ K) then 1 else 0) + ahead K es)%nat.
Proof.
  intros Hni. unfold ahead. rewrite fmap_cons, list_to_set_cons. destruct (decide (e_key e ∈ K)).
  - replace (K ∩ ({[e_key e]} ∪ list_to_set (e_key <$> es))) with ({[e_key e]} ∪ (K ∩ list_to_set (e_key <$> es)))
      by (apply leibniz_equiv; set_solver).
    rewrite size_union; [by rewrite size_singleton|set_solver].
  - simpl. apply set_size_proper. set_solver.
Qed.

Lemma ahead_none K es key : ahead K es = 0%nat → key ∈ K → key ∉ e_key <$> es.
Proof.
  intros Ha Hk Hin. apply size_empty_inv in Ha. set_solver.
Qed.

Definition decodable e : Prop := ∃ v, reads ReadIntfBytes (e_raw e) v.

(** The entries wanted, each given to its field or kept, in the order of the bytes. *)
Definition absorb (K : gset string) es p : Payload :=
  foldl (λ p e, if decide (e_key e ∈ K) then Set_ p (e_key e) (raw_val e) else p) p es.

Lemma absorb_none K es p : (∀ k, k ∈ K → k ∉ e_key <$> es) → absorb K es p = p.
Proof.
  intros Hn. unfold absorb. induction es as [|e es IH]; [done|]. cbn [foldl]. rewrite decide_False.
  - apply IH. intros k Hk Hin. apply (Hn k Hk). rewrite fmap_cons. by right.
  - intros Hk. apply (Hn _ Hk). rewrite fmap_cons. by left.
Qed.

Lemma memoize_loop_absorbs fuel it es K n p :
  it_at it es → Forall entry_ok es → Forall decodable es → NoDup (e_key <$> es) →
  (n + ahead K es ≤ size K)%nat → (length es < fuel)%nat → memoize_loop fuel it K n p = absorb K es p.
Proof.
  revert it es n p. induction fuel as [|fuel IH]; intros it es n p Hat Hok Hdec Hnd Hn Hlen; [lia|]. cbn [memoize_loop].
  destruct (Nat.ltb_spec n (size K)) as [Hlt|Hge].
  2:{ symmetry. apply absorb_none. intros k Hk. apply (ahead_none K); [lia|done]. }
  pose proof (nextKey_at it es Hat Hok) as Hnext. destruct es as [|e es]; [by rewrite Hnext|].
  destruct Hnext as [ft ->].
  apply Forall_cons in Hok as [(_ & _ & Hv & Hs) Hok]. apply Forall_cons in Hdec as [[v Hr] Hdec].
  rewrite fmap_cons, NoDup_cons in Hnd. destruct Hnd as [Hni Hnd]. rewrite ahead_cons in Hn by done. simpl in Hlen.
  unfold absorb. cbn [foldl]. case_bool_decide as Hin.
  - rewrite decide_True in Hn by done. rewrite decide_True, (valueAny_at e es v Hr), (raw_val_reads e v Hr) by done.
    apply IH; [constructor|done..|lia|lia].
  - rewrite decide_False in Hn by done. rewrite decide_False by done. apply IH; [by constructor|done..|lia].
Qed.

Lemma absorb_rest K es p : msgpData (absorb K es p) = msgpData p ∧ missingFields (absorb K es p) = missingFields p.
Proof.
  unfold absorb. revert p. induction es as [|e es IH]; intros p; [done|]. cbn [foldl].
  destruct (IH (if decide (e_key e ∈ K) then Set_ p (e_key e) (raw_val e) else p)) as [-> ->]. case_decide; [apply Set_rest|done].
Qed.

Lemma absorb_memo K es p k : NoDup (e_key <$> es) →
  memoizedFields (absorb K es p) !! k =
    match metadataFields !! k, raw_lookup es k with
    | None, Some v => if decide (k ∈ K) then Some v else memoizedFields p !! k
    | _, _ => memoizedFields p !! k
    end.
Proof.
  unfold absorb. revert p. induction es as [|e es IH]; intros p; [by destruct (metadataFields !! k)|].
  rewrite fmap_cons, NoDup_cons. intros [Hni Hnd]. cbn [foldl]. rewrite IH, raw_lookup_cons by done. destruct (String.eqb_spec (e_key e) k) as [<-|Hne].
  - rewrite raw_lookup_notin by done. case_decide; [|by destruct (metadataFields !! e_key e)].
    unfold Set_. destruct (metadataFields !! e_key e); [done|]. cbn. by rewrite lookup_insert_eq.
  - assert (E : memoizedFields (if decide (e_key e ∈ K) then Set_ p (e_key e) (raw_val e) else p) !! k = memoizedFields p !! k).
    { destruct (decide (e_key e ∈ K)); [|reflexivity]. unfold Set_. destruct (metadataFields !! e_key e); [reflexivity|]. cbn. by rewrite lookup_insert_ne. }
    by rewrite E.
Qed.

Lemma absorb_meta K es p k f : NoDup (e_key <$> es) → metadataFields !! k = Some f →
  field_get f (pl_meta (absorb K es p)) =
    match raw_lookup es k with
    | Some v => if decide (k ∈ K) then stores f v (field_get f (pl_meta p)) else field_get f (pl_meta p)
    | None => field_get f (pl_meta p)
    end.
Proof.
  intros Hnd Hf. unfold absorb. revert p. induction es as [|e es IH]; intros p; [done|].
  rewrite fmap_cons, NoDup_cons in Hnd. destruct Hnd as [Hni Hnd]. cbn [foldl]. rewrite IH, raw_lookup_cons by done.
  destruct (String.eqb_spec (e_key e) k) as [<-|Hne].
  - rewrite raw_lookup_notin by done. case_decide; [|done]. unfold Set_. rewrite Hf. cbn. by apply (field_get_set f (e_key e)).
  - assert (E : field_get f (pl_meta (if decide (e_key e ∈ K) then Set_ p (e_key e) (raw_val e) else p)) = field_get f (pl_meta p)).
    { destruct (decide (e_key e ∈ K)); [|reflexivity]. unfold Set_. destruct (metadataFields !! e_key e) as [f'|] eqn:Ef'; [|reflexivity]. cbn. by apply (field_get_set_ne (e_key e) k). }
    by rewrite E.
Qed.

(** What a name that is asked for finds in the bytes: a metadata field is given the value that is
    there, unless the name is known already. *)
Definition looked_for p (keys : list string) (k : string) : Prop := k ∈ keys ∧ k ∉ missingFields p ∧ memoizedFields p !! k = None.
#[export] Instance looked_for_dec p keys k : Decision (looked_for p keys k).
Proof. unfold looked_for. apply _. Defined.
Definition after_memoize p es keys (k : string) : option value :=
  match metadataFields !! k, raw_lookup es k with
  | Some f, Some v => if decide (looked_for p keys k) then stores f v (fields p es k) else fields p es k
  | _, _ => fields p es k
  end.

Lemma MemoizeFields_spec p es keys :
  holds (msgpData p) es → Forall decodable es → NoDup (e_key <$> es) →
  msgpData (MemoizeFields p keys) = msgpData p ∧
  (∀ k, fields (MemoizeFields p keys) es k = after_memoize p es keys k) ∧
  (∀ k, k ∈ keys → is_Some (memoizedFields (MemoizeFields p keys) !! k) ∨ k ∈ missingFields (MemoizeFields p keys)).
Proof.
  intros Hh Hdec Hnd. unfold MemoizeFields. set (wanted := filter _ keys).
  set (K := list_to_set wanted : gset string).
  assert (Hwanted : ∀ k, k ∈ K ↔ looked_for p keys k).
  { intros k. unfold K, wanted, looked_for. rewrite elem_of_list_to_set, list_elem_of_filter. tauto. }
  assert (Hdone : ∀ k, k ∈ keys → k ∉ K → is_Some (memoizedFields p !! k) ∨ k ∈ missingFields p).
  { intros k Hk HnK. destruct (decide (k ∈ missingFields p)); [by right|]. left.
    destruct (memoizedFields p !! k) eqn:E; [eauto|]. destruct HnK. by apply Hwanted. }
  destruct (Nat.eqb_spec (size K) 0) as [Hz|_].
  { apply size_empty_inv in Hz. split_and!; [done| |].
    - intros k. unfold after_memoize. destruct (metadataFields !! k), (raw_lookup es k); try done.
      rewrite decide_False; [done|]. rewrite <- Hwanted. set_solver.
    - intros k Hk. apply Hdone; [done|]. set_solver. }
  destruct (holds_iter _ _ Hh) as (it & -> & Hat & Hlen).
  rewrite (memoize_loop_absorbs (S (String.length (msgpData p))) it es K 0 p);
    [|done|apply Hh|done|done|unfold ahead; apply subseteq_size; set_solver|lia].
  destruct (absorb_rest K es p) as [Ed Em]. cbn [with_missing msgpData memoizedFields missingFields]. split_and!; [done| |].
  - intros k. unfold after_memoize. unfold fields at 1. cbn [with_missing memoizedFields missingFields pl_meta]. rewrite absorb_memo, Em by done.
    destruct (metadataFields !! k) as [f|] eqn:Ef.
    + rewrite (absorb_meta _ _ _ _ f) by done. unfold fields. rewrite Ef. destruct (raw_lookup es k); [|done].
      by rewrite (decide_ext _ _ _ _ (Hwanted k)).
    + unfold fields. rewrite Ef. destruct (decide (k ∈ K)) as [Hk|Hk].
      * apply Hwanted in Hk as Hk'. destruct Hk' as (_ & Hmiss & Hnone). rewrite Hnone.
        rewrite (decide_False (P := k ∈ missingFields p)) by done. destruct (raw_lookup es k); [done|]. by destruct (decide _).
      * assert (E : match raw_lookup es k with Some _ => memoizedFields p !! k | None => memoizedFields p !! k end = memoizedFields p !! k)
          by by destruct (raw_lookup es k).
        destruct (memoizedFields p !! k) eqn:Ek; [by destruct (raw_lookup es k)|].
        replace (match raw_lookup es k with Some _ | _ => None end) with (@None value) by by destruct (raw_lookup es k).
        destruct (decide (k ∈ missingFields p)).
        -- rewrite decide_True; [by destruct (raw_lookup es k)|]. apply elem_of_app. by left.
        -- rewrite decide_False; [by destruct (raw_lookup es k)|]. rewrite elem_of_app, list_elem_of_filter, elem_of_elements. tauto.
  - intros k Hk. destruct (memoizedFields (absorb K es p) !! k) eqn:Ek; [eauto|]. right. apply elem_of_app.
    destruct (decide (k ∈ K)) as [HK|HK].
    + right. apply list_elem_of_filter. split; [done|]. by apply elem_of_elements.
    + destruct (Hdone k Hk HK) as [Hs|Hm]; [|left; by rewrite Em]. exfalso. rewrite absorb_memo in Ek by done.
      destruct Hs as [v Hv]. rewrite Hv in Ek. destruct (metadataFields !! k), (raw_lookup es k); try done. by rewrite decide_False in Ek.
Qed.

(** *** The operations are those of the map *)

(** C8: a payload is the map it stands for.  Over the serialization of entries with distinct names
    and readable values, [Get] and [Exists] are the lookups in [fields]; [Set] is the map's
    insertion (a metadata field takes a value of its own type that is not its zero).  [MemoizeFields],
    for any keys, changes no field that is not a metadata field; a metadata field among the keys, which
    is neither memoized nor known to be missing and which the bytes have an entry of, is given the
    value of that entry (one of another type is ignored, its zero clears it), and all other metadata
    fields are unchanged.  Afterwards none of its keys needs the bytes. *)
Theorem payload_refines_map p es :
  holds (msgpData p) es → Forall decodable es → NoDup (e_key <$> es) →
  (∀ k, Get p k = default VNil (fields p es k)) ∧
  (∀ k, Exists_ p k = bool_decide (is_Some (fields p es k))) ∧
  (∀ k v, holds (msgpData (Set_ p k v)) es ∧
     (∀ k', k ≠ k' → fields (Set_ p k v) es k' = fields p es k') ∧
     ((∀ f, metadataFields !! k = Some f → storable f v) → fields (Set_ p k v) es k = Some v)) ∧
  (∀ keys,
     let p' := MemoizeFields p keys in
     holds (msgpData p') es ∧
     (∀ k, metadataFields !! k = None → fields p' es k = fields p es k) ∧
     (∀ k f, metadataFields !! k = Some f →
        fields p' es k =
          if decide (k ∈ keys ∧ k ∉ missingFields p ∧ memoizedFields p !! k = None) then
            match raw_lookup es k with Some v => stores f v (fields p es k) | None => fields p es k end
          else fields p es k) ∧
     ∀ k, k ∈ keys → is_Some (memoizedFields p' !! k) ∨ k ∈ missingFields p').
Proof.
  intros Hh Hdec Hnd. split_and!.
  - intros k. by apply Get_fields.
  - intros k. by apply Exists_fields.
  - intros k v. destruct (Set_rest p k v) as [-> _]. split_and!; [done|intros k'; apply fields_Set_ne|].
    intros Hs. apply fields_Set_eq. destruct (metadataFields !! k); auto.
  - intros keys p'. destruct (MemoizeFields_spec p es keys Hh Hdec Hnd) as (E & Hf & Hk). unfold p'. rewrite E. split_and!; [done| | |done].
    + intros k Hn. rewrite Hf. unfold after_memoize. by rewrite Hn.
    + intros k f Hn. rewrite Hf. unfold after_memoize. rewrite Hn. fold (looked_for p keys k).
      destruct (raw_lookup es k); [done|]. by destruct (decide _).
Qed.
End Facts.

(** The payload keeps the promises the collector and the router are proved against. *)
Section Laws.
Context `{!Msgp, !GoJSON, !GoFloat}.

Lemma field_get_exist f m v : field_get f m = Some v → field_exist f m = true.
Proof. rewrite field_exist_get. intros ->. done. Qed.

Lemma Get_Set_ne p k k' v : k ≠ k' → Get (Set_ p k v) k' = Get p k' ∧ Exists_ (Set_ p k v) k' = Exists_ p k'.
Proof.
  intros Hne. unfold Get, Exists_, raw_key, Set_. rewrite !meta_field_eq.
  destruct (metadataFields !! k) as [f|] eqn:Ef; cbn [with_meta with_memo memoizedFields missingFields pl_meta msgpData].
  - destruct (metadataFields !! k') as [f'|] eqn:Ef'; [|done].
    rewrite !field_exist_get. by rewrite (field_get_set_ne k k').
  - by rewrite lookup_insert_ne.
Qed.

#[export] Instance payload_laws : PayloadLaws Payload.
Proof.
  refine {| p_plain k := metadataFields !! k = None |}; simpl.
  - intros p k v Hk. unfold Get, Set_. rewrite meta_field_eq, Hk. cbn [with_memo memoizedFields].
    by rewrite lookup_insert_eq.
  - intros p k k' v Hne. by apply Get_Set_ne.
  - intros p k v Hk. unfold Exists_, Set_. rewrite meta_field_eq, Hk. cbn [with_memo memoizedFields].
    by rewrite lookup_insert_eq, bool_decide_eq_true_2 by eauto.
  - intros p k k' v Hne. by apply Get_Set_ne.
Defined.

#[export] Instance payload_meta_laws : MetaLaws Payload.
Proof. split; simpl; intros p; by destruct (pl_meta p). Defined.
End Laws.

#[local] Existing Instance ExampleMsgp.codec.
#[local] Existing Instance ExampleMsgp.codec_laws.

(** An event of three fields. *)
Module Example.
Definition es : list entry :=
  [string_entry "trace.trace_id" "t1"; string_entry "trace.parent_id" "p1"; string_entry "service" "api"].
Definition data : string := String map16 (be 2 3) +:+ entries_bytes es.
Definition event : Payload := with_data (NewPayload None ∅) data.

Lemma es_holds : holds data es.
Proof.
  apply (holds_entries es); [|done].
  repeat (apply Forall_cons; split; [by apply string_entry_ok; vm_compute|]). constructor.
Qed.
Lemma es_decodable : Forall decodable es.
Proof.
  repeat (apply Forall_cons; split; [eexists; by apply string_entry_read; vm_compute|]).
  constructor.
Qed.
Lemma es_nodup : NoDup (e_key <$> es).
Proof. apply (bool_decide_unpack (NoDup _)). by vm_compute. Qed.
End Example.

Lemma payload_refines_map_witness : Get Example.event "service" = VString "api".
Proof.
  destruct (payload_refines_map Example.event Example.es Example.es_holds Example.es_decodable Example.es_nodup)
    as [Hget _].
  rewrite Hget. by vm_compute.
Defined.

(** A metadata field that was set is set back to what the event arrived with. *)
Module OverwriteExample.
Definition es : list entry := [string_entry "meta.annotation_type" "span_event"].
Definition arrived : Payload := with_data (NewPayload None ∅) (String map16 (be 2 1) +:+ entries_bytes es).
Lemma memoize_overwrites :
  let p := Set_ arrived "meta.annotation_type" (VString "link") in
  Get p "meta.annotation_type" = VString "link" ∧
  Get (MemoizeFields p ["meta.annotation_type"]) "meta.annotation_type" = VString "span_event".
Proof. split; by vm_compute. Qed.
End OverwriteExample.
