(* ===== verification/PayloadWire.v ===== *)
(** A payload arriving and leaving: [extractCriticalFieldsFromBytes] and [MarshalMsg].

    [arrive] is what the entries of an event make of a payload, one after the other, without the
    bytes; the functions of Payload.v compute it.  The theorems: what an arriving event presents is
    what its bytes say, what is sent are the fields the payload stands for, and one after the other
    preserves them. *)
From Stdlib Require Import SpecFloat Ascii.
From stdpp Require Import fin_sets.
From S2P Require Import Prelude GoValue Msgp Event SamplerConfig Config Payload PayloadFacts.

Implicit Types p : Payload.

Section Arrive.
Context `{!Msgp}.

Definition read_val {A} (zero : A) (R : string → res (A * string)) (raw : string) : A :=
  match R raw with Ok (a, _) => a | Err _ => zero end.
Definition str_val := read_val "" ReadStringBytes.

(** What a metadata entry makes of the metadata fields. *)
Definition meta_of (key raw : string) (m : MetaFields) : option MetaFields :=
  match metadataFields !! key with
  | Some f =>
      if typeIsCorrect f (NextType raw)
      then Some (field_put f m (str_val raw) (nb_Set (read_val false ReadBoolBytes raw)) (read_val 0 ReadInt64Bytes raw))
      else None
  | None => None
  end.

(** What an entry with one of the names of trace and parent IDs does. *)
Definition id_of (ids parents : list string) (key raw : string) (m : MetaFields) : option MetaFields :=
  if bool_decide (NextType raw = StrType) then
    if String.eqb (f_TraceID m) "" && bool_decide (key ∈ ids) then Some (set_TraceID m (str_val raw))
    else if bool_decide (key ∈ parents) then
      Some (if negb (String.eqb (str_val raw) "") then set_RefineryRoot m (nb_Set false) else m)
    else None
  else None.

Definition absorb (ids parents : list string) (m : MetaFields) (e : entry) : option MetaFields :=
  match meta_of (e_key e) (e_raw e) m with Some m => Some m | None => id_of ids parents (e_key e) (e_raw e) m end.

(** The entry is one of the key fields still to be found. *)
Definition wants (keys : list string) (n : nat) p (e : entry) : bool :=
  (n <? length keys)%nat && bool_decide (e_key e ∈ keys) && bool_decide (memoizedFields p !! e_key e = None).

Definition take_entry (ids parents keys : list string) (st : Payload * nat) (e : entry) : Payload * nat :=
  let '(p, n) := st in
  match absorb ids parents (pl_meta p) e with
  | Some m => (with_meta p m, n)
  | None =>
      if wants keys n p e then (Set_ p (e_key e) (raw_val e), S n) else (p, n)
  end.

Definition arrive (ids parents keys : list string) p (es : list entry) : Payload * nat :=
  foldl (take_entry ids parents keys) (p, O) es.
End Arrive.

Section Facts.
Context `{!Msgp, !MsgpLaws}.
Implicit Types (es : list entry) (e : entry) (m : MetaFields).

Lemma read_app {A} (zero : A) R raw rest :
  (∃ a, reads R raw a) → R (raw +:+ rest) = Ok (read_val zero R raw, rest).
Proof.
  intros [a Hr]. rewrite (Hr rest). specialize (Hr ""). rewrite str_app_nil_r in Hr.
  unfold read_val. by rewrite Hr.
Qed.

Lemma read_val_reads {A} (zero : A) R raw a : reads R raw a → read_val zero R raw = a.
Proof. intros Hr. specialize (Hr ""). rewrite str_app_nil_r in Hr. unfold read_val. by rewrite Hr. Qed.

(** Every value decodes, and a metadata entry of the right type with its own reader. *)
Definition reader_ok (f : metadataField) (raw : string) : Prop :=
  match f with
  | stringField _ _ => ∃ s, reads ReadStringBytes raw s
  | boolField _ _ => ∃ b, reads ReadBoolBytes raw b
  | int64Field _ _ => ∃ z, reads ReadInt64Bytes raw z
  end.
Definition readable_entry e : Prop :=
  entry_ok e ∧ decodable e ∧
  ∀ f, metadataFields !! e_key e = Some f → typeIsCorrect f (NextType (e_raw e)) = true → reader_ok f (e_raw e).

Lemma try_meta_app p e rest :
  readable_entry e →
  try_meta p (e_key e) (e_raw e +:+ rest) =
    Ok ((λ m, (with_meta p m, rest)) <$> meta_of (e_key e) (e_raw e) (pl_meta p)).
Proof.
  intros [(_ & _ & Hne & Hs) (_ & Hr)]. unfold try_meta, meta_of. rewrite meta_field_eq.
  destruct (metadataFields !! e_key e) as [f|]; [|done]. rewrite type_app by done.
  destruct (typeIsCorrect f (NextType (e_raw e))) eqn:Ht; [|done]. specialize (Hr f eq_refl Ht).
  destruct f as [get set|get set|get set]; simpl in Hr |- *.
  - by rewrite (read_app "").
  - by rewrite (read_app false).
  - by rewrite (read_app 0).
Qed.

Lemma try_ids_app ids parents p e rest :
  readable_entry e →
  try_ids ids parents p (e_key e) (e_raw e +:+ rest) =
    Ok ((λ m, (with_meta p m, rest)) <$> id_of ids parents (e_key e) (e_raw e) (pl_meta p)).
Proof.
  intros [(_ & _ & Hne & Hs) _]. unfold try_ids, id_of. rewrite type_app by done.
  case_bool_decide as Ht; [|done].
  assert (Hr : ReadStringBytes (e_raw e +:+ rest) = Ok (str_val (e_raw e), rest)).
  { by apply read_app, string_typed. }
  destruct (String.eqb (f_TraceID (pl_meta p)) "" && bool_decide (e_key e ∈ ids)); [by rewrite Hr|].
  case_bool_decide; [|done]. rewrite Hr. simpl. destruct (negb _); [done|]. by destruct p.
Qed.

Lemma extract_entry_app ids parents keys n p e rest :
  readable_entry e →
  extract_entry ids parents keys n p (e_kb e +:+ e_raw e +:+ rest) =
    Ok (take_entry ids parents keys (p, n) e, rest).
Proof.
  intros He. pose proof He as [(_ & Hk & Hne & Hs) [[v Hv] _]]. unfold extract_entry, take_entry, absorb.
  rewrite (Hk _). cbn [res_bind]. rewrite try_meta_app by done. cbn [res_bind].
  destruct (meta_of (e_key e) (e_raw e) (pl_meta p)) as [m|]; [done|]. cbn [fmap option_fmap option_map].
  rewrite try_ids_app by done. cbn [res_bind].
  destruct (id_of ids parents (e_key e) (e_raw e) (pl_meta p)) as [m|]; [done|]. cbn [fmap option_fmap option_map].
  unfold try_key. rewrite (raw_val_reads e v Hv).
  fold (wants keys n p e). destruct (wants keys n p e); cbn [res_bind]; [by rewrite (Hv rest)|]. by rewrite (Hs rest).
Qed.

Lemma extract_entries_app ids parents keys p n es rest :
  Forall readable_entry es →
  extract_entries ids parents keys (length es) n p (entries_bytes es +:+ rest) =
    Ok (foldl (take_entry ids parents keys) (p, n) es, rest).
Proof.
  intros Hes. revert p n. induction Hes as [|e es He _ IH]; intros p n; [done|].
  rewrite entries_bytes_cons, !str_app_assoc. cbn [length extract_entries foldl].
  rewrite extract_entry_app by done. cbn [res_bind]. destruct (take_entry _ _ _ _ e) as [p' n']. apply IH.
Qed.

(** The whole function, on a map and what follows it. *)
Definition finish_keys (keys : list string) (n : nat) p : Payload :=
  if (n <? length keys)%nat
  then with_missing p (missingFields p ++ filter (λ k, memoizedFields p !! k = None) keys) else p.

Lemma extract_app ids parents keys p hd es rest :
  Forall readable_entry es → reads ReadMapHeaderBytes hd (Z.of_nat (length es)) →
  let empty := (Z.of_nat (length es) =? 0) || isEmpty p in
  let '(p', n) := arrive ids parents keys (with_flags (default_root p) empty (hasExtractedMetadata p)) es in
  extractCriticalFieldsFromBytes p (hd +:+ entries_bytes es +:+ rest) ids parents keys =
    Ok (let q := log_not_root (finish_keys keys n p') in with_flags q (isEmpty q) true,
        (String.length hd + String.length (entries_bytes es))%nat).
Proof.
  intros Hes Hhd. cbn zeta. unfold extractCriticalFieldsFromBytes. rewrite (Hhd _). cbn [res_bind].
  assert (Ef : (if Z.of_nat (length es) =? 0 then with_flags (default_root p) true (hasExtractedMetadata (default_root p))
                else default_root p) =
               with_flags (default_root p) ((Z.of_nat (length es) =? 0) || isEmpty p) (hasExtractedMetadata p)).
  { assert (E1 : isEmpty (default_root p) = isEmpty p) by (unfold default_root; by case_match).
    assert (E2 : hasExtractedMetadata (default_root p) = hasExtractedMetadata p) by (unfold default_root; by case_match).
    rewrite <-E1, <-E2. destruct (Z.of_nat (length es) =? 0); [done|]. by destruct (default_root p). }
  rewrite Ef, Nat2Z.id, extract_entries_app by done. unfold arrive.
  destruct (foldl _ _ es) as [p' n]. cbn [res_bind]. do 2 f_equal.
  rewrite !str_length_app. lia.
Qed.

(** *** What an entry leaves alone *)

Definition trace_field : metadataField := stringField f_TraceID set_TraceID.
Definition root_field : metadataField := boolField f_RefineryRoot set_RefineryRoot.

Lemma trace_in_table : metadataFields !! MetaTraceID = Some trace_field.
Proof. apply metadataFields_table. right. left. Qed.
Lemma root_in_table : metadataFields !! MetaRefineryRoot = Some root_field.
Proof. apply metadataFields_table. do 4 right. left. Qed.

Lemma trace_get m : f_TraceID m = match field_get trace_field m with Some (VString s) => s | _ => "" end.
Proof. simpl. by destruct (String.eqb_spec (f_TraceID m) ""). Qed.

Lemma set_TraceID_put m s : set_TraceID m s = field_put trace_field m s unset 0.
Proof. done. Qed.
Lemma set_Root_put m b : set_RefineryRoot m b = field_put root_field m "" b 0.
Proof. done. Qed.

Lemma take_entry_rest ids parents keys p n e :
  let p' := (take_entry ids parents keys (p, n) e).1 in
  msgpData p' = msgpData p ∧ missingFields p' = missingFields p ∧
  isEmpty p' = isEmpty p ∧ pl_config p' = pl_config p.
Proof.
  unfold take_entry. destruct (absorb _ _ _ _); [done|]. destruct (wants keys n p e); [|done].
  unfold Set_. by destruct (metadataFields !! _).
Qed.

Lemma take_entries_rest ids parents keys es st :
  let p' := (foldl (take_entry ids parents keys) st es).1 in
  msgpData p' = msgpData st.1 ∧ missingFields p' = missingFields st.1 ∧
  isEmpty p' = isEmpty st.1 ∧ pl_config p' = pl_config st.1.
Proof.
  revert st. induction es as [|e es IH]; intros [p n]; [done|]. cbn [foldl].
  pose proof (take_entry_rest ids parents keys p n e) as (E1 & E2 & E3 & E4).
  destruct (IH (take_entry ids parents keys (p, n) e)) as (F1 & F2 & F3 & F4).
  cbn [fst]. split_and!; congruence.
Qed.

(** A metadata field is written by the entry of its own name, and by no other, the trace ID and
    the root flag apart. *)
Lemma take_entry_meta ids parents keys p n e k f :
  metadataFields !! k = Some f → k ≠ e_key e → k ≠ MetaTraceID → k ≠ MetaRefineryRoot →
  field_get f (pl_meta (take_entry ids parents keys (p, n) e).1) = field_get f (pl_meta p).
Proof.
  intros Hf Hne Ht Hr. unfold take_entry. destruct (absorb _ _ _ _) as [m|] eqn:E; cbn [fst with_meta pl_meta].
  - unfold absorb, meta_of, id_of in E. destruct (metadataFields !! e_key e) as [f'|] eqn:Ef'.
    { destruct (typeIsCorrect f' _).
      { injection E as <-. by apply (field_get_put_ne (e_key e) k). }
      revert E. case_match; [|done]. case_match; [|case_match; [case_match|done]]; intros [= <-]; [..|done].
      - rewrite set_TraceID_put. by apply (field_get_put_ne MetaTraceID k); [apply trace_in_table|..].
      - rewrite set_Root_put. by apply (field_get_put_ne MetaRefineryRoot k); [apply root_in_table|..]. }
    revert E. case_match; [|done]. case_match; [|case_match; [case_match|done]]; intros [= <-]; [..|done].
    + rewrite set_TraceID_put. by apply (field_get_put_ne MetaTraceID k); [apply trace_in_table|..].
    + rewrite set_Root_put. by apply (field_get_put_ne MetaRefineryRoot k); [apply root_in_table|..].
  - destruct (wants keys n p e); [|done]. cbn [fst]. unfold Set_. destruct (metadataFields !! e_key e) as [f'|] eqn:Ef'; [|done].
    cbn [with_meta pl_meta]. by apply (field_get_set_ne (e_key e) k).
Qed.

Lemma take_entries_meta ids parents keys es st k f :
  metadataFields !! k = Some f → k ∉ e_key <$> es → k ≠ MetaTraceID → k ≠ MetaRefineryRoot →
  field_get f (pl_meta (foldl (take_entry ids parents keys) st es).1) = field_get f (pl_meta st.1).
Proof.
  intros Hf Hni Ht Hr. revert st. induction es as [|e es IH]; intros [p n]; [done|]. cbn [foldl].
  rewrite fmap_cons, not_elem_of_cons in Hni. destruct Hni as [Hne Hni]. rewrite IH by done.
  by apply (take_entry_meta _ _ _ _ _ _ k).
Qed.

(** The value a metadata field takes from an entry. *)
Definition meta_val (f : metadataField) (raw : string) : option value :=
  field_get f (field_put f no_meta (str_val raw) (nb_Set (read_val false ReadBoolBytes raw)) (read_val 0 ReadInt64Bytes raw)).

Lemma field_get_put_eq k f m m' s b z :
  metadataFields !! k = Some f → field_get f (field_put f m s b z) = field_get f (field_put f m' s b z).
Proof.
  intros Hf%metadataFields_table. pose proof table_lens as Hl. rewrite Forall_forall in Hl. apply Hl in Hf.
  unfold lens_ok in Hf. simpl in Hf. destruct f; simpl; by rewrite !Hf.
Qed.

Lemma take_entry_meta_eq ids parents keys p n e f :
  metadataFields !! e_key e = Some f → typeIsCorrect f (NextType (e_raw e)) = true →
  take_entry ids parents keys (p, n) e =
    (with_meta p (field_put f (pl_meta p) (str_val (e_raw e)) (nb_Set (read_val false ReadBoolBytes (e_raw e)))
                    (read_val 0 ReadInt64Bytes (e_raw e))), n).
Proof. intros Hf Ht. unfold take_entry, absorb, meta_of. by rewrite Hf, Ht. Qed.

Lemma take_entries_meta_at ids parents keys es st e f :
  NoDup (e_key <$> es) → e ∈ es → metadataFields !! e_key e = Some f →
  typeIsCorrect f (NextType (e_raw e)) = true → e_key e ≠ MetaTraceID → e_key e ≠ MetaRefineryRoot →
  field_get f (pl_meta (foldl (take_entry ids parents keys) st es).1) = meta_val f (e_raw e).
Proof.
  intros Hnd Hin Hf Ht Hne1 Hne2. apply list_elem_of_split in Hin as (es1 & es2 & ->).
  rewrite fmap_app, fmap_cons in Hnd. apply NoDup_app in Hnd as (_ & _ & Hnd).
  apply NoDup_cons in Hnd as [Hni _]. rewrite foldl_app. cbn [foldl].
  rewrite (take_entries_meta _ _ _ _ _ (e_key e)) by done.
  destruct (foldl _ st es1) as [p n]. rewrite (take_entry_meta_eq _ _ _ _ _ _ f) by done.
  cbn [fst with_meta pl_meta]. by apply (field_get_put_eq (e_key e)).
Qed.

(** *** The trace ID and the root flag *)

(** The entries that can give the trace ID: their values. *)
Definition candidate (ids : list string) (e : entry) : option string :=
  if bool_decide (NextType (e_raw e) = StrType) && bool_decide (e_key e ∈ ids) && negb (String.eqb (str_val (e_raw e)) "")
  then Some (str_val (e_raw e)) else None.
Definition parent_entry (parents : list string) (e : entry) : bool :=
  bool_decide (NextType (e_raw e) = StrType) && bool_decide (e_key e ∈ parents) && negb (String.eqb (str_val (e_raw e)) "").

(** The names of trace and parent IDs are not names of metadata fields, and differ. *)
Definition names_ok (ids parents : list string) : Prop :=
  Forall (λ k, metadataFields !! k = None) (ids ++ parents) ∧ Forall (λ k, k ∉ parents) ids.

Lemma names_meta ids parents k : names_ok ids parents → k ∈ ids ∨ k ∈ parents → metadataFields !! k = None.
Proof. intros [Hn _] Hk. rewrite Forall_forall in Hn. apply Hn, elem_of_app, Hk. Qed.

Lemma set_keeps p k v k' f' :
  k ≠ k' → metadataFields !! k' = Some f' → field_get f' (pl_meta (Set_ p k v)) = field_get f' (pl_meta p).
Proof.
  intros Hne Hf'. unfold Set_. destruct (metadataFields !! k) as [f|] eqn:Ef; [|done].
  cbn [with_meta pl_meta]. by apply (field_get_set_ne k k').
Qed.

Lemma put_trace k f m s b z :
  metadataFields !! k = Some f → k ≠ MetaTraceID → f_TraceID (field_put f m s b z) = f_TraceID m.
Proof. intros Hf Hne. rewrite !trace_get. by rewrite (field_get_put_ne k MetaTraceID) by (done || apply trace_in_table). Qed.

Lemma put_root k f m s b z :
  metadataFields !! k = Some f → k ≠ MetaRefineryRoot → field_get root_field (field_put f m s b z) = field_get root_field m.
Proof. intros Hf Hne. by rewrite (field_get_put_ne k MetaRefineryRoot) by (done || apply root_in_table). Qed.

Lemma set_trace p k v : k ≠ MetaTraceID → f_TraceID (pl_meta (Set_ p k v)) = f_TraceID (pl_meta p).
Proof. intros Hne. rewrite !trace_get. by rewrite (set_keeps _ _ _ MetaTraceID) by (done || apply trace_in_table). Qed.

Lemma take_entry_trace ids parents keys p n e :
  names_ok ids parents → e_key e ≠ MetaTraceID →
  f_TraceID (pl_meta (take_entry ids parents keys (p, n) e).1) =
    if String.eqb (f_TraceID (pl_meta p)) "" then default "" (candidate ids e) else f_TraceID (pl_meta p).
Proof.
  intros Hn Hne.
  assert (Hkeep : ∀ q, f_TraceID (pl_meta q) = f_TraceID (pl_meta p) → candidate ids e = None ∨ f_TraceID (pl_meta p) ≠ "" →
    f_TraceID (pl_meta q) = if String.eqb (f_TraceID (pl_meta p)) "" then default "" (candidate ids e) else f_TraceID (pl_meta p)).
  { intros q -> [->|Hs]; destruct (String.eqb_spec (f_TraceID (pl_meta p)) ""); done. }
  unfold take_entry, absorb, meta_of, id_of. destruct (metadataFields !! e_key e) as [f|] eqn:Ef.
  - assert (Hnone : e_key e ∉ ids ∧ e_key e ∉ parents).
    { split; intros Hi; rewrite (names_meta ids parents) in Ef by tauto; done. }
    assert (Hc : candidate ids e = None).
    { unfold candidate. rewrite (bool_decide_eq_false_2 (e_key e ∈ ids)) by tauto. by rewrite andb_false_r. }
    destruct (typeIsCorrect f _); [apply Hkeep; [by apply (put_trace (e_key e))|by left]|].
    rewrite (bool_decide_eq_false_2 (e_key e ∈ ids)), (bool_decide_eq_false_2 (e_key e ∈ parents)), andb_false_r by tauto.
    apply Hkeep; [|by left]. destruct (bool_decide _), (wants keys n p e); first [reflexivity|by apply set_trace].
  - unfold candidate in Hkeep |- *. case_bool_decide as Ht; cbn [andb] in Hkeep |- *.
    2:{ apply Hkeep; [|by left]. destruct (wants keys n p e); [by apply set_trace|done]. }
    destruct (String.eqb_spec (f_TraceID (pl_meta p)) "") as [E0|N0]; cbn [andb] in Hkeep |- *.
    + case_bool_decide as Hi; cbn [andb] in Hkeep |- *.
      { cbn [fst with_meta pl_meta]. destruct (pl_meta p). simpl. by destruct (String.eqb_spec (str_val (e_raw e)) ""). }
      rewrite <-E0. case_bool_decide; [|destruct (wants keys n p e); [by apply set_trace|done]].
      cbn [fst with_meta pl_meta]. destruct (negb _); [by destruct (pl_meta p)|done].
    + destruct (bool_decide (e_key e ∈ parents)); [|destruct (wants keys n p e); [by apply set_trace|done]].
      cbn [fst with_meta pl_meta]. destruct (negb _); [by destruct (pl_meta p)|done].
Qed.

Lemma take_entries_trace ids parents keys es st :
  names_ok ids parents → MetaTraceID ∉ e_key <$> es →
  f_TraceID (pl_meta (foldl (take_entry ids parents keys) st es).1) =
    if String.eqb (f_TraceID (pl_meta st.1)) "" then default "" (head (omap (candidate ids) es)) else f_TraceID (pl_meta st.1).
Proof.
  intros Hn. revert st. induction es as [|e es IH]; intros [p n] Hni.
  { simpl. by destruct (String.eqb_spec (f_TraceID (pl_meta p)) ""). }
  rewrite fmap_cons, not_elem_of_cons in Hni. destruct Hni as [Hne Hni]. cbn [foldl]. rewrite IH by done.
  rewrite take_entry_trace by done. cbn [fst omap list_omap].
  destruct (String.eqb_spec (f_TraceID (pl_meta p)) "") as [E0|N0].
  - destruct (candidate ids e) as [s|] eqn:Ec; simpl; [|done].
    unfold candidate in Ec. destruct (String.eqb_spec (str_val (e_raw e)) "") as [|Ns]; [by rewrite andb_false_r in Ec|].
    revert Ec. case_match; [|done]. intros [= <-]. by apply String.eqb_neq in Ns as ->.
  - by apply String.eqb_neq in N0 as ->.
Qed.

(** An entry of the trace ID's own metadata field gives it, whatever the other entries. *)
Lemma take_entries_trace_at ids parents keys es st e :
  names_ok ids parents → NoDup (e_key <$> es) → e ∈ es → e_key e = MetaTraceID →
  NextType (e_raw e) = StrType → str_val (e_raw e) ≠ "" →
  f_TraceID (pl_meta (foldl (take_entry ids parents keys) st es).1) = str_val (e_raw e).
Proof.
  intros Hn Hnd Hin Hk Ht Hs. apply list_elem_of_split in Hin as (es1 & es2 & ->).
  rewrite fmap_app, fmap_cons in Hnd. apply NoDup_app in Hnd as (_ & _ & Hnd).
  apply NoDup_cons in Hnd as [Hni _]. rewrite foldl_app. cbn [foldl]. destruct (foldl _ st es1) as [p n].
  rewrite Hk in Hni. rewrite take_entries_trace by done.
  rewrite (take_entry_meta_eq _ _ _ _ _ _ trace_field) by (rewrite Hk; apply trace_in_table) || (simpl; by rewrite Ht).
  cbn [fst with_meta pl_meta]. destruct (pl_meta p). simpl. by apply String.eqb_neq in Hs as ->.
Qed.
Lemma take_entry_root ids parents keys p n e :
  names_ok ids parents → e_key e ≠ MetaRefineryRoot →
  field_get root_field (pl_meta (take_entry ids parents keys (p, n) e).1) =
    if parent_entry parents e then Some (VBool false) else field_get root_field (pl_meta p).
Proof.
  intros Hn Hne. unfold take_entry, absorb, meta_of, id_of, parent_entry.
  assert (Hset : ∀ v, field_get root_field (pl_meta (Set_ p (e_key e) v)) = field_get root_field (pl_meta p)).
  { intros v. apply (set_keeps _ _ _ MetaRefineryRoot); [done|apply root_in_table]. }
  destruct (metadataFields !! e_key e) as [f|] eqn:Ef.
  - rewrite (bool_decide_eq_false_2 (e_key e ∈ ids)), (bool_decide_eq_false_2 (e_key e ∈ parents))
      by (intros Hi; rewrite (names_meta ids parents) in Ef by tauto; done).
    rewrite !andb_false_r. cbn [andb].
    destruct (typeIsCorrect f _); [by apply (put_root (e_key e))|].
    destruct (bool_decide _), (wants keys n p e); first [reflexivity|apply Hset].
  - destruct (bool_decide (NextType (e_raw e) = StrType)); cbn [andb]; [|destruct (wants keys n p e); [apply Hset|done]].
    destruct (bool_decide_reflect (e_key e ∈ parents)) as [Hp|Hp]; cbn [andb].
    + rewrite (bool_decide_eq_false_2 (e_key e ∈ ids)), andb_false_r.
      2:{ intros Hi. destruct Hn as [_ Hn]. rewrite Forall_forall in Hn. by apply (Hn (e_key e)). }
      cbn [fst with_meta pl_meta]. destruct (negb _); [by destruct (pl_meta p)|done].
    + destruct (_ && bool_decide (e_key e ∈ ids)).
      * cbn [fst with_meta pl_meta]. by destruct (pl_meta p).
      * destruct (wants keys n p e); [apply Hset|done].
Qed.

Lemma take_entries_root ids parents keys es st :
  names_ok ids parents → MetaRefineryRoot ∉ e_key <$> es →
  field_get root_field (pl_meta (foldl (take_entry ids parents keys) st es).1) =
    if existsb (parent_entry parents) es then Some (VBool false) else field_get root_field (pl_meta st.1).
Proof.
  intros Hn. revert st. induction es as [|e es IH]; intros [p n] Hni; [done|].
  rewrite fmap_cons, not_elem_of_cons in Hni. destruct Hni as [Hne Hni]. cbn [foldl existsb]. rewrite IH by done.
  rewrite take_entry_root by done. by destruct (parent_entry parents e), (existsb _ es).
Qed.

(** *** The key fields *)

(** An entry that is neither metadata nor an ID is not absorbed. *)
Lemma absorb_plain ids parents m e :
  metadataFields !! e_key e = None → e_key e ∉ ids → e_key e ∉ parents → absorb ids parents m e = None.
Proof.
  intros Hm Hi Hp. unfold absorb, meta_of, id_of. rewrite Hm.
  rewrite (bool_decide_eq_false_2 (e_key e ∈ ids)), (bool_decide_eq_false_2 (e_key e ∈ parents)) by done.
  rewrite andb_false_r. by destruct (bool_decide _).
Qed.

Lemma take_entry_memo ids parents keys p n e k :
  metadataFields !! k = None →
  memoizedFields (take_entry ids parents keys (p, n) e).1 !! k =
    if decide (e_key e = k) then
      if decide (absorb ids parents (pl_meta p) e = None) then
        if wants keys n p e then Some (raw_val e) else memoizedFields p !! k
      else memoizedFields p !! k
    else memoizedFields p !! k.
Proof.
  intros Hk. unfold take_entry. destruct (absorb ids parents (pl_meta p) e) as [m|]; [by repeat case_decide|].
  rewrite (decide_True (P := None = None)) by done.
  destruct (wants keys n p e); [|by repeat case_decide]. cbn [fst]. unfold Set_.
  destruct (metadataFields !! e_key e) as [f|] eqn:Ef; cbn [with_meta with_memo memoizedFields].
  - case_decide; [subst; congruence|done].
  - case_decide as Ek; [rewrite Ek; by rewrite lookup_insert_eq|by rewrite lookup_insert_ne].
Qed.

Lemma take_entry_count ids parents keys p n e :
  (take_entry ids parents keys (p, n) e).2 =
    if decide (absorb ids parents (pl_meta p) e = None) then if wants keys n p e then S n else n else n.
Proof.
  unfold take_entry. destruct (absorb ids parents (pl_meta p) e) as [m|].
  - by rewrite decide_False.
  - rewrite decide_True by done. by destruct (wants keys n p e).
Qed.

(** [K] has every name that can be counted: the count stays within what was and what [K] has ahead. *)
Lemma take_entries_count ids parents keys (K : gset string) es p n :
  NoDup (e_key <$> es) →
  (∀ e, e ∈ es → e_key e ∈ keys → (∀ m, absorb ids parents m e = None → e_key e ∈ K) ∨ e_key e ∈ K) →
  ((foldl (take_entry ids parents keys) (p, n) es).2 ≤ n + ahead K es)%nat.
Proof.
  revert p n. induction es as [|e es IH]; intros p n Hnd HK; [simpl; lia|].
  rewrite fmap_cons, NoDup_cons in Hnd. destruct Hnd as [Hni Hnd]. cbn [foldl]. rewrite ahead_cons by done.
  pose proof (take_entry_count ids parents keys p n e) as Ec.
  destruct (take_entry ids parents keys (p, n) e) as [p' n'] eqn:Et. cbn in Ec.
  etransitivity; [apply IH; [done|]|]. { intros e' He'. apply HK. by right. }
  enough (n' ≤ n + (if decide (e_key e ∈ K) then 1 else 0))%nat by lia. subst n'.
  case_decide as Hab; [|lia]. destruct (wants keys n p e) eqn:Hw; [|lia].
  rewrite decide_True; [lia|]. unfold wants in Hw. apply andb_prop in Hw as [Hw _]. apply andb_prop in Hw as [_ Hw].
  apply bool_decide_eq_true_1 in Hw. destruct (HK e ltac:(left) Hw) as [HK'|]; [by apply HK' in Hab|done].
Qed.

(** A name that is no ID is memoized if it is a key field, and else left to the bytes. *)
Lemma take_entries_memo ids parents keys es p n k :
  metadataFields !! k = None → k ∉ ids → k ∉ parents → NoDup (e_key <$> es) →
  (n + ahead (list_to_set keys) es ≤ length keys)%nat →
  memoizedFields (foldl (take_entry ids parents keys) (p, n) es).1 !! k =
    match memoizedFields p !! k with
    | Some v => Some v
    | None => if decide (k ∈ keys) then raw_lookup es k else None
    end.
Proof.
  intros Hk Hi Hp. revert p n. induction es as [|e es IH]; intros p n Hnd Hn.
  { simpl. destruct (memoizedFields p !! k); [done|]. by case_decide. }
  rewrite fmap_cons, NoDup_cons in Hnd. destruct Hnd as [Hni Hnd]. rewrite ahead_cons in Hn by done. cbn [foldl].
  pose proof (take_entry_memo ids parents keys p n e k Hk) as Em.
  pose proof (take_entry_count ids parents keys p n e) as Ec.
  destruct (take_entry ids parents keys (p, n) e) as [p' n'] eqn:Et. cbn [fst snd] in Em, Ec.
  assert (Hwk : wants keys n p e = true → e_key e ∈ keys).
  { unfold wants. intros [[_ ?]%andb_prop _]%andb_prop. by apply bool_decide_eq_true_1 in H1. }
  rewrite IH; [|done|].
  2:{ subst n'. destruct (decide (absorb ids parents (pl_meta p) e = None)) as [Hab|Hab]; [|lia].
      destruct (wants keys n p e) eqn:Hw; [|lia].
      rewrite decide_True in Hn by (apply elem_of_list_to_set; auto). lia. }
  rewrite Em, raw_lookup_cons. destruct (String.eqb_spec (e_key e) k) as [<-|Hne].
  2:{ by rewrite decide_False. }
  rewrite decide_True by done. rewrite absorb_plain, decide_True by done.
  destruct (memoizedFields p !! e_key e) as [v|] eqn:Emp.
  { replace (wants keys n p e) with false; [done|]. unfold wants. by rewrite Emp, andb_false_r. }
  destruct (decide (e_key e ∈ keys)) as [Hkey|Hkey].
  - rewrite decide_True in Hn by by apply elem_of_list_to_set.
    replace (wants keys n p e) with true; [done|]. unfold wants. rewrite Emp.
    rewrite (bool_decide_eq_true_2 (e_key e ∈ keys)) by done. rewrite bool_decide_eq_true_2 by done.
    symmetry. rewrite !andb_true_r. apply Nat.ltb_lt. lia.
  - destruct (wants keys n p e); [by destruct Hkey; apply Hwk|]. done.
Qed.

(** A parent ID that is also a key field is never memoized. *)
Lemma take_entries_hidden ids parents keys es p n k e :
  metadataFields !! k = None → k ∈ parents → e ∈ es → e_key e = k → NextType (e_raw e) = StrType →
  NoDup (e_key <$> es) →
  memoizedFields (foldl (take_entry ids parents keys) (p, n) es).1 !! k = memoizedFields p !! k.
Proof.
  intros Hk Hp. revert p n. induction es as [|e' es IH]; intros p n Hin Hek Ht Hnd; [by apply elem_of_nil in Hin|].
  rewrite fmap_cons, NoDup_cons in Hnd. destruct Hnd as [Hni Hnd]. cbn [foldl].
  pose proof (take_entry_memo ids parents keys p n e' k Hk) as Em.
  destruct (take_entry ids parents keys (p, n) e') as [p' n'] eqn:Et. cbn [fst] in Em.
  apply elem_of_cons in Hin as [<-|Hin].
  - assert (Hrest : ∀ q j, memoizedFields (foldl (take_entry ids parents keys) (q, j) es).1 !! k = memoizedFields q !! k).
    { rewrite Hek in Hni. clear -Hk Hni. induction es as [|e' es IH]; intros q j; [done|].
      rewrite fmap_cons, not_elem_of_cons in Hni. destruct Hni as [Hne Hni]. cbn [foldl].
      pose proof (take_entry_memo ids parents keys q j e' k Hk) as Em.
      destruct (take_entry ids parents keys (q, j) e') as [q' j']. cbn [fst] in Em. rewrite IH by done.
      by rewrite Em, decide_False. }
    rewrite Hrest, Em, decide_True by done. rewrite decide_False; [done|].
    unfold absorb, meta_of, id_of. rewrite Hek, Hk. rewrite bool_decide_eq_true_2 by done.
    rewrite (bool_decide_eq_true_2 (k ∈ parents)) by done. by destruct (_ && _).
  - rewrite IH by done. rewrite Em. rewrite decide_False; [done|].
    intros E. rewrite E, <-Hek in Hni. by apply Hni, list_elem_of_fmap_2.
Qed.

Lemma list_to_set_size (l : list string) : (size (list_to_set l : gset string) ≤ length l)%nat.
Proof.
  induction l as [|x l IH]; [done|]. rewrite list_to_set_cons, size_union_alt, size_singleton. simpl.
  pose proof (subseteq_size ((list_to_set l : gset string) ∖ {[x]}) (list_to_set l)) as Hs.
  specialize (Hs ltac:(set_solver)). lia.
Qed.

Lemma log_not_root_other p k f :
  metadataFields !! k = Some f → k ≠ MetaRefineryRoot → field_get f (pl_meta (log_not_root p)) = field_get f (pl_meta p).
Proof.
  intros Hf Hne. unfold log_not_root. destruct (String.eqb _ _); [|done]. cbn [set_Root with_meta pl_meta].
  rewrite set_Root_put. by apply (field_get_put_ne MetaRefineryRoot k); [apply root_in_table|..].
Qed.

Lemma log_not_root_rest p :
  msgpData (log_not_root p) = msgpData p ∧ memoizedFields (log_not_root p) = memoizedFields p ∧
  missingFields (log_not_root p) = missingFields p.
Proof. unfold log_not_root. by destruct (String.eqb _ _). Qed.

Lemma finish_keys_rest keys n p :
  msgpData (finish_keys keys n p) = msgpData p ∧ memoizedFields (finish_keys keys n p) = memoizedFields p ∧
  pl_meta (finish_keys keys n p) = pl_meta p.
Proof. unfold finish_keys. by destruct (_ <? _)%nat. Qed.

(** Only key fields are memoized. *)
Lemma take_entries_no_key ids parents keys es st k :
  metadataFields !! k = None → k ∉ keys →
  memoizedFields (foldl (take_entry ids parents keys) st es).1 !! k = memoizedFields st.1 !! k.
Proof.
  intros Hk Hin. revert st. induction es as [|e es IH]; intros [p n]; [done|]. cbn [foldl]. rewrite IH.
  rewrite take_entry_memo by done. destruct (decide (e_key e = k)); [|reflexivity].
  destruct (decide _); [|reflexivity]. unfold wants. rewrite (bool_decide_eq_false_2 (e_key e ∈ keys)) by congruence. by rewrite andb_false_r.
Qed.

(** With a parent ID among the key fields, the key fields are never all found. *)
Lemma take_entries_not_all ids parents keys es p e :
  NoDup (e_key <$> es) → e ∈ es → metadataFields !! e_key e = None → NextType (e_raw e) = StrType →
  e_key e ∈ keys → e_key e ∈ parents →
  ((foldl (take_entry ids parents keys) (p, O) es).2 < length keys)%nat.
Proof.
  intros Hnd Hin Hk Ht Hkey Hpa. set (K := (list_to_set keys : gset string) ∖ {[e_key e]}).
  assert (HK : (size K < length keys)%nat).
  { apply Nat.lt_le_trans with (size (list_to_set keys : gset string)); [|apply list_to_set_size].
    clear -Hkey. apply subset_size. unfold K. set_solver. }
  assert (Ha : (ahead K es ≤ size K)%nat) by (unfold ahead; apply subseteq_size, intersection_subseteq_l).
  enough ((foldl (take_entry ids parents keys) (p, O) es).2 ≤ O + ahead K es)%nat by lia.
  apply take_entries_count; [done|]. intros e' Hin' Hkey'.
  destruct (decide (e_key e' = e_key e)) as [E|Hne']; [|right; unfold K; clear -Hkey' Hne'; set_solver].
  left. intros m. assert (e' = e) as -> by by eapply NoDup_fmap_eq.
  unfold absorb, meta_of, id_of. rewrite Hk, bool_decide_eq_true_2 by done.
  rewrite (bool_decide_eq_true_2 (e_key e ∈ parents)) by done. by destruct (_ && _).
Qed.

(** The payload [UnmarshalMsgpFirstEvent] makes of the entries. *)
Definition arrived (cu : CoreFieldsUnmarshaler) (cfg : option fileConfig) (data : string) es : Payload :=
  let p := with_flags (default_root (NewPayload cfg ∅)) ((Z.of_nat (length es) =? 0) || false) false in
  let '(p, n) := arrive (cu_traceIdFieldNames cu) (cu_parentIdFieldNames cu) (cu_samplingKeyFields cu) p es in
  let q := log_not_root (finish_keys (cu_samplingKeyFields cu) n p) in with_data (with_flags q (isEmpty q) true) data.

Lemma UnmarshalMsgpFirstEvent_arrived cu cfg data es rest :
  holds data es → data ≠ "" → Forall readable_entry es →
  UnmarshalMsgpFirstEvent cu (data +:+ rest) (NewPayload cfg ∅) = Ok (arrived cu cfg data es, rest).
Proof.
  intros [_ [[-> _]|(hd & -> & _ & Hhd)]] Hne Hes; [done|]. unfold UnmarshalMsgpFirstEvent, arrived.
  pose proof (extract_app (cu_traceIdFieldNames cu) (cu_parentIdFieldNames cu) (cu_samplingKeyFields cu)
    (NewPayload cfg ∅) hd es rest Hes Hhd) as E. cbn zeta in E.
  change (isEmpty (NewPayload cfg ∅)) with false in E. change (hasExtractedMetadata (NewPayload cfg ∅)) with false in E.
  destruct (arrive _ _ _ _ es) as [p n]. rewrite str_app_assoc, E. cbn [res_bind].
  rewrite <-str_length_app, <-str_app_assoc, str_take_app, str_drop_app. done.
Qed.

Section Arrived.
Context (cu : CoreFieldsUnmarshaler) (cfg : option fileConfig) (data : string) (es : list entry).
Let ids := cu_traceIdFieldNames cu.
Let parents := cu_parentIdFieldNames cu.
Let keys := cu_samplingKeyFields cu.
Let fresh := with_flags (default_root (NewPayload cfg ∅)) ((Z.of_nat (length es) =? 0) || false) false.
Let taken := foldl (take_entry ids parents keys) (fresh, O) es.

Lemma arrived_parts :
  let p := arrived cu cfg data es in
  msgpData p = data ∧ memoizedFields p = memoizedFields taken.1 ∧
  missingFields p =
    (if (taken.2 <? length keys)%nat then filter (λ k, memoizedFields taken.1 !! k = None) keys else []) ∧
  pl_meta p = pl_meta (log_not_root taken.1).
Proof.
  unfold arrived, arrive. fold ids parents keys fresh. fold taken.
  pose proof (take_entries_rest ids parents keys es (fresh, O)) as (_ & Hmiss & _). fold taken in Hmiss.
  destruct taken as [p n]. cbn [fst snd] in *. set (q := finish_keys keys n p).
  destruct (finish_keys_rest keys n p) as (_ & Qmemo & Qmeta). destruct (log_not_root_rest q) as (_ & Lmemo & Lmiss).
  fold q in Qmemo, Qmeta. cbn [with_data with_flags msgpData memoizedFields missingFields pl_meta]. split_and!.
  - done.
  - congruence.
  - rewrite Lmiss. unfold q, finish_keys. destruct (_ <? _)%nat; [|done]. cbn [with_missing missingFields]. by rewrite Hmiss.
  - unfold log_not_root. rewrite Qmeta. destruct (String.eqb _ _); [|done]. cbn [set_Root with_meta pl_meta]. by rewrite Qmeta.
Qed.

Lemma arrived_plain k :
  NoDup (e_key <$> es) → metadataFields !! k = None → (k ∈ keys → k ∉ ids ∧ k ∉ parents) →
  fields (arrived cu cfg data es) es k = raw_lookup es k.
Proof.
  intros Hnd Hk Hkey. destruct arrived_parts as (_ & Ememo & Emiss & _). unfold fields. rewrite Hk, Ememo, Emiss.
  destruct (decide (k ∈ keys)) as [Hin|Hin].
  - destruct (Hkey Hin) as [Hi Hpa]. unfold taken. rewrite take_entries_memo; [|done..|]; cycle 1.
    { unfold ahead. etransitivity; [apply subseteq_size; apply intersection_subseteq_l|]. apply list_to_set_size. }
    rewrite decide_True by done. simpl. destruct (raw_lookup es k); [done|]. by case_decide.
  - assert (memoizedFields taken.1 !! k = None) as -> by by (unfold taken; rewrite take_entries_no_key).
    rewrite decide_False; [done|]. destruct (_ <? _)%nat; [|apply not_elem_of_nil]. rewrite list_elem_of_filter. tauto.
Qed.

Lemma arrived_root :
  names_ok ids parents → MetaRefineryRoot ∉ e_key <$> es →
  field_get root_field (pl_meta (arrived cu cfg data es)) =
    if String.eqb (f_SignalType (pl_meta (arrived cu cfg data es))) "log" then None
    else Some (VBool (negb (existsb (parent_entry parents) es))).
Proof.
  intros Hn Hni. destruct arrived_parts as (_ & _ & _ & ->).
  assert (Hr : field_get root_field (pl_meta taken.1) = Some (VBool (negb (existsb (parent_entry parents) es)))).
  { unfold taken. rewrite take_entries_root by done. by destruct (existsb _ es). }
  unfold log_not_root. destruct (String.eqb (f_SignalType (pl_meta taken.1)) "log") eqn:El; [|by rewrite El].
  cbn [set_Root with_meta pl_meta]. destruct (pl_meta taken.1). simpl in El |- *. by rewrite El.
Qed.

Lemma arrived_trace : f_TraceID (pl_meta (arrived cu cfg data es)) = f_TraceID (pl_meta taken.1).
Proof.
  destruct arrived_parts as (_ & _ & _ & ->). rewrite !trace_get.
  by rewrite (log_not_root_other _ MetaTraceID) by (done || apply trace_in_table).
Qed.

Lemma arrived_hidden e :
  NoDup (e_key <$> es) → holds data es → e ∈ es → metadataFields !! e_key e = None → NextType (e_raw e) = StrType →
  e_key e ∈ keys → e_key e ∈ parents → Exists_ (arrived cu cfg data es) (e_key e) = false.
Proof.
  intros Hnd Hh Hin Hk Ht Hkey Hpa. destruct arrived_parts as (Ed & Ememo & Emiss & _).
  rewrite (Exists_fields _ es) by by rewrite Ed. apply bool_decide_eq_false_2. unfold fields. rewrite Hk, Ememo, Emiss.
  assert (memoizedFields taken.1 !! e_key e = None) as Hnone.
  { unfold taken. by rewrite (take_entries_hidden _ _ _ _ _ _ _ e). }
  rewrite Hnone. rewrite (proj2 (Nat.ltb_lt _ _)).
  { rewrite decide_True; [by intros []|]. by apply list_elem_of_filter. }
  by apply (take_entries_not_all _ _ _ _ _ e).
Qed.
End Arrived.

(** C26: what an event presents is what its bytes say.  From the serialization of entries with
    distinct names the payload and the rest of the message are returned; an ordinary field reads
    as the entry says, whether or not it was memoized; the trace ID is the first nonempty string
    under one of the configured names, unless the event carries the metadata field itself; the
    event is a root when no parent ID is a nonempty string, and no root if it is a log.  But a
    sampling key field that is itself a parent ID does not exist, although the event has it. *)
Theorem arrival_presents_fields cu cfg data es rest :
  let ids := cu_traceIdFieldNames cu in
  let parents := cu_parentIdFieldNames cu in
  let keys := cu_samplingKeyFields cu in
  names_ok ids parents → holds data es → data ≠ "" → Forall readable_entry es → NoDup (e_key <$> es) →
  ∃ p, UnmarshalMsgpFirstEvent cu (data +:+ rest) (NewPayload cfg ∅) = Ok (p, rest) ∧ msgpData p = data ∧
    (∀ k, metadataFields !! k = None → (k ∈ keys → k ∉ ids ∧ k ∉ parents) → fields p es k = raw_lookup es k) ∧
    (MetaTraceID ∉ e_key <$> es → f_TraceID (pl_meta p) = default "" (head (omap (candidate ids) es))) ∧
    (∀ e, e ∈ es → e_key e = MetaTraceID → NextType (e_raw e) = StrType → str_val (e_raw e) ≠ "" →
      f_TraceID (pl_meta p) = str_val (e_raw e)) ∧
    (MetaRefineryRoot ∉ e_key <$> es →
      field_get root_field (pl_meta p) =
        if String.eqb (f_SignalType (pl_meta p)) "log" then None
        else Some (VBool (negb (existsb (parent_entry parents) es)))) ∧
    (∀ e, e ∈ es → metadataFields !! e_key e = None → NextType (e_raw e) = StrType →
      e_key e ∈ keys → e_key e ∈ parents → Exists_ p (e_key e) = false).
Proof.
  intros ids parents keys Hn Hh Hne Hes Hnd. exists (arrived cu cfg data es).
  destruct (arrived_parts cu cfg data es) as (Hd & _). split_and!; [by apply UnmarshalMsgpFirstEvent_arrived|done|..].
  - intros k. by apply arrived_plain.
  - intros Hni. by rewrite arrived_trace, take_entries_trace.
  - intros e Hin Hk Ht Hs. rewrite arrived_trace. by apply take_entries_trace_at.
  - by apply arrived_root.
  - intros e. by apply arrived_hidden.
Qed.
End Facts.

#[local] Existing Instance ExampleMsgp.codec.
#[local] Existing Instance ExampleMsgp.codec_laws.

Lemma string_entry_readable k s : fits k → fits s → readable_entry (string_entry k s).
Proof.
  intros Hk Hs. split_and!; [by apply string_entry_ok|eexists; by apply string_entry_read|].
  intros f Hf Ht. cbn [string_entry e_raw] in *. rewrite type_string in Ht.
  destruct f as [get set|get set|get set]; [|done..]. exists s. by apply read_string.
Qed.

Module Example.
Import PayloadFacts.Example.
Definition core : CoreFieldsUnmarshaler := mkCore ["trace.trace_id"] ["trace.parent_id"] ["service"; "trace.parent_id"].

Lemma es_readable : Forall readable_entry es.
Proof. repeat (apply Forall_cons; split; [by apply string_entry_readable; vm_compute|]). constructor. Qed.
Lemma core_names : names_ok (cu_traceIdFieldNames core) (cu_parentIdFieldNames core).
Proof. Transparent metadataFields. split; apply (bool_decide_unpack (Forall _ _)); by vm_compute. Qed.
Opaque metadataFields.
End Example.

Lemma arrival_presents_fields_witness :
  ∃ p, UnmarshalMsgpFirstEvent Example.core (PayloadFacts.Example.data +:+ "more") (NewPayload None ∅) = Ok (p, "more") ∧
    f_TraceID (pl_meta p) = "t1" ∧ Exists_ p "trace.parent_id" = false.
Proof.
  destruct (arrival_presents_fields Example.core None PayloadFacts.Example.data PayloadFacts.Example.es "more")
    as (p & E & _ & _ & Htrace & _ & _ & Hhid);
    [exact Example.core_names|exact PayloadFacts.Example.es_holds|by vm_compute|exact Example.es_readable
    |exact PayloadFacts.Example.es_nodup|].
  exists p. split_and!; [exact E| |].
  - rewrite Htrace; [by vm_compute|]. apply (bool_decide_unpack (_ ∉ _)). by vm_compute.
  - apply (Hhid (string_entry "trace.parent_id" "p1")); [right; left|by vm_compute|by vm_compute|right; left|left].
Defined.
