(* ===== verification/PayloadSend.v ===== *)
(** What [MarshalMsg] writes, and an event sent to another node.

    [marshal_entries] are the entries of the bytes, in the order they are written: the metadata
    fields that have a value, the memoized fields, and the entries of the bytes the event arrived
    in that neither replaces. *)
From Stdlib Require Import SpecFloat Ascii.
From stdpp Require Import fin_sets.
From S2P Require Import Prelude GoValue Msgp Event SamplerConfig Config Payload PayloadFacts PayloadWire.

Implicit Types p : Payload.

Section Entries.
Context `{!Msgp}.

Definition meta_entry (m : MetaFields) (kf : string * metadataField) : option entry :=
  match kf.2 with
  | stringField get _ =>
      if String.eqb (get m) "" then None else Some (mkEntry (AppendString kf.1) kf.1 (AppendString (get m)))
  | boolField get _ =>
      if nb_HasValue (get m) then Some (mkEntry (AppendString kf.1) kf.1 (AppendBool (nb_Value (get m)))) else None
  | int64Field get _ =>
      if get m =? 0 then None else Some (mkEntry (AppendString kf.1) kf.1 (AppendInt64 (get m)))
  end.

Definition memo_entry (kv : string * value) : option entry :=
  if bool_decide (is_Some (metadataFields !! kv.1)) then None
  else match AppendIntf kv.2 with Ok b => Some (mkEntry (AppendString kv.1) kv.1 b) | Err _ => None end.

Definition raw_entry (memo : gmap string value) (e : entry) : option entry :=
  if bool_decide (is_Some (memo !! e_key e)) || bool_decide (is_Some (metadataFields !! e_key e)) then None
  else Some (mkEntry (AppendString (e_key e)) (e_key e) (e_raw e)).

Definition marshal_entries (fs : list (string * metadataField)) (memo : list (string * value)) p (es : list entry)
    : list entry :=
  omap (meta_entry (pl_meta p)) fs ++ omap memo_entry memo ++ omap (raw_entry (memoizedFields p)) es.
End Entries.

(** The names and values can be written: lengths of 32 bits, values that read back as they are. *)
Definition field_fits (f : metadataField) (m : MetaFields) : Prop :=
  match f with stringField get _ => fits (get m) | boolField _ _ => True | int64Field get _ => in_s64 (get m) end.

Definition sendable p (es : list entry) : Prop :=
  Forall (λ kf, field_fits kf.2 (pl_meta p)) metadata_table ∧
  map_Forall (λ k v, fits k ∧ scalar v) (memoizedFields p) ∧
  Forall (λ e, fits (e_key e)) es.

Lemma no_meta_empty : Forall (λ kf, field_get kf.2 no_meta = None) metadata_table.
Proof. repeat constructor. Qed.

Section Facts.
Context `{!Msgp, !MsgpLaws}.
Implicit Types (es : list entry) (e : entry) (m : MetaFields).

Lemma entries_bytes_app es1 es2 : entries_bytes (es1 ++ es2) = entries_bytes es1 +:+ entries_bytes es2.
Proof. unfold entries_bytes. by rewrite fmap_app, str_concat_app. Qed.

Lemma table_fits : Forall fits metadata_table.*1.
Proof. repeat (apply Forall_cons; split; [by vm_compute|]). constructor. Qed.

(** *** The metadata entries *)

Lemma marshal_meta_entries fs m :
  marshal_meta fs m = (entries_bytes (omap (meta_entry m) fs), Z.of_nat (length (omap (meta_entry m) fs))).
Proof.
  unfold marshal_meta, entries_bytes.
  assert (E : omap (λ kf : string * metadataField, appendMsgp kf.1 kf.2 m) fs =
              (λ e, e_kb e +:+ e_raw e) <$> omap (meta_entry m) fs).
  { induction fs as [|[k f] fs IH]; [done|]. cbn [omap list_omap]. rewrite IH. unfold meta_entry, appendMsgp. simpl.
    destruct f as [get set|get set|get set]; simpl;
      [destruct (String.eqb (get m) "")|destruct (nb_HasValue (get m))|destruct (get m =? 0)];
      simpl; by rewrite ?IH. }
  by rewrite E, length_fmap.
Qed.

Lemma meta_entry_facts m k f e :
  (k, f) ∈ metadata_table → field_fits f m → meta_entry m (k, f) = Some e →
  e_key e = k ∧ readable_entry e ∧ typeIsCorrect f (NextType (e_raw e)) = true ∧
  field_get f m = Some (raw_val e) ∧ meta_val f (e_raw e) = Some (raw_val e).
Proof.
  intros Hin Hfit E.
  assert (Hk : fits k). { pose proof table_fits as Ht. rewrite Forall_forall in Ht. by eapply Ht, table_keys. }
  assert (Hf : metadataFields !! k = Some f) by by apply metadataFields_table.
  assert (Hlens : lens_ok (k, f)). { pose proof table_lens as Hl. rewrite Forall_forall in Hl. by apply Hl. }
  unfold meta_entry in E. unfold lens_ok in Hlens. unfold readable_entry, decodable, meta_val.
  destruct f as [get set|get set|get set]; simpl in *.
  - destruct (String.eqb_spec (get m) "") as [|Hne]; [done|]. injection E as <-. cbn [e_key e_raw].
    pose proof (read_string _ Hfit) as Hr. pose proof (read_intf (VString (get m)) _ Hfit (intf_string _)) as Hi.
    rewrite (raw_val_reads (mkEntry _ _ _) _ Hi), Hlens. cbn [e_key e_raw]. unfold str_val. rewrite (read_val_reads _ _ _ _ Hr).
    apply String.eqb_neq in Hne as ->. rewrite type_string.
    split_and!; [done|by eapply entry_of_reads; [apply string_object|..]|eauto| |done..].
    intros f' Hf' _. rewrite Hf in Hf'. injection Hf' as <-. by exists (get m).
  - destruct (nb_HasValue (get m)) eqn:Eh; [|done]. injection E as <-. cbn [e_key e_raw].
    pose proof (read_bool (nb_Value (get m))) as Hr.
    pose proof (read_intf (VBool (nb_Value (get m))) _ I (intf_bool _)) as Hi.
    rewrite (raw_val_reads (mkEntry _ _ _) _ Hi), Hlens. cbn [e_key e_raw nb_Set nb_HasValue nb_Value].
    rewrite (read_val_reads _ _ _ _ Hr), type_bool.
    split_and!; [done|by eapply entry_of_reads; [apply bool_object|..]|eauto| |done..].
    intros f' Hf' _. rewrite Hf in Hf'. injection Hf' as <-. by eexists.
  - destruct (Z.eqb_spec (get m) 0) as [|Hne]; [done|]. injection E as <-. cbn [e_key e_raw].
    pose proof (read_int64 _ Hfit) as Hr. pose proof (read_intf (VInt64 (get m)) _ Hfit (intf_int64 _)) as Hi.
    rewrite (raw_val_reads (mkEntry _ _ _) _ Hi), Hlens. cbn [e_key e_raw]. rewrite (read_val_reads _ _ _ _ Hr).
    apply Z.eqb_neq in Hne as ->.
    split_and!; [done|by eapply entry_of_reads; [apply int64_object|..]|eauto| |by apply bool_decide_eq_true_2, type_int64|done..].
    intros f' Hf' _. rewrite Hf in Hf'. injection Hf' as <-. by exists (get m).
Qed.

(** *** The memoized entries *)

Lemma marshal_memo_entries entries b n :
  marshal_memo entries = Ok (b, n) →
  b = entries_bytes (omap memo_entry entries) ∧ n = Z.of_nat (length (omap memo_entry entries)).
Proof.
  revert b n. induction entries as [|[k v] l IH]; intros b n; cbn [marshal_memo omap list_omap].
  { intros [= <- <-]. done. }
  destruct (memo_entry (k, v)) as [e|] eqn:E; unfold memo_entry in E; cbn [fst snd] in E;
    destruct (bool_decide (is_Some (metadataFields !! k))); [done| |apply IH|]; destruct (AppendIntf v) as [b'|err]; try done. cbn [res_bind].
  injection E as <-. destruct (marshal_memo l) as [[b2 n2]|err]; [|done]. cbn [res_bind]. intros [= <- <-].
  destruct (IH _ _ eq_refl) as [-> ->]. rewrite entries_bytes_cons. split; [by cbn [e_kb e_raw]|cbn [length]; lia].
Qed.

Lemma memo_entry_facts k v e :
  fits k → scalar v → memo_entry (k, v) = Some e → e_key e = k ∧ readable_entry e ∧ raw_val e = v.
Proof.
  intros Hk Hv. unfold memo_entry. cbn [fst snd]. case_bool_decide as Hm; [done|].
  destruct (AppendIntf v) as [b|] eqn:E; [|done]. intros [= <-]. pose proof (read_intf v b Hv E) as Hr.
  unfold readable_entry. cbn [e_key e_raw]. rewrite (raw_val_reads (mkEntry _ _ _) v Hr). split_and!; [done| | | |done].
  - by eapply entry_of_reads; [apply intf_object|..].
  - by exists v.
  - intros f Hf. destruct Hm. eauto.
Qed.

(** *** The entries of the bytes *)

Lemma valueSerialized_at raw es :
  skips raw →
  valueSerializedBytesZC (mkIter (raw +:+ entries_bytes es) true) = Ok (raw, mkIter (entries_bytes es) false).
Proof.
  intros Hs. unfold valueSerializedBytesZC. cbn [it_pendingValue it_remaining]. rewrite (Hs _). cbn [res_bind].
  rewrite str_length_app, Nat.add_sub, str_take_app. done.
Qed.

Lemma marshal_raw_at fuel it es memo :
  it_at it es → Forall entry_ok es → (length es < fuel)%nat →
  marshal_raw fuel it memo =
    Ok (entries_bytes (omap (raw_entry memo) es), Z.of_nat (length (omap (raw_entry memo) es))).
Proof.
  revert it es. induction fuel as [|fuel IH]; intros it es Hat Hok Hlen; [lia|]. cbn [marshal_raw].
  pose proof (nextKey_at it es Hat Hok) as Hn. destruct es as [|e es]; [by rewrite Hn|]. destruct Hn as [ft ->].
  apply Forall_cons in Hok as [(_ & _ & Hv & Hs) Hok]. simpl in Hlen. cbn [omap list_omap].
  destruct (raw_entry memo e) as [e'|] eqn:E; unfold raw_entry in E; destruct (_ || _);
    [done| |apply IH; [by constructor|done|lia]|done]. injection E as <-.
  rewrite valueSerialized_at by done. cbn [res_bind]. rewrite (IH _ es) by (constructor || done || lia).
  cbn [res_bind]. rewrite entries_bytes_cons. cbn [e_kb e_raw length]. do 2 f_equal. lia.
Qed.

Lemma raw_entry_facts memo e e' :
  fits (e_key e) → entry_ok e → decodable e → raw_entry memo e = Some e' →
  e_key e' = e_key e ∧ readable_entry e' ∧ raw_val e' = raw_val e.
Proof.
  intros Hk (_ & _ & Hv & Hs) [v Hr]. unfold raw_entry. case_bool_decide; [done|]. case_bool_decide as Hm; [done|].
  simpl. intros [= <-]. unfold readable_entry. cbn [e_key e_raw]. split_and!; [done| | | |done].
  - by eapply entry_of_reads; [apply intf_object|..].
  - by exists v.
  - intros f Hf. destruct Hm. eauto.
Qed.

(** *** Entries made from a list, one for each name *)

Lemma raw_lookup_app es1 es2 k :
  raw_lookup (es1 ++ es2) k = match raw_lookup es1 k with Some v => Some v | None => raw_lookup es2 k end.
Proof.
  induction es1 as [|e es1 IH]; [done|]. rewrite <-app_comm_cons, !raw_lookup_cons.
  by destruct (String.eqb (e_key e) k).
Qed.

Lemma raw_lookup_in es e : NoDup (e_key <$> es) → e ∈ es → raw_lookup es (e_key e) = Some (raw_val e).
Proof.
  induction es as [|e' es IH]; [by intros _ Hin%elem_of_nil|]. rewrite fmap_cons, NoDup_cons, raw_lookup_cons.
  intros [Hni Hnd] [->|Hin]%elem_of_cons; [by rewrite String.eqb_refl|].
  destruct (String.eqb_spec (e_key e') (e_key e)) as [E|_]; [|by apply IH].
  destruct Hni. rewrite E. by apply list_elem_of_fmap_2.
Qed.

Section Made.
Context {A : Type} (name : A → string) (g : A → option entry) (l : list A).
Hypothesis Hname : ∀ x e, x ∈ l → g x = Some e → e_key e = name x.

Lemma made_in e : e ∈ omap g l → ∃ x, x ∈ l ∧ g x = Some e.
Proof. by rewrite list_elem_of_omap. Qed.

Lemma made_key e : e ∈ omap g l → e_key e ∈ name <$> l.
Proof. intros (x & Hx & E)%made_in. rewrite (Hname x e Hx E). by apply list_elem_of_fmap_2. Qed.

Lemma made_lookup_notin k : k ∉ name <$> l → raw_lookup (omap g l) k = None.
Proof. intros Hk. apply raw_lookup_notin. intros (e & -> & He)%list_elem_of_fmap. by apply Hk, made_key. Qed.

Lemma made_nodup : NoDup (name <$> l) → NoDup (e_key <$> omap g l).
Proof.
  clear -Hname. induction l as [|x l' IH]; [by constructor|]. rewrite fmap_cons. intros [Hni Hnd]%NoDup_cons.
  assert (Hn : ∀ y e, y ∈ l' → g y = Some e → e_key e = name y) by (intros; apply Hname; [by right|done]).
  cbn [omap list_omap]. specialize (IH Hn Hnd). destruct (g x) as [e|] eqn:E; [|done]. rewrite fmap_cons.
  apply NoDup_cons. split; [|done]. rewrite (Hname x e) by (by left || done). intros (e' & Ee & He')%list_elem_of_fmap.
  apply list_elem_of_omap in He' as (y & Hy & Ey). apply Hni. rewrite Ee, (Hn y e' Hy Ey). by apply list_elem_of_fmap_2.
Qed.

Lemma made_none x : NoDup (name <$> l) → x ∈ l → g x = None → name x ∉ e_key <$> omap g l.
Proof.
  intros Hnd Hx Hg (e & Ee & (y & Hy & E)%made_in)%list_elem_of_fmap. rewrite (Hname y e Hy E) in Ee.
  rewrite (NoDup_fmap_eq name l y x) in E by done. congruence.
Qed.

Lemma made_lookup_at x k :
  NoDup (name <$> l) → x ∈ l → name x = k → raw_lookup (omap g l) k = raw_val <$> g x.
Proof.
  intros Hnd Hx <-. destruct (g x) as [e|] eqn:E; [|by apply raw_lookup_notin, made_none].
  rewrite <-(Hname x e Hx E). apply raw_lookup_in; [by apply made_nodup|]. apply list_elem_of_omap. eauto.
Qed.
End Made.

(** *** What is sent *)

Lemma meta_entry_none m k f : meta_entry m (k, f) = None → field_get f m = None.
Proof.
  unfold meta_entry, field_get. simpl. destruct f as [get set|get set|get set]; simpl.
  - by destruct (String.eqb (get m) "").
  - by destruct (nb_HasValue (get m)).
  - by destruct (get m =? 0).
Qed.

Lemma marshal_memo_each entries r kv :
  marshal_memo entries = Ok r → kv ∈ entries → metadataFields !! kv.1 = None → is_Some (memo_entry kv).
Proof.
  revert r. induction entries as [|[k v] l IH]; intros r; [by intros _ Hin%elem_of_nil|]. cbn [marshal_memo].
  intros E Hin Hk. apply elem_of_cons in Hin as [->|Hin].
  - unfold memo_entry. cbn [fst snd] in *. rewrite Hk in E |- *. rewrite bool_decide_eq_false_2 in E |- * by by intros [].
    destruct (AppendIntf v); [eauto|done].
  - destruct (bool_decide _); [by eapply IH|]. destruct (AppendIntf v); [|done]. cbn [res_bind] in E.
    destruct (marshal_memo l) as [r'|]; [|done]. by eapply IH.
Qed.

Section Sent.
Context (fs : list (string * metadataField)) (entries : list (string * value)) (p : Payload) (es : list entry).
Context (Hfs : fs ≡ₚ metadata_table) (Hentries : entries ≡ₚ map_to_list (memoizedFields p)).
Context (Hdec : Forall decodable es) (Hok : Forall entry_ok es) (Hnd : NoDup (e_key <$> es)) (Hsend : sendable p es).

Let sent_meta := omap (meta_entry (pl_meta p)) fs.
Let sent_memo := omap memo_entry entries.
Let sent_raw := omap (raw_entry (memoizedFields p)) es.

Lemma sent_meta_entry kf e :
  kf ∈ fs → meta_entry (pl_meta p) kf = Some e →
  e_key e = kf.1 ∧ readable_entry e ∧ typeIsCorrect kf.2 (NextType (e_raw e)) = true ∧
  field_get kf.2 (pl_meta p) = Some (raw_val e) ∧ meta_val kf.2 (e_raw e) = Some (raw_val e).
Proof.
  rewrite Hfs. destruct kf as [k f], Hsend as (Hfit & _). rewrite Forall_forall in Hfit. intros Hin.
  by apply meta_entry_facts; [|apply (Hfit _ Hin)].
Qed.

Lemma sent_memo_entry kv e :
  kv ∈ entries → memo_entry kv = Some e → e_key e = kv.1 ∧ readable_entry e ∧ raw_val e = kv.2.
Proof.
  rewrite Hentries. destruct kv as [k v]. intros Hin%elem_of_map_to_list. destruct Hsend as (_ & Hmemo & _).
  by destruct (Hmemo k v Hin); apply memo_entry_facts.
Qed.

Lemma sent_raw_entry e e' :
  e ∈ es → raw_entry (memoizedFields p) e = Some e' → e_key e' = e_key e ∧ readable_entry e' ∧ raw_val e' = raw_val e.
Proof.
  intros Hin. destruct Hsend as (_ & _ & Hfit). rewrite Forall_forall in Hdec. rewrite Forall_forall in Hok.
  rewrite Forall_forall in Hfit. apply raw_entry_facts; auto.
Qed.

Lemma fs_nodup : NoDup fs.*1.
Proof. rewrite Hfs. apply table_nodup. Qed.
Lemma entries_nodup : NoDup entries.*1.
Proof. rewrite Hentries. apply NoDup_fst_map_to_list. Qed.

Lemma sent_meta_lookup k :
  raw_lookup sent_meta k = match metadataFields !! k with Some f => field_get f (pl_meta p) | None => None end.
Proof.
  destruct (metadataFields !! k) as [f|] eqn:Ef.
  - assert (Hin : (k, f) ∈ fs) by by rewrite Hfs, <-metadataFields_table.
    unfold sent_meta. rewrite (made_lookup_at fst _ _ ltac:(intros x e Hx E; by eapply sent_meta_entry) (k, f) k fs_nodup Hin eq_refl).
    destruct (meta_entry _ _) as [e|] eqn:E; cbn [fmap option_fmap option_map];
      [by apply sent_meta_entry in E as (_ & _ & _ & Ev & _)|].
    by rewrite (meta_entry_none _ k).
  - apply (made_lookup_notin fst); [intros x e Hx E; by eapply sent_meta_entry|].
    rewrite Hfs. intros ([k' f] & -> & Hin)%list_elem_of_fmap. apply metadataFields_table in Hin. cbn [fst] in Ef. congruence.
Qed.

Lemma sent_memo_lookup k r :
  marshal_memo entries = Ok r → metadataFields !! k = None → raw_lookup sent_memo k = memoizedFields p !! k.
Proof.
  intros Hm Hk. unfold sent_memo. destruct (memoizedFields p !! k) as [v|] eqn:Ev.
  - assert (Hin : (k, v) ∈ entries) by by rewrite Hentries; apply elem_of_map_to_list.
    rewrite (made_lookup_at fst _ _ ltac:(intros x e Hx E; by eapply sent_memo_entry) (k, v) k entries_nodup Hin eq_refl).
    destruct (marshal_memo_each _ _ _ Hm Hin Hk) as [e E]. rewrite E. simpl.
    by apply sent_memo_entry in E as (_ & _ & ->).
  - apply (made_lookup_notin fst); [intros x e Hx E; by eapply sent_memo_entry|].
    rewrite Hentries. intros ([k' v] & -> & Hin)%list_elem_of_fmap. apply elem_of_map_to_list in Hin.
    cbn [fst] in *. congruence.
Qed.

Lemma sent_raw_lookup k :
  metadataFields !! k = None → memoizedFields p !! k = None → raw_lookup sent_raw k = raw_lookup es k.
Proof.
  intros Hk Hm. unfold sent_raw. destruct (decide (k ∈ e_key <$> es)) as [Hin|Hni].
  - apply list_elem_of_fmap in Hin as (e & -> & Hin).
    rewrite (made_lookup_at e_key _ _ ltac:(intros x e' Hx E; by eapply sent_raw_entry) e) by done.
    rewrite raw_lookup_in by done.
    destruct (raw_entry _ e) as [e'|] eqn:E.
    + apply sent_raw_entry in E as (_ & _ & Ev); [|done]. simpl. by rewrite Ev.
    + exfalso. unfold raw_entry in E. rewrite Hk, Hm in E.
      by rewrite !(bool_decide_eq_false_2 (is_Some None)) in E by by intros [].
  - rewrite (raw_lookup_notin es k) by done.
    apply (made_lookup_notin e_key); [|done]. intros x e' Hx E. by eapply sent_raw_entry.
Qed.

Let sent := marshal_entries fs entries p es.

Lemma sent_readable : Forall readable_entry sent.
Proof.
  apply Forall_forall. intros e. unfold sent, marshal_entries. rewrite !elem_of_app, !list_elem_of_omap.
  intros [(x & Hx & E)|[(x & Hx & E)|(x & Hx & E)]].
  - by eapply sent_meta_entry.
  - by eapply sent_memo_entry.
  - by eapply sent_raw_entry.
Qed.

Lemma sent_nodup : NoDup (e_key <$> sent).
Proof.
  assert (Hmeta : ∀ k, k ∈ e_key <$> sent_meta → is_Some (metadataFields !! k)).
  { intros k (e & -> & Hin)%list_elem_of_fmap.
    apply (made_key fst) in Hin; [|intros x e' Hx E; by eapply sent_meta_entry].
    apply list_elem_of_fmap in Hin as ([k' f] & -> & Hin). rewrite Hfs, <-metadataFields_table in Hin. eauto. }
  assert (Hmemo : ∀ k, k ∈ e_key <$> sent_memo → metadataFields !! k = None ∧ is_Some (memoizedFields p !! k)).
  { intros k (e & -> & (kv & Hin & E)%list_elem_of_omap)%list_elem_of_fmap.
    rewrite (proj1 (sent_memo_entry kv e Hin E)). rewrite Hentries in Hin. destruct kv as [k v].
    apply elem_of_map_to_list in Hin. cbn [fst]. split; [|eauto].
    unfold memo_entry in E. cbn [fst] in E. case_bool_decide as Hm; [done|]. by apply eq_None_not_Some. }
  assert (Hraw : ∀ k, k ∈ e_key <$> sent_raw → metadataFields !! k = None ∧ memoizedFields p !! k = None).
  { intros k (e & -> & (x & Hin & E)%list_elem_of_omap)%list_elem_of_fmap.
    rewrite (proj1 (sent_raw_entry x e Hin E)). unfold raw_entry in E.
    case_bool_decide as Hm; [done|]. case_bool_decide as Hk; [done|]. by rewrite !eq_None_not_Some. }
  unfold sent, marshal_entries. rewrite !fmap_app. apply NoDup_app. split_and!; [|..].
  - apply (made_nodup fst); [intros x e' Hx E; by eapply sent_meta_entry|apply fs_nodup].
  - intros k [f Hk]%Hmeta. rewrite elem_of_app. intros [[Hn _]%Hmemo|[Hn _]%Hraw]; congruence.
  - apply NoDup_app. split_and!.
    + apply (made_nodup fst); [intros x e' Hx E; by eapply sent_memo_entry|apply entries_nodup].
    + intros k [_ [v Hv]]%Hmemo [_ Hn]%Hraw. congruence.
    + apply (made_nodup e_key); [intros x e' Hx E; by eapply sent_raw_entry|done].
Qed.

Lemma sent_lookup r k : marshal_memo entries = Ok r → raw_lookup sent k = wire p es k.
Proof.
  intros Hm. unfold sent, marshal_entries, wire. fold sent_meta sent_memo sent_raw.
  rewrite !raw_lookup_app, sent_meta_lookup. destruct (metadataFields !! k) as [f|] eqn:Ef.
  - destruct (field_get f (pl_meta p)); [done|].
    assert (raw_lookup sent_memo k = None) as ->.
    { apply raw_lookup_notin. intros (e & -> & (kv & Hin & E)%list_elem_of_omap)%list_elem_of_fmap.
      rewrite (proj1 (sent_memo_entry kv e Hin E)) in Ef. unfold memo_entry in E.
      rewrite Ef, bool_decide_eq_true_2 in E by eauto. done. }
    apply raw_lookup_notin. intros (e & -> & (x & Hin & E)%list_elem_of_omap)%list_elem_of_fmap.
    rewrite (proj1 (sent_raw_entry x e Hin E)) in Ef. unfold raw_entry in E.
    by rewrite Ef, (bool_decide_eq_true_2 (is_Some (Some f))), orb_true_r in E by eauto.
  - rewrite (sent_memo_lookup k r) by done. destruct (memoizedFields p !! k) as [v|] eqn:Ev; [done|].
    by apply sent_raw_lookup.
Qed.

Lemma marshal_parts b :
  holds (msgpData p) es → MarshalMsg_in fs entries p = Ok b →
  Z.of_nat (length sent) ≤ 65535 ∧ b = String map16 (be 2 (Z.of_nat (length sent))) +:+ entries_bytes sent ∧
  ∃ r, marshal_memo entries = Ok r.
Proof.
  intros Hh. unfold MarshalMsg_in. rewrite marshal_meta_entries.
  destruct (marshal_memo entries) as [[memo n]|err] eqn:Em; [|done]. cbn [res_bind].
  apply marshal_memo_entries in Em as Em'. destruct Em' as [-> ->].
  destruct (holds_iter _ _ Hh) as (it & -> & Hat & Hlen). rewrite (marshal_raw_at _ it es) by done || lia.
  cbn [res_bind]. fold sent_meta sent_memo sent_raw.
  replace (_ + _ + _) with (Z.of_nat (length sent)).
  2:{ unfold sent, marshal_entries. fold sent_meta sent_memo sent_raw. rewrite !length_app. lia. }
  destruct (Z.ltb_spec 65535 (Z.of_nat (length sent))); [done|]. intros [= <-].
  split_and!; [lia| |by eexists]. unfold sent, marshal_entries. fold sent_meta sent_memo sent_raw.
  by rewrite !entries_bytes_app.
Qed.

Lemma sent_holds b : holds (msgpData p) es → MarshalMsg_in fs entries p = Ok b → b ≠ "" ∧ holds b sent.
Proof.
  intros Hh Hm. destruct (marshal_parts b Hh Hm) as (Hlen & -> & _). split; [done|]. split.
  - eapply Forall_impl; [apply sent_readable|]. by intros e [].
  - right. exists (String map16 (be 2 (Z.of_nat (length sent)))). split_and!; [done..|]. apply read_map16. lia.
Qed.

(** An entry is sent for each metadata field that has a value. *)
Lemma sent_meta_field k f v :
  metadataFields !! k = Some f → field_get f (pl_meta p) = Some v →
  ∃ e, e ∈ sent ∧ e_key e = k ∧ meta_entry (pl_meta p) (k, f) = Some e ∧
    typeIsCorrect f (NextType (e_raw e)) = true ∧ meta_val f (e_raw e) = Some v.
Proof.
  intros Hf Hv. assert (Hin : (k, f) ∈ fs) by by rewrite Hfs, <-metadataFields_table.
  destruct (meta_entry (pl_meta p) (k, f)) as [e|] eqn:E.
  - destruct (sent_meta_entry _ _ Hin E) as (Hk & _ & Ht & Hg & Hmv). exists e. split_and!; [|done..|].
    + unfold sent, marshal_entries. apply elem_of_app. left. apply list_elem_of_omap. eauto.
    + cbn [snd] in *. congruence.
  - apply (meta_entry_none _ k) in E. congruence.
Qed.

Lemma sent_meta_only k f : metadataFields !! k = Some f → field_get f (pl_meta p) = None → k ∉ e_key <$> sent.
Proof.
  intros Hf Hv (e & -> & Hin)%list_elem_of_fmap. unfold sent, marshal_entries in Hin.
  rewrite !elem_of_app, !list_elem_of_omap in Hin. destruct Hin as [(x & Hx & E)|[(x & Hx & E)|(x & Hx & E)]].
  - destruct (sent_meta_entry _ _ Hx E) as (Hk & _ & _ & Hg & _). destruct x as [k' f']. cbn [fst snd] in *.
    rewrite Hfs, <-metadataFields_table, <-Hk in Hx. congruence.
  - rewrite (proj1 (sent_memo_entry x e Hx E)) in Hf. unfold memo_entry in E.
    by rewrite bool_decide_eq_true_2 in E by eauto.
  - rewrite (proj1 (sent_raw_entry x e Hx E)) in Hf. unfold raw_entry in E.
    by rewrite (bool_decide_eq_true_2 (is_Some (metadataFields !! e_key x))), orb_true_r in E by eauto.
Qed.

(** ... and arrives. *)
Lemma sent_meta_arrives cu cfg data k f :
  metadataFields !! k = Some f → k ≠ MetaTraceID → k ≠ MetaRefineryRoot →
  field_get f (pl_meta (arrived cu cfg data sent)) = field_get f (pl_meta p).
Proof.
  intros Hf Ht Hr. destruct (arrived_parts cu cfg data sent) as (_ & _ & _ & ->).
  rewrite (log_not_root_other _ k) by done. destruct (field_get f (pl_meta p)) as [v|] eqn:Ev.
  - destruct (sent_meta_field k f v Hf Ev) as (e & Hin & <- & _ & Hty & Hmv).
    rewrite (take_entries_meta_at _ _ _ _ _ e) by (done || apply sent_nodup). done.
  - rewrite (take_entries_meta _ _ _ _ _ k) by (done || by eapply sent_meta_only).
    assert (E : field_get f (pl_meta (set_Root (NewPayload cfg ∅) (nb_Set true))) = None).
    { cbn [set_Root with_meta pl_meta]. rewrite set_Root_put.
      rewrite (field_get_put_ne MetaRefineryRoot k) by (done || apply root_in_table).
      pose proof no_meta_empty as Hno. rewrite Forall_forall in Hno. apply (Hno (k, f)). by apply metadataFields_table. }
    exact E.
Qed.

Lemma sent_trace_arrives cu cfg data :
  names_ok (cu_traceIdFieldNames cu) (cu_parentIdFieldNames cu) → f_TraceID (pl_meta p) ≠ "" →
  f_TraceID (pl_meta (arrived cu cfg data sent)) = f_TraceID (pl_meta p).
Proof.
  intros Hn Hne. rewrite arrived_trace.
  assert (Hg : field_get trace_field (pl_meta p) = Some (VString (f_TraceID (pl_meta p)))).
  { unfold trace_field, field_get. by apply String.eqb_neq in Hne as ->. }
  destruct (sent_meta_field _ _ _ trace_in_table Hg) as (e & Hin & Hk & E & _ & Hmv).
  assert (Hty : NextType (e_raw e) = StrType).
  { unfold meta_entry, trace_field in E. cbn [fst snd] in E. destruct (String.eqb _ _); [done|].
    injection E as <-. apply type_string. }
  assert (Hs : str_val (e_raw e) = f_TraceID (pl_meta p)).
  { unfold meta_val, trace_field in Hmv. simpl in Hmv. destruct (String.eqb _ _); [done|by injection Hmv]. }
  rewrite (take_entries_trace_at _ _ _ _ _ e); [done|done|apply sent_nodup|done..|]. by rewrite Hs.
Qed.
End Sent.

Lemma marshal_memo_err entries err :
  marshal_memo entries = Err err → (∃ kv, kv ∈ entries ∧ metadataFields !! kv.1 = None ∧ ∃ err, AppendIntf kv.2 = Err err).
Proof.
  induction entries as [|[k v] l IH]; [done|]. cbn [marshal_memo].
  assert (Hrest : marshal_memo l = Err err →
    ∃ kv, kv ∈ (k, v) :: l ∧ metadataFields !! kv.1 = None ∧ ∃ err, AppendIntf kv.2 = Err err).
  { intros (kv & Hin & ?)%IH. exists kv. split; [by right|done]. }
  case_bool_decide as Hm; [done|]. destruct (AppendIntf v) as [b|e] eqn:E; cbn [res_bind].
  - destruct (marshal_memo l) as [[b2 n]|e]; [done|]. cbn [res_bind]. intros [= ->]. by apply Hrest.
  - intros _. exists (k, v). cbn [fst snd]. split_and!; [left|by apply eq_None_not_Some|eauto].
Qed.

(** Go's orders over its two maps, the entries of the data, and values that can be written. *)
Definition sending (fs : list (string * metadataField)) (entries : list (string * value)) p es : Prop :=
  fs ≡ₚ metadata_table ∧ entries ≡ₚ map_to_list (memoizedFields p) ∧
  holds (msgpData p) es ∧ Forall decodable es ∧ NoDup (e_key <$> es) ∧ sendable p es.

(** What is sent are the fields the payload stands for.  In whatever order Go goes through its
    maps, the bytes are the serialization of entries with distinct names and readable values whose
    lookup is [wire]: the metadata fields with a value, the memoized values over those of the
    original bytes, and the names recorded as missing as well.  It fails only for a memoized value
    that has no encoding and beyond the 65535 entries of the header. *)
Theorem marshal_is_wire fs entries p es :
  sending fs entries p es →
  match MarshalMsg_in fs entries p with
  | Ok b => ∃ es', holds b es' ∧ NoDup (e_key <$> es') ∧ Forall readable_entry es' ∧
      Z.of_nat (length es') < 65536 ∧ ∀ k, raw_lookup es' k = wire p es k
  | Err _ =>
      (∃ kv, kv ∈ entries ∧ metadataFields !! kv.1 = None ∧ ∃ err, AppendIntf kv.2 = Err err) ∨
      65535 < Z.of_nat (length (marshal_entries fs entries p es))
  end.
Proof.
  intros (Hfs & Hen & Hh & Hdec & Hnd & Hs). pose proof Hh as [Hok _].
  destruct (MarshalMsg_in fs entries p) as [b|err] eqn:Em.
  - destruct (marshal_parts fs entries p es Hok b Hh Em) as (Hlen & _ & r & Hr).
    exists (marshal_entries fs entries p es). split_and!.
    + by apply sent_holds.
    + by apply sent_nodup.
    + by apply sent_readable.
    + lia.
    + intros k. by apply (sent_lookup _ _ _ _ Hfs Hen Hdec Hok Hnd Hs r).
  - unfold MarshalMsg_in in Em. rewrite marshal_meta_entries in Em.
    destruct (marshal_memo entries) as [[memo n]|e] eqn:Emm; [|by left; eapply marshal_memo_err]. right.
    apply marshal_memo_entries in Emm as [-> ->]. destruct (holds_iter _ _ Hh) as (it & E & Hat & Hlen).
    cbn [res_bind] in Em. rewrite E, (marshal_raw_at _ it es) in Em by done || lia. cbn [res_bind] in Em.
    unfold marshal_entries. rewrite !length_app. destruct (Z.ltb_spec 65535 (Z.of_nat (length (omap (meta_entry (pl_meta p)) fs)) + Z.of_nat (length (omap memo_entry entries)) +
      Z.of_nat (length (omap (raw_entry (memoizedFields p)) es)))); [lia|done].
Qed.

(** [q] is [p] after the way to a node with the core fields [cu]: every metadata field but the
    trace ID and the root flag is as it was, set or not; so is the trace ID, if there was one; and
    every other field reads as [p] has it, except a sampling key field that is an ID. *)
Definition same_fields (cu : CoreFieldsUnmarshaler) p es q es' : Prop :=
  (∀ k f, metadataFields !! k = Some f → k ≠ MetaTraceID → k ≠ MetaRefineryRoot → fields q es' k = fields p es k) ∧
  (f_TraceID (pl_meta p) ≠ "" → f_TraceID (pl_meta q) = f_TraceID (pl_meta p)) ∧
  (∀ k, metadataFields !! k = None →
    (k ∈ cu_samplingKeyFields cu → k ∉ cu_traceIdFieldNames cu ∧ k ∉ cu_parentIdFieldNames cu) →
    fields q es' k = wire p es k).

Lemma sent_arrives fs entries p es b cu cfg rest :
  sending fs entries p es → MarshalMsg_in fs entries p = Ok b →
  names_ok (cu_traceIdFieldNames cu) (cu_parentIdFieldNames cu) →
  ∃ q es', UnmarshalMsgpFirstEvent cu (b +:+ rest) (NewPayload cfg ∅) = Ok (q, rest) ∧ holds (msgpData q) es' ∧
    same_fields cu p es q es'.
Proof.
  intros (Hfs & Hen & Hh & Hdec & Hnd & Hs) Em Hn. pose proof Hh as [Hok _].
  destruct (marshal_parts fs entries p es Hok b Hh Em) as (_ & _ & r & Hr).
  destruct (sent_holds fs entries p es Hfs Hen Hdec Hok Hs b Hh Em) as [Hne Hb].
  set (es' := marshal_entries fs entries p es) in *. exists (arrived cu cfg b es'), es'.
  destruct (arrived_parts cu cfg b es') as (Ed & _). unfold same_fields. split_and!.
  - apply UnmarshalMsgpFirstEvent_arrived; [done..|]. by apply sent_readable.
  - by rewrite Ed.
  - intros k f Hf Hkt Hkr. unfold fields. rewrite Hf. by apply (sent_meta_arrives _ _ _ _ Hfs Hen Hdec Hok Hnd Hs _ _ _ k).
  - intros Ht. by apply sent_trace_arrives.
  - intros k Hk Hkey. rewrite arrived_plain by (done || by apply sent_nodup). by apply (sent_lookup _ _ _ _ Hfs Hen Hdec Hok Hnd Hs r).
Qed.

(** C18: an event keeps its fields on the way to another node.  What one node sends, the other
    parses up to the end of it, and the payload it then has agrees with the one that was sent:
    [same_fields]. *)
Theorem hop_preserves_fields fs entries p es b cu cfg rest :
  sending fs entries p es → MarshalMsg_in fs entries p = Ok b →
  names_ok (cu_traceIdFieldNames cu) (cu_parentIdFieldNames cu) →
  ∃ q es', UnmarshalMsgpFirstEvent cu (b +:+ rest) (NewPayload cfg ∅) = Ok (q, rest) ∧ holds (msgpData q) es' ∧
    same_fields cu p es q es'.
Proof. apply sent_arrives. Qed.
End Facts.

#[local] Existing Instance ExampleMsgp.codec.
#[local] Existing Instance ExampleMsgp.codec_laws.

(** The event of [PayloadFacts.Example], arrived, with a field and a reason set since. *)
Module Example.
Import PayloadFacts.Example.
Definition event : Payload :=
  Set_ (with_meta (with_data (NewPayload None ∅) data) (set_RefineryReason (set_TraceID no_meta "t1") "dynamic"))
    "service" (VString "web").
Definition sent : string := match MarshalMsg event with Ok b => b | Err _ => "" end.

Lemma event_sending : sending metadata_table (map_to_list (memoizedFields event)) event es.
Proof.
  split_and!; [done|done|exact es_holds|exact es_decodable|exact es_nodup|]. split_and!.
  - repeat (apply Forall_cons; split; [by vm_compute|]). constructor.
  - intros k v Hk. assert (E : memoizedFields event = {["service" := VString "web"]}) by by vm_compute.
    rewrite E in Hk. apply lookup_singleton_Some in Hk as [<- <-]. by vm_compute.
  - repeat (apply Forall_cons; split; [by vm_compute|]). constructor.
Qed.
Lemma event_sent : MarshalMsg_in metadata_table (map_to_list (memoizedFields event)) event = Ok sent.
Proof. by vm_compute. Qed.
End Example.

Lemma marshal_is_wire_witness :
  ∃ es', holds Example.sent es' ∧ raw_lookup es' "service" = Some (VString "web") ∧
    raw_lookup es' "trace.parent_id" = Some (VString "p1") ∧ raw_lookup es' "meta.refinery.reason" = Some (VString "dynamic").
Proof.
  pose proof (marshal_is_wire _ _ _ _ Example.event_sending) as Hm. rewrite Example.event_sent in Hm.
  destruct Hm as (es' & Hh & _ & _ & _ & Hl). exists es'. rewrite !Hl. split_and!; [exact Hh|by vm_compute..].
Defined.

Lemma hop_preserves_fields_witness :
  ∃ q es', UnmarshalMsgpFirstEvent PayloadWire.Example.core (Example.sent +:+ "") (NewPayload None ∅) = Ok (q, "") ∧
    f_TraceID (pl_meta q) = "t1" ∧ fields q es' "service" = Some (VString "web") ∧
    fields q es' "meta.refinery.reason" = Some (VString "dynamic").
Proof.
  destruct (hop_preserves_fields _ _ _ _ _ PayloadWire.Example.core None "" Example.event_sending Example.event_sent
    PayloadWire.Example.core_names) as (q & es' & E & _ & (Hmeta & Ht & Hf)).
  exists q, es'. split_and!; [exact E|by rewrite Ht|..].
  - rewrite Hf; [by vm_compute|by vm_compute|]. intros _. split; apply (bool_decide_unpack (_ ∉ _)); by vm_compute.
  - assert (metadataFields !! "meta.refinery.reason" = Some (stringField f_RefineryReason set_RefineryReason)) as Hin by by vm_compute.
    rewrite (Hmeta _ _ Hin); [by vm_compute|done..].
Defined.
