(* ===== verification/Transmit.v ===== *)
(** transmit/direct_transmit.go, types/router_types.go: events on their way out.

    Events are enqueued by pointer: a batch holds locations, and [sendBatch] reads the events of
    the store as they are when the batch is sent.  The dispatch pool is the list of the batches
    given to it; a batch in it is sent by [sendBatch] at some later time.  What the network answers
    is a function of the requests made so far, the last one first, and so is the clock while a
    batch is being sent.  Logging is not modelled. *)
From Stdlib Require Import SpecFloat Ascii.
From S2P Require Import Prelude GoValue Metrics Msgp Event SamplerConfig Config Payload.

(** ** types/router_types.go *)

Definition RouterType := bool.
Definition RouterTypeIncoming : RouterType := true.
Definition RouterTypePeer : RouterType := false.
Definition RouterType_String (rt : RouterType) : string := if rt then "incoming" else "peer".
Definition RouterType_IsIncoming (rt : RouterType) : bool := Bool.eqb rt RouterTypeIncoming.

Definition TransmitType := bool.
Definition TransmitTypeUpstream : TransmitType := true.
Definition TransmitTypePeer : TransmitType := false.
Definition TransmitType_String (tt : TransmitType) : string := if tt then "upstream" else "peer".

(** ** The events of a request's body *)

Definition bytes (l : list Z) : string := foldr (λ z s, String (byte_of z) s) "" l.

(** The map's header and its keys are constants of the code. *)
Definition header_time : string := bytes [131; 164; 116; 105; 109; 101].
Definition key_samplerate : string := bytes [170; 115; 97; 109; 112; 108; 101; 114; 97; 116; 101].
Definition key_data : string := bytes [164; 100; 97; 116; 97].

Record batchedEvent := mkBatched { bv_time : Z; bv_sampleRate : Z; bv_data : Payload }.

Definition marshal_event `{!Msgp} (z : batchedEvent) : res string :=
  let o := header_time +:+ AppendTimeExt (bv_time z) +:+ key_samplerate +:+ AppendInt64 (bv_sampleRate z) +:+ key_data in
  let! data := MarshalMsg (bv_data z) in
  Ok (o +:+ data).

(** ** HTTP *)

(** A body that cannot be read, as after [Close], is [None]. *)
Record response := mkResponse {
  rs_StatusCode : Z;
  rs_ContentType : string;
  rs_RetryAfter : string;
  rs_Body : option string }.

(** What [Client.Do] returns: a response, or an error (which may be a timeout) with, for a
    refused redirection, a response as well. *)
Inductive http_result :=
| Replied (r : response)
| Failed (timeout : bool) (r : option response).

Record request := mkRequest { rq_URL : string; rq_Header : gmap string string; rq_Body : string }.

(** net/url, net/http and time, and the libraries that compress and decode.  The decoders give
    the statuses decoded and whether there was an error. *)
Class GoHTTP := {
  url_JoinPath : string → list string → option string;
  NewRequest_ok : string → bool;
  ParseDuration : string → option Z;
  ParseTime : string → option Z;
  msgpack_responses : option string → list Z * bool;
  json_responses : string → list Z * bool;
  msgpack_body_err : option string → bool;
  zstd_EncodeAll : string → string;
}.

Definition StatusOK : Z := 200.
Definition StatusAccepted : Z := 202.
Definition StatusTooManyRequests : Z := 429.
Definition StatusServiceUnavailable : Z := 503.
Definition Second : Z := 1000000000.

(** net/url's PathEscape. *)
Definition path_unescaped (c : ascii) : bool :=
  let n := N_of_ascii c in
  ((48 <=? n) && (n <=? 57) || (65 <=? n) && (n <=? 90) || (97 <=? n) && (n <=? 122))%N ||
  existsb (Ascii.eqb c) (String.list_ascii_of_string "-_.~$&+:=@").
Definition hex_digit (n : N) : ascii := ascii_of_N (if n <? 10 then 48 + n else 55 + n)%N.
Fixpoint PathEscape (s : string) : string :=
  match s with
  | EmptyString => ""
  | String c s =>
      if path_unescaped c then String c (PathEscape s)
      else String "%" (String (hex_digit (N_of_ascii c / 16)) (String (hex_digit (N_of_ascii c mod 16)) (PathEscape s)))
  end.

Definition buildRequestURL `{!GoHTTP} (apiHost dataset : string) : option string :=
  url_JoinPath apiHost ["/1/batch"; PathEscape dataset].

(** net/textproto's CanonicalMIMEHeaderKey: a key with a byte that is none of a header's is as it is. *)
Definition is_lower (c : ascii) : bool := let n := N_of_ascii c in ((97 <=? n) && (n <=? 122))%N.
Definition is_upper (c : ascii) : bool := let n := N_of_ascii c in ((65 <=? n) && (n <=? 90))%N.
Definition is_digit (c : ascii) : bool := let n := N_of_ascii c in ((48 <=? n) && (n <=? 57))%N.
Definition token_char (c : ascii) : bool :=
  is_lower c || is_upper c || is_digit c || existsb (Ascii.eqb c) (String.list_ascii_of_string "!#$%&'*+-.^_`|~").
Fixpoint canonical (upper : bool) (s : string) : string :=
  match s with
  | EmptyString => ""
  | String c s =>
      let c' :=
        if upper && is_lower c then ascii_of_N (N_of_ascii c - 32)
        else if negb upper && is_upper c then ascii_of_N (N_of_ascii c + 32) else c in
      String c' (canonical (Ascii.eqb c' "-") s)
  end.
Definition CanonicalHeaderKey (s : string) : string := if str_forallb token_char s then canonical true s else s.
Definition Header_Set (h : gmap string string) (key v : string) : gmap string string := <[CanonicalHeaderKey key := v]> h.

(** ** The state *)

Definition apiMaxBatchSize : Z := 5000000.
Definition apiMaxEventSize : Z := 1000000.

Abbreviation loc := nat.
Abbreviation event := (Event Payload).
Abbreviation store := (gmap loc event).

Record transmitKey := mkKey { tk_apiHost : string; tk_apiKey : string; tk_dataset : string }.
#[export] Instance transmitKey_eq_dec : EqDecision transmitKey.
Proof. solve_decision. Defined.
#[export] Instance transmitKey_countable : Countable transmitKey.
Proof.
  apply (inj_countable' (λ k, (tk_apiHost k, tk_apiKey k, tk_dataset k)) (λ x, mkKey x.1.1 x.1.2 x.2)). by intros [].
Defined.

(** [events] is nil exactly when there are none. *)
Record eventBatch := mkBatch { eb_events : list loc; eb_startTime : Z }.

(** [dt_eventBatches] is [None] after [Stop]. *)
Record DirectTransmission := mkDirect {
  dt_transmitType : TransmitType;
  dt_enableCompression : bool;
  dt_maxBatchSize : Z;
  dt_batchTimeout : Z;
  dt_additionalHeaders : list (string * string);
  dt_userAgent : string;
  dt_eventBatches : option (gmap transmitKey eventBatch) }.

Definition set_batches (d : DirectTransmission) (b : option (gmap transmitKey eventBatch)) : DirectTransmission :=
  mkDirect (dt_transmitType d) (dt_enableCompression d) (dt_maxBatchSize d) (dt_batchTimeout d)
    (dt_additionalHeaders d) (dt_userAgent d) b.

Definition NewDirectTransmission (tt : TransmitType) (maxBatchSize batchTimeout : Z) (enableCompression : bool)
    (additionalHeaders : list (string * string)) (userAgent : string) : DirectTransmission :=
  mkDirect tt enableCompression maxBatchSize batchTimeout additionalHeaders userAgent (Some ∅).

(** *** Metrics *)

Definition transmissionMetrics : list (string * MetricType) :=
  [("_enqueue_errors", Counter); ("_response_20x", Counter); ("_response_errors", Counter);
   ("_queued_items", UpDown); ("_queue_time", Histogram); ("_queue_length", Gauge); ("_send_errors", Counter);
   ("_send_retries", Counter); ("_batches_sent", Counter); ("_messages_sent", Counter);
   ("_response_decode_errors", Counter); ("_stale_dispatch_time", Histogram)].

(** The full name of a metric, as [registerMetrics] computes it. *)
Definition fullName (d : DirectTransmission) (name : string) : string :=
  "libhoney_" +:+ TransmitType_String (dt_transmitType d) +:+ name.
Definition registerMetrics (d : DirectTransmission) : list metric_op :=
  (λ m, MRegister (fullName d m.1) m.2) <$> transmissionMetrics.

Definition UnixMicro (t : Z) : Z := t / 1000.

(** ** Enqueueing *)

Definition event_key (ev : event) : transmitKey := mkKey (ev_APIHost ev) (ev_APIKey ev) (ev_Dataset ev).

Definition no_batch : eventBatch := mkBatch [] 0.

(** "Add event to batch": the batch, and the events to dispatch if it is full.  [None] is the
    panic of [make] with a negative capacity. *)
Definition add_to_batch (now : Z) (d : DirectTransmission) (b : eventBatch) (l : loc) : option (eventBatch * option (list loc)) :=
  let b := match eb_events b with [] => if dt_maxBatchSize d <? 0 then None else Some (mkBatch [] now) | _ => Some b end in
  (λ b : eventBatch,
    let events := (eb_events b ++ [l])%list in
    if dt_maxBatchSize d <=? Z.of_nat (length events)
    then (mkBatch [] (eb_startTime b), Some events)
    else (mkBatch events (eb_startTime b), None)) <$> b.

(** The transmission, the store, the batch dispatched, and the calls of the metrics.  [None] is a
    panic: no such location, a negative batch size, or the map set to nil by [Stop]. *)
Definition EnqueueEvent (now : Z) (d : DirectTransmission) (st : store) (l : loc)
    : option (DirectTransmission * store * option (list loc) * list metric_op) :=
  match st !! l, dt_eventBatches d with
  | Some ev, Some batches =>
      let ev := ev_set_Enqueued ev (UnixMicro now) in
      let key := event_key ev in
      match add_to_batch now d (default no_batch (batches !! key)) l with
      | Some (batch, dispatched) =>
          Some (set_batches d (Some (<[key := batch]> batches)), <[l := ev]> st, dispatched,
                [MUp (fullName d "_queued_items")])
      | None => None
      end
  | _, _ => None
  end.

(** A span is enqueued by its event. *)
Definition EnqueueSpan := EnqueueEvent.

(** *** The ticker's batches *)

Definition is_stale (now timeout : Z) (b : eventBatch) : bool :=
  match eb_events b with [] => false | _ => timeout <=? now - eb_startTime b end.

Definition dispatch_stale_step (now : Z) (timeout : Z)
    (acc : gmap transmitKey eventBatch * list (list loc)) (key : transmitKey) : gmap transmitKey eventBatch * list (list loc) :=
  let '(batches, dispatched) := acc in
  match batches !! key with
  | None => acc
  | Some b =>
      if is_stale now timeout b
      then (<[key := mkBatch [] (eb_startTime b)]> batches, (dispatched ++ [eb_events b])%list)
      else acc
  end.

(** One tick of [dispatchStaleBatches]; the keys are those of the map, in the order Go gives. *)
Definition dispatch_stale_in (keys : list transmitKey) (now elapsed : Z) (d : DirectTransmission)
    : DirectTransmission * list (list loc) * list metric_op :=
  let '(batches, dispatched) :=
    foldl (dispatch_stale_step now (dt_batchTimeout d)) (default ∅ (dt_eventBatches d), []) keys in
  (set_batches d (Some batches), dispatched,
   [MHistogram (fullName d "_stale_dispatch_time") (f64_of_Z (UnixMicro (now + elapsed) - UnixMicro now))]).
Definition dispatch_stale (now elapsed : Z) (d : DirectTransmission) :=
  dispatch_stale_in ((map_to_list (default ∅ (dt_eventBatches d))).*1) now elapsed d.

(** One tick of its metrics. *)
Definition report_pending (d : DirectTransmission) : list metric_op :=
  [MGauge (fullName d "_queue_length")
     (f64_of_Z (foldr (λ kb n, Z.of_nat (length (eb_events kb.2)) + n) 0 (map_to_list (default ∅ (dt_eventBatches d)))))].

(** The batches [Stop] dispatches. *)
Definition Stop (d : DirectTransmission) : DirectTransmission * list (list loc) :=
  (set_batches d None,
   filter (λ l, l ≠ []) ((λ kb, eb_events kb.2) <$> map_to_list (default ∅ (dt_eventBatches d)))).

(** ** Sending a batch *)

Definition handleBatchFailure (d : DirectTransmission) (batch : list event) : list metric_op :=
  MIncrement (fullName d "_send_errors") :: ((λ _, MDown (fullName d "_queued_items")) <$> batch).

Definition handleEventError (d : DirectTransmission) (queueTime : Z) : list metric_op :=
  [MIncrement (fullName d "_response_errors"); MDown (fullName d "_queued_items");
   MHistogram (fullName d "_queue_time") (f64_of_Z queueTime)].

Definition handle_success (d : DirectTransmission) (queueTime : Z) : list metric_op :=
  [MIncrement (fullName d "_response_20x"); MDown (fullName d "_queued_items");
   MHistogram (fullName d "_queue_time") (f64_of_Z queueTime)].

Section Send.
Context `{!Msgp, !GoHTTP}.
Context (net : list request → http_result) (clock : list request → Z).
Implicit Types (d : DirectTransmission) (ev : event) (whole sub : list event) (hist : list request).

Definition packEvent ev : batchedEvent := mkBatched (ev_Timestamp ev) (s64 (ev_SampleRate ev)) (ev_Data ev).

(** The packing loop: the buffer, the events in it, the events left, and the calls for those that
    were skipped. *)
Fixpoint pack d (packed : string) (whole : list event) : string * list event * list event * list metric_op :=
  match whole with
  | [] => (packed, [], [], [])
  | ev :: rest =>
      let skip :=
        let '(p, sub, more, ops) := pack d packed rest in
        (p, sub, more, MDown (fullName d "_queued_items") :: MIncrement (fullName d "_response_errors") :: ops) in
      match marshal_event (packEvent ev) with
      | Err _ => skip
      | Ok b =>
          if apiMaxEventSize <? Z.of_nat (String.length b) then skip
          else if apiMaxBatchSize <? Z.of_nat (String.length (packed +:+ b)) then (packed, [], whole, [])
          else let '(p, sub, more, ops) := pack d (packed +:+ b) rest in (p, ev :: sub, more, ops)
      end
  end.

(** Five bytes are kept for the array's header, which is copied in front of the events. *)
Definition zero_bytes : string := bytes [0; 0; 0; 0; 0].
Definition put_header (packed : string) (n : nat) : string :=
  let header := AppendArrayHeader (Z.of_nat n) in
  header +:+ str_drop (String.length header) (str_drop (5 - String.length header) packed).

Definition headers d (apiKey : string) : gmap string string :=
  let h := foldl (λ h kv, Header_Set h kv.1 kv.2) ∅ (dt_additionalHeaders d) in
  let h := Header_Set h "Content-Type" "application/msgpack" in
  let h := Header_Set h "X-Honeycomb-Team" apiKey in
  let h := Header_Set h "User-Agent" (dt_userAgent d) in
  if dt_enableCompression d then Header_Set h "Content-Encoding" "zstd" else h.

Definition mk_request d (apiURL apiKey packed : string) : request :=
  mkRequest apiURL (headers d apiKey) (if dt_enableCompression d then zstd_EncodeAll packed else packed).

Definition with_body (r : response) (b : option string) : response :=
  mkResponse (rs_StatusCode r) (rs_ContentType r) (rs_RetryAfter r) b.

(** How long to wait before a retry, if the response asks for one. *)
Definition retry_after hist (r : response) : option Z :=
  if (rs_StatusCode r =? StatusTooManyRequests) || (rs_StatusCode r =? StatusServiceUnavailable) then
    let sleepDur :=
      if String.eqb (rs_RetryAfter r) "" then Second
      else match ParseDuration (rs_RetryAfter r +:+ "s") with
           | Some secs => secs
           | None => match ParseTime (rs_RetryAfter r) with Some t => t - clock hist | None => Second end
           end in
    if (0 <? sleepDur) && (sleepDur <? 60 * Second) then Some sleepDur else None
  else None.

Definition result_response (res : http_result) : option response :=
  match res with Replied r => Some r | Failed _ r => r end.

(** A retried response is closed; the next try may be the last one's end. *)
Definition close_body (res : http_result) : http_result :=
  match res with
  | Replied r => Replied (with_body r None)
  | Failed t r => Failed t ((λ r, with_body r None) <$> r)
  end.

Definition retried hist (res : http_result) : bool :=
  match result_response res with Some r => bool_decide (is_Some (retry_after hist r)) | None => false end.

(** The tries left, from the try of that number; [last] is the result of the one before. *)
Fixpoint send_tries d (req : request) (sub : list event) (tries try : nat) (last : http_result) hist
    : list request * list metric_op * http_result :=
  match tries with
  | O => (hist, [], last)
  | S tries =>
      let retries := if (0 <? try)%nat then [MIncrement (fullName d "_send_retries")] else [] in
      if negb (NewRequest_ok (rq_URL req)) then (hist, retries ++ handleBatchFailure d sub, Failed false None)
      else
        let hist := req :: hist in
        let res := net hist in
        let again res :=
          let '(hist, ops, res) := send_tries d req sub tries (S try) res hist in (hist, retries ++ ops, res) in
        if retried hist res then again (close_body res)
        else match res with
             | Failed true _ => again res
             | _ => (hist, retries, res)
             end
  end.

(** The answer to each event: the statuses decoded, in the order of the events. *)
Fixpoint answer_events d (dequeuedAt : Z) (sub : list event) (statuses : list Z) : list metric_op :=
  match sub with
  | [] => []
  | ev :: sub =>
      let queueTime := UnixMicro dequeuedAt - ev_EnqueuedUnixMicro ev in
      match statuses with
      | [] => handleEventError d queueTime ++ answer_events d dequeuedAt sub []
      | status :: statuses =>
          (if status =? StatusAccepted then handle_success d queueTime else handleEventError d queueTime) ++
          answer_events d dequeuedAt sub statuses
      end
  end.

Definition fail_events d (dequeuedAt : Z) (sub : list event) : list metric_op :=
  concat ((λ ev, handleEventError d (UnixMicro dequeuedAt - ev_EnqueuedUnixMicro ev)) <$> sub).

Definition decode_error d (err : bool) : list metric_op :=
  if err then [MIncrement (fullName d "_response_decode_errors")] else [].

(** The error of a JSON body stays in its own scope, so that it is not counted. *)
Definition handle_response d (dequeuedAt : Z) (sub : list event) (r : response) : list metric_op :=
  [MIncrement (fullName d "_batches_sent"); MCount (fullName d "_messages_sent") (Z.of_nat (length sub))] ++
  if rs_StatusCode r =? StatusOK then
    let '(statuses, err) :=
      if String.eqb (rs_ContentType r) "application/msgpack" then msgpack_responses (rs_Body r)
      else match rs_Body r with
           | None => ([], false)
           | Some b => ((json_responses b).1, false)
           end in
    decode_error d err ++ answer_events d dequeuedAt sub statuses
  else
    let err :=
      if String.eqb (rs_ContentType r) "application/msgpack" then msgpack_body_err (rs_Body r)
      else match rs_Body r with None => true | Some _ => false end in
    [MIncrement (fullName d "_send_errors")] ++ decode_error d err ++ fail_events d dequeuedAt sub.

Definition handle_result d (dequeuedAt : Z) (sub : list event) (res : http_result) : list metric_op :=
  match res with
  | Failed _ _ => fail_events d dequeuedAt sub
  | Replied r => handle_response d dequeuedAt sub r
  end.

(** The batch of events [sub], packed, to the destination of [dest]. *)
Definition send_packed d (dest : event) (packed : string) (sub : list event) hist : list request * list metric_op :=
  match buildRequestURL (ev_APIHost dest) (ev_Dataset dest) with
  | None => (hist, handleBatchFailure d sub)
  | Some apiURL =>
      let req := mk_request d apiURL (ev_APIKey dest) (put_header packed (length sub)) in
      let '(hist, ops, res) := send_tries d req sub 2 0 (Failed false None) hist in
      (hist, ops ++ handle_result d (clock hist) sub res)
  end.

(** The loop over what is left of the batch; [None] when the fuel does not suffice. *)
Fixpoint send_loop (fuel : nat) d (whole : list event) hist : option (list request * list metric_op) :=
  match whole with
  | [] => Some (hist, [])
  | dest :: _ =>
      match fuel with
      | O => None
      | S fuel =>
          let '(packed, sub, more, skipped) := pack d zero_bytes whole in
          let '(hist, ops) := match sub with [] => (hist, []) | _ => send_packed d dest packed sub hist end in
          (λ r, (r.1, skipped ++ ops ++ r.2)) <$> send_loop fuel d more hist
      end
  end.

Definition sendBatch d (whole : list event) hist := send_loop (length whole) d whole hist.
End Send.
