(* ===== verification/TransmitFacts.v ===== *)
(** What the transmission promises: every enqueued event leaves in one batch, in the order of its
    destination, before long; and a batch that is sent is accounted for event by event. *)
From Stdlib Require Import SpecFloat Ascii.
From S2P Require Import Prelude GoValue Metrics Msgp Event SamplerConfig Config Payload Transmit.

(** ** The batches *)

(** A transmission in use, with three logs: what was enqueued, when and with which key; the batches
    that the operations returned, one after the other; and the same batches with the destinations
    they were dispatched for. *)
Record tx := mkTx {
  tx_d : DirectTransmission;
  tx_store : store;
  tx_in : list (transmitKey * (Z * loc));
  tx_out : list (transmitKey * list loc);
  tx_sent : list (list loc) }.

Definition opened (d : DirectTransmission) : gmap transmitKey eventBatch := default ∅ (dt_eventBatches d).

(** The batches old enough among those of the keys. *)
Definition stale_entry (now timeout : Z) (batches : gmap transmitKey eventBatch) (k : transmitKey)
    : option (transmitKey * list loc) :=
  match batches !! k with
  | Some b => if is_stale now timeout b then Some (k, eb_events b) else None
  | None => None
  end.
Definition stale_of (now timeout : Z) (batches : gmap transmitKey eventBatch) (keys : list transmitKey)
    : list (transmitKey * list loc) := omap (stale_entry now timeout batches) keys.

(** The destinations a tick stops at, in its order: the n-th batch it returns is that of the n-th. *)
Definition tick_keys (now : Z) (d : DirectTransmission) (keys : list transmitKey) : list transmitKey :=
  filter (λ k, is_stale now (dt_batchTimeout d) (default no_batch (opened d !! k)) = true) keys.

(** An event enqueued, a tick, and an event written to by another part of the program.  What is logged
    is what the operations return. *)
Inductive step : tx → tx → Prop :=
| step_enqueue now d (st : store) ins outs sent (l : loc) ev d' st' dispatched ops :
    st !! l = Some ev → EnqueueEvent now d st l = Some (d', st', dispatched, ops) →
    step (mkTx d st ins outs sent)
      (mkTx d' st' (ins ++ [(event_key ev, (now, l))])
        (outs ++ zip [event_key ev] (option_list dispatched)) (sent ++ option_list dispatched))
| step_tick now elapsed keys d st ins outs sent d' dispatched ops :
    keys ≡ₚ (map_to_list (opened d)).*1 → dispatch_stale_in keys now elapsed d = (d', dispatched, ops) →
    step (mkTx d st ins outs sent) (mkTx d' st ins (outs ++ zip (tick_keys now d keys) dispatched) (sent ++ dispatched))
| step_write d st ins outs sent l ev :
    step (mkTx d st ins outs sent) (mkTx d (<[l := ev]> st) ins outs sent).

Definition per_key {A} (k : transmitKey) (l : list (transmitKey * A)) : list A := (filter (λ kx, kx.1 = k) l).*2.

Lemma per_key_app {A} k (l1 l2 : list (transmitKey * A)) : per_key k (l1 ++ l2) = per_key k l1 ++ per_key k l2.
Proof. unfold per_key. by rewrite filter_app, fmap_app. Qed.

Lemma per_key_one {A} k k' (x : A) : per_key k [(k', x)] = if decide (k' = k) then [x] else [].
Proof. unfold per_key. rewrite filter_cons. simpl. by destruct (decide (k' = k)). Qed.

Lemma per_key_in {A} k (x : A) l : x ∈ per_key k l → (k, x) ∈ l.
Proof. unfold per_key. intros ([k' y] & -> & Hin)%list_elem_of_fmap. apply list_elem_of_filter in Hin as [E Hin]. by cbn in E; subst. Qed.

Lemma omap_ext_in {A B} (f g : A → option B) (l : list A) : (∀ x, x ∈ l → f x = g x) → omap f l = omap g l.
Proof. intros Hfg. apply list_omap_ext, Forall_Forall2_diag, Forall_forall, Hfg. Qed.

(** *** One tick *)

Lemma stale_of_cons now timeout batches k keys :
  stale_of now timeout batches (k :: keys) =
    match stale_entry now timeout batches k with Some x => x :: stale_of now timeout batches keys | None => stale_of now timeout batches keys end.
Proof. done. Qed.


Definition cleared (now timeout : Z) (b : eventBatch) : eventBatch :=
  if is_stale now timeout b then mkBatch [] (eb_startTime b) else b.

Lemma dispatch_stale_fold now timeout keys batches acc :
  NoDup keys →
  let '(batches', dispatched) := foldl (dispatch_stale_step now timeout) (batches, acc) keys in
  dispatched = acc ++ (stale_of now timeout batches keys).*2 ∧
  ∀ k, batches' !! k = if decide (k ∈ keys) then cleared now timeout <$> batches !! k else batches !! k.
Proof.
  intros Hnd. revert batches acc. induction Hnd as [|k keys Hk Hnd IH]; intros batches acc.
  { cbn. split; [by rewrite app_nil_r|done]. }
  cbn [foldl].
  assert (Hstep : ∃ b', dispatch_stale_step now timeout (batches, acc) k =
      (b', acc ++ (stale_of now timeout batches [k]).*2) ∧
    ∀ k', b' !! k' = if decide (k' = k) then cleared now timeout <$> batches !! k' else batches !! k').
  { unfold dispatch_stale_step. rewrite stale_of_cons. unfold stale_entry. destruct (batches !! k) as [b|] eqn:Eb.
    - destruct (is_stale now timeout b) eqn:Es; eexists; (split; [by rewrite ?app_nil_r|]); intros k'.
      + destruct (decide (k' = k)) as [->|Hne]; [|by rewrite lookup_insert_ne].
        rewrite lookup_insert_eq, Eb. simpl. unfold cleared. by rewrite Es.
      + case_decide; [subst k'|done]. rewrite Eb. simpl. unfold cleared. by rewrite Es.
    - eexists. split; [by rewrite app_nil_r|]. intros k'. case_decide; [subst k'|done]. by rewrite Eb. }
  destruct Hstep as (b' & -> & Hb'). specialize (IH b' (acc ++ (stale_of now timeout batches [k]).*2)).
  destruct (foldl _ _ keys) as [batches' dispatched]. destruct IH as [-> IH]. split.
  - rewrite <-app_assoc. f_equal. change (k :: keys) with ([k] ++ keys). unfold stale_of at 3. rewrite omap_app, fmap_app.
    f_equal. f_equal. apply omap_ext_in. intros k' Hk'. unfold stale_entry. rewrite Hb', decide_False; [done|]. intros ->. done.
  - intros k'. rewrite IH, Hb'. destruct (decide (k' = k)) as [->|Hne].
    + rewrite decide_False by done. rewrite decide_True by left. done.
    + destruct (decide (k' ∈ keys)); [by rewrite decide_True by by right|].
      rewrite decide_False; [done|]. by rewrite not_elem_of_cons.
Qed.

Lemma per_key_stale now timeout batches keys k :
  NoDup keys → per_key k (stale_of now timeout batches keys) =
    if decide (k ∈ keys) then
      match batches !! k with Some b => if is_stale now timeout b then [eb_events b] else [] | None => [] end
    else [].
Proof.
  intros Hnd. unfold per_key. induction Hnd as [|k' keys Hk' Hnd IH]; [done|]. rewrite stale_of_cons.
  unfold stale_entry at 1. destruct (decide (k' = k)) as [->|Hne].
  - rewrite decide_True by left. rewrite decide_False in IH by done.
    destruct (batches !! k) as [b|]; [|done]. destruct (is_stale now timeout b); [|done].
    rewrite filter_cons. cbn [fst]. rewrite decide_True by done. by rewrite fmap_cons, IH.
  - assert (E : (k ∈ k' :: keys) ↔ k ∈ keys) by (rewrite elem_of_cons; intuition congruence).
    rewrite (decide_ext _ _ _ _ E), <-IH. destruct (batches !! k') as [b|]; [|done].
    destruct (is_stale now timeout b); [|done]. rewrite filter_cons. cbn [fst]. by rewrite decide_False.
Qed.

(** *** Enqueueing *)

Definition pending (d : DirectTransmission) (k : transmitKey) : eventBatch := default no_batch (opened d !! k).

Lemma add_to_batch_spec now d b l b' dispatched :
  add_to_batch now d b l = Some (b', dispatched) →
  let start := match eb_events b with [] => now | _ => eb_startTime b end in
  let events := eb_events b ++ [l] in
  if dt_maxBatchSize d <=? Z.of_nat (length events)
  then dispatched = Some events ∧ b' = mkBatch [] start
  else dispatched = None ∧ b' = mkBatch events start.
Proof.
  destruct b as [evs start0]. unfold add_to_batch. cbn [eb_events eb_startTime].
  destruct evs as [|l0 ls]; [destruct (dt_maxBatchSize d <? 0); [done|]|];
    cbn [fmap option_fmap option_map eb_events eb_startTime]; destruct (_ <=? _); by intros [= <- <-].
Qed.

Lemma EnqueueEvent_spec now d (st : store) (l : loc) d' st' dispatched ops ev :
  st !! l = Some ev → EnqueueEvent now d st l = Some (d', st', dispatched, ops) →
  let b := pending d (event_key ev) in
  let start := match eb_events b with [] => now | _ => eb_startTime b end in
  let events := eb_events b ++ [l] in
  dt_maxBatchSize d' = dt_maxBatchSize d ∧ dt_batchTimeout d' = dt_batchTimeout d ∧
  (∀ k, k ≠ event_key ev → pending d' k = pending d k) ∧
  if dt_maxBatchSize d <=? Z.of_nat (length events)
  then dispatched = Some events ∧ pending d' (event_key ev) = mkBatch [] start
  else dispatched = None ∧ pending d' (event_key ev) = mkBatch events start.
Proof.
  intros Hl. unfold EnqueueEvent. rewrite Hl. unfold pending, opened.
  destruct (dt_eventBatches d) as [batches|]; [|done]. cbn [default id].
  change (event_key (ev_set_Enqueued ev (UnixMicro now))) with (event_key ev).
  destruct (add_to_batch now d (default no_batch (batches !! event_key ev)) l) as [[b disp]|] eqn:E; [|done].
  intros [= <- _ <- _]. apply add_to_batch_spec in E. cbn [set_batches dt_eventBatches dt_maxBatchSize dt_batchTimeout default id].
  rewrite lookup_insert_eq. cbn zeta. split_and!; [done|done| |exact E].
  intros k Hk. by rewrite lookup_insert_ne.
Qed.

Lemma dispatch_stale_spec keys now elapsed d d' dispatched ops :
  keys ≡ₚ (map_to_list (opened d)).*1 → dispatch_stale_in keys now elapsed d = (d', dispatched, ops) →
  dt_maxBatchSize d' = dt_maxBatchSize d ∧ dt_batchTimeout d' = dt_batchTimeout d ∧
  dispatched = (stale_of now (dt_batchTimeout d) (opened d) keys).*2 ∧
  ∀ k, pending d' k = cleared now (dt_batchTimeout d) (pending d k) ∧
    per_key k (stale_of now (dt_batchTimeout d) (opened d) keys) =
      if is_stale now (dt_batchTimeout d) (pending d k) then [eb_events (pending d k)] else [].
Proof.
  intros Hkeys. assert (Hnd : NoDup keys) by (rewrite Hkeys; apply NoDup_fst_map_to_list).
  assert (Hin : ∀ k, k ∈ keys ↔ is_Some (opened d !! k)).
  { intros k. rewrite Hkeys. split.
    - intros ([k' b] & -> & Hb%elem_of_map_to_list)%list_elem_of_fmap. eauto.
    - intros [b Hb]. apply (list_elem_of_fmap_2' fst _ (k, b)); [by apply elem_of_map_to_list|done]. }
  unfold dispatch_stale_in.
  pose proof (dispatch_stale_fold now (dt_batchTimeout d) keys (opened d) [] Hnd) as Hfold. unfold opened at 1 in Hfold.
  destruct (foldl _ _ keys) as [batches' out]. destruct Hfold as [-> Hb]. intros E. injection E as <- <- _.
  split_and!; [done..|]. intros k. rewrite per_key_stale by done.
  unfold pending, opened at 1. cbn [set_batches dt_eventBatches default]. rewrite Hb.
  destruct (opened d !! k) as [b|] eqn:Ek.
  - by rewrite !decide_True by (apply Hin; eauto).
  - rewrite !decide_False by (rewrite Hin, Ek; by intros []). done.
Qed.

(** *** The invariant *)

Definition sent_and_pending (s : tx) (k : transmitKey) (pend : list (Z * loc)) : Prop :=
  let b := pending (tx_d s) k in
  (∃ sent, per_key k (tx_in s) = sent ++ pend ∧ concat (per_key k (tx_out s)) = sent.*2) ∧
  pend.*2 = eb_events b ∧ (∀ x, head pend = Some x → x.1 = eb_startTime b) ∧
  (pend ≠ [] → Z.of_nat (length pend) < dt_maxBatchSize (tx_d s)).

Definition batch_ok (d : DirectTransmission) (b : list loc) : Prop :=
  b ≠ [] ∧ Z.of_nat (length b) ≤ Z.max 1 (dt_maxBatchSize d).

Definition tx_inv (s : tx) : Prop :=
  (∀ k, ∃ pend, sent_and_pending s k pend) ∧ Forall (λ kb, batch_ok (tx_d s) kb.2) (tx_out s) ∧ (tx_out s).*2 = tx_sent s.

Definition tx_init (d : DirectTransmission) (st : store) : tx := mkTx d st [] [] [].

Lemma init_inv d st : dt_eventBatches d = Some ∅ → tx_inv (tx_init d st).
Proof.
  intros E. split; [|by split; [constructor|]]. intros k. exists []. unfold sent_and_pending, pending, opened, tx_init. cbn [tx_d tx_in tx_out].
  rewrite E. split_and!; [by exists []|done..].
Qed.

Lemma enqueue_inv now d (st : store) ins outs (l : loc) ev d' st' dispatched ops :
  st !! l = Some ev → EnqueueEvent now d st l = Some (d', st', dispatched, ops) → tx_inv (mkTx d st ins outs outs.*2) →
  let outs' := outs ++ match dispatched with Some b => [(event_key ev, b)] | None => [] end in
  tx_inv (mkTx d' st' (ins ++ [(event_key ev, (now, l))]) outs' outs'.*2).
Proof.
  intros Hl E [Hk [Hout _]]. cbn zeta. destruct (EnqueueEvent_spec _ _ _ _ _ _ _ _ _ Hl E) as (Hmax & _ & Hother & Hthis).
  unfold sent_and_pending in Hk. cbn [tx_d tx_in tx_out] in Hk, Hout. set (b := pending d (event_key ev)) in *.
  destruct (Hk (event_key ev)) as (pend & (sent & Hin & Hsent) & Hpe & Hst & Hlen). fold b in Hpe, Hst.
  assert (Hne : ∀ k, k ≠ event_key ev → ∃ pend, sent_and_pending (mkTx d' st' (ins ++ [(event_key ev, (now, l))])
      (outs ++ match dispatched with Some b => [(event_key ev, b)] | None => [] end) []) k pend).
  { intros k Hne. destruct (Hk k) as (pend' & Hk'). exists pend'. unfold sent_and_pending. cbn [tx_d tx_in tx_out].
    rewrite !per_key_app, per_key_one, Hother, Hmax, decide_False by done. rewrite app_nil_r.
    replace (per_key k match dispatched with Some b => _ | None => _ end) with (@nil (list loc)); [by rewrite app_nil_r|].
    destruct dispatched; [by rewrite per_key_one, decide_False|done]. }
  assert (Hstart : ∀ x, head (pend ++ [(now, l)]) = Some x →
    x.1 = match eb_events b with [] => now | _ => eb_startTime b end).
  { intros x. destruct pend as [|y pend]; cbn [app head fmap list_fmap] in *; rewrite <-Hpe.
    - by intros [= <-].
    - intros Hx. by apply Hst. }
  assert (Hlen' : length (eb_events b ++ [l]) = S (length pend)) by (rewrite <-Hpe, length_app, length_fmap; simpl; lia).
  rewrite Hlen' in Hthis. split.
  - intros k. destruct (decide (k = event_key ev)) as [->|]; [|by apply Hne]. unfold sent_and_pending. cbn [tx_d tx_in tx_out].
    rewrite !per_key_app, per_key_one, decide_True, Hin, Hmax by done.
    destruct (Z.leb_spec (dt_maxBatchSize d) (Z.of_nat (S (length pend)))) as [Hle|Hgt]; destruct Hthis as [-> ->].
    + exists []. rewrite per_key_one, decide_True by done. split_and!; [|done..].
      exists (sent ++ pend ++ [(now, l)]). rewrite app_nil_r, app_assoc. split; [done|].
      rewrite concat_app, Hsent, !fmap_app, <-Hpe. simpl. by rewrite app_nil_r, app_assoc.
    + exists (pend ++ [(now, l)]). rewrite app_nil_r. split_and!.
      * exists sent. by rewrite app_assoc.
      * rewrite fmap_app, Hpe. done.
      * exact Hstart.
      * intros _. rewrite length_app. simpl. lia.
  - cbn [tx_d tx_out tx_sent]. split; [|done]. apply Forall_app. split.
    { eapply Forall_impl; [exact Hout|]. intros kb. unfold batch_ok. by rewrite Hmax. }
    destruct (Z.leb_spec (dt_maxBatchSize d) (Z.of_nat (S (length pend)))) as [Hle|Hgt]; destruct Hthis as [-> _]; [|done].
    apply Forall_singleton. unfold batch_ok. cbn [snd]. rewrite Hlen', Hmax. split; [by destruct (eb_events b)|].
    destruct pend as [|y pend]; [cbn; lia|]. specialize (Hlen ltac:(done)). cbn [length] in *. lia.
Qed.

Lemma tick_inv now elapsed keys d st ins outs d' dispatched ops :
  keys ≡ₚ (map_to_list (opened d)).*1 → dispatch_stale_in keys now elapsed d = (d', dispatched, ops) →
  tx_inv (mkTx d st ins outs outs.*2) →
  let outs' := outs ++ stale_of now (dt_batchTimeout d) (opened d) keys in tx_inv (mkTx d' st ins outs' outs'.*2).
Proof.
  intros Hkeys E [Hk [Hout _]]. cbn zeta. destruct (dispatch_stale_spec _ _ _ _ _ _ _ Hkeys E) as (Hmax & _ & _ & Hcl).
  unfold sent_and_pending in Hk. cbn [tx_d tx_in tx_out] in Hk, Hout.
  assert (Hkey : ∀ k, ∃ pend, sent_and_pending (mkTx d' st ins (outs ++ stale_of now (dt_batchTimeout d) (opened d) keys) []) k pend).
  { intros k. destruct (Hk k) as (pend & (sent & Hin & Hsent) & Hpe & Hst & Hlen). destruct (Hcl k) as [Hp Hpk].
    unfold sent_and_pending. cbn [tx_d tx_in tx_out]. rewrite Hp, per_key_app, Hpk, Hmax. unfold cleared.
    destruct (is_stale _ _ (pending d k)).
    - exists []. split_and!; [|done..]. exists (sent ++ pend). rewrite app_nil_r. split; [done|].
      rewrite concat_app, Hsent, fmap_app, <-Hpe. simpl. by rewrite app_nil_r.
    - exists pend. rewrite app_nil_r. split_and!; [by exists sent|done..]. }
  split; [exact Hkey|]. cbn [tx_d tx_out tx_sent]. split; [|done]. apply Forall_app. split.
  { eapply Forall_impl; [exact Hout|]. intros kb. unfold batch_ok. by rewrite Hmax. }
  apply Forall_forall. intros kb Hkb. apply list_elem_of_omap in Hkb as (k & _ & Hkb). unfold stale_entry in Hkb.
  destruct (opened d !! k) as [b|] eqn:Eb; [|done]. destruct (is_stale now (dt_batchTimeout d) b) eqn:Es; [|done].
  injection Hkb as <-. unfold batch_ok. cbn [snd]. rewrite Hmax.
  assert (Hb : pending d k = b) by (unfold pending; by rewrite Eb).
  destruct (Hk k) as (pend & _ & Hpe & _ & Hlen). rewrite Hb in Hpe. rewrite <-Hpe, length_fmap.
  split; [intros Hnil; unfold is_stale in Es; by rewrite <-Hpe, Hnil in Es|].
  destruct pend; [cbn; lia|]. specialize (Hlen ltac:(done)). lia.
Qed.

(** Each batch a tick returns is that of the destination it is paired with. *)
Lemma tick_keys_stale now d keys : tick_keys now d keys = (stale_of now (dt_batchTimeout d) (opened d) keys).*1.
Proof.
  unfold tick_keys. induction keys as [|k keys IH]; [done|]. rewrite stale_of_cons. unfold stale_entry.
  destruct (opened d !! k) as [b|] eqn:Eb.
  - destruct (is_stale now (dt_batchTimeout d) b) eqn:Es.
    + rewrite filter_cons_True by by rewrite Eb. by rewrite fmap_cons, IH.
    + rewrite filter_cons_False; [done|]. rewrite Eb. change (default no_batch (Some b)) with b. by rewrite Es.
  - rewrite filter_cons_False; [done|]. by rewrite Eb.
Qed.
Lemma tick_labelled keys now elapsed d d' dispatched ops :
  keys ≡ₚ (map_to_list (opened d)).*1 → dispatch_stale_in keys now elapsed d = (d', dispatched, ops) →
  zip (tick_keys now d keys) dispatched = stale_of now (dt_batchTimeout d) (opened d) keys ∧
  dispatched = (stale_of now (dt_batchTimeout d) (opened d) keys).*2.
Proof.
  intros Hkeys E. destruct (dispatch_stale_spec _ _ _ _ _ _ _ Hkeys E) as (_ & _ & -> & _). split; [|done].
  rewrite tick_keys_stale. apply zip_fst_snd.
Qed.

Lemma steps_inv s s' : rtc step s s' → tx_inv s → tx_inv s'.
Proof.
  induction 1 as [s|s1 s2 s3 Hstep _ IH]; [done|]. intros Hinv. apply IH.
  destruct Hstep as [now d st ins outs sent l ev d' st' dispatched ops Hl E|now elapsed keys d st ins outs sent d' dispatched ops Hk E|d st ins outs sent l ev].
  - pose proof (proj2 (proj2 Hinv)) as Es. cbn [tx_out tx_sent] in Es. subst sent.
    pose proof (enqueue_inv _ _ _ _ _ _ _ _ _ _ _ Hl E Hinv) as Hi. cbn zeta in Hi. rewrite fmap_app in Hi. by destruct dispatched.
  - pose proof (proj2 (proj2 Hinv)) as Es. cbn [tx_out tx_sent] in Es. subst sent.
    destruct (tick_labelled _ _ _ _ _ _ _ Hk E) as [-> Ed].
    pose proof (tick_inv _ _ _ _ _ _ _ _ _ _ Hk E Hinv) as Hi. cbn zeta in Hi. by rewrite fmap_app, <- Ed in Hi.
  - exact Hinv.
Qed.

(** C5: the batches lose nothing.  Whatever is enqueued, and whatever other parts of the program
    write to the events meanwhile, for each destination (API host, API key and dataset, as they
    were when the event was enqueued) the events dispatched so far, batch after batch, followed by
    those pending, are those enqueued, in order and each once.  The batches dispatched are those that
    the operations returned, all of them and no others.  What is pending is less than a batch; no
    batch dispatched is empty or larger than the maximum. *)
Theorem batches_conserve d st s :
  dt_eventBatches d = Some ∅ → rtc step (tx_init d st) s →
  (∀ k, (per_key k (tx_in s)).*2 = concat (per_key k (tx_out s)) ++ eb_events (pending (tx_d s) k)) ∧
  (∀ k, eb_events (pending (tx_d s) k) ≠ [] →
    Z.of_nat (length (eb_events (pending (tx_d s) k))) < dt_maxBatchSize (tx_d s)) ∧
  Forall (λ kb, kb.2 ≠ [] ∧ Z.of_nat (length kb.2) ≤ Z.max 1 (dt_maxBatchSize (tx_d s))) (tx_out s) ∧
  (tx_out s).*2 = tx_sent s.
Proof.
  intros Hd Hs. destruct (steps_inv _ _ Hs (init_inv d st Hd)) as (Hk & Hout & Hall). split_and!.
  - intros k. destruct (Hk k) as (pend & (sent & Hin & Hsent) & Hpe & _). by rewrite Hin, Hsent, fmap_app, Hpe.
  - intros k. destruct (Hk k) as (pend & _ & Hpe & _ & Hlen). rewrite <-Hpe, length_fmap. intros Hne. apply Hlen. intros E. by rewrite E in Hne.
  - exact Hout.
  - exact Hall.
Qed.

(** C27: no event waits much longer than the batch timeout.  If the clock does not go back, then
    once a tick has passed the events that are still pending for a destination are those at the
    end of what was enqueued for it, each less than [batchTimeout] before the tick; all the earlier
    ones have been dispatched. *)
Theorem tick_bounds_wait d st s keys now elapsed d' dispatched ops k :
  dt_eventBatches d = Some ∅ → rtc step (tx_init d st) s →
  keys ≡ₚ (map_to_list (opened (tx_d s))).*1 → dispatch_stale_in keys now elapsed (tx_d s) = (d', dispatched, ops) →
  StronglySorted Z.le (per_key k (tx_in s)).*1 →
  ∃ sent pend, per_key k (tx_in s) = sent ++ pend ∧ pend.*2 = eb_events (pending d' k) ∧
    Forall (λ x, now - dt_batchTimeout (tx_d s) < x.1) pend ∧
    ∃ batches, batches ⊆ dispatched ∧ sent.*2 = concat (per_key k (tx_out s)) ++ concat batches.
Proof.
  intros Hd Hs Hkeys E Hsort. destruct (steps_inv _ _ Hs (init_inv d st Hd)) as [Hk _].
  destruct (dispatch_stale_spec _ _ _ _ _ _ _ Hkeys E) as (_ & _ & Hdis & Hcl).
  destruct (Hk k) as (pend & (sent & Hin & Hsent) & Hpe & Hst & _). destruct (Hcl k) as [Hp Hpk].
  rewrite Hp. unfold cleared. destruct (is_stale now (dt_batchTimeout (tx_d s)) (pending (tx_d s) k)) eqn:Es.
  - exists (sent ++ pend), []. rewrite app_nil_r. split_and!; [done..|].
    exists [eb_events (pending (tx_d s) k)]. split.
    + rewrite Hdis. intros b ->%list_elem_of_singleton. apply list_elem_of_fmap. exists (k, eb_events (pending (tx_d s) k)).
      split; [done|]. apply (per_key_in k). rewrite Hpk. left.
    + simpl. by rewrite app_nil_r, fmap_app, Hpe, Hsent.
  - exists sent, pend. split_and!; [done..| |exists []; split; [by intros ? ?%elem_of_nil|simpl; by rewrite app_nil_r]].
    destruct pend as [|x pend]; [done|]. unfold is_stale in Es. rewrite <-Hpe in Es. cbn [fmap list_fmap] in Es.
    specialize (Hst x eq_refl). rewrite Hin, fmap_app in Hsort. apply StronglySorted_app in Hsort as (_ & _ & Hsort).
    cbn [fmap list_fmap] in Hsort. apply StronglySorted_inv in Hsort as [_ Hle].
    constructor; [lia|]. apply Forall_forall. intros y Hy. rewrite Forall_forall in Hle.
    specialize (Hle y.1 ltac:(by apply list_elem_of_fmap_2)). lia.
Qed.

(** [Stop] dispatches what is pending, and nothing can be enqueued afterwards. *)
Lemma Stop_flushes d d' dispatched now (st : store) (l : loc) :
  Stop d = (d', dispatched) →
  (∀ k, eb_events (pending d k) ≠ [] → eb_events (pending d k) ∈ dispatched) ∧
  Forall (λ b, b ≠ [] ∧ ∃ k, b = eb_events (pending d k)) dispatched ∧ EnqueueEvent now d' st l = None.
Proof.
  intros [= <- <-]. split_and!.
  - intros k Hne. apply list_elem_of_filter. split; [done|]. unfold pending in *.
    destruct (opened d !! k) as [b|] eqn:Eb; [|done]. apply list_elem_of_fmap. exists (k, b).
    split; [done|]. by apply elem_of_map_to_list.
  - apply Forall_forall. intros b (Hne & ([k b'] & -> & Hb%elem_of_map_to_list)%list_elem_of_fmap)%list_elem_of_filter.
    split; [done|]. exists k. unfold pending, opened. by rewrite Hb.
  - unfold EnqueueEvent. by destruct (st !! l).
Qed.

(** Two events to one destination fill a batch; a third waits for a tick. *)
Module Example.
Definition ev (host : string) : event := mkEvent host "key" "data" "" 1 0 (NewPayload None ∅) 0 0.
Definition st : store := <[0%nat := ev "a"]> (<[1%nat := ev "a"]> (<[2%nat := ev "a"]> ∅)).
Definition d : DirectTransmission := NewDirectTransmission TransmitTypeUpstream 2 100 false [] "refinery".

Definition enqueue (s : tx) (now : Z) (l : loc) (e : event) : tx :=
  match EnqueueEvent now (tx_d s) (tx_store s) l with
  | Some (d, st, dispatched, _) =>
      mkTx d st (tx_in s ++ [(event_key e, (now, l))])
        (tx_out s ++ zip [event_key e] (option_list dispatched)) (tx_sent s ++ option_list dispatched)
  | None => s
  end.
Definition s1 := enqueue (tx_init d st) 0 0 (ev "a").
Definition s2 := enqueue s1 10 1 (ev "a").
Definition s3 := enqueue s2 20 2 (ev "a").

Lemma reached : rtc step (tx_init d st) s3.
Proof.
  apply rtc_l with s1; [apply (step_enqueue 0 d st [] [] [] 0 (ev "a") _ _ None [MUp (fullName d "_queued_items")]); by vm_compute|].
  apply rtc_l with s2; [eapply (step_enqueue 10 _ _ _ _ _ 1); by vm_compute|].
  apply rtc_l with s3; [eapply (step_enqueue 20 _ _ _ _ _ 2); by vm_compute|]. apply rtc_refl.
Qed.
Definition key := event_key (ev "a").
End Example.

Lemma batches_conserve_witness :
  (per_key Example.key (tx_in Example.s3)).*2 = [0; 1; 2]%nat ∧
  concat (per_key Example.key (tx_out Example.s3)) ++ eb_events (pending (tx_d Example.s3) Example.key) = [0; 1; 2]%nat.
Proof.
  destruct (batches_conserve Example.d Example.st Example.s3 eq_refl Example.reached) as [Hk _].
  rewrite <-(Hk Example.key). split; by vm_compute.
Defined.

Lemma tick_bounds_wait_witness :
  ∃ sent pend, per_key Example.key (tx_in Example.s3) = sent ++ pend ∧ Forall (λ x : Z * loc, 200 - 100 < x.1) pend.
Proof.
  destruct (tick_bounds_wait Example.d Example.st Example.s3 [Example.key] 200 1
    (dispatch_stale_in [Example.key] 200 1 (tx_d Example.s3)).1.1
    (dispatch_stale_in [Example.key] 200 1 (tx_d Example.s3)).1.2
    (dispatch_stale_in [Example.key] 200 1 (tx_d Example.s3)).2 Example.key eq_refl Example.reached)
    as (sent & pend & E & _ & Hf & _).
  - assert (E : (map_to_list (opened (tx_d Example.s3))).*1 = [Example.key]) by by vm_compute. by rewrite E.
  - by destruct (dispatch_stale_in [Example.key] 200 1 (tx_d Example.s3)) as [[? ?] ?].
  - repeat constructor; by vm_compute.
  - by exists sent, pend.
Defined.
