(* ===== verification/TransmitSend.v ===== *)
(** Sending a batch: it ends, every event of it is accounted for once, and the requests made carry
    the events that can be sent, in order, within the limits of the API. *)
From Stdlib Require Import SpecFloat Ascii.
From S2P Require Import Prelude GoValue Metrics Msgp Event SamplerConfig Config Payload Transmit.

Implicit Types (d : DirectTransmission) (ev : event) (whole sub : list event).

(** ** Counting calls of the metrics *)

Fixpoint tally (f : metric_op → bool) (ops : list metric_op) : nat :=
  match ops with [] => 0 | o :: ops => (if f o then 1 else 0) + tally f ops end.

Lemma tally_app f ops1 ops2 : tally f (ops1 ++ ops2) = (tally f ops1 + tally f ops2)%nat.
Proof. induction ops1 as [|o ops1 IH]; [done|]. simpl. rewrite IH. lia. Qed.

Definition is_down (name : string) (o : metric_op) : bool := match o with MDown n => String.eqb n name | _ => false end.
Definition is_incr (name : string) (o : metric_op) : bool := match o with MIncrement n => String.eqb n name | _ => false end.

Definition downs d := tally (is_down (fullName d "_queued_items")).
Definition delivered d := tally (is_incr (fullName d "_response_20x")).
Definition failed d := tally (is_incr (fullName d "_response_errors")).

Lemma fullName_eqb d a b : String.eqb (fullName d a) (fullName d b) = String.eqb a b.
Proof.
  unfold fullName. destruct (String.eqb_spec a b) as [->|Hne]; [apply String.eqb_refl|].
  apply String.eqb_neq. intros E. apply str_app_inj_l, str_app_inj_l in E. done.
Qed.

(** The calls leave the queue [n] times, and count as many deliveries and errors together. *)
Definition accounted d (ops : list metric_op) (n : nat) : Prop :=
  downs d ops = n ∧ (delivered d ops + failed d ops)%nat = n.

Lemma accounted_app d ops1 ops2 n m : accounted d ops1 n → accounted d ops2 m → accounted d (ops1 ++ ops2) (n + m).
Proof. unfold accounted, downs, delivered, failed. rewrite !tally_app. lia. Qed.

Ltac tally_names :=
  unfold accounted, downs, delivered, failed;
  cbn [tally is_down is_incr handleEventError handle_success decode_error]; rewrite ?fullName_eqb; by vm_compute.

Lemma accounted_nil d : accounted d [] 0.
Proof. done. Qed.
Lemma accounted_skip d : accounted d [MDown (fullName d "_queued_items"); MIncrement (fullName d "_response_errors")] 1.
Proof. tally_names. Qed.
Lemma accounted_error d q : accounted d (handleEventError d q) 1.
Proof. tally_names. Qed.
Lemma accounted_success d q : accounted d (handle_success d q) 1.
Proof. tally_names. Qed.
Lemma accounted_retry d : accounted d [MIncrement (fullName d "_send_retries")] 0.
Proof. tally_names. Qed.
Lemma accounted_sent d n : accounted d [MIncrement (fullName d "_batches_sent"); MCount (fullName d "_messages_sent") n] 0.
Proof. tally_names. Qed.
Lemma accounted_send_error d : accounted d [MIncrement (fullName d "_send_errors")] 0.
Proof. tally_names. Qed.
Lemma accounted_decode d b : accounted d (decode_error d b) 0.
Proof. destruct b; [tally_names|done]. Qed.
Create HintDb transmit.
#[local] Hint Resolve accounted_nil accounted_skip accounted_error accounted_success accounted_retry accounted_sent
  accounted_send_error accounted_decode : transmit.

Lemma accounted_fail d now sub : accounted d (fail_events d now sub) (length sub).
Proof.
  induction sub as [|ev sub IH]; [done|]. apply (accounted_app d _ _ 1 (length sub)); [auto with transmit|exact IH].
Qed.

Lemma accounted_answer d now sub statuses : accounted d (answer_events d now sub statuses) (length sub).
Proof.
  revert statuses. induction sub as [|ev sub IH]; intros statuses; [done|]. cbn [answer_events length].
  destruct statuses as [|status statuses]; apply (accounted_app d _ _ 1 (length sub)); auto with transmit.
  destruct (status =? StatusAccepted); auto with transmit.
Qed.

Section Send.
Context `{!Msgp, !MsgpLaws, !GoHTTP}.
Context (net : list request → http_result) (clock : list request → Z).
Implicit Types (hist : list request) (r : response).

Lemma accounted_response d now sub r : accounted d (handle_response d now sub r) (length sub).
Proof.
  unfold handle_response. apply (accounted_app d _ _ 0); [auto with transmit|]. destruct (_ =? _).
  - destruct (if String.eqb _ _ then _ else _) as [statuses err].
    apply (accounted_app d _ _ 0); [auto with transmit|apply accounted_answer].
  - apply (accounted_app d _ _ 0); [auto with transmit|].
    apply (accounted_app d _ _ 0); [auto with transmit|apply accounted_fail].
Qed.

Lemma accounted_result d now sub res : accounted d (handle_result d now sub res) (length sub).
Proof. destruct res; [apply accounted_response|apply accounted_fail]. Qed.

(** *** Packing *)

Definition wire_of ev : string := match marshal_event (packEvent ev) with Ok b => b | Err _ => "" end.
Definition packable ev : bool :=
  match marshal_event (packEvent ev) with Ok b => Z.of_nat (String.length b) <=? apiMaxEventSize | Err _ => false end.

Definition body_of sub : string := str_concat (wire_of <$> sub).

(** A part of the batch is used up, the events of it that can be sent are in the buffer; the part
    is not empty if there is room for any event. *)
Lemma pack_spec d packed whole p sub more ops :
  Z.of_nat (String.length packed) ≤ apiMaxBatchSize → pack d packed whole = (p, sub, more, ops) →
  ∃ used, whole = used ++ more ∧ sub = filter (λ ev, packable ev = true) used ∧ p = packed +:+ body_of sub ∧
    Z.of_nat (String.length p) ≤ apiMaxBatchSize ∧ accounted d ops (length used - length sub) ∧
    (whole ≠ [] → Z.of_nat (String.length packed) + apiMaxEventSize ≤ apiMaxBatchSize → used ≠ []).
Proof.
  revert packed p sub more ops. induction whole as [|ev rest IH]; intros packed p sub more ops Hlen; cbn [pack].
  { intros [= <- <- <- <-]. exists []. unfold body_of. simpl. rewrite str_app_nil_r. split_and!; done. }
  assert (Hskip : packable ev = false →
    (let '(p, sub, more, ops) := pack d packed rest in
     (p, sub, more, MDown (fullName d "_queued_items") :: MIncrement (fullName d "_response_errors") :: ops)) = (p, sub, more, ops) →
    ∃ used, ev :: rest = used ++ more ∧ sub = filter (λ ev, packable ev = true) used ∧ p = packed +:+ body_of sub ∧
      Z.of_nat (String.length p) ≤ apiMaxBatchSize ∧ accounted d ops (length used - length sub) ∧
      (ev :: rest ≠ [] → Z.of_nat (String.length packed) + apiMaxEventSize ≤ apiMaxBatchSize → used ≠ [])).
  { intros Hp. destruct (pack d packed rest) as [[[p' sub'] more'] ops'] eqn:E. intros [= -> -> -> <-].
    destruct (IH _ _ _ _ _ Hlen E) as (used & -> & -> & Ep & Hl & Ha & _). exists (ev :: used).
    rewrite filter_cons, Hp, decide_False by done. split_and!; [done..| |done].
    cbn [length]. pose proof (length_filter (λ ev, packable ev = true) used) as Hfl.
    replace (S (length used) - _)%nat with (1 + (length used - length (filter (λ ev, packable ev = true) used)))%nat by lia.
    apply (accounted_app d [_; _]); [apply accounted_skip|exact Ha]. }
  unfold packable in Hskip. destruct (marshal_event (packEvent ev)) as [b|err] eqn:Em; [|by apply Hskip].
  destruct (Z.ltb_spec apiMaxEventSize (Z.of_nat (String.length b))) as [Hbig|Hsmall].
  { apply Hskip. apply Z.leb_gt. lia. }
  destruct (Z.ltb_spec apiMaxBatchSize (Z.of_nat (String.length (packed +:+ b)))) as [Hfull|Hroom].
  { intros [= <- <- <- <-]. exists []. unfold body_of. simpl. rewrite str_app_nil_r. split_and!; [done..|].
    intros _ Hl. rewrite str_length_app in Hfull. lia. }
  destruct (pack d (packed +:+ b) rest) as [[[p' sub'] more'] ops'] eqn:E. intros [= -> <- -> ->].
  destruct (IH _ _ _ _ _ Hroom E) as (used & -> & Esub & Ep & Hl & Ha & _). exists (ev :: used).
  assert (Hpk : packable ev = true) by (unfold packable; rewrite Em; by apply Z.leb_le).
  rewrite filter_cons, decide_True, <-Esub by done. split_and!; [done..| |done|exact Ha|done].
  rewrite Ep. unfold body_of. rewrite fmap_cons. cbn [str_concat foldr]. unfold wire_of at 2. rewrite Em.
  by rewrite <-str_app_assoc.
Qed.

(** *** One request *)

Definition request_of d (dest : event) (u : string) sub : request :=
  mk_request d u (ev_APIKey dest) (AppendArrayHeader (Z.of_nat (length sub)) +:+ body_of sub).

Lemma str_drop_app_le n a b : (n ≤ String.length a)%nat → str_drop n (a +:+ b) = str_drop n a +:+ b.
Proof.
  revert a. induction n as [|n IH]; intros a Hn; [done|]. destruct a as [|c a]; [simpl in Hn; lia|].
  rewrite str_app_cons. simpl in Hn |- *. apply IH. lia.
Qed.

Lemma str_drop_drop n m a : str_drop n (str_drop m a) = str_drop (m + n) a.
Proof.
  revert a. induction m as [|m IH]; intros a; [done|]. destruct a as [|c a]; simpl; [by destruct n|]. apply IH.
Qed.

Lemma put_header_spec n rest :
  put_header (zero_bytes +:+ rest) n = AppendArrayHeader (Z.of_nat n) +:+ rest.
Proof.
  unfold put_header. pose proof (array_header_length (Z.of_nat n)) as Hl.
  rewrite str_drop_drop. replace (_ - _ + _)%nat with 5%nat by lia. done.
Qed.

Lemma send_tries_spec d req sub tries try last hist hist' ops res :
  NewRequest_ok (rq_URL req) = true → send_tries net clock d req sub tries try last hist = (hist', ops, res) →
  accounted d ops 0 ∧ ∃ n, (n ≤ tries)%nat ∧ hist' = replicate n req ++ hist ∧ (tries ≠ 0 → n ≠ 0)%nat.
Proof.
  intros Hok. revert try last hist hist' ops res.
  induction tries as [|tries IH]; intros try last hist hist' ops res; cbn [send_tries].
  { intros [= <- <- _]. split; [done|]. by exists O. }
  rewrite Hok. cbn [negb]. set (retries := if (0 <? try)%nat then _ else _).
  assert (Hr : accounted d retries 0) by (unfold retries; destruct (0 <? try)%nat; auto with transmit).
  assert (Hagain : ∀ res0, (let '(hist, ops, res) := send_tries net clock d req sub tries (S try) res0 (req :: hist) in
      (hist, retries ++ ops, res)) = (hist', ops, res) →
    accounted d ops 0 ∧ ∃ n, (n ≤ S tries)%nat ∧ hist' = replicate n req ++ hist ∧ (S tries ≠ 0 → n ≠ 0)%nat).
  { intros res0. destruct (send_tries _ _ _ _ _ tries _ _ _) as [[h o] r'] eqn:E. intros [= <- <- <-].
    destruct (IH _ _ _ _ _ _ E) as (Ha & n & Hn & -> & _). split; [by apply (accounted_app d _ _ 0 0)|].
    exists (S n). split_and!; [lia| |done]. change (req :: hist) with ([req] ++ hist).
    rewrite app_assoc, <-replicate_cons_app. done. }
  assert (Hdone : (req :: hist, retries, net (req :: hist)) = (hist', ops, res) →
    accounted d ops 0 ∧ ∃ n, (n ≤ S tries)%nat ∧ hist' = replicate n req ++ hist ∧ (S tries ≠ 0 → n ≠ 0)%nat).
  { intros [= <- <- <-]. split; [done|]. exists 1%nat. split_and!; [lia|done|done]. }
  destruct (retried clock (req :: hist) (net (req :: hist))); [apply Hagain|].
  destruct (net (req :: hist)) as [r|[] r]; [exact Hdone|apply Hagain|exact Hdone].
Qed.

Definition routable ev : Prop :=
  ∃ u, buildRequestURL (ev_APIHost ev) (ev_Dataset ev) = Some u ∧ NewRequest_ok u = true.

Lemma send_packed_spec d dest sub hist hist' ops :
  routable dest →
  send_packed net clock d dest (zero_bytes +:+ body_of sub) sub hist = (hist', ops) →
  accounted d ops (length sub) ∧
  ∃ u n, buildRequestURL (ev_APIHost dest) (ev_Dataset dest) = Some u ∧ n ∈ [1; 2]%nat ∧
    hist' = replicate n (request_of d dest u sub) ++ hist.
Proof.
  intros (u & Hu & Hok). unfold send_packed. rewrite Hu, put_header_spec.
  fold (request_of d dest u sub). destruct (send_tries _ _ _ _ _ _ _ _ _) as [[h o] res] eqn:E. intros [= <- <-].
  apply send_tries_spec in E as (Ha & n & Hn & -> & Hn0); [|exact Hok]. split.
  - apply (accounted_app d _ _ 0); [done|apply accounted_result].
  - exists u, n. split_and!; [done| |done]. specialize (Hn0 ltac:(done)).
    destruct n as [|[|[|n]]]; [done|left|right; left|lia].
Qed.

(** *** The whole batch *)

(** Each group is sent once or twice, to the destination of its event. *)
Fixpoint sends d (groups : list (event * list event)) hist hist' : Prop :=
  match groups with
  | [] => hist' = hist
  | (dest, sub) :: groups =>
      ∃ u n, buildRequestURL (ev_APIHost dest) (ev_Dataset dest) = Some u ∧ n ∈ [1; 2]%nat ∧
        sends d groups (replicate n (request_of d dest u sub) ++ hist) hist'
  end.

Definition group_ok whole (g : event * list event) : Prop :=
  g.1 ∈ whole ∧ g.2 ≠ [] ∧
  Z.of_nat (String.length (AppendArrayHeader (Z.of_nat (length g.2)) +:+ body_of g.2)) ≤ apiMaxBatchSize.

Lemma pack_zero d whole p sub more ops :
  pack d zero_bytes whole = (p, sub, more, ops) →
  ∃ used, whole = used ++ more ∧ sub = filter (λ ev, packable ev = true) used ∧ p = zero_bytes +:+ body_of sub ∧
    Z.of_nat (String.length p) ≤ apiMaxBatchSize ∧ accounted d ops (length used - length sub) ∧ (whole ≠ [] → used ≠ []).
Proof.
  intros E. apply pack_spec in E as (used & ? & ? & ? & ? & ? & Hu); [|done].
  exists used. split_and!; [done..|]. intros Hne. by apply Hu.
Qed.

Lemma send_loop_total fuel d whole hist :
  (length whole ≤ fuel)%nat → ∃ res, send_loop net clock fuel d whole hist = Some res.
Proof.
  revert whole hist. induction fuel as [|fuel IH]; intros [|dest rest] hist Hlen; cbn [send_loop length] in *; [eauto|lia|eauto|].
  destruct (pack d zero_bytes (dest :: rest)) as [[[p sub] more] skipped] eqn:E.
  destruct (pack_zero _ _ _ _ _ _ E) as (used & Ew & _ & _ & _ & _ & Hne).
  assert (Hm : (length more ≤ fuel)%nat).
  { apply (f_equal length) in Ew. rewrite length_app in Ew. cbn in Ew.
    destruct used; [by destruct (Hne ltac:(done))|]. cbn in Ew. lia. }
  destruct (match sub with [] => _ | _ => _ end) as [h o]. destruct (IH more h Hm) as [r ->]. eauto.
Qed.

Lemma send_loop_spec fuel d whole hist hist' ops :
  (∀ ev, ev ∈ whole → routable ev) →
  send_loop net clock fuel d whole hist = Some (hist', ops) →
  accounted d ops (length whole) ∧
  ∃ groups, concat groups.*2 = filter (λ ev, packable ev = true) whole ∧ Forall (group_ok whole) groups ∧
    sends d groups hist hist'.
Proof.
  revert whole hist hist' ops. induction fuel as [|fuel IH]; intros [|dest rest] hist hist' ops Hrt; cbn [send_loop].
  1,3: intros [= <- <-]; split; [done|]; by exists [].
  { done. }
  destruct (pack d zero_bytes (dest :: rest)) as [[[p sub] more] skipped] eqn:E.
  destruct (pack_zero _ _ _ _ _ _ E) as (used & Ew & Esub & -> & Hp & Ha & _). rewrite Ew.
  assert (Hsub : (length sub ≤ length used)%nat) by (rewrite Esub; apply length_filter).
  destruct (match sub with [] => _ | _ => _ end) as [h o] eqn:Es.
  destruct (send_loop net clock fuel d more h) as [[h2 o2]|] eqn:El; [|done]. intros [= <- <-].
  destruct (IH more h h2 o2) as (Ha2 & groups & Hg & Hok & Hs); [|done|].
  { intros ev Hin. apply Hrt. rewrite Ew. apply elem_of_app. by right. }
  assert (Hone : accounted d o (length sub) ∧
    ∃ gs, concat gs.*2 = sub ∧ Forall (group_ok (used ++ more)) gs ∧ sends d (gs ++ groups) hist h2).
  { destruct sub as [|ev0 sub'].
    { injection Es as <- <-. split; [done|]. by exists []. }
    apply send_packed_spec in Es as (Hao & u & n & Hu & Hn & ->); [|apply Hrt; left].
    split; [done|]. exists [(dest, ev0 :: sub')]. split_and!.
    - cbn. by rewrite app_nil_r.
    - apply Forall_singleton. split_and!; [rewrite <-Ew; left|done|]. cbn [snd].
      pose proof (array_header_length (Z.of_nat (length (ev0 :: sub')))) as Hh.
      rewrite str_length_app in Hp |- *. change (String.length zero_bytes) with 5%nat in Hp. lia.
    - exists u, n. split_and!; done. }
  destruct Hone as (Hao & gs & Egs & Hgs & Hsend). split.
  - replace (length (used ++ more)) with ((length used - length sub) + (length sub + length more))%nat
      by (rewrite length_app; lia).
    apply accounted_app; [done|]. by apply accounted_app.
  - exists (gs ++ groups). split_and!; [|apply Forall_app; split; [done|]|done].
    + rewrite fmap_app, concat_app, Egs, Hg, filter_app, Esub. done.
    + eapply Forall_impl; [exact Hok|]. intros g (Hin & ? & ?). split_and!; [|done..]. apply elem_of_app. by right.
Qed.

(** C33: sending a batch ends, whatever the network answers: as many rounds as there are events are
    enough, for each takes at least one off the batch. *)
Theorem sendBatch_terminates d whole hist : ∃ res, sendBatch net clock d whole hist = Some res.
Proof. apply send_loop_total. done. Qed.

Lemma answer_delivered d now sub statuses :
  delivered d (answer_events d now sub statuses) =
    length (filter (λ status, status = StatusAccepted) (take (length sub) statuses)).
Proof.
  revert statuses. induction sub as [|ev sub IH]; intros statuses; [by rewrite take_0|]. cbn [answer_events length].
  assert (Herr : ∀ q, delivered d (handleEventError d q) = 0%nat) by (intros; tally_names).
  assert (Hok : ∀ q, delivered d (handle_success d q) = 1%nat) by (intros; tally_names).
  destruct statuses as [|status statuses]; unfold delivered in *; rewrite tally_app, IH, ?take_nil.
  - by rewrite Herr.
  - rewrite firstn_cons, filter_cons. destruct (Z.eqb_spec status StatusAccepted) as [E|Hne].
    + by rewrite decide_True, Hok by done.
    + by rewrite decide_False, Herr by done.
Qed.

(** C22: every event of a batch is accounted for once.  If a request can be made for its
    destination, then whatever the network answers - a timeout, a retry, an error, too few
    answers - each event leaves the gauge of queued items exactly once, and is counted either as
    delivered or as an error.  Of the answers decoded, those with status 202 are the deliveries. *)
Theorem sendBatch_accounts d whole hist hist' ops :
  (∀ ev, ev ∈ whole → routable ev) → sendBatch net clock d whole hist = Some (hist', ops) →
  downs d ops = length whole ∧ (delivered d ops + failed d ops)%nat = length whole ∧
  ∀ now sub statuses, delivered d (answer_events d now sub statuses) =
    length (filter (λ status, status = StatusAccepted) (take (length sub) statuses)).
Proof.
  intros Hrt E. apply send_loop_spec in E as ([Hd Hs] & _); [|done]. split_and!; [done..|]. apply answer_delivered.
Qed.

(** C23: the requests carry the events, in order and within the limits.  The events that serialize
    to no more than a megabyte, and no others, are sent, in the order of the batch, in groups: the
    body of a request is the array of a group's events, and no longer than the limit of the API; a
    request is made once, or twice when it is retried.  All go where the first event of what is
    left says: to the destination the events share, if they still share one. *)
Theorem sendBatch_requests d whole hist hist' ops :
  (∀ ev, ev ∈ whole → routable ev) → sendBatch net clock d whole hist = Some (hist', ops) →
  ∃ groups, concat groups.*2 = filter (λ ev, packable ev = true) whole ∧ sends d groups hist hist' ∧
    Forall (λ g, g.2 ≠ [] ∧
      Z.of_nat (String.length (AppendArrayHeader (Z.of_nat (length g.2)) +:+ body_of g.2)) ≤ apiMaxBatchSize ∧
      ∀ ev, ev ∈ g.2 → (∀ ev1 ev2, ev1 ∈ whole → ev2 ∈ whole → event_key ev1 = event_key ev2) →
        event_key g.1 = event_key ev) groups.
Proof.
  intros Hrt E. apply send_loop_spec in E as (_ & groups & Hg & Hok & Hs); [|done]. exists groups.
  split_and!; [done..|]. rewrite Forall_forall in Hok. apply Forall_forall. intros g Hin.
  destruct (Hok g Hin) as (Hd & Hne & Hl). split_and!; [done..|]. intros ev Hev Hsame. apply Hsame; [done|].
  assert (Hf : ev ∈ filter (λ ev, packable ev = true) whole).
  { rewrite <-Hg. apply elem_of_concat. exists g.2. split; [done|]. by apply list_elem_of_fmap_2. }
  by apply list_elem_of_filter in Hf as [_ Hw].
Qed.

(** But when the request itself cannot be made, each event leaves the gauge twice. *)
Lemma invalid_request_counted_twice d dest packed sub u hist hist' ops :
  buildRequestURL (ev_APIHost dest) (ev_Dataset dest) = Some u → NewRequest_ok u = false →
  send_packed net clock d dest packed sub hist = (hist', ops) → downs d ops = (length sub + length sub)%nat.
Proof.
  intros Hu Hok. unfold send_packed. rewrite Hu. cbn [send_tries mk_request rq_URL]. rewrite Hok. cbn [negb].
  intros E. assert (Eops : ops = handleBatchFailure d sub ++ fail_events d (clock hist) sub) by by injection E.
  rewrite Eops. unfold downs. rewrite tally_app. f_equal.
  - unfold handleBatchFailure. cbn [tally is_down]. rewrite Nat.add_0_l. clear. induction sub as [|ev sub IH]; [done|].
    rewrite fmap_cons. cbn [tally is_down length]. rewrite String.eqb_refl, IH. done.
  - apply accounted_fail.
Qed.

(** And the error of decoding a JSON answer is not counted. *)
Lemma json_error_not_counted d now sub r :
  rs_StatusCode r = StatusOK → rs_ContentType r ≠ "application/msgpack" →
  handle_response d now sub r =
    [MIncrement (fullName d "_batches_sent"); MCount (fullName d "_messages_sent") (Z.of_nat (length sub))] ++
    answer_events d now sub (match rs_Body r with Some b => (json_responses b).1 | None => [] end).
Proof.
  intros Hs Hc. unfold handle_response. rewrite Hs, Z.eqb_refl. apply String.eqb_neq in Hc. rewrite Hc.
  by destruct (rs_Body r).
Qed.
End Send.

#[local] Existing Instance ExampleMsgp.codec.
#[local] Existing Instance ExampleMsgp.codec_laws.

(** Two events, answered with one status: the first is delivered, the second an error. *)
Module Example.
#[export] Instance http : GoHTTP := {|
  url_JoinPath host elems := Some (host +:+ str_concat elems);
  NewRequest_ok _ := true;
  ParseDuration _ := None;
  ParseTime _ := None;
  msgpack_responses b := match b with Some _ => ([202], false) | None => ([], true) end;
  json_responses _ := ([], true);
  msgpack_body_err _ := true;
  zstd_EncodeAll s := s |}.
Definition ev (data : string) : event :=
  mkEvent "http://api" "key" data "" 1 0 (Set_ (NewPayload None ∅) "a" (VString "b")) 0 0.
Definition d : DirectTransmission := NewDirectTransmission TransmitTypeUpstream 2 100 false [("user-agent", "x")] "refinery".
Definition net (hist : list request) : http_result :=
  match hist with
  | [_] => Failed true None
  | _ => Replied (mkResponse 200 "application/msgpack" "" (Some ""))
  end.
Definition clock (hist : list request) : Z := 0.

Lemma routes e : routable e.
Proof. by eexists. Qed.
End Example.
#[local] Existing Instance Example.http.

Lemma sendBatch_accounts_witness :
  ∃ hist ops, sendBatch Example.net Example.clock Example.d [Example.ev "x"; Example.ev "x"] [] = Some (hist, ops) ∧
    downs Example.d ops = 2%nat ∧ delivered Example.d ops = 1%nat.
Proof.
  destruct (sendBatch Example.net Example.clock Example.d [Example.ev "x"; Example.ev "x"] []) as [[hist ops]|] eqn:E;
    [|by vm_compute in E].
  destruct (sendBatch_accounts Example.net Example.clock _ _ _ _ _ (λ ev _, Example.routes ev) E) as (Hd & _).
  exists hist, ops. split_and!; [done|exact Hd|]. vm_compute in E. injection E as _ <-. by vm_compute.
Defined.

Lemma sendBatch_requests_witness :
  ∃ groups hist ops, sendBatch Example.net Example.clock Example.d [Example.ev "x"; Example.ev "x"] [] = Some (hist, ops) ∧
    concat groups.*2 = [Example.ev "x"; Example.ev "x"] ∧ sends Example.d groups [] hist.
Proof.
  destruct (sendBatch Example.net Example.clock Example.d [Example.ev "x"; Example.ev "x"] []) as [[hist ops]|] eqn:E;
    [|by vm_compute in E].
  destruct (sendBatch_requests Example.net Example.clock _ _ _ _ _ (λ ev _, Example.routes ev) E) as (groups & Hg & Hs & _).
  exists groups, hist, ops. split_and!; [done|rewrite Hg; by vm_compute|exact Hs].
Defined.
