(* ===== verification/TransmitDefault.v ===== *)
(** transmit/transmit.go: the older transmission, an adapter of libhoney's.  The program itself puts
    together the DirectTransmission of Transmit; this one is kept, with its tests.

    libhoney's client is what it is asked to send; whether it takes an event is a parameter, and a
    response is a step of its own.  Logging is modelled where a response is logged. *)
From S2P Require Import Prelude GoValue Metrics Msgp Event SamplerConfig Config Payload Transmit.

(** An event of libhoney, and a response to one, with the metadata it was sent with. *)
Record lh_event := mkLhEvent {
  lh_APIHost : string; lh_WriteKey : string; lh_Dataset : string; lh_SampleRate : Z; lh_Timestamp : Z;
  lh_fields : gmap string value; lh_Metadata : gmap string value }.
Record lh_response := mkLhResponse {
  lr_Err : option string; lr_StatusCode : Z; lr_Body : string; lr_Metadata : option (gmap string value) }.

(** The builder: the host its events go to, and the fields they have. *)
Record lh_builder := mkLhBuilder { lb_APIHost : string; lb_fields : gmap string value }.
Record DefaultTransmission := mkDefault { dtx_builder : lh_builder; dtx_client : lh_builder }.

Definition with_host (b : lh_builder) (host : string) : lh_builder := mkLhBuilder host (lb_fields b).

Section Default.
Context `{!Msgp, !GoJSON}.
Implicit Types (f : fileConfig) (ev : event) (r : lh_response).

Definition Start f (client : lh_builder) : DefaultTransmission := mkDefault (with_host client (GetHoneycombAPI f)) client.

(** The builder made for the new address is not kept. *)
Definition reloadTransmissionBuilder f (d : DefaultTransmission) : DefaultTransmission :=
  let builder := with_host (dtx_client d) (GetHoneycombAPI f) in d.

Definition metadata_of f (now : Z) ev : gmap string value :=
  foldl (λ m k, if p_Exists (ev_Data ev) k then <[k := p_Get (ev_Data ev) k]> m else m)
    (<["api_host" := VString (ev_APIHost ev)]> (<["dataset" := VString (ev_Dataset ev)]>
      (<["environment" := VString (ev_Environment ev)]> (<["enqueued_at" := VInt64 (UnixMicro now)]> ∅))))
    (GetAdditionalErrorFields f).

Definition libhoney_event f (now : Z) (d : DefaultTransmission) ev : lh_event :=
  mkLhEvent (ev_APIHost ev) (ev_APIKey ev) (ev_Dataset ev) (ev_SampleRate ev) (ev_Timestamp ev)
    (foldl (λ m kv, <[kv.1 := kv.2]> m) (lb_fields (dtx_builder d)) (All (ev_Data ev))) (metadata_of f now ev).

(** [SendPresampled] is the error of the method of that name, if there is one. *)
Definition EnqueueEvent f (now : Z) (d : DefaultTransmission) (SendPresampled : lh_event → option string) ev
    : option lh_event * list metric_op :=
  let libhEv := libhoney_event f now d ev in
  match SendPresampled libhEv with
  | Some _ => (None, [MIncrement "_enqueue_errors"; MUp "_queued_items"])
  | None => (Some libhEv, [MUp "_queued_items"])
  end.
Definition EnqueueSpan := EnqueueEvent.

Definition RegisterMetrics : list metric_op := (λ m, MRegister m.1 m.2) <$> transmissionMetrics.

(** An assertion to string or to int64 of an entry of the metadata. *)
Definition meta_string (m : gmap string value) (k : string) : option string :=
  match m !! k with Some (VString s) => Some s | _ => None end.
Definition meta_int64 (m : gmap string value) (k : string) : option Z :=
  match m !! k with Some (VInt64 z) => Some z | _ => None end.

Definition is_failure r : bool := match lr_Err r with Some _ => true | None => 202 <? lr_StatusCode r end.

(** The entry that a failure is logged with; [None] is a panic. *)
Definition failure_entry f (now : Z) r : option (gmap string value * Z) :=
  match (match lr_Metadata r with
         | Some m =>
             match meta_string m "api_host", meta_string m "dataset", meta_string m "environment", meta_int64 m "enqueued_at" with
             | Some apiHost, Some dataset, Some environment, Some enqueuedAt => Some (apiHost, dataset, environment, UnixMicro now - enqueuedAt)
             | _, _, _, _ => None
             end
         | None => Some ("", "", "", 0)
         end) with
  | None => None
  | Some (apiHost, dataset, environment, waited) =>
      let log : gmap string value :=
        <["status_code" := VInt (lr_StatusCode r)]> (<["api_host" := VString apiHost]> (<["dataset" := VString dataset]>
          (<["environment" := VString environment]> (<["roundtrip_usec" := VInt64 waited]> ∅)))) in
      let log := if String.eqb (lr_Body r) "" then log else <["response_body" := VString (lr_Body r)]> log in
      match GetAdditionalErrorFields f, lr_Metadata r with
      | _ :: _, None => None
      | ks, m =>
          let log := foldl (λ log k, match default ∅ m !! k with Some v => <[k := v]> log | None => log end) log ks in
          Some (match lr_Err r with Some err => <["error" := VString err]> log | None => log end, waited)
      end
  end.

(** One response: what is logged, and the metrics. *)
Definition processResponse f (now : Z) r : option (option (gmap string value) * list metric_op) :=
  if is_failure r then
    match failure_entry f now r with
    | Some (log, waited) =>
        Some (Some log, [MIncrement "_response_errors"; MDown "_queued_items"; MHistogram "_queue_time" (f64_of_Z waited)])
    | None => None
    end
  else
    match (match lr_Metadata r with
           | Some m => match meta_int64 m "enqueued_at" with Some enqueuedAt => Some (UnixMicro now - enqueuedAt) | None => None end
           | None => Some 0
           end) with
    | Some waited => Some (None, [MIncrement "_response_20x"; MDown "_queued_items"; MHistogram "_queue_time" (f64_of_Z waited)])
    | None => None
    end.

(** ** The response to an event that was sent *)

Definition own_key (k : string) : Prop := k ∈ ["api_host"; "dataset"; "environment"; "enqueued_at"].
#[local] Instance own_key_dec k : Decision (own_key k).
Proof. unfold own_key. apply _. Defined.

Lemma own_keys k : bool_decide (own_key k) = true → own_key k.
Proof. apply bool_decide_eq_true_1. Qed.

Lemma metadata_keeps f now ev k v : k ∉ GetAdditionalErrorFields f →
  metadata_of f now ev !! k = Some v ↔
  (<["api_host" := VString (ev_APIHost ev)]> (<["dataset" := VString (ev_Dataset ev)]>
      (<["environment" := VString (ev_Environment ev)]> (<["enqueued_at" := VInt64 (UnixMicro now)]> (∅ : gmap string value))))) !! k = Some v.
Proof.
  unfold metadata_of. generalize (GetAdditionalErrorFields f) as ks. intros ks Hk.
  match goal with |- foldl _ ?m _ !! _ = _ ↔ _ => generalize m as m0 end. revert Hk. induction ks as [|k' ks IH]; intros Hk m0; [done|].
  apply not_elem_of_cons in Hk as [Hne Hk]. cbn [foldl]. rewrite IH by done. case_match; [by rewrite lookup_insert_ne|done].
Qed.

(** When no field that errors are to carry has one of the metadata's own names, the response to an
    event is processed, whatever it says: the queue is one shorter, and the time is the one the event
    waited. *)
Lemma response_processed f now later d SendPresampled ev libhEv ms err code body :
  (∀ k, own_key k → k ∉ GetAdditionalErrorFields f) →
  EnqueueEvent f now d SendPresampled ev = (Some libhEv, ms) →
  ms = [MUp "_queued_items"] ∧
  ∃ log counter, processResponse f later (mkLhResponse err code body (Some (lh_Metadata libhEv))) =
    Some (log, [MIncrement counter; MDown "_queued_items"; MHistogram "_queue_time" (f64_of_Z (UnixMicro later - UnixMicro now))]) ∧
    (counter = "_response_20x" ↔ err = None ∧ code ≤ 202) ∧ (log = None ↔ err = None ∧ code ≤ 202).
Proof.
  intros Hown E. unfold EnqueueEvent in E. destruct (SendPresampled _); simplify_eq. split; [done|].
  assert (Hat : ∀ k v, own_key k → _ → metadata_of f now ev !! k = Some v) by (intros k v Hk; apply metadata_keeps, Hown, Hk).
  assert (M1 : metadata_of f now ev !! "api_host" = Some (VString (ev_APIHost ev))) by (apply Hat; [by apply own_keys|done]).
  assert (M2 : metadata_of f now ev !! "dataset" = Some (VString (ev_Dataset ev))) by (apply Hat; [by apply own_keys|done]).
  assert (M3 : metadata_of f now ev !! "environment" = Some (VString (ev_Environment ev))) by (apply Hat; [by apply own_keys|done]).
  assert (M4 : metadata_of f now ev !! "enqueued_at" = Some (VInt64 (UnixMicro now))) by (apply Hat; [by apply own_keys|done]).
  assert (Hlog : ∃ log, failure_entry f later (mkLhResponse err code body (Some (metadata_of f now ev))) = Some (log, UnixMicro later - UnixMicro now)).
  { unfold failure_entry, meta_string, meta_int64. cbn [lr_Metadata]. rewrite M1, M2, M3, M4. destruct (GetAdditionalErrorFields f); by eexists. }
  destruct Hlog as [log Hlog]. unfold processResponse. cbn [lh_Metadata libhoney_event lr_Metadata]. rewrite Hlog.
  unfold is_failure, meta_int64. cbn [lr_Err lr_StatusCode]. rewrite M4. destruct err as [err|]; [|destruct (Z.ltb_spec 202 code)].
  - exists (Some log), "_response_errors". split; [done|]. naive_solver.
  - exists (Some log), "_response_errors". split; [done|]. split; split; [done|intros [_ ?]; lia|done|intros [_ ?]; lia].
  - exists None, "_response_20x". done.
Qed.
End Default.

(** A field that errors carry and that is named as one of the metadata's own takes its place, and then
    its type is asserted. *)
Module DefaultExample.
Definition errored : lh_response :=
  mkLhResponse (Some "timeout") 0 "" (Some {["api_host" := VString "h"; "dataset" := VInt 7; "environment" := VString "e"; "enqueued_at" := VInt64 0]}).
Lemma error_field_panics f : processResponse f 0 errored = None.
Proof. reflexivity. Qed.
Lemma refused_stays_queued `{!Msgp, !GoJSON} f now d ev :
  EnqueueEvent f now d (λ _, Some "queue overflow") ev = (None, [MIncrement "_enqueue_errors"; MUp "_queued_items"]).
Proof. reflexivity. Qed.
End DefaultExample.
