(* ===== verification/MemorySize.v ===== *)
(** config/memorysize.go, config/level.go and internal/headers/headers.go: the texts of a
    configuration that stand for a size, a level of logging or a header.

    A size is read and written through 64-bit floats, as the code does.  Letters are those of ASCII. *)
From Stdlib Require Import SpecFloat Ascii.
From S2P Require Import Prelude GoValue.

(** ** Text *)

Definition lower_char (c : ascii) : ascii :=
  let n := N_of_ascii c in if ((65 <=? n) && (n <=? 90))%N then ascii_of_N (n + 32) else c.
Fixpoint ToLower (s : string) : string :=
  match s with EmptyString => "" | String c s => String (lower_char c) (ToLower s) end.

(** The longest prefix of such characters, and the rest. *)
Fixpoint span (f : ascii → bool) (s : string) : string * string :=
  match s with
  | EmptyString => ("", "")
  | String c s' => if f c then let '(a, b) := span f s' in (String c a, b) else ("", s)
  end.

Definition is_space (c : ascii) : bool := existsb (N.eqb (N_of_ascii c)) [9; 10; 12; 13; 32]%N.
Definition is_number_char (c : ascii) : bool :=
  let n := N_of_ascii c in ((48 <=? n) && (n <=? 57))%N || Ascii.eqb c "." || Ascii.eqb c "_".
Definition is_letter (c : ascii) : bool :=
  let n := N_of_ascii c in ((97 <=? n) && (n <=? 122) || (65 <=? n) && (n <=? 90))%N.

(** The regular expression of a size: the number and the unit, with spaces around. *)
Definition match_size (s : string) : option (string * string) :=
  let s := (span is_space s).2 in
  let '(number, s) := span is_number_char s in
  let '(unit, s) := span is_letter s in
  if negb (String.eqb number "") && str_forallb is_space s then Some (number, unit) else None.

(** ** Sizes *)

Definition K : Z := 1000.
Definition M : Z := 1000 * K.
Definition G : Z := 1000 * M.
Definition T : Z := 1000 * G.
Definition P : Z := 1000 * T.
Definition E : Z := 1000 * P.
Definition Ki : Z := 1024.
Definition Mi : Z := 1024 * Ki.
Definition Gi : Z := 1024 * Mi.
Definition Ti : Z := 1024 * Gi.
Definition Pi : Z := 1024 * Ti.
Definition Ei : Z := 1024 * Pi.

Definition unitSlice : list Z := [Ei; E; Pi; P; Ti; T; Gi; G; Mi; M; Ki; K; 1].
Definition reverseUnitMap : list (Z * string) :=
  [(Ki, "Ki"); (Mi, "Mi"); (Gi, "Gi"); (Ti, "Ti"); (Pi, "Pi"); (Ei, "Ei");
   (K, "K"); (M, "M"); (G, "G"); (T, "T"); (P, "P"); (E, "E")].
Definition unitMap : list (string * Z) :=
  [("bi", 1); ("bib", 1); ("ki", Ki); ("kib", Ki); ("mi", Mi); ("mib", Mi); ("gi", Gi); ("gib", Gi); ("ti", Ti);
   ("tib", Ti); ("pi", Pi); ("pib", Pi); ("ei", Ei); ("eib", Ei); ("b", 1); ("bb", 1); ("k", K); ("kb", K);
   ("m", M); ("mb", M); ("g", G); ("gb", G); ("t", T); ("tb", T); ("p", P); ("pb", P); ("e", E); ("eb", E)].

Definition assoc {A B} `{EqDecision A} (l : list (A * B)) (a : A) : option B :=
  snd <$> head (filter (λ kv, kv.1 = a) l).

(** The first unit the size is a whole number of, as floats go; a plain number is not such a unit. *)
Fixpoint marshal_units (m : Z) (units : list Z) : option string :=
  match units with
  | [] => None
  | size :: units =>
      let result := f64_div (f64_of_Z m) (f64_of_Z size) in
      match f64_trunc result with
      | Some z =>
          if f64_eqb result (f64_of_Z z) then (λ unit, format_int z +:+ unit) <$> assoc reverseUnitMap size
          else marshal_units m units
      | None => marshal_units m units
      end
  end.
Definition MarshalText (m : Z) : string :=
  default (format_int m) (if 0 <? m then marshal_units m unitSlice else None).

Section Read.
Context `{GoFloat}.

Definition InvalidSizeError (txt : string) : string := "invalid size: " +:+ txt.

Definition UnmarshalText (txt : string) : res Z :=
  match match_size (ToLower txt) with
  | None => Err (InvalidSizeError txt)
  | Some (number, unit) =>
      match parse_float number with
      | None => Err (InvalidSizeError txt)
      | Some number =>
          if String.eqb unit "" then Ok (f64_to_uint number)
          else match assoc unitMap unit with
               | None => Err (InvalidSizeError txt)
               | Some scalar => Ok (f64_to_uint (f64_mul number (f64_of_Z scalar)))
               end
      end
  end.

(** For the flags of the command line. *)
Definition UnmarshalFlag (value : string) : res Z := UnmarshalText value.
End Read.

(** ** Levels *)

Inductive Level := UnknownLevel | DebugLevel | InfoLevel | WarnLevel | ErrorLevel | PanicLevel.
#[export] Instance Level_eq_dec : EqDecision Level.
Proof. solve_decision. Defined.

(** strings.TrimSpace: a vertical tab is a space for it, and none for a regular expression. *)
Definition trims (c : ascii) : bool := is_space c || (N_of_ascii c =? 11)%N.
Fixpoint rtrim (s : string) : string :=
  match s with
  | EmptyString => ""
  | String c s => let s := rtrim s in if trims c && String.eqb s "" then "" else String c s
  end.
Definition TrimSpace (s : string) : string := rtrim (span trims s).2.

Definition ParseLevel (s : string) : Level :=
  let s := TrimSpace (ToLower s) in
  if String.eqb s "debug" then DebugLevel
  else if String.eqb s "info" then InfoLevel
  else if String.eqb s "warn" then WarnLevel
  else if String.eqb s "error" then ErrorLevel
  else if String.eqb s "panic" then PanicLevel
  else UnknownLevel.

Definition Level_String (l : Level) : string :=
  match l with
  | DebugLevel => "debug" | InfoLevel => "info" | WarnLevel => "warn" | ErrorLevel => "error" | PanicLevel => "panic"
  | UnknownLevel => "unknown"
  end.

Definition Level_UnmarshalText (text : string) : res Level :=
  match ParseLevel text with
  | UnknownLevel => Err ("unknown logging level '" +:+ text +:+ "'")
  | l => Ok l
  end.

Lemma level_roundtrip l : l ≠ UnknownLevel → Level_UnmarshalText (Level_String l) = Ok l.
Proof. by destruct l. Qed.

(** ** Headers *)

Definition reservedPrefixes : list string := ["x-honeycomb-"; "x-hny-"].
Definition IsReserved (name : string) : bool := existsb (HasPrefix (ToLower name)) reservedPrefixes.

(** ** Sizes written and read *)

#[local] Existing Instance example_float.

Lemma size_written_and_read :
  MarshalText (3 * Mi) = "3Mi" ∧ UnmarshalText "3Mi" = Ok (3 * Mi) ∧ MarshalText 1500 = "1500" ∧
  UnmarshalText " 12MB " = Ok (12 * M).
Proof. by vm_compute. Qed.

(** A size that is not a float is not what is read back. *)
Lemma large_size_lost : MarshalText (2 ^ 53 + 1) = "8Pi" ∧ UnmarshalText "8Pi" = Ok (2 ^ 53).
Proof. by vm_compute. Qed.
