(* ===== verification/Validate.v ===== *)
(** config/metadata.go, config/validate.go and config/version.go: whether the contents of a
    configuration file are what the metadata says they may be.

    The contents are what the decoder gives: a map is the list of its entries, in the order Go visits
    them; validation's results come in that order.  [None] is a panic, or the end of the fuel: the
    nesting of the contents.  A value of type Duration does not come out of a file. *)
From Stdlib Require Import SpecFloat Ascii.
From S2P Require Import Prelude GoValue MemorySize.

(** Packages time, net and net/url (the host and the scheme of a URL, and the errors), semver, the
    edit distance of words, and fmt's [%#v] and the type of a value of another kind. *)
Class GoConfigText := {
  time_ParseDuration : string → option Z;
  net_SplitHostPort : string → option string;
  url_Parse : string → res (string * string);
  semver_IsValid : string → bool;
  semver_Compare : string → string → Z;
  levenshtein_ComputeDistance : string → string → Z;
  fmt_sharp_v : value → string;
  type_of_other : string → string;
}.

Section Validate.
Context `{!GoFloat, !GoConfigText}.

Abbreviation object := (list (string * value)).

(** ** Metadata *)

Record Validation := mkValidation { vd_Type : string; vd_Arg : value }.
Record Deprecation := mkDeprecation { dp_LastVersion : string; dp_DeprecationText : string }.
Record Field := mkField {
  fd_Name : string; fd_Type : string; fd_Default : value; fd_Choices : list string;
  fd_Validations : list Validation; fd_Deprecation : Deprecation }.
Record Group := mkGroup { gr_Name : string; gr_Fields : list Field; gr_Deprecation : Deprecation }.
Record Metadata := mkMetadata { md_Groups : list Group }.
Implicit Types (m : Metadata) (v : value) (k : string).

(** strings.Split at a character. *)
Fixpoint split_at (c : ascii) (s : string) : list string :=
  match s with
  | EmptyString => [""]
  | String d s =>
      if Ascii.eqb d c then "" :: split_at c s
      else match split_at c s with [] => [String d ""] | x :: l => String d x :: l end
  end.

(** [None] is the panic on an argument that is no list of strings. *)
Definition as_string v : option string := match v with VString s => Some s | _ => None end.
Definition GetArgAsStringSlice (vd : Validation) : option (list string) :=
  match vd_Arg vd with VList l => mapM as_string l | _ => None end.

Definition IsDeprecated (g : Group) : bool :=
  negb (String.eqb (dp_LastVersion (gr_Deprecation g)) "") ||
  negb (bool_decide (gr_Fields g = [])) && forallb (λ f, negb (String.eqb (dp_LastVersion (fd_Deprecation f)) "")) (gr_Fields g).

Definition GetDeprecationVersion (g : Group) : string :=
  if negb (String.eqb (dp_LastVersion (gr_Deprecation g)) "") then dp_LastVersion (gr_Deprecation g)
  else foldl (λ latest f,
    let last := dp_LastVersion (fd_Deprecation f) in
    if negb (String.eqb last "") && (String.eqb latest "" || negb (String.leb last latest)) then last else latest) "" (gr_Fields g).

Definition find_field (name : string) (g : Group) : option Field :=
  head (filter (λ f, fd_Name f = name) (gr_Fields g)).

Definition GetField m (name : string) : option Field :=
  match split_at "." name with
  | [group; field] => head (omap (λ g, if String.eqb (gr_Name g) group then find_field field g else None) (md_Groups m))
  | _ => None
  end.

Definition GetGroup m (name : string) : option Group := head (filter (λ g, gr_Name g = name) (md_Groups m)).

(** A name at its distance; sorted by the distance, then by the name. *)
Definition lev_le (a b : string * Z) : Prop := a.2 < b.2 ∨ a.2 = b.2 ∧ str_le a.1 b.1.
#[export] Instance lev_le_dec : RelDecision lev_le.
Proof. intros a b. unfold lev_le. apply _. Defined.

(** Those as close as the first, each once; [None] when there is none to be first. *)
Definition ClosestNamesTo m (word : string) : option (list string) :=
  let word := default "" (last (split_at "." word)) in
  let words := concat ((λ g, gr_Name g :: (fd_Name <$> gr_Fields g)) <$> md_Groups m) in
  match merge_sort lev_le ((λ n, (n, levenshtein_ComputeDistance n word)) <$> words) with
  | [] => None
  | w :: ws =>
      let fix close ws := match ws with
                          | [] => []
                          | x :: ws => if x.2 =? w.2 then (if String.eqb x.1 w.1 then close ws else x.1 :: close ws) else []
                          end in
      Some (w.1 :: close ws)
  end.

(** ** Versions *)

Definition as_version (s : string) : option string :=
  if semver_IsValid s then Some s
  else if semver_IsValid ("v" +:+ s) then Some ("v" +:+ s) else None.

Definition compareVersions (current target : string) : option Z :=
  match as_version current, as_version target with
  | Some c, Some t => Some (semver_Compare c t)
  | _, _ => None
  end.

Definition isVersionDeprecated (current target : string) : bool :=
  match compareVersions current target with None => true | Some result => result <? 1 end.

(** ** Results *)

Inductive severity := Warning | Error.
#[export] Instance severity_eq_dec : EqDecision severity.
Proof. solve_decision. Defined.
Record ValidationResult := mkResult { vr_Message : string; vr_Severity : severity }.

Definition vr_isEmpty (r : ValidationResult) : bool := String.eqb (vr_Message r) "".
Definition IsError (r : ValidationResult) : bool := bool_decide (vr_Severity r = Error).
Definition HasErrors (rs : list ValidationResult) : bool := existsb IsError rs.

Definition error (msg : string) : ValidationResult := mkResult msg Error.

Definition checkForDeprecation (path : string) (item : Deprecation) (currentVersion : option string) : ValidationResult :=
  let message := dp_DeprecationText item in
  let last := dp_LastVersion item in
  let says text := if String.eqb message "" then "config " +:+ path +:+ text +:+ last else message in
  match currentVersion with
  | Some current =>
      if negb (String.eqb last "") then
        if isVersionDeprecated current last then mkResult (says " is deprecated and will be removed in version ") Warning
        else if match compareVersions current last with None => true | Some comparison => 0 <=? comparison end
        then error (says " was deprecated and removed in version ")
        else mkResult message Warning
      else mkResult message Warning
  | None => mkResult message Warning
  end.

Definition deprecation_results (path : string) (item : Deprecation) (currentVersion : option string) : list ValidationResult :=
  let d := checkForDeprecation path item currentVersion in if vr_isEmpty d then [] else [d].

(** ** Values *)

(** A map of maps becomes one map with dotted keys; deeper maps are left as they are. *)
Definition flatten_one (data : object) : gmap string value := foldl (λ r kv, <[kv.1 := kv.2]> r) ∅ data.
Definition flatten (data : object) : gmap string value :=
  foldl (λ r kv,
    match kv.2 with
    | VMap val => foldl (λ r kkvv, <[(kv.1 +:+ "." +:+ kkvv.1) := kkvv.2]> r) r (map_to_list (flatten_one val))
    | v => <[kv.1 := v]> r
    end) ∅ data.

Definition isString v : bool := match v with VString _ => true | _ => false end.
Definition is_scalar v : bool :=
  match v with VString _ | VInt _ | VInt64 _ | VFloat64 _ | VBool _ => true | _ => false end.

(** fmt's [%T]. *)
Definition type_name v : string :=
  match v with
  | VNil => "<nil>" | VInt _ => "int" | VInt64 _ => "int64" | VFloat64 _ => "float64" | VBool _ => "bool"
  | VString _ => "string" | VBytes _ => "[]uint8" | VList _ => "[]interface {}" | VMap _ => "map[string]interface {}"
  | VOther s => type_of_other s
  end.

(** A string is a duration, in milliseconds, or else a size. *)
Definition asFloat v : res float64 :=
  let other := Err (fmt_sharp_v v +:+ " (" +:+ type_name v +:+ ") cannot be interpreted as a quantity") in
  match v with
  | VInt z | VInt64 z => Ok (f64_of_Z z)
  | VFloat64 f => Ok f
  | VString s =>
      match time_ParseDuration s with
      | Some d => Ok (f64_of_Z (Z.quot d 1000000))
      | None => match UnmarshalText s with Ok n => Ok (f64_of_Z n) | Err _ => other end
      end
  | _ => other
  end.

(** [None] is the panic. *)
Definition mustFloat v : option float64 := match asFloat v with Ok f => Some f | Err _ => None end.

(** The first element of another type than the first, and its index. *)
Fixpoint mixed_at (first : string) (i : nat) (l : list value) : option (nat * value) :=
  match l with
  | [] => None
  | a :: l => if String.eqb (type_name a) first then mixed_at first (S i) l else Some (i, a)
  end.

Definition is_duration v : bool :=
  match v with VString s => bool_decide (is_Some (time_ParseDuration s)) | _ => false end.

(** The error message, empty when the value is of the type; [None] is the panic on an unknown type. *)
Definition validateDatatype k v (typ : string) : option string :=
  let must s := "field " +:+ k +:+ " must " +:+ s in
  let shown := "field " +:+ k +:+ " (" +:+ fmt_v v +:+ ")" in
  if match v with VNil => true | _ => false end then Some (must "not be nil")
  else if String.eqb typ "object" then Some (match v with VMap _ => "" | _ => must "be an object" end)
  else if String.eqb typ "objectarray" then Some (match v with VList _ => "" | _ => must "be an array of objects" end)
  else if String.eqb typ "anyscalar" then Some (if is_scalar v then "" else must "be a string, int, float, or bool")
  else if String.eqb typ "sliceorscalar" then
    Some (if is_scalar v then ""
          else match v with
               | VList ((a :: _ :: _) as l) =>
                   match mixed_at (type_name a) 0 l with
                   | Some (i, a) => must "be a slice of all the same type, but element " +:+ format_int (Z.of_nat i) +:+ " is " +:+ type_name a
                   | None => ""
                   end
               | VList _ => ""
               | _ => must "be a list of string, int, float, or bool"
               end)
  else if String.eqb typ "string" then
    Some (if isString v then "" else must "be a string but " +:+ fmt_v v +:+ " is " +:+ type_name v)
  else if String.eqb typ "int" || String.eqb typ "percentage" then
    Some (match v with
          | VInt i => if String.eqb typ "percentage" && ((i <? 0) || (100 <? i)) then must "be a percentage between 0 and 100" else ""
          | _ => must "be an int"
          end)
  else if String.eqb typ "bool" then Some (match v with VBool _ => "" | _ => must "be a bool" end)
  else if String.eqb typ "float" then
    Some (match v with VFloat64 _ | VInt _ => "" | _ => must "be a float but " +:+ fmt_v v +:+ " is " +:+ type_name v end)
  else if String.eqb typ "stringarray" then
    Some (match v with
          | VList arr =>
              match filter (λ a, isString a = false) arr with
              | [] => ""
              | a :: _ => must "be a string array but contains non-string " +:+ fmt_sharp_v a
              end
          | _ => must "be a string array but " +:+ fmt_v v +:+ " is " +:+ type_name v
          end)
  else if String.eqb typ "map" then Some (match v with VMap _ => "" | _ => must "be a map" end)
  else if String.eqb typ "duration" then
    Some (if is_duration v then "" else shown +:+ " must be a valid duration like '3m30s' or '100ms'")
  else if String.eqb typ "memorysize" then
    Some (match UnmarshalText (match v with VString s => s | _ => fmt_v v end) with
          | Ok _ => ""
          | Err _ => shown +:+ " must be a valid memory size like '1Gb' or '100_000_000'"
          end)
  else if String.eqb typ "hostport" then
    Some (match v with
          | VString "" => ""
          | VString s => match net_SplitHostPort s with Some e => shown +:+ " must be a hostport: " +:+ e | None => "" end
          | _ => must "be a hostport"
          end)
  else if String.eqb typ "url" then
    Some (match v with
          | VString "" => "field " +:+ k +:+ " may not be blank"
          | VString s =>
              match url_Parse s with
              | Err e => shown +:+ " must be a valid URL: " +:+ e
              | Ok (host, scheme) =>
                  if String.eqb host "" then shown +:+ " must be a valid URL with a host"
                  else if negb (String.eqb scheme "http") && negb (String.eqb scheme "https")
                  then shown +:+ " must use an http or https scheme" else ""
              end
          | _ => must "be a URL"
          end)
  else if String.eqb typ "defaulttrue" then
    Some (match v with
          | VBool _ => ""
          | VString s =>
              if existsb (String.eqb (ToLower s)) ["t"; "true"; "f"; "false"] then ""
              else shown +:+ " must be 'true', 'false', 't', or 'f'"
          | _ => shown +:+ " must be a bool or string with value true/false or 'true'/'false'/'t'/'f'"
          end)
  else None.

Definition maskString (s : string) : string :=
  if (String.length s <? 4)%nat then "****" else "****" +:+ str_drop (String.length s - 4) s.

(** ** The patterns of formats *)

Definition is_digit (c : ascii) : bool := let n := N_of_ascii c in ((48 <=? n) && (n <=? 57))%N.
Definition is_lower (c : ascii) : bool := let n := N_of_ascii c in ((97 <=? n) && (n <=? 122))%N.
Definition is_hex (c : ascii) : bool := let n := N_of_ascii c in is_digit c || ((97 <=? n) && (n <=? 102))%N.
Definition is_alnum (c : ascii) : bool := is_digit c || is_letter c.

Definition is_apikey (s : string) : bool :=
  let n := String.length s in
  (n =? 32)%nat && str_forallb is_hex s ||
  ((20 <=? n) && (n <=? 23))%nat && str_forallb is_alnum s ||
  HasPrefix s "hc" && str_forallb is_lower (str_take 3 (str_drop 2 s)) &&
    String.eqb (str_take 1 (str_drop 5 s)) "_" && (n =? 64)%nat && str_forallb (λ c, is_digit c || is_lower c) (str_drop 6 s).

Definition is_version (s : string) : bool :=
  match s with
  | String "v" s =>
      let '(major, s) := span is_digit s in
      match s with
      | String "." s => negb (String.eqb major "") && negb (String.eqb s "") && str_forallb is_digit s
      | _ => false
      end
  | _ => false
  end.

(** ** The validations of one field *)

(** What is checked, and its message; the value, masked when it is a key that is refused.  [None]
    is a panic. *)
Definition check_format k v (arg : value) : option (value * list ValidationResult) :=
  match arg, v with
  | VString "apikeyOrBlank", VString "" => Some (v, [])
  | VString "apikeyOrBlank", VString s | VString "apikey", VString s =>
      if is_apikey s then Some (v, [])
      else let v := VString (maskString s) in
           Some (v, [error ("field " +:+ k +:+ " (" +:+ fmt_v v +:+ ") must be a valid Honeycomb API key")])
  | VString "version", _ =>
      if match v with VString s => is_version s | _ => false end then Some (v, [])
      else Some (v, [error ("field " +:+ k +:+ " (" +:+ fmt_v v +:+ ") must be a valid major.minor version number, like v2.0")])
  | VString "alphanumeric", _ =>
      if match v with VString s => str_forallb is_alnum s | _ => false end then Some (v, [])
      else Some (v, [error ("field " +:+ k +:+ " (" +:+ fmt_v v +:+ ") must be purely alphanumeric")])
  | _, _ => None
  end.

(** A comparison of the value with the bound, both as floats. *)
Definition check_bound v (arg : value) (fails : float64 → float64 → bool) (msg : string) : option (list ValidationResult) :=
  match asFloat v with
  | Err e => Some [error e]
  | Ok fv => (λ fm, if fails fv fm then [error msg] else []) <$> mustFloat arg
  end.

Fixpoint check_elements (name : nat → string) (i : nat) (l : list value) (typ : string) : option (list ValidationResult) :=
  match l with
  | [] => Some []
  | v :: l =>
      e ← validateDatatype (name i) v typ;
      rs ← check_elements name (S i) l typ;
      Some (if String.eqb e "" then rs else error e :: rs)
  end.

Definition check_validation k v (f : Field) (vd : Validation) : option (value * list ValidationResult) :=
  let typ := vd_Type vd in
  let arg := vd_Arg vd in
  let keep rs := Some (v, rs) in
  if String.eqb typ "choice" then
    keep (if match v with VString s => bool_decide (s ∈ fd_Choices f) | _ => false end then []
          else [error ("field " +:+ k +:+ " (" +:+ fmt_v v +:+ ") must be one of [" +:+ str_join " " (fd_Choices f) +:+ "]")])
  else if String.eqb typ "format" then check_format k v arg
  else if String.eqb typ "minimum" then
    rs ← check_bound v arg f64_ltb ("field " +:+ k +:+ " (" +:+ fmt_v v +:+ ") must be at least " +:+ fmt_v arg); keep rs
  else if String.eqb typ "minOrZero" then
    rs ← check_bound v arg (λ fv fm, negb (f64_eqb fv (f64_of_Z 0)) && f64_ltb fv fm)
           ("field " +:+ k +:+ " must be at least " +:+ fmt_v arg +:+ ", or zero"); keep rs
  else if String.eqb typ "maximum" then
    rs ← check_bound v arg (λ fv fm, f64_ltb fm fv) ("field " +:+ k +:+ " (" +:+ fmt_v v +:+ ") must be at most " +:+ fmt_v arg); keep rs
  else if String.eqb typ "notempty" then
    keep (match v with VString "" => [error ("field " +:+ k +:+ " must not be empty")] | _ => [] end)
  else if String.eqb typ "elementType" then
    match v with
    | VList [] | VMap [] => keep []
    | VList l => t ← as_string arg; rs ← check_elements (λ i, k +:+ "[" +:+ format_int (Z.of_nat i) +:+ "]") 0 l t; keep rs
    | VMap l =>
        t ← as_string arg;
        rs ← check_elements (λ i, k +:+ "[" +:+ default "" (l.*1 !! i) +:+ "]") 0 l.*2 t; keep rs
    | _ => keep [error ("field " +:+ k +:+ " must be a map or array")]
    end
  else if String.eqb typ "validChildren" then
    match v with
    | VMap [] => keep []
    | VMap l =>
        children ← GetArgAsStringSlice vd;
        keep ((λ kk, error ("field " +:+ k +:+ " contains unknown key " +:+ kk)) <$> filter (λ kk, kk ∉ children) l.*1)
    | _ => keep []
    end
  else if String.eqb typ "noReservedHeaders" then
    match v with
    | VMap l =>
        keep ((λ kk, error ("field " +:+ k +:+ " contains reserved Honeycomb header " +:+ fmt_sharp_v (VString kk) +:+
                      " which cannot be overridden; headers starting with X-Honeycomb-* or X-Hny-* are reserved"))
                <$> filter (λ kk, IsReserved kk = true) l.*1)
    | _ => keep []
    end
  else if existsb (String.eqb typ) ["required"; "requiredInGroup"; "requiredWith"; "conflictsWith"] then keep []
  else None.

Fixpoint check_validations k v (f : Field) (vds : list Validation) : option (list ValidationResult) :=
  match vds with
  | [] => Some []
  | vd :: vds =>
      x ← check_validation k v f vd;
      rs ← check_validations k x.1 f vds;
      Some (x.2 ++ rs)
  end.

(** ** The whole *)

(** The results of each of a list, or the panic of one. *)
Fixpoint collect {A B} (f : A → option (list B)) (l : list A) : option (list B) :=
  match l with [] => Some [] | x :: l => rs ← f x; rs' ← collect f l; Some (rs ++ rs') end.

Definition unknown (m : Metadata) (what k : string) : option (list ValidationResult) :=
  (λ guesses, [error ("unknown " +:+ what +:+ " " +:+ k +:+ "; did you mean " +:+ str_join " or " guesses +:+ "?")]) <$>
    ClosestNamesTo m k.

Definition check_group m (vers : option string) k : option (list ValidationResult) :=
  match GetGroup m k with
  | None => unknown m "group" k
  | Some group => Some (deprecation_results k (gr_Deprecation group) vers)
  end.

Definition within (prefix : string) (r : ValidationResult) : ValidationResult :=
  mkResult ("Within field " +:+ prefix +:+ ": " +:+ vr_Message r) (vr_Severity r).

(** The elements of an array of objects: each under the field's own name, as a group. *)
Fixpoint check_objects (validate : object → option (list ValidationResult)) k (subname : string) (i : nat) (l : list value)
    : option (list ValidationResult) :=
  match l with
  | [] => Some []
  | a :: l =>
      rs ← validate [(subname, a)];
      rs' ← check_objects validate k subname (S i) l;
      Some ((within (k +:+ "[" +:+ format_int (Z.of_nat i) +:+ "]") <$> rs) ++ rs')
  end.

Definition check_field (validate : object → option (list ValidationResult)) m (vers : option string) (kv : string * value)
    : option (list ValidationResult) :=
  let '(k, v) := kv in
  match GetField m k with
  | None => if bool_decide (is_Some (GetGroup m k)) then Some [] else unknown m "field" k
  | Some field =>
      e ← validateDatatype k v (fd_Type field);
      if negb (String.eqb e "") then Some [error e]
      else
        subresults ←
          (if String.eqb (fd_Type field) "object" then
             match v with VMap sub => (λ rs, within k <$> rs) <$> validate sub | _ => Some [] end
           else if String.eqb (fd_Type field) "objectarray" then
             match v, split_at "." k with
             | VList arr, _ :: subname :: _ => check_objects validate k subname 0 arr
             | VList [], _ => Some []
             | VList _, _ => None
             | _, _ => Some []
             end
           else Some []);
        rs ← check_validations k v field (fd_Validations field);
        Some (deprecation_results k (fd_Deprecation field) vers ++ subresults ++ rs)
  end.

(** The validations about the presence of a field. *)
Definition check_presence m (data : object) (flat : gmap string value) (g : Group) (f : Field) (vd : Validation)
    : option (list ValidationResult) :=
  let has name := bool_decide (is_Some (flat !! (gr_Name g +:+ "." +:+ name))) in
  let typ := vd_Type vd in
  if String.eqb typ "required" then
    Some (if has (fd_Name f) then [] else [error ("missing required field " +:+ gr_Name g +:+ "." +:+ fd_Name f)])
  else if String.eqb typ "requiredInGroup" then
    Some (if bool_decide (gr_Name g ∈ data.*1) && negb (has (fd_Name f))
          then [error ("the group " +:+ gr_Name g +:+ " is missing its required field " +:+ fd_Name f)] else [])
  else if String.eqb typ "requiredWith" then
    other ← as_string (vd_Arg vd);
    if has other && negb (has (fd_Name f)) then
      field ← GetField m (gr_Name g +:+ "." +:+ fd_Name f);
      Some (match fd_Default field with
            | VNil => [error ("the group " +:+ gr_Name g +:+ " includes " +:+ other +:+ ", which also requires " +:+ fd_Name f)]
            | _ => []
            end)
    else Some []
  else if String.eqb typ "conflictsWith" then
    other ← as_string (vd_Arg vd);
    Some (if has other && has (fd_Name f)
          then [error ("the group " +:+ gr_Name g +:+ " includes " +:+ other +:+ ", which conflicts with " +:+ fd_Name f)] else [])
  else Some [].

Fixpoint Validate (fuel : nat) m (vers : option string) (data : object) : option (list ValidationResult) :=
  match fuel with
  | O => None
  | S fuel =>
      groups ← collect (check_group m vers) data.*1;
      let flatdata := flatten data in
      fields ← collect (check_field (Validate fuel m vers) m vers) (map_to_list flatdata);
      presence ← collect (λ g, collect (λ f, collect (check_presence m data flatdata g f) (fd_Validations f)) (gr_Fields g)) (md_Groups m);
      Some (groups ++ fields ++ presence)
  end.

(** ** A rules file *)

Definition rules_version v : list ValidationResult :=
  match v with
  | VInt i => if i =? 2 then [] else [error ("RulesVersion must be 2, but it is " +:+ format_int i)]
  | _ => [error ("RulesVersion must be an int, but " +:+ fmt_v v +:+ " is " +:+ type_name v)]
  end.

Definition rules_samplers v : list ValidationResult :=
  match v with
  | VMap samplers =>
      concat ((λ kv, match kv.2 with
                     | VMap _ => []
                     | v => [error ("Sampler " +:+ kv.1 +:+ " must be a map, but " +:+ fmt_v v +:+ " is " +:+ type_name v)]
                     end) <$> samplers) ++
      (if bool_decide ("__default__" ∈ samplers.*1) then [] else [error "Samplers must include a __default__ sampler"])
  | _ => [error ("Samplers must be a collection of samplers, but " +:+ fmt_v v +:+ " is " +:+ type_name v)]
  end.

Definition rules_top (data : object) : list ValidationResult :=
  concat ((λ kv,
    if String.eqb kv.1 "RulesVersion" then rules_version kv.2
    else if String.eqb kv.1 "Samplers" then rules_samplers kv.2
    else [error ("unknown top-level key " +:+ kv.1)]) <$> data) ++
  (if bool_decide ("RulesVersion" ∈ data.*1) then [] else [error "RulesVersion is required"]) ++
  (if bool_decide ("Samplers" ∈ data.*1) then [] else [error "Samplers is required"]).

Definition lookup_entry (data : object) k : option value := snd <$> head (filter (λ kv, kv.1 = k) data).

Definition ValidateRules (fuel : nat) m (data : object) : option (list ValidationResult) :=
  let top := rules_top data in
  if HasErrors top then Some top
  else match lookup_entry data "Samplers" with
       | Some (VMap samplers) =>
           let named name r := mkResult ("Within sampler " +:+ name +:+ ": " +:+ vr_Message r) (vr_Severity r) in
           let one (kv : string * value) : option (list ValidationResult) := match kv.2 with VMap sub => (λ rs : list ValidationResult, named kv.1 <$> rs) <$> Validate fuel m None sub | _ => None end in
           (λ rs, top ++ rs) <$> collect one samplers
       | _ => None
       end.
End Validate.
