(* ===== verification/ValidateFacts.v ===== *)
(** What validation promises: it accepts a configuration exactly when it conforms to the metadata.

    [conforms] says what the metadata asks for: every group and field is known and supported by the
    version, every value has the type and satisfies the validations of its field, objects within
    objects conform in turn, and the fields that must be there, or must not, are or are not.  The
    theorem says validation decides it, and never panics, for metadata whose types, validations and
    arguments are those the code knows. *)
From Stdlib Require Import SpecFloat Ascii.
From S2P Require Import Prelude GoValue MemorySize Validate.

Section Facts.
Context `{!GoFloat, !GoConfigText}.
Abbreviation object := (list (string * value)).
Implicit Types (m : Metadata) (v : value) (k : string) (rs : list ValidationResult).

(** ** The types *)

Definition known_types : list string :=
  ["object"; "objectarray"; "anyscalar"; "sliceorscalar"; "string"; "int"; "percentage"; "bool"; "float"; "stringarray";
   "map"; "duration"; "memorysize"; "hostport"; "url"; "defaulttrue"].
(** The types whose values are strings. *)
Definition string_types : list string := ["string"; "duration"; "hostport"; "url"].

Definition size_text v : string := match v with VString s => s | _ => fmt_v v end.

Definition has_type (typ : string) v : Prop :=
  match typ with
  | "object" | "map" => ∃ l, v = VMap l
  | "objectarray" => ∃ l, v = VList l
  | "anyscalar" => is_scalar v = true
  | "sliceorscalar" => is_scalar v = true ∨ ∃ l, v = VList l ∧ ∀ a b, a ∈ l → b ∈ l → type_name a = type_name b
  | "string" => ∃ s, v = VString s
  | "int" => ∃ z, v = VInt z
  | "percentage" => ∃ z, v = VInt z ∧ 0 ≤ z ≤ 100
  | "bool" => ∃ b, v = VBool b
  | "float" => (∃ f, v = VFloat64 f) ∨ ∃ z, v = VInt z
  | "stringarray" => ∃ l, v = VList l ∧ Forall (λ a, ∃ s, a = VString s) l
  | "duration" => ∃ s, v = VString s ∧ is_Some (time_ParseDuration s)
  | "memorysize" => v ≠ VNil ∧ ∃ n, UnmarshalText (size_text v) = Ok n
  | "hostport" => ∃ s, v = VString s ∧ (s = "" ∨ net_SplitHostPort s = None)
  | "url" => ∃ s host scheme, v = VString s ∧ s ≠ "" ∧ url_Parse s = Ok (host, scheme) ∧ host ≠ "" ∧ scheme ∈ ["http"; "https"]
  | "defaulttrue" => (∃ b, v = VBool b) ∨ ∃ s, v = VString s ∧ ToLower s ∈ ["t"; "true"; "f"; "false"]
  | _ => False
  end.

Lemma mixed_at_spec first i l : mixed_at first i l = None ↔ Forall (λ a, type_name a = first) l.
Proof.
  revert i. induction l as [|a l IH]; intros i; cbn [mixed_at]; [by split|]. rewrite Forall_cons.
  destruct (String.eqb_spec (type_name a) first); [rewrite IH; naive_solver|naive_solver].
Qed.

Lemma slice_types a l : Forall (λ x, type_name x = type_name a) (a :: l) ↔ ∀ x y, x ∈ a :: l → y ∈ a :: l → type_name x = type_name y.
Proof.
  rewrite Forall_forall. split; [|by intros Hs x Hx; apply Hs; [|left]].
  intros Hf x y Hx Hy. by rewrite (Hf x Hx), (Hf y Hy).
Qed.

Lemma eqb_existsb s l : existsb (String.eqb s) l = true ↔ s ∈ l.
Proof.
  rewrite existsb_exists. split.
  - intros (x & Hx & E). apply String.eqb_eq in E as ->. by apply list_elem_of_In.
  - intros Hs. exists s. split; [by apply list_elem_of_In|apply String.eqb_refl].
Qed.

Lemma strings_only l : filter (λ a, isString a = false) l = [] ↔ Forall (λ a, ∃ s, a = VString s) l.
Proof.
  induction l as [|a l IH]; [done|]. rewrite filter_cons, Forall_cons. destruct a; cbn; by naive_solver.
Qed.

(** A message is never empty; and a type's branch, once chosen. *)
Ltac branch := unfold validateDatatype; cbn -[String.append fmt_v UnmarshalText existsb format_int isString type_name mixed_at filter]; eexists; split; [reflexivity|].
Ltac no_message := split; [done|by intros; naive_solver].

Lemma datatype_list k v typ :
  typ ∈ ["sliceorscalar"; "stringarray"] → v ≠ VNil → ∃ e, validateDatatype k v typ = Some e ∧ (e = "" ↔ has_type typ v).
Proof.
  intros Ht Hv. repeat (apply elem_of_cons in Ht as [->|Ht]); [..|by apply elem_of_nil in Ht]; cbn [has_type].
  - destruct v as [| | | | | | |l| |]; branch; try (split; [by left|done]); try no_message.
    destruct l as [|a [|b l]].
    + split; [|done]. right. exists []. split; [done|]. by intros x y ?%elem_of_nil.
    + split; [|done]. right. exists [a]. split; [done|]. by intros x y ->%list_elem_of_singleton ->%list_elem_of_singleton.
    + destruct (mixed_at (type_name a) 0 (a :: b :: l)) as [[j x]|] eqn:E.
      * split; [done|]. intros [|(l' & [= <-] & Hs)]; [done|]. apply slice_types, (mixed_at_spec _ 0) in Hs. by rewrite Hs in E.
      * split; [|done]. right. exists (a :: b :: l). split; [done|]. by apply slice_types, (mixed_at_spec _ 0).
  - destruct v as [| | | | | | |l| |]; branch; try no_message. pose proof (strings_only l) as Hl.
    destruct (filter _ l) as [|a l'].
    + split; [|done]. exists l. split; [done|]. by apply Hl.
    + split; [done|]. intros (l2 & [= <-] & Hf). by apply Hl in Hf.
Qed.

Lemma datatype_text k v typ :
  typ ∈ ["duration"; "memorysize"; "hostport"; "url"; "defaulttrue"; "percentage"] → v ≠ VNil →
  ∃ e, validateDatatype k v typ = Some e ∧ (e = "" ↔ has_type typ v).
Proof.
  intros Ht Hv. repeat (apply elem_of_cons in Ht as [->|Ht]); [..|by apply elem_of_nil in Ht]; cbn [has_type].
  - destruct v; branch; cbn [is_duration]; try no_message. case_bool_decide; naive_solver.
  - destruct v; try done; branch; cbn [size_text];
      (destruct (UnmarshalText _); [split; [intros _; split; [done|by eexists]|done]|split; [done|by intros [_ [n En]]]]).
  - destruct v as [| | | | |s| | | |]; branch; try no_message. destruct s as [|c s]; [naive_solver|].
    destruct (net_SplitHostPort (String c s)) eqn:E; [|naive_solver]. split; [done|]. intros (s' & [= <-] & [|]); congruence.
  - destruct v as [| | | | |s| | | |]; branch; try no_message. destruct s as [|c s]; [naive_solver|].
    destruct (url_Parse (String c s)) as [[host scheme]|e] eqn:E; [|split; [done|]; intros (s' & h & sc & [= <-] & _ & E2 & _); congruence].
    destruct (String.eqb_spec host "") as [->|Hh]; [split; [done|]; intros (s' & h & sc & [= <-] & _ & E2 & Hh & _); congruence|].
    destruct (String.eqb_spec scheme "http") as [->|]; [|destruct (String.eqb_spec scheme "https") as [->|]]; cbn [negb andb].
    + split; [|done]. exists (String c s), host, "http". split_and!; [done..|left].
    + split; [|done]. exists (String c s), host, "https". split_and!; [done..|right; left].
    + split; [done|]. intros (s' & h & sc & [= <-] & _ & E2 & _ & Hs). rewrite E in E2. injection E2 as <- <-.
      by apply elem_of_cons in Hs as [|[|?%elem_of_nil]%elem_of_cons].
  - destruct v as [| | | | |s| | | |]; branch; try no_message; [naive_solver|].
    destruct (existsb _ _) eqn:E.
    + apply eqb_existsb in E. split; [|done]. right. by exists s.
    + split; [done|]. intros [[b Hb]|(s' & [= <-] & Hs)]; [done|]. apply eqb_existsb in Hs. congruence.
  - destruct v as [|z| | | | | | | |]; branch; try no_message.
    destruct (Z.ltb_spec z 0), (Z.ltb_spec 100 z); cbn [orb andb]; (split; [try done|try done]); try (intros (z' & [= <-] & Hz); lia).
    exists z. split; [done|lia].
Qed.

(** The message of a type is empty exactly for the values of the type. *)
Lemma validateDatatype_spec k v typ :
  typ ∈ known_types → ∃ e, validateDatatype k v typ = Some e ∧ (e = "" ↔ has_type typ v).
Proof.
  intros Ht. unfold known_types in Ht. assert (Hd : v = VNil ∨ v ≠ VNil) by (destruct v; by (left + right)). destruct Hd as [->|Hv].
  { eexists. split; [reflexivity|]. split; [done|].
    repeat (apply elem_of_cons in Ht as [->|Ht]; [cbn; naive_solver|]). by apply elem_of_nil in Ht. }
  repeat (apply elem_of_cons in Ht as [->|Ht];
    [first [apply datatype_list; [set_solver|done]|apply datatype_text; [set_solver|done]|destruct v; branch; cbn; naive_solver]|]).
  by apply elem_of_nil in Ht.
Qed.

(** ** Results *)

Lemma HasErrors_app rs1 rs2 : HasErrors (rs1 ++ rs2) = false ↔ HasErrors rs1 = false ∧ HasErrors rs2 = false.
Proof. unfold HasErrors. rewrite existsb_app. apply orb_false_iff. Qed.

(** A result reworded is as severe. *)
Lemma HasErrors_reworded (say : ValidationResult → ValidationResult) rs :
  (∀ r, vr_Severity (say r) = vr_Severity r) → HasErrors (say <$> rs) = HasErrors rs.
Proof.
  intros Hs. unfold HasErrors in *. induction rs as [|r rs IH]; [done|]. rewrite fmap_cons. cbn [existsb].
  unfold IsError at 1 3. by rewrite IH, Hs.
Qed.
Lemma HasErrors_within p rs : HasErrors (within p <$> rs) = HasErrors rs.
Proof. by apply HasErrors_reworded. Qed.

Lemma HasErrors_errors {A} (f : A → string) l : HasErrors ((λ a, error (f a)) <$> l) = false ↔ l = [].
Proof. by destruct l. Qed.

(** A check that does not panic, and finds no error exactly when [P]. *)
Definition decides (r : option (list ValidationResult)) (P : Prop) : Prop :=
  ∃ rs, r = Some rs ∧ (HasErrors rs = false ↔ P).

Lemma decides_none (P : Prop) : P → decides (Some []) P.
Proof. intros HP. by exists []. Qed.
Lemma decides_error (P : Prop) msg : ¬ P → decides (Some [error msg]) P.
Proof. intros HP. exists [error msg]. split; [done|]. split; [done|]. by intros. Qed.
Lemma decides_bool (b : bool) (P : Prop) msg : (b = true ↔ P) → decides (Some (if b then [] else [error msg])) P.
Proof. intros HP. destruct b; [by apply decides_none, HP|]. apply decides_error. intros HP'. by apply HP in HP'. Qed.
Lemma decides_not (b : bool) (P : Prop) msg : (b = false ↔ P) → decides (Some (if b then [error msg] else [])) P.
Proof. intros HP. destruct b; [|by apply decides_none, HP]. apply decides_error. intros HP'. by apply HP in HP'. Qed.
Lemma decides_iff r (P Q : Prop) : (P ↔ Q) → decides r P → decides r Q.
Proof. intros HPQ (rs & E & Hrs). exists rs. split; [done|]. by rewrite Hrs. Qed.

Lemma collect_decides {A} (f : A → option (list ValidationResult)) (P : A → Prop) l :
  (∀ x, x ∈ l → decides (f x) (P x)) → decides (collect f l) (Forall P l).
Proof.
  induction l as [|x l IH]; intros Hf; [by apply decides_none|].
  destruct (Hf x) as (rs1 & E1 & H1'); [left|]. destruct IH as (rs2 & E2 & H2'); [intros y Hy; apply Hf; by right|].
  exists (rs1 ++ rs2). split; [cbn; by rewrite E1, E2|]. by rewrite HasErrors_app, H1', H2', Forall_cons.
Qed.

(** ** The validations of a field *)

Definition format_ok (p s : string) : Prop :=
  match p with
  | "apikeyOrBlank" => s = "" ∨ is_apikey s = true
  | "apikey" => is_apikey s = true
  | "version" => is_version s = true
  | "alphanumeric" => str_forallb is_alnum s = true
  | _ => False
  end.
Definition formats : list string := ["apikeyOrBlank"; "apikey"; "version"; "alphanumeric"].

(** The value, compared with the bound, passes. *)
Definition bounded v (arg : value) (fails : float64 → float64 → bool) : Prop :=
  ∃ fv fm, asFloat v = Ok fv ∧ asFloat arg = Ok fm ∧ fails fv fm = false.

Definition elements v : option (list value) := match v with VList l => Some l | VMap l => Some l.*2 | _ => None end.
Definition keys v : list string := match v with VMap l => l.*1 | _ => [] end.

Definition satisfies (f : Field) v (vd : Validation) : Prop :=
  match vd_Type vd with
  | "choice" => ∃ s, v = VString s ∧ s ∈ fd_Choices f
  | "format" => ∃ p s, vd_Arg vd = VString p ∧ v = VString s ∧ format_ok p s
  | "minimum" => bounded v (vd_Arg vd) f64_ltb
  | "minOrZero" => bounded v (vd_Arg vd) (λ fv fm, negb (f64_eqb fv (f64_of_Z 0)) && f64_ltb fv fm)
  | "maximum" => bounded v (vd_Arg vd) (λ fv fm, f64_ltb fm fv)
  | "notempty" => v ≠ VString ""
  | "elementType" => ∃ l t, elements v = Some l ∧ vd_Arg vd = VString t ∧ Forall (has_type t) l
  | "validChildren" => ∀ children, GetArgAsStringSlice vd = Some children → keys v ⊆ children
  | "noReservedHeaders" => Forall (λ k, IsReserved k = false) (keys v)
  | _ => True
  end.

Definition presence_validations : list string := ["required"; "requiredInGroup"; "requiredWith"; "conflictsWith"].

(** What the metadata must be for a validation not to panic. *)
Definition wf_validation m (g : Group) (f : Field) (vd : Validation) : Prop :=
  match vd_Type vd with
  | "choice" | "notempty" | "noReservedHeaders" | "required" | "requiredInGroup" => True
  | "format" => ∃ p, vd_Arg vd = VString p ∧ p ∈ formats ∧ fd_Type f ∈ string_types
  | "minimum" | "minOrZero" | "maximum" => ∃ fm, asFloat (vd_Arg vd) = Ok fm
  | "elementType" => ∃ t, vd_Arg vd = VString t ∧ t ∈ known_types
  | "validChildren" => is_Some (GetArgAsStringSlice vd)
  | "requiredWith" => (∃ s, vd_Arg vd = VString s) ∧ is_Some (GetField m (gr_Name g +:+ "." +:+ fd_Name f))
  | "conflictsWith" => ∃ s, vd_Arg vd = VString s
  | _ => False
  end.

Lemma check_elements_decides name i l typ : typ ∈ known_types → decides (check_elements name i l typ) (Forall (has_type typ) l).
Proof.
  intros Ht. revert i. induction l as [|v l IH]; intros i; [by apply decides_none|]. cbn [check_elements].
  destruct (validateDatatype_spec (name i) v typ Ht) as (e & -> & He). destruct (IH (S i)) as (rs & -> & Hrs). cbn.
  eexists. split; [reflexivity|]. rewrite Forall_cons, <-He, <-Hrs. destruct (String.eqb_spec e "") as [->|Hne]; [naive_solver|].
  split; [done|]. by intros [? _].
Qed.

Lemma check_bound_decides v arg fails msg :
  (∃ fm, asFloat arg = Ok fm) → decides (check_bound v arg fails msg) (bounded v arg fails).
Proof.
  intros [fm Hfm]. unfold check_bound, bounded, mustFloat. rewrite Hfm. destruct (asFloat v) as [fv|e].
  - cbn. destruct (fails fv fm) eqn:E.
    + apply decides_error. intros (x & y & [= <-] & [= <-] & Ef). congruence.
    + apply decides_none. by exists fv, fm.
  - apply decides_error. by intros (x & y & ? & _).
Qed.

(** A value of a type whose values are strings. *)
Definition stringy (f : Field) v : Prop := fd_Type f ∈ string_types → ∃ s, v = VString s.

(** A validation that does not panic: no error exactly when the value satisfies it, and then the
    value is as it was; it is masked only after an error, and stays a string. *)
Definition validates (f : Field) v (vd : Validation) (r : option (value * list ValidationResult)) : Prop :=
  ∃ v' rs, r = Some (v', rs) ∧ (HasErrors rs = false ↔ satisfies f v vd) ∧ (HasErrors rs = false → v' = v) ∧ (stringy f v → stringy f v').

Lemma validates_keep f v vd r : decides r (satisfies f v vd) → validates f v vd (rs ← r; Some (v, rs)).
Proof. intros (rs & -> & Hrs). by exists v, rs. Qed.

Lemma validates_if f v vd (b : bool) v2 msg :
  (b = true ↔ satisfies f v vd) → (stringy f v → stringy f v2) →
  validates f v vd (if b then Some (v, []) else Some (v2, [error msg])).
Proof.
  intros Hb Hv. destruct b; [exists v, []|exists v2, [error msg]]; split_and!; try done; [naive_solver|].
  split; [done|]. intros Hs. by apply Hb in Hs.
Qed.

Lemma format_validates k f v vd m g :
  vd_Type vd = "format" → wf_validation m g f vd → stringy f v → validates f v vd (check_format k v (vd_Arg vd)).
Proof.
  intros Ht Hwf Hv. unfold wf_validation in Hwf. rewrite Ht in Hwf. destruct Hwf as (p & Ha & Hp & Hf).
  destruct (Hv Hf) as [s ->]. clear Hv.
  assert (Hs : format_ok p s ↔ satisfies f (VString s) vd).
  { unfold satisfies. rewrite Ht, Ha. split; [by exists p, s|]. by intros (? & ? & [= <-] & [= <-] & ?). }
  rewrite Ha. unfold formats in Hp.
  repeat (apply elem_of_cons in Hp as [->|Hp]); [..|by apply elem_of_nil in Hp]; cbn [format_ok] in Hs.
  - destruct s as [|c s]; [by apply (validates_if _ _ _ true (VString "") ""); [naive_solver|]|].
    apply (validates_if _ _ _ (is_apikey (String c s))); [naive_solver|by intros _ _; eexists].
  - apply (validates_if _ _ _ (is_apikey s)); [naive_solver|by intros _ _; eexists].
  - apply (validates_if _ _ _ (is_version s)); [naive_solver|done].
  - apply (validates_if _ _ _ (str_forallb is_alnum s)); [naive_solver|done].
Qed.

Lemma reserved_spec l : filter (λ kk, IsReserved kk = true) l = [] ↔ Forall (λ kk, IsReserved kk = false) l.
Proof.
  induction l as [|k l IH]; [done|]. rewrite filter_cons, Forall_cons. destruct (IsReserved k); cbn; [|by rewrite IH; naive_solver].
  split; [done|]. by intros [? _].
Qed.

Lemma unknown_spec (children l : list string) : filter (λ kk, kk ∉ children) l = [] ↔ l ⊆ children.
Proof.
  induction l as [|k l IH]; [split; [by intros _ x ?%elem_of_nil|done]|].
  rewrite filter_cons. destruct (decide (k ∉ children)) as [Hk|Hk%dec_stable].
  - split; [done|]. intros Hs. destruct Hk. apply Hs. left.
  - rewrite IH. split; [|intros Hs x Hx; apply Hs; by right]. intros Hs x [->|Hx]%elem_of_cons; [done|by apply Hs].
Qed.

Lemma elements_validates k f v vd m g :
  vd_Type vd = "elementType" → wf_validation m g f vd → validates f v vd (check_validation k v f vd).
Proof.
  intros Ht Hwf. unfold wf_validation in Hwf. rewrite Ht in Hwf. destruct Hwf as (t & Ha & Hk).
  assert (Hs : satisfies f v vd ↔ ∃ l, elements v = Some l ∧ Forall (has_type t) l).
  { unfold satisfies. rewrite Ht, Ha. split; [by intros (l & t' & ? & [= <-] & ?); eauto|by intros (l & ? & ?); exists l, t]. }
  assert (Hd : ∀ l name, elements v = Some l → decides (check_elements name 0 l t) (satisfies f v vd)).
  { intros l name Hl. eapply decides_iff; [|by apply check_elements_decides]. rewrite Hs, Hl. naive_solver. }
  assert (Hn : elements v = Some [] → validates f v vd (Some (v, []))).
  { intros Hl. exists v, []. split_and!; try done. rewrite Hs. split; [|done]. intros _. by exists []. }
  assert (Hx : ∀ msg, elements v = None → validates f v vd (Some (v, [error msg]))).
  { intros msg Hl. exists v, [error msg]. split_and!; try done. rewrite Hs, Hl. split; [done|]. by intros (? & ? & _). }
  unfold check_validation. rewrite Ht, Ha. cbn -[check_elements String.append].
  destruct v as [| | | | | | |[|a l]|[|a l]|]; try (by apply Hx); try (by apply Hn); by apply validates_keep, Hd.
Qed.
(** The unfolding of a validation whose type is known. *)
Ltac by_type := unfold wf_validation, satisfies, check_validation;
  cbn -[String.append fmt_v fmt_sharp_v check_bound f64_ltb f64_eqb f64_of_Z GetArgAsStringSlice IsReserved filter].

Lemma wf_validation_type m g f vd : wf_validation m g f vd →
  vd_Type vd ∈ ["choice"; "notempty"; "noReservedHeaders"; "required"; "requiredInGroup"; "format"; "minimum"; "minOrZero"; "maximum";
    "elementType"; "validChildren"; "requiredWith"; "conflictsWith"].
Proof.
  unfold wf_validation. intros Hwf. repeat (case_match; try done); subst; set_solver.
Qed.

Lemma validates_some f v vd rs : decides (Some rs) (satisfies f v vd) → validates f v vd (Some (v, rs)).
Proof. intros Hd. by apply (validates_keep _ _ _ (Some rs)). Qed.

Lemma children_validates k f v arg m g :
  let vd := mkValidation "validChildren" arg in wf_validation m g f vd → validates f v vd (check_validation k v f vd).
Proof.
  intros vd [children Hc]. assert (Hs : satisfies f v vd ↔ keys v ⊆ children).
  { unfold satisfies. cbn. rewrite Hc. naive_solver. }
  destruct v as [| | | | | | | |[|kv l]|]; try (apply validates_some, decides_none, Hs; by intros ? ?%elem_of_nil).
  subst vd. unfold check_validation. cbn -[GetArgAsStringSlice String.append filter].
  rewrite Hc. apply validates_some. eexists. split; [reflexivity|]. by rewrite HasErrors_errors, unknown_spec, Hs.
Qed.

Lemma check_validation_spec k f v vd m g :
  wf_validation m g f vd → stringy f v → validates f v vd (check_validation k v f vd).
Proof.
  intros Hwf Hv. pose proof (wf_validation_type _ _ _ _ Hwf) as Ht. destruct vd as [typ arg]. cbn [vd_Type] in Ht.
  repeat (apply elem_of_cons in Ht as [->|Ht]); [..|by apply elem_of_nil in Ht].
  - apply validates_some. by_type. apply decides_bool. destruct v; try (split; [done|by intros (? & ? & _)]).
    rewrite bool_decide_eq_true. naive_solver.
  - apply validates_some. by_type. destruct v as [| | | | |[|]| | | |]; by (apply decides_none + apply decides_error; try done; naive_solver).
  - destruct v as [| | | | | | | |l|]; try by apply validates_some, decides_none, Forall_nil.
    apply validates_some. by_type. eexists. split; [reflexivity|]. by rewrite HasErrors_errors, reserved_spec.
  - by apply validates_some, decides_none.
  - by apply validates_some, decides_none.
  - by eapply format_validates.
  - apply validates_keep, check_bound_decides, Hwf.
  - apply validates_keep, check_bound_decides, Hwf.
  - apply validates_keep, check_bound_decides, Hwf.
  - by eapply elements_validates.
  - by eapply children_validates.
  - by apply validates_some, decides_none.
  - by apply validates_some, decides_none.
Qed.

Lemma check_validations_decides k f v vds m g :
  Forall (wf_validation m g f) vds → stringy f v → decides (check_validations k v f vds) (Forall (satisfies f v) vds).
Proof.
  intros Hwf. revert v. induction Hwf as [|vd vds Hvd _ IH]; intros v Hv; [by apply decides_none|]. cbn [check_validations].
  destruct (check_validation_spec k f v vd m g Hvd Hv) as (v' & rs & -> & Hrs & Hsame & Hstr).
  destruct (IH v' (Hstr Hv)) as (rs' & E & Hrs'). cbn. rewrite E. cbn.
  eexists. split; [reflexivity|]. rewrite HasErrors_app, Forall_cons, <-Hrs.
  split; intros [He H']; (split; [done|]); rewrite (Hsame He) in *; tauto.
Qed.

(** ** Groups, fields and versions *)

(** A version supports what is not yet removed in it. *)
Definition supported (vers : option string) (d : Deprecation) : Prop :=
  match vers with
  | Some current => dp_LastVersion d = "" ∨ ∀ c, compareVersions current (dp_LastVersion d) = Some c → c ≤ 0
  | None => True
  end.

Lemma deprecation_spec path d vers : HasErrors (deprecation_results path d vers) = false ↔ supported vers d.
Proof.
  unfold deprecation_results.
  assert (Hw : ∀ msg, HasErrors (if vr_isEmpty (mkResult msg Warning) then [] else [mkResult msg Warning]) = false) by (intros msg; by destruct (vr_isEmpty _)).
  unfold checkForDeprecation, supported. destruct vers as [current|]; [|by rewrite Hw].
  destruct (String.eqb_spec (dp_LastVersion d) "") as [->|Hl]; cbn [negb].
  { rewrite Hw. split; [by left|done]. }
  unfold isVersionDeprecated. destruct (compareVersions current (dp_LastVersion d)) as [c|]; [|rewrite Hw; naive_solver].
  destruct (Z.ltb_spec c 1).
  - rewrite Hw. split; [|done]. right. intros c' [= <-]. lia.
  - rewrite (proj2 (Z.leb_le 0 c)) by lia. split; [|by intros [|Hc]; [done|]; specialize (Hc _ eq_refl); lia].
    by destruct (String.eqb (dp_DeprecationText d) "") eqn:Em; unfold vr_isEmpty, error; cbn [vr_Message]; [|rewrite Em].
Qed.

Definition group_ok m (vers : option string) k : Prop := ∃ g, GetGroup m k = Some g ∧ supported vers (gr_Deprecation g).

Lemma unknown_some m what k : md_Groups m ≠ [] → ∃ msg, unknown m what k = Some [error msg].
Proof.
  intros Hg. unfold unknown, ClosestNamesTo. set (words := concat _). set (d := default _ _).
  destruct (merge_sort lev_le _) as [|w ws] eqn:E; [|by eexists].
  apply (f_equal length) in E. rewrite merge_sort_Permutation, length_fmap in E.
  subst words. destruct (md_Groups m) as [|g gs]; [done|]. cbn in E. lia.
Qed.

Lemma check_group_decides m vers k : md_Groups m ≠ [] → decides (check_group m vers k) (group_ok m vers k).
Proof.
  intros Hg. unfold check_group, group_ok. destruct (GetGroup m k) as [g|].
  - eexists. split; [reflexivity|]. rewrite deprecation_spec. naive_solver.
  - destruct (unknown_some m "group" k Hg) as [msg ->]. apply decides_error. by intros (g & ? & _).
Qed.

(** The objects within a value: itself, or its elements, each under the field's own name as a group. *)
Definition subobjects (f : Field) k v : list object :=
  if String.eqb (fd_Type f) "object" then match v with VMap sub => [sub] | _ => [] end
  else if String.eqb (fd_Type f) "objectarray" then
    match v, split_at "." k with VList arr, _ :: subname :: _ => (λ a, [(subname, a)]) <$> arr | _, _ => [] end
  else [].

(** What the metadata asks of one entry of the flattened data, objects within it aside. *)
Definition field_ok m (vers : option string) k v : Prop :=
  match GetField m k with
  | Some f => has_type (fd_Type f) v ∧ supported vers (fd_Deprecation f) ∧ Forall (satisfies f v) (fd_Validations f)
  | None => is_Some (GetGroup m k)
  end.
Definition within_field m k v : list object := match GetField m k with Some f => subobjects f k v | None => [] end.

(** What it asks of the fields that are there, and are not. *)
Definition present m (data : object) (g : Group) (f : Field) (vd : Validation) : Prop :=
  let has name := is_Some (flatten data !! (gr_Name g +:+ "." +:+ name)) in
  match vd_Type vd with
  | "required" => has (fd_Name f)
  | "requiredInGroup" => gr_Name g ∈ data.*1 → has (fd_Name f)
  | "requiredWith" => ∀ other, vd_Arg vd = VString other → has other →
      has (fd_Name f) ∨ ∃ f', GetField m (gr_Name g +:+ "." +:+ fd_Name f) = Some f' ∧ fd_Default f' ≠ VNil
  | "conflictsWith" => ∀ other, vd_Arg vd = VString other → has other → ¬ has (fd_Name f)
  | _ => True
  end.

Inductive conforms m (vers : option string) : object → Prop :=
| Conforms data :
    Forall (group_ok m vers) data.*1 →
    (∀ k v, flatten data !! k = Some v → field_ok m vers k v) →
    (∀ k v sub, flatten data !! k = Some v → sub ∈ within_field m k v → conforms m vers sub) →
    (∀ g f vd, g ∈ md_Groups m → f ∈ gr_Fields g → vd ∈ fd_Validations f → present m data g f vd) →
    conforms m vers data.

(** The metadata the code knows. *)
Definition wf_metadata m : Prop :=
  md_Groups m ≠ [] ∧
  ∀ g f, g ∈ md_Groups m → f ∈ gr_Fields g → fd_Type f ∈ known_types ∧ Forall (wf_validation m g f) (fd_Validations f).

(** The nesting of a value, and of the contents of a file. *)
Fixpoint vheight v : nat :=
  match v with
  | VList l => S (foldr (λ a n, vheight a `max` n)%nat O l)
  | VMap l => S (foldr (λ kv n, vheight kv.2 `max` n)%nat O l)
  | _ => O
  end.
Definition height (data : object) : nat := vheight (VMap data).

Lemma vheight_list a l : a ∈ l → (vheight a < vheight (VList l))%nat.
Proof. intros Ha. cbn [vheight]. induction l as [|b l IH]; [by apply elem_of_nil in Ha|]. apply elem_of_cons in Ha as [->|Ha]; cbn [foldr]; [lia|]. apply IH in Ha. lia. Qed.

Lemma height_entry k v (data : object) : (k, v) ∈ data → (vheight v < height data)%nat.
Proof.
  unfold height. intros Ha. cbn [vheight]. induction data as [|b l IH]; [by apply elem_of_nil in Ha|].
  apply elem_of_cons in Ha as [<-|Ha]; cbn [foldr snd]; [lia|]. apply IH in Ha. lia.
Qed.

Lemma flatten_one_in data r k v : foldl (λ (r : gmap string value) kv, <[kv.1 := kv.2]> r) r data !! k = Some v → r !! k = Some v ∨ (k, v) ∈ data.
Proof.
  revert r. induction data as [|[k' v'] data IH]; intros r Hk; [by left|].
  destruct (IH _ Hk) as [Hl|Hl]; [|by right; right]. cbn in Hl. apply lookup_insert_Some in Hl as [[-> ->]|[_ Hl]]; [by right; left|by left].
Qed.

(** What is in the flattened data comes from it, or from one level down. *)
Definition comes_from (data : object) k v : Prop := (k, v) ∈ data ∨ ∃ k1 l k2, (k1, VMap l) ∈ data ∧ (k2, v) ∈ l.

Lemma flatten_inner k1 (l : list (string * value)) r k v :
  foldl (λ (r : gmap string value) kkvv, <[(k1 +:+ "." +:+ kkvv.1) := kkvv.2]> r) r l !! k = Some v → r !! k = Some v ∨ ∃ k2, (k2, v) ∈ l.
Proof.
  revert r. induction l as [|[k' v'] l IH]; intros r Hk; [by left|].
  destruct (IH _ Hk) as [Hl|[k2 Hl]]; [|right; exists k2; by right].
  cbn in Hl. apply lookup_insert_Some in Hl as [[_ ->]|[_ Hl]]; [right; exists k'; by left|by left].
Qed.

Lemma flatten_in data k v : flatten data !! k = Some v → comes_from data k v.
Proof.
  unfold flatten. assert (Hg : ∀ r : gmap string value, foldl (λ r kv, match kv.2 with
    | VMap val => foldl (λ r kkvv, <[(kv.1 +:+ "." +:+ kkvv.1) := kkvv.2]> r) r (map_to_list (flatten_one val))
    | v => <[kv.1 := v]> r end) r data !! k = Some v → r !! k = Some v ∨ comes_from data k v).
  { induction data as [|[k1 v1] data IH]; intros r Hk; [by left|].
    destruct (IH _ Hk) as [Hl|[Hl|(k2 & l & k3 & Hl & Hv)]]; [|by right; left; right|right; right; exists k2, l, k3; split; [by right|done]].
    assert (Hi : r !! k = Some v ∨ (k, v) = (k1, v1) ∨ ∃ l k2, v1 = VMap l ∧ (k2, v) ∈ l).
    { destruct v1; cbn in Hl; try (apply lookup_insert_Some in Hl as [[-> ->]|[_ Hl]]; [by right; left|by left]).
      apply flatten_inner in Hl as [Hl|[k2 Hl]]; [by left|]. apply elem_of_map_to_list, flatten_one_in in Hl as [Hl|Hl]; [done|].
      right; right. by eexists _, k2. }
    destruct Hi as [Hi|[Hi|(l & k2 & -> & Hi)]]; [by left|right; left; rewrite Hi; left|right; right]. exists k1, l, k2. split; [left|done]. }
  intros Hk. by destruct (Hg ∅ Hk) as [?|?].
Qed.

Lemma GetField_in m k f : GetField m k = Some f → ∃ g, g ∈ md_Groups m ∧ f ∈ gr_Fields g ∧ split_at "." k = [gr_Name g; fd_Name f].
Proof.
  unfold GetField. destruct (split_at "." k) as [|group [|field []]]; try done. intros Hf.
  apply head_Some_elem_of, list_elem_of_omap in Hf as (g & Hg & Hf). exists g. split; [done|].
  destruct (String.eqb_spec (gr_Name g) group) as [->|]; [|done].
  apply head_Some_elem_of, list_elem_of_filter in Hf as [-> Hf]. done.
Qed.

Lemma within_height m data k v sub : flatten data !! k = Some v → sub ∈ within_field m k v → (height sub < height data)%nat.
Proof.
  intros Hk Hs. assert (Hv : (vheight v < height data)%nat).
  { apply flatten_in in Hk as [Hk|(k1 & l & k2 & Hk & Hl)]; [by eapply height_entry|].
    apply height_entry in Hk. apply height_entry in Hl. unfold height in Hl. lia. }
  unfold within_field in Hs. destruct (GetField m k) as [f|]; [|by apply elem_of_nil in Hs]. unfold subobjects in Hs.
  destruct (String.eqb (fd_Type f) "object"); [|destruct (String.eqb (fd_Type f) "objectarray"); [|by apply elem_of_nil in Hs]].
  - destruct v as [| | | | | | | |l|]; try by apply elem_of_nil in Hs. apply list_elem_of_singleton in Hs as ->. done.
  - destruct v as [| | | | | | |arr| |]; try by apply elem_of_nil in Hs.
    destruct (split_at "." k) as [|? [|subname ?]]; try by apply elem_of_nil in Hs.
    apply list_elem_of_fmap in Hs as (a & -> & Ha). apply vheight_list in Ha.
    assert (height [(subname, a)] = S (vheight a)) by (unfold height; cbn; lia). lia.
Qed.

(** ** The whole *)

Section Step.
Context (m : Metadata) (vers : option string) (Hm : wf_metadata m).

Lemma string_type_value k v f : has_type (fd_Type f) v → stringy f v.
Proof.
  unfold stringy, string_types. intros Ht Hs.
  repeat (apply elem_of_cons in Hs as [Hs|Hs]; [rewrite Hs in Ht; cbn in Ht; naive_solver|]). by apply elem_of_nil in Hs.
Qed.

Lemma check_objects_decides validate (P : object → Prop) k subname i l :
  (∀ a, a ∈ l → decides (validate [(subname, a)]) (P [(subname, a)])) →
  decides (check_objects validate k subname i l) (∀ sub, sub ∈ (λ a, [(subname, a)]) <$> l → P sub).
Proof.
  revert i. induction l as [|a l IH]; intros i Hl; [apply decides_none; by intros ? ?%elem_of_nil|]. cbn [check_objects].
  destruct (Hl a) as (rs1 & -> & Hrs1); [left|]. destruct (IH (S i)) as (rs2 & -> & Hrs2); [intros b Hb; apply Hl; by right|].
  cbn. eexists. split; [reflexivity|]. rewrite HasErrors_app, HasErrors_within, Hrs1, Hrs2. split.
  - intros [Ha Hs] sub [->|Hsub]%elem_of_cons; [done|by apply Hs].
  - intros Hs. split; [apply Hs; left|]. intros sub Hsub. apply Hs. by right.
Qed.

Lemma subresults_decides validate (P : object → Prop) k v f :
  GetField m k = Some f → has_type (fd_Type f) v →
  (∀ sub, sub ∈ within_field m k v → decides (validate sub) (P sub)) →
  decides (if String.eqb (fd_Type f) "object" then
             match v with VMap sub => (λ rs, within k <$> rs) <$> validate sub | _ => Some [] end
           else if String.eqb (fd_Type f) "objectarray" then
             match v, split_at "." k with
             | VList arr, _ :: subname :: _ => check_objects validate k subname 0 arr
             | VList [], _ => Some []
             | VList _, _ => None
             | _, _ => Some []
             end
           else Some []) (∀ sub, sub ∈ within_field m k v → P sub).
Proof.
  intros Hf Ht. unfold within_field, subobjects. rewrite Hf. destruct (GetField_in _ _ _ Hf) as (g & _ & _ & Hk).
  destruct (String.eqb_spec (fd_Type f) "object") as [E|_]; [|destruct (String.eqb_spec (fd_Type f) "objectarray") as [E|_]].
  - rewrite E in Ht. destruct Ht as [sub ->]. intros Hs. destruct (Hs sub) as (rs & -> & Hrs); [left|].
    eexists. split; [reflexivity|]. rewrite HasErrors_within, Hrs. split; [|intros HP; apply HP; left].
    by intros HP ? ->%list_elem_of_singleton.
  - rewrite E in Ht. destruct Ht as [arr ->]. rewrite Hk. intros Hs.
    destruct (check_objects_decides validate P k (fd_Name f) 0 arr) as (rs & E' & Hrs); [intros a Ha; apply Hs, list_elem_of_fmap; by exists a|].
    exists rs. split; [by destruct arr|done].
  - intros _. apply decides_none. by intros ? ?%elem_of_nil.
Qed.

Lemma check_field_decides validate (P : object → Prop) k v :
  (∀ sub, sub ∈ within_field m k v → decides (validate sub) (P sub)) →
  decides (check_field validate m vers (k, v)) (field_ok m vers k v ∧ ∀ sub, sub ∈ within_field m k v → P sub).
Proof.
  destruct Hm as [Hg Hw]. intros Hs. unfold check_field, field_ok. destruct (GetField m k) as [f|] eqn:Hf.
  - destruct (GetField_in _ _ _ Hf) as (g & Hgin & Hfin & _). destruct (Hw g f Hgin Hfin) as [Hkt Hvds].
    destruct (validateDatatype_spec k v _ Hkt) as (e & -> & He). cbn.
    destruct (String.eqb_spec e "") as [->|Hne]; cbn [negb]; [|apply decides_error; tauto].
    assert (Ht : has_type (fd_Type f) v) by by apply He.
    destruct (subresults_decides validate P k v f Hf Ht Hs) as (rs1 & -> & Hrs1). cbn.
    destruct (check_validations_decides k f v _ m g Hvds) as (rs2 & -> & Hrs2); [by eapply string_type_value|]. cbn.
    eexists. split; [reflexivity|]. rewrite !HasErrors_app, deprecation_spec, Hrs1, Hrs2. tauto.
  - assert (Hn : ∀ sub, sub ∈ within_field m k v → P sub) by (unfold within_field; rewrite Hf; by intros ? ?%elem_of_nil).
    case_bool_decide; [by apply decides_none|].
    destruct (unknown_some m "field" k Hg) as [msg ->]. apply decides_error. tauto.
Qed.

Lemma check_presence_decides data g f vd :
  wf_validation m g f vd → decides (check_presence m data (flatten data) g f vd) (present m data g f vd).
Proof.
  intros Hwf. pose proof (wf_validation_type _ _ _ _ Hwf) as Ht. destruct vd as [typ arg]. cbn [vd_Type] in Ht.
  unfold check_presence, present. set (has := λ name, is_Some (flatten data !! (gr_Name g +:+ "." +:+ name))).
  repeat (apply elem_of_cons in Ht as [->|Ht]); [..|by apply elem_of_nil in Ht]; try by apply decides_none.
  - cbn -[flatten String.append]. apply decides_bool, bool_decide_eq_true.
  - cbn -[flatten String.append]. apply decides_not. rewrite andb_false_iff, negb_false_iff, bool_decide_eq_true, bool_decide_eq_false.
    destruct (decide (gr_Name g ∈ data.*1)); tauto.
  - destruct Hwf as [[other Ho] [f' Hf']]. cbn in Ho. subst arg. cbn -[flatten String.append]. fold (has other) (has (fd_Name f)).
    rewrite Hf'. destruct (bool_decide_reflect (has other)) as [Hh|Hh], (bool_decide_reflect (has (fd_Name f))) as [Hn|Hn]; cbn [andb negb].
    + apply decides_none. by left.
    + cbn. destruct (fd_Default f') eqn:Hd; try (apply decides_none; intros ? _ _; right; exists f'; by rewrite Hd).
      apply decides_error. intros Hx. destruct (Hx other eq_refl Hh) as [?|(f2 & [= <-] & Hne)]; [done|]. by rewrite Hd in Hne.
    + apply decides_none. by intros ? [= <-].
    + apply decides_none. by intros ? [= <-].
  - destruct Hwf as [other Ho]. cbn in Ho. subst arg. cbn -[flatten String.append]. apply decides_not.
    rewrite andb_false_iff, !bool_decide_eq_false. fold (has other) (has (fd_Name f)). split.
    + intros Hx o [= <-] Ho. destruct Hx; [done|done].
    + intros Hx. destruct (decide (has other)) as [Ho|]; [right; by apply (Hx other)|by left].
Qed.

Lemma all_present_decides data :
  decides (collect (λ g, collect (λ f, collect (check_presence m data (flatten data) g f) (fd_Validations f)) (gr_Fields g)) (md_Groups m))
    (∀ g f vd, g ∈ md_Groups m → f ∈ gr_Fields g → vd ∈ fd_Validations f → present m data g f vd).
Proof.
  eapply decides_iff; [|apply (collect_decides _ (λ g, Forall (λ f, Forall (present m data g f) (fd_Validations f)) (gr_Fields g)))].
  - rewrite Forall_forall. setoid_rewrite Forall_forall. setoid_rewrite Forall_forall. naive_solver.
  - intros g Hg. apply (collect_decides _ (λ f, Forall (present m data g f) (fd_Validations f))).
    intros f Hf. apply collect_decides. intros vd Hvd. apply check_presence_decides.
    destruct Hm as [_ Hw]. destruct (Hw g f Hg Hf) as [_ Hall]. by eapply Forall_forall in Hall.
Qed.

Lemma validate_step fuel data :
  (∀ sub, (height sub < height data)%nat → decides (Validate fuel m vers sub) (conforms m vers sub)) →
  decides (Validate (S fuel) m vers data) (conforms m vers data).
Proof.
  intros IH. cbn [Validate].
  destruct (collect_decides (check_group m vers) (group_ok m vers) data.*1) as (rs1 & -> & Hrs1);
    [intros k _; apply check_group_decides, Hm|]. cbn -[flatten collect check_field].
  destruct (collect_decides (check_field (Validate fuel m vers) m vers)
    (λ kv, field_ok m vers kv.1 kv.2 ∧ ∀ sub, sub ∈ within_field m kv.1 kv.2 → conforms m vers sub) (map_to_list (flatten data)))
    as (rs2 & -> & Hrs2).
  { intros [k v] Hkv%elem_of_map_to_list. apply check_field_decides. intros sub Hsub. apply IH. by eapply within_height. }
  cbn -[flatten collect]. destruct (all_present_decides data) as (rs3 & -> & Hrs3). cbn.
  eexists. split; [reflexivity|]. rewrite !HasErrors_app, Hrs1, Hrs2, Hrs3, (Forall_forall _ (map_to_list _)). split.
  - intros (Hgs & Hfs & Hps). constructor; [done|..|done].
    + intros k v Hk. by apply (Hfs (k, v)), elem_of_map_to_list.
    + intros k v sub Hk. by apply (Hfs (k, v)), elem_of_map_to_list.
  - inversion 1 as [? Hgs Hfs Hss Hps]; subst. split_and!; [done| |done].
    intros [k v] Hk%elem_of_map_to_list. split; [by apply Hfs|]. intros sub. by apply Hss.
Qed.

Lemma validate_total fuel data : (height data ≤ fuel)%nat → decides (Validate fuel m vers data) (conforms m vers data).
Proof.
  revert data. induction fuel as [|fuel IH]; intros data Hd; [cbn in Hd; lia|].
  apply validate_step. intros sub Hs. apply IH. lia.
Qed.
End Step.

(** A rules file: its version, and samplers that each conform, the default one among them. *)
Definition rules_conform m (data : object) : Prop :=
  (∀ k v, (k, v) ∈ data →
     k = "RulesVersion" ∧ v = VInt 2 ∨
     k = "Samplers" ∧ ∃ l, v = VMap l ∧ "__default__" ∈ l.*1 ∧ ∀ name s, (name, s) ∈ l → ∃ sub, s = VMap sub ∧ conforms m None sub) ∧
  "RulesVersion" ∈ data.*1 ∧ "Samplers" ∈ data.*1.

Lemma HasErrors_concat {A} (f : A → list ValidationResult) l :
  HasErrors (concat (f <$> l)) = false ↔ ∀ x, x ∈ l → HasErrors (f x) = false.
Proof.
  induction l as [|x l IH]; [by split; [intros _ ? ?%elem_of_nil|]|]. rewrite fmap_cons. cbn [concat]. rewrite HasErrors_app, IH. split.
  - intros [Hx Hl] y [->|Hy]%elem_of_cons; [done|by apply Hl].
  - intros Hl. split; [apply Hl; left|]. intros y Hy. apply Hl. by right.
Qed.

Lemma HasErrors_if (b : bool) msg : HasErrors (if b then [] else [error msg]) = false ↔ b = true.
Proof. by destruct b. Qed.

Definition samplers_shape v : Prop := ∃ l, v = VMap l ∧ "__default__" ∈ l.*1 ∧ ∀ name s, (name, s) ∈ l → ∃ sub, s = VMap sub.

Lemma rules_samplers_spec v : HasErrors (rules_samplers v) = false ↔ samplers_shape v.
Proof.
  unfold samplers_shape. destruct v as [| | | | | | | |l|]; try (split; [done|by intros (? & ? & _)]). unfold rules_samplers.
  rewrite HasErrors_app, HasErrors_concat, HasErrors_if, bool_decide_eq_true. split.
  - intros [Hl Hd]. exists l. split_and!; [done..|]. intros name s Hs. specialize (Hl _ Hs). destruct s; try done. by eexists.
  - intros (l' & [= <-] & Hd & Hs). split; [|done]. intros [name s] Hin. by destruct (Hs _ _ Hin) as [sub ->].
Qed.

Lemma rules_top_spec data :
  HasErrors (rules_top data) = false ↔
  (∀ k v, (k, v) ∈ data → k = "RulesVersion" ∧ v = VInt 2 ∨ k = "Samplers" ∧ samplers_shape v) ∧ "RulesVersion" ∈ data.*1 ∧ "Samplers" ∈ data.*1.
Proof.
  unfold rules_top. rewrite !HasErrors_app, HasErrors_concat, !HasErrors_if, !bool_decide_eq_true.
  assert (Hone : ∀ k v, HasErrors (if String.eqb k "RulesVersion" then rules_version v else if String.eqb k "Samplers" then rules_samplers v
      else [error ("unknown top-level key " +:+ k)]) = false ↔ k = "RulesVersion" ∧ v = VInt 2 ∨ k = "Samplers" ∧ samplers_shape v).
  { intros k v. destruct (String.eqb_spec k "RulesVersion") as [->|]; [|destruct (String.eqb_spec k "Samplers") as [->|]].
    - unfold rules_version. destruct v as [|z| | | | | | | |]; try naive_solver. destruct (Z.eqb_spec z 2); naive_solver.
    - rewrite rules_samplers_spec. naive_solver.
    - naive_solver. }
  split; intros (Hd & Hv & Hs); (split_and!; [|done..]).
  - intros k v Hk. by apply Hone, (Hd (k, v)).
  - intros [k v] Hk. by apply Hone, Hd.
Qed.

Lemma collect_samplers m fuel (say : string → ValidationResult → ValidationResult) (l : object) :
  wf_metadata m → (∀ k r, vr_Severity (say k r) = vr_Severity r) →
  (∀ k s, (k, s) ∈ l → ∃ sub, s = VMap sub ∧ (height sub ≤ fuel)%nat) →
  decides (collect (λ kv : string * value,
             match kv.2 with VMap sub => (λ rs : list ValidationResult, say kv.1 <$> rs) <$> Validate fuel m None sub | _ => None end) l)
    (∀ k s, (k, s) ∈ l → ∃ sub, s = VMap sub ∧ conforms m None sub).
Proof.
  intros Hm Hsay Hl. eapply decides_iff; [|apply (collect_decides _ (λ kv, ∃ sub, kv.2 = VMap sub ∧ conforms m None sub))].
  - rewrite Forall_forall. split; [intros Hk k s Hs; by apply (Hk (k, s))|by intros Hk [k s] Hs; exact (Hk k s Hs)].
  - intros [k s] Hs. destruct (Hl k s Hs) as (sub & -> & Hh). cbn [fst snd].
    destruct (validate_total m None Hm fuel sub Hh) as (rs & -> & Hrs).
    eexists. split; [reflexivity|]. rewrite (HasErrors_reworded (say k) rs (Hsay k)), Hrs. split; [by exists sub|]. by intros (? & [= <-] & ?).
Qed.

Lemma lookup_entry_in data k : k ∈ data.*1 → ∃ v, lookup_entry data k = Some v ∧ (k, v) ∈ data.
Proof.
  unfold lookup_entry. intros ([k' v] & -> & Hk)%list_elem_of_fmap. cbn [fst] in *.
  destruct (head (filter _ data)) as [[k2 v2]|] eqn:E.
  - apply head_Some_elem_of, list_elem_of_filter in E as [E Hin]. cbn in E. subst. by exists v2.
  - apply head_None in E. exfalso. eapply not_elem_of_nil. rewrite <-E. apply list_elem_of_filter. split; [|exact Hk]. done.
Qed.

(** A file holds a key once. *)
Lemma entry_once (data : object) k v v' : NoDup data.*1 → (k, v) ∈ data → (k, v') ∈ data → v = v'.
Proof.
  induction data as [|[k1 v1] data IH]; [by intros _ ?%elem_of_nil|]. rewrite fmap_cons. intros [Hk Hn]%NoDup_cons Hv Hv'.
  apply elem_of_cons in Hv. apply elem_of_cons in Hv'. destruct Hv as [Hv|Hv], Hv' as [Hv'|Hv']; [congruence|..|by apply IH];
    simplify_eq; destruct Hk; [by apply (list_elem_of_fmap_2 fst) in Hv'|by apply (list_elem_of_fmap_2 fst) in Hv].
Qed.

Lemma rules_decided m fuel data :
  wf_metadata m → NoDup data.*1 → (height data ≤ fuel)%nat → decides (ValidateRules fuel m data) (rules_conform m data).
Proof.
  intros Hm Hn Hh. pose proof (rules_top_spec data) as Ht. unfold ValidateRules. destruct (HasErrors (rules_top data)) eqn:E.
  - eexists. split; [reflexivity|]. rewrite E. split; [done|]. intros (Hd & Hv & Hs). apply Ht. split_and!; [|done..].
    intros k v Hk. destruct (Hd k v Hk) as [?|(? & l & -> & Hdef & Hl)]; [by left|right]. split; [done|]. exists l. split_and!; [done..|].
    intros name s Hin. destruct (Hl name s Hin) as (sub & -> & _). by eexists.
  - destruct Ht as [Ht _]. destruct (Ht eq_refl) as (Hd & Hv & Hs).
    destruct (lookup_entry_in data _ Hs) as (v & -> & Hin).
    destruct (Hd _ _ Hin) as [[? _]|(_ & l & -> & Hdef & Hl)]; [done|].
    destruct (collect_samplers m fuel (λ k r, mkResult ("Within sampler " +:+ k +:+ ": " +:+ vr_Message r) (vr_Severity r)) l Hm) as (rs & Ers & Hrs).
    { done. }
    { intros k s Hks. destruct (Hl k s Hks) as [sub ->]. exists sub. split; [done|].
      apply height_entry in Hks. apply height_entry in Hin. unfold height in *. lia. }
    cbv zeta. cbn beta in Ers. rewrite Ers. eexists. split; [reflexivity|]. rewrite HasErrors_app, E, Hrs. split.
    + intros [_ Hc]. split_and!; [|done..]. intros k v Hk. destruct (Hd k v Hk) as [?|[-> _]]; [by left|right]. split; [done|].
      exists l. split_and!; [by eapply entry_once|done..].
    + intros (Hd' & _ & _). split; [done|]. destruct (Hd' _ _ Hin) as [[? _]|(_ & l' & [= <-] & _ & Hc)]; [done|exact Hc].
Qed.

(** C13: validation decides conformance.  For metadata whose types, validations and arguments are
    those the code knows, and with as many steps as the contents nest, Validate never panics, and it
    reports an error exactly when the contents do not conform to the metadata; and ValidateRules
    reports one exactly when the rules file lacks its version or its samplers, has another key, or
    has a sampler that does not conform. *)
Theorem validate_decides m :
  wf_metadata m →
  (∀ vers data fuel, (height data ≤ fuel)%nat → decides (Validate fuel m vers data) (conforms m vers data)) ∧
  (∀ data fuel, NoDup data.*1 → (height data ≤ fuel)%nat → decides (ValidateRules fuel m data) (rules_conform m data)).
Proof.
  intros Hm. split.
  - intros vers data fuel. by apply validate_total.
  - intros data fuel. by apply rules_decided.
Qed.
End Facts.

(** ** A configuration *)

Module ValidateExample.
#[local] Existing Instance example_float.

(** Whole numbers of one unit. *)
Definition duration (s : string) : option Z :=
  let '(digits, unit) := span is_digit s in
  match Atoi digits with
  | Some n =>
      if String.eqb unit "ms" then Some (n * 1000000)
      else if String.eqb unit "s" then Some (n * 1000000000)
      else if String.eqb unit "m" then Some (n * 60000000000)
      else None
  | None => None
  end.

#[export] Instance text : GoConfigText := {|
  time_ParseDuration := duration;
  net_SplitHostPort := λ s, if bool_decide (":" = str_take 1 s) then None else Some "missing port in address";
  url_Parse := λ s, if HasPrefix s "http://" then Ok (str_drop 7 s, "http") else Ok ("", "");
  semver_IsValid := λ s, HasPrefix s "v";
  semver_Compare := λ a b, if String.eqb a b then 0 else if String.leb a b then -1 else 1;
  levenshtein_ComputeDistance := λ a b, Z.abs (Z.of_nat (String.length a) - Z.of_nat (String.length b));
  fmt_sharp_v := fmt_v;
  type_of_other := λ s, s;
|}.

Definition field name typ vds : Field := mkField name typ VNil [] vds (mkDeprecation "" "").
Definition group name fields : Group := mkGroup name fields (mkDeprecation "" "").
Definition sizes : Field := field "CacheCapacity" "memorysize" [mkValidation "minimum" (VString "1MB"); mkValidation "requiredInGroup" VNil].
Definition meta : Metadata := mkMetadata [
  group "Collection" [sizes; field "Workers" "int" [mkValidation "minimum" (VInt 1)]];
  group "RulesBasedSampler" [field "Rules" "objectarray" []];
  group "Rules" [field "Name" "string" []; field "SampleRate" "int" []]].

Definition good : list (string * value) :=
  [("Collection", VMap [("CacheCapacity", VString "512MiB"); ("Workers", VInt 4)]);
   ("RulesBasedSampler", VMap [("Rules", VList [VMap [("Name", VString "errors"); ("SampleRate", VInt 1)]])])].
(** The size is missing, there are no workers, and the rate of the rule is no number. *)
Definition bad : list (string * value) :=
  [("Collection", VMap [("Workers", VInt 0)]); ("RulesBasedSampler", VMap [("Rules", VList [VMap [("SampleRate", VString "x")]])])].

Lemma meta_wf : wf_metadata meta.
Proof.
  split; [done|]. intros g f Hg Hf.
  repeat (apply elem_of_cons in Hg as [->|Hg]); [..|by apply elem_of_nil in Hg];
    repeat (apply elem_of_cons in Hf as [->|Hf]); try (by apply elem_of_nil in Hf);
    (split; [set_solver|repeat constructor; try by eexists]).
Qed.

Definition rules : list (string * value) := [("RulesVersion", VInt 2); ("Samplers", VMap [("__default__", VMap (drop 1 good))])].
(** What is accepted: a scalar where a group is asked for, and a rule that is no object. *)
Lemma shapes_unchecked :
  Validate 2 meta None [("RulesBasedSampler", VInt 5)] = Some [] ∧
  Validate 3 meta None [("RulesBasedSampler", VMap [("Rules", VList [VInt 1])])] = Some [].
Proof. by vm_compute. Qed.

(** A size in millions is a number of minutes to the minimum. *)
Lemma size_read_as_duration :
  UnmarshalText "5m" = Ok 5000000 ∧
  check_validation "Collection.CacheCapacity" (VString "5m") sizes (mkValidation "minimum" (VString "1MB")) =
    Some (VString "5m", [error "field Collection.CacheCapacity (5m) must be at least 1MB"]).
Proof. by vm_compute. Qed.

Lemma validate_decides_witness :
  wf_metadata meta ∧ conforms meta None good ∧ ¬ conforms meta None bad ∧
  match ValidateRules 6 meta rules with Some rs => HasErrors rs = false | None => False end ∧ rules_conform meta rules.
Proof.
  destruct (validate_decides meta meta_wf) as [Hv Hr]. split; [exact meta_wf|].
  destruct (Hv None good 6%nat) as (rs & E & Hrs); [vm_compute; lia|]. vm_compute in E. injection E as <-.
  destruct (Hv None bad 6%nat) as (rs' & E' & Hrs'); [vm_compute; lia|]. vm_compute in E'. injection E' as <-.
  destruct (Hr rules 6%nat) as (rs2 & E2 & Hrs2); [apply (bool_decide_unpack _); by vm_compute|vm_compute; lia|].
  vm_compute in E2. injection E2 as <-.
  split_and!; [by apply Hrs|by intros Hb; apply Hrs' in Hb|by vm_compute|by apply Hrs2].
Defined.
End ValidateExample.
