(* ===== verification/Settings.v ===== *)
(** config/cmdenv.go, and the expansion of environment variables in config/configLoadHelpers.go, over
    the settings of config/file_config.go: how a setting comes to have its value.

    The code walks the settings by reflection; here a structure is the list of its fields, each with
    its name and its [cmdenv] tag, and a field is a value with the name of its type.  [schema] lists
    the settings as config/file_config.go declares them, and [options] the options of the command
    line that may set one.  Every integer is a [VInt]; a pointer to a DefaultTrue is a boolean or nil. *)
From Stdlib Require Import Ascii.
From S2P Require Import Prelude GoValue MemorySize Validate.

(** ** Structures *)

Record fieldType := mkFieldType { ft_Name : string; ft_cmdenv : string }.

Inductive setting : Type :=
| Leaf (type : string) (v : value)
| Struct (fields : list (fieldType * setting))
| Pointer (to : option setting).

Definition type_of (s : setting) : string := match s with Leaf ty _ => ty | Struct _ => "struct" | Pointer _ => "pointer" end.

(** ** Variables of the environment *)

Definition not_brace (c : ascii) : bool := negb (Ascii.eqb c "}").

(** The name, where a reference begins. *)
Definition reference (s : string) : option string :=
  match s with
  | String a (String b r) =>
      if Ascii.eqb a "$" && Ascii.eqb b "{" then
        let '(name, rest) := span not_brace r in
        match rest with
        | String _ _ => if String.eqb name "" then None else Some name
        | EmptyString => None
        end
      else None
  | _ => None
  end.

Section Expand.
Context (gf : string → string).

(** What replaces a reference: itself, if there is no such variable. *)
Definition replacement (name : string) : string :=
  let value := gf name in if negb (String.eqb value "") then value else "${" +:+ name +:+ "}".

(** [skip] characters belong to a reference already replaced. *)
Fixpoint expand_from (skip : nat) (s : string) : string :=
  match s with
  | EmptyString => ""
  | String c r =>
      match skip with
      | S n => expand_from n r
      | O => match reference s with
             | Some name => replacement name +:+ expand_from (2 + String.length name) r
             | None => String c (expand_from 0 r)
             end
      end
  end.
Definition expandEnvVarsInString (s : string) : string := expand_from 0 s.

(** A list within a list is left as it is. *)
Fixpoint expand_value (v : value) : value :=
  match v with
  | VString s => VString (expandEnvVarsInString s)
  | VMap m => VMap (map (λ kv, (kv.1, expand_value kv.2)) m)
  | VList l => VList (map (λ item, match item with VString _ | VMap _ => expand_value item | _ => item end) l)
  | v => v
  end.
Definition expandEnvVarsInValues (m : list (string * value)) : list (string * value) := map (λ kv, (kv.1, expand_value kv.2)) m.

Definition expand_leaf (type : string) (v : value) : value :=
  if existsb (String.eqb type) ["string"; "map[string]any"; "map[string]string"; "[]any"; "[]string"] then expand_value v else v.

(** A field that is neither a structure nor of a type above keeps its value. *)
Fixpoint expand_setting (s : setting) : setting :=
  match s with
  | Leaf ty v => Leaf ty (expand_leaf ty v)
  | Struct fs => Struct (map (λ f, (f.1, expand_setting f.2)) fs)
  | Pointer to => Pointer to
  end.
Definition expandEnvVarsInConfig (cfg : setting) : res setting :=
  match cfg with
  | Struct _ => Ok (expand_setting cfg)
  | _ => Err ("expected a struct or pointer to struct, got " +:+ type_of cfg)
  end.
End Expand.

(** ** Options of the command line *)

(** The options by name, each with its type, its value and the delimiter of a list. *)
Abbreviation CmdEnv := (list (string * (string * value * option ascii))).

Definition option_named (c : CmdEnv) (name : string) : option (string * value * option ascii) :=
  snd <$> head (filter (λ o, o.1 = name) c).
Definition GetField (c : CmdEnv) (name : string) : option (string * value) := fst <$> option_named c name.
Definition GetDelimiter (c : CmdEnv) (name : string) : option ascii := match option_named c name with Some o => o.2 | None => None end.

Definition is_zero (v : value) : bool :=
  match v with
  | VNil | VString "" | VList [] | VMap [] => true
  | VInt z => z =? 0
  | VBool b => negb b
  | _ => false
  end.

Definition programming_error (what : string) : string := "programming error -- " +:+ what.

(** The value an option gives to a setting: the first element of a list, split. *)
Definition given (c : CmdEnv) (field tag : string) (v : value) : res value :=
  match v with
  | VList l =>
      match GetDelimiter c tag, l with
      | None, _ => Err (programming_error ("missing delimiter for slice field: " +:+ field))
      | Some d, VString raw :: _ => Ok (VList (VString <$> split_at d raw))
      | Some _, _ => Err (programming_error ("slice field must be a string: " +:+ field))
      end
  | v => Ok v
  end.

(** The options named by the tags, in their order, until one has a value. *)
Fixpoint from_tags (c : CmdEnv) (field type : string) (tags : list string) : res (option value) :=
  match tags with
  | [] => Ok None
  | tag :: tags =>
      match GetField c tag with
      | None => Err (programming_error ("invalid field name: " +:+ tag))
      | Some (ty, v) =>
          if is_zero v then from_tags c field type tags
          else if negb (String.eqb type ty)
          then Err (programming_error ("types don't match for field: " +:+ field +:+ " (" +:+ type +:+ " and " +:+ ty +:+ ")"))
          else let! v := given c field tag v in Ok (Some v)
      end
  end.

Definition set_field (c : CmdEnv) (f : fieldType) (s : setting) : res setting :=
  if String.eqb (ft_cmdenv f) "" then Ok s
  else let! v := from_tags c (ft_Name f) (type_of s) (split_at "," (ft_cmdenv f)) in
       Ok (match v with Some v => Leaf (type_of s) v | None => s end).

(** A field is set, and then what is within it. *)
Fixpoint applyCmdEnvTags (c : CmdEnv) (s : setting) : res setting :=
  match s with
  | Leaf _ _ => Ok s
  | Pointer None => Ok s
  | Pointer (Some s) => let! s := applyCmdEnvTags c s in Ok (Pointer (Some s))
  | Struct fields =>
      let fix each fields :=
        match fields with
        | [] => Ok []
        | (f, s) :: rest =>
            let! set := set_field c f s in
            let! s := match s with Leaf _ _ => Ok set | _ => applyCmdEnvTags c s end in
            let! rest := each rest in
            Ok ((f, s) :: rest)
        end in
      let! fields := each fields in Ok (Struct fields)
  end.
Definition ApplyTags (c : CmdEnv) (s : setting) : res setting := applyCmdEnvTags c s.

(** ** The settings, and the options that may set them *)

(** Each section's settings: name, type and [cmdenv] tag. *)
Abbreviation fieldList := (list (string * string * string)).

Definition GeneralConfig_fields : fieldList := [
  ("ConfigurationVersion", "int", ""); ("MinRefineryVersion", "string", ""); ("DatasetPrefix", "string", "");
  ("ConfigReloadInterval", "Duration", "")].
Definition NetworkConfig_fields : fieldList := [
  ("ListenAddr", "string", "HTTPListenAddr"); ("PeerListenAddr", "string", "PeerListenAddr");
  ("HoneycombAPI", "string", "HoneycombAPI"); ("HTTPIdleTimeout", "Duration", "");
  ("AdditionalHeaders", "map[string]string", "")].
Definition OpAMPConfig_fields : fieldList := [
  ("Endpoint", "string", "OpAMPEndpoint"); ("Enabled", "bool", ""); ("RecordUsage", "*DefaultTrue", "")].
Definition AccessKeyConfig_fields : fieldList := [
  ("ReceiveKeys", "[]string", ""); ("SendKey", "string", "SendKey"); ("SendKeyMode", "string", "");
  ("AcceptOnlyListedKeys", "bool", "")].
Definition RefineryTelemetryConfig_fields : fieldList := [
  ("AddRuleReasonToTrace", "bool", ""); ("AddSpanCountToRoot", "*DefaultTrue", ""); ("AddCountsToRoot", "bool", "");
  ("AddHostMetadataToTrace", "*DefaultTrue", "")].
Definition TracesConfig_fields : fieldList := [
  ("SendDelay", "Duration", ""); ("BatchTimeout", "Duration", ""); ("TraceTimeout", "Duration", "");
  ("MaxBatchSize", "uint", ""); ("SendTicker", "Duration", ""); ("SpanLimit", "uint", ""); ("MaxExpiredTraces", "uint", "")].
Definition DebuggingConfig_fields : fieldList := [
  ("DebugServiceAddr", "string", ""); ("QueryAuthToken", "string", "QueryAuthToken");
  ("AdditionalErrorFields", "[]string", ""); ("DryRun", "bool", "")].
Definition LoggerConfig_fields : fieldList := [
  ("Type", "string", ""); ("Level", "Level", "")].
Definition HoneycombLoggerConfig_fields : fieldList := [
  ("APIHost", "string", "TelemetryEndpoint"); ("APIKey", "string", "HoneycombLoggerAPIKey,HoneycombAPIKey");
  ("Dataset", "string", ""); ("SamplerEnabled", "*DefaultTrue", ""); ("SamplerThroughput", "int", "");
  ("AdditionalAttributes", "map[string]string", "HoneycombLoggerAdditionalAttributes")].
Definition StdoutLoggerConfig_fields : fieldList := [
  ("Structured", "bool", ""); ("SamplerEnabled", "bool", ""); ("SamplerThroughput", "int", "")].
Definition PrometheusMetricsConfig_fields : fieldList := [
  ("Enabled", "bool", ""); ("ListenAddr", "string", "")].
Definition OTelMetricsConfig_fields : fieldList := [
  ("Enabled", "bool", ""); ("APIHost", "string", "TelemetryEndpoint");
  ("APIKey", "string", "OTelMetricsAPIKey,HoneycombAPIKey"); ("Dataset", "string", ""); ("Compression", "string", "");
  ("ReportingInterval", "Duration", "")].
Definition OTelTracingConfig_fields : fieldList := [
  ("Enabled", "bool", ""); ("APIHost", "string", "TelemetryEndpoint");
  ("APIKey", "string", "OTelTracesAPIKey,HoneycombAPIKey"); ("Dataset", "string", ""); ("SampleRate", "uint64", "");
  ("Insecure", "bool", "")].
Definition PeerManagementConfig_fields : fieldList := [
  ("Type", "string", ""); ("Identifier", "string", ""); ("IdentifierInterfaceName", "string", "");
  ("UseIPV6Identifier", "bool", ""); ("Peers", "[]string", "")].
Definition RedisPeerManagementConfig_fields : fieldList := [
  ("Host", "string", "RedisHost"); ("ClusterHosts", "[]string", "RedisClusterHosts");
  ("Username", "string", "RedisUsername"); ("Password", "string", "RedisPassword"); ("AuthCode", "string", "RedisAuthCode");
  ("ClusterName", "string", ""); ("Prefix", "string", ""); ("Database", "int", ""); ("UseTLS", "bool", "");
  ("UseTLSInsecure", "bool", ""); ("Timeout", "Duration", "")].
Definition CollectionConfig_fields : fieldList := [
  ("PeerQueueSize", "int", ""); ("IncomingQueueSize", "int", ""); ("AvailableMemory", "MemorySize", "AvailableMemory");
  ("HealthCheckTimeout", "Duration", ""); ("MaxMemoryPercentage", "int", ""); ("MaxAlloc", "MemorySize", "");
  ("ShutdownDelay", "Duration", ""); ("MaxDropDecisionBatchSize", "int", ""); ("DropDecisionSendInterval", "Duration", "");
  ("MaxKeptDecisionBatchSize", "int", ""); ("KeptDecisionSendInterval", "Duration", ""); ("WorkerCount", "int", "")].
Definition SpecializedConfig_fields : fieldList := [
  ("EnvironmentCacheTTL", "Duration", ""); ("CompressPeerCommunication", "*DefaultTrue", "");
  ("AdditionalAttributes", "map[string]string", "")].
Definition IDFieldsConfig_fields : fieldList := [
  ("TraceNames", "[]string", ""); ("ParentNames", "[]string", "")].
Definition GRPCServerParameters_fields : fieldList := [
  ("Enabled", "*DefaultTrue", ""); ("ListenAddr", "string", "GRPCListenAddr"); ("MaxConnectionIdle", "Duration", "");
  ("MaxConnectionAge", "Duration", ""); ("MaxConnectionAgeGrace", "Duration", ""); ("KeepAlive", "Duration", "");
  ("KeepAliveTimeout", "Duration", ""); ("MaxSendMsgSize", "MemorySize", ""); ("MaxRecvMsgSize", "MemorySize", "")].
Definition SampleCacheConfig_fields : fieldList := [
  ("KeptSize", "uint", ""); ("DroppedSize", "uint", ""); ("SizeCheckInterval", "Duration", ""); ("WorkerCount", "uint", "")].
Definition StressReliefConfig_fields : fieldList := [
  ("Mode", "string", ""); ("ActivationLevel", "uint", ""); ("DeactivationLevel", "uint", ""); ("SamplingRate", "uint64", "");
  ("MinimumActivationDuration", "Duration", "")].

Definition schema : list (string * fieldList) := [
  ("General", GeneralConfig_fields); ("Network", NetworkConfig_fields); ("OpAMP", OpAMPConfig_fields);
  ("AccessKeys", AccessKeyConfig_fields); ("Telemetry", RefineryTelemetryConfig_fields); ("Traces", TracesConfig_fields);
  ("Debugging", DebuggingConfig_fields); ("Logger", LoggerConfig_fields); ("HoneycombLogger", HoneycombLoggerConfig_fields);
  ("StdoutLogger", StdoutLoggerConfig_fields); ("PrometheusMetrics", PrometheusMetricsConfig_fields);
  ("OTelMetrics", OTelMetricsConfig_fields); ("OTelTracing", OTelTracingConfig_fields);
  ("PeerManagement", PeerManagementConfig_fields); ("RedisPeerManagement", RedisPeerManagementConfig_fields);
  ("Collection", CollectionConfig_fields); ("Specialized", SpecializedConfig_fields);
  ("IDFieldNames", IDFieldsConfig_fields); ("GRPCServerParameters", GRPCServerParameters_fields);
  ("SampleCache", SampleCacheConfig_fields); ("StressRelief", StressReliefConfig_fields)].

Definition comma : ascii := ",".

(** Name, type and delimiter of an option. *)
Definition options : list (string * string * option ascii) := [
  ("ConfigLocations", "[]string", Some comma); ("RulesLocations", "[]string", Some comma); ("HTTPListenAddr", "string", None);
  ("PeerListenAddr", "string", None); ("GRPCListenAddr", "string", None); ("RedisHost", "string", None);
  ("RedisClusterHosts", "[]string", Some comma); ("RedisUsername", "string", None); ("RedisPassword", "string", None);
  ("RedisAuthCode", "string", None); ("HoneycombAPI", "string", None); ("HoneycombAPIKey", "string", None);
  ("HoneycombLoggerAPIKey", "string", None); ("HoneycombLoggerAdditionalAttributes", "map[string]string", Some comma);
  ("OpAMPEndpoint", "string", None); ("TelemetryEndpoint", "string", None); ("OTelMetricsAPIKey", "string", None);
  ("OTelTracesAPIKey", "string", None); ("QueryAuthToken", "string", None); ("AvailableMemory", "MemorySize", None);
  ("SendKey", "string", None); ("Debug", "bool", None); ("Version", "bool", None); ("InterfaceNames", "bool", None);
  ("Validate", "bool", None); ("NoValidate", "bool", None); ("WriteConfig", "string", None); ("WriteRules", "string", None)].

(** The zero value of each type. *)
Definition zero (type : string) : value :=
  if String.eqb type "string" then VString ""
  else if String.eqb type "[]string" then VList []
  else if String.eqb type "map[string]string" then VMap []
  else if String.eqb type "bool" then VBool false
  else if String.eqb type "*DefaultTrue" then VNil
  else VInt 0.
Definition zero_config : setting :=
  Struct (map (λ s, (mkFieldType s.1 "", Struct (map (λ f : string * string * string, (mkFieldType f.1.1 f.2, Leaf f.1.2 (zero f.1.2))) s.2))) schema).

(** The value of a setting. *)
Definition value_at (s : setting) (section name : string) : option value :=
  match s with
  | Struct secs =>
      match snd <$> head (filter (λ f, ft_Name f.1 = section) secs) with
      | Some (Struct fs) => match snd <$> head (filter (λ f, ft_Name f.1 = name) fs) with Some (Leaf _ v) => Some v | _ => None end
      | _ => None
      end
  | _ => None
  end.

(** ** Values and their types *)

Definition typed (type : string) (v : value) : bool :=
  match v with
  | VString _ => String.eqb type "string"
  | VInt _ => existsb (String.eqb type) ["int"; "uint"; "uint64"; "Duration"; "MemorySize"; "Level"]
  | VBool _ => existsb (String.eqb type) ["bool"; "*DefaultTrue"]
  | VNil => String.eqb type "*DefaultTrue"
  | VList l => String.eqb type "[]string" && forallb isString l
  | VMap m => String.eqb type "map[string]string" && forallb (λ kv, isString kv.2) m
  | _ => false
  end.

Definition leaf_shape (f : string * string * string) (g : fieldType * setting) : Prop :=
  g.1 = mkFieldType f.1.1 f.2 ∧ ∃ v, g.2 = Leaf f.1.2 v ∧ typed f.1.2 v = true.
Definition section_shape (s : string * list (string * string * string)) (g : fieldType * setting) : Prop :=
  g.1 = mkFieldType s.1 "" ∧ ∃ fs, g.2 = Struct fs ∧ Forall2 leaf_shape s.2 fs.
(** The settings as they are declared, each with a value of its type. *)
Definition has_shape (s : setting) : Prop := ∃ secs, s = Struct secs ∧ Forall2 section_shape schema secs.

(** The options as they are declared. *)
Definition wf_CmdEnv (c : CmdEnv) : Prop :=
  Forall2 (λ o o', ∃ v, o' = (o.1.1, (o.1.2, v, o.2)) ∧ typed o.1.2 v = true) options c.

(** ** The environment *)

(** A text, and a reference to a variable by its name. *)
Inductive piece := Text (s : string) | Ref (name : string).
Definition piece_ok (p : piece) : bool :=
  match p with
  | Text s => str_forallb (λ c, negb (Ascii.eqb c "$")) s
  | Ref name => negb (String.eqb name "") && str_forallb not_brace name
  end.
Definition written (p : piece) : string := match p with Text s => s | Ref name => "${" +:+ name +:+ "}" end.
Definition meant (gf : string → string) (p : piece) : string := match p with Text s => s | Ref name => replacement gf name end.

Lemma span_app f (a b : string) c : str_forallb f a = true → f c = false → span f (a +:+ String c b) = (a, String c b).
Proof.
  intros Ha Hc. induction a as [|x a IH]; simpl; [by rewrite Hc|].
  cbn in Ha. apply andb_prop in Ha as [Hx Ha]. by rewrite Hx, IH.
Qed.

Lemma reference_written name r : piece_ok (Ref name) = true → reference (written (Ref name) +:+ r) = Some name.
Proof.
  intros [Hne Hb]%andb_prop. unfold written. rewrite !str_app_assoc. unfold reference. change ("${" +:+ name +:+ "}" +:+ r) with (String "$" (String "{" (name +:+ String "}" r))).
  cbn iota. rewrite (span_app not_brace name r "}") by done. cbn. by destruct (String.eqb name "").
Qed.

Section ExpandFacts.
Context (gf : string → string).

Lemma expand_skipped s r : expand_from gf (String.length s) (s +:+ r) = expand_from gf 0 r.
Proof. induction s as [|c s IH]; [done|]. rewrite str_app_cons. apply IH. Qed.

Lemma reference_dollar c s : Ascii.eqb c "$" = false → reference (String c s) = None.
Proof. intros Hc. unfold reference. destruct s as [|b s]; [done|]. by rewrite Hc. Qed.

Lemma expand_text s r : piece_ok (Text s) = true → expand_from gf 0 (s +:+ r) = s +:+ expand_from gf 0 r.
Proof.
  induction s as [|c s IH]; [done|]. intros [Hc Hs]%andb_prop. rewrite !str_app_cons. cbn [expand_from].
  rewrite reference_dollar by by apply negb_true_iff. by rewrite IH.
Qed.

Lemma expand_reference name r : piece_ok (Ref name) = true →
  expand_from gf 0 (written (Ref name) +:+ r) = replacement gf name +:+ expand_from gf 0 r.
Proof.
  intros Hok. pose proof (reference_written name r Hok) as Hr. set (tail := "{" +:+ name +:+ "}").
  change (written (Ref name)) with (String "$" tail) in *. rewrite str_app_cons in *. cbn [expand_from]. rewrite Hr.
  f_equal. rewrite <-(expand_skipped tail r). f_equal. subst tail. rewrite !str_length_app. cbn. lia.
Qed.

Lemma concat_cons (s : string) l : str_concat (s :: l) = s +:+ str_concat l.
Proof. done. Qed.

(** What is written as texts and references means what each means, one after the other. *)
Lemma expand_pieces ps :
  forallb piece_ok ps = true → expandEnvVarsInString gf (str_concat (written <$> ps)) = str_concat (meant gf <$> ps).
Proof.
  unfold expandEnvVarsInString. induction ps as [|[s|name] ps IH]; [done|..]; intros [Hp Hps]%andb_prop; rewrite !fmap_cons;
    rewrite !concat_cons; [change (written (Text s)) with s; rewrite expand_text by done|rewrite expand_reference by done];
    by rewrite IH.
Qed.
End ExpandFacts.

(** ** What the options set *)

(** The value of an option that has one. *)
Definition passed (c : CmdEnv) (name : string) : option value :=
  match GetField c name with Some (_, v) => if is_zero v then None else Some v | None => None end.
(** The first option with a value among those of a tag. *)
Definition chosen (c : CmdEnv) (tag : string) : option value :=
  if String.eqb tag "" then None else head (omap (passed c) (split_at "," tag)).
(** A list is one text, to be split. *)
Definition option_value (v : value) : value :=
  match v with VList (VString raw :: _) => VList (VString <$> split_at "," raw) | v => v end.
Definition in_effect (c : CmdEnv) (tag : string) (v : value) : value := from_option option_value v (chosen c tag).

(** The settings, each with what its tag's options set. *)
Fixpoint with_options (c : CmdEnv) (tag : string) (s : setting) : setting :=
  match s with
  | Leaf ty v => Leaf ty (in_effect c tag v)
  | Struct fs => Struct (map (λ f, (f.1, with_options c (ft_cmdenv f.1) f.2)) fs)
  | Pointer to => Pointer to
  end.

(** An option of that name, type and delimiter. *)
Definition declared (name type : string) (o : string * string * option ascii) : bool :=
  String.eqb o.1.1 name && String.eqb o.1.2 type &&
  (if String.eqb type "[]string" then bool_decide (o.2 = Some comma) else true).
Definition tag_ok (f : string * string * string) : bool :=
  String.eqb f.2 "" || forallb (λ name, match head (filter (λ o, o.1.1 = name) options) with Some o => declared name f.1.2 o | None => false end)
    (split_at "," f.2).

(** Every tag of the settings names options of the setting's own type. *)
Lemma tags_declared : forallb (λ s, forallb tag_ok s.2) schema = true.
Proof. by vm_compute. Qed.

Lemma option_named_cons n x c name : option_named ((n, x) :: c) name = if decide (n = name) then Some x else option_named c name.
Proof. unfold option_named. rewrite filter_cons. cbn [fst]. by destruct (decide (n = name)). Qed.

Lemma option_declared c name : wf_CmdEnv c →
  match head (filter (λ o, o.1.1 = name) options) with
  | Some o => ∃ v, option_named c name = Some (o.1.2, v, o.2) ∧ typed o.1.2 v = true
  | None => option_named c name = None
  end.
Proof.
  unfold wf_CmdEnv. generalize options. intros os Hc. induction Hc as [|o o' os c (v & -> & Hv) _ IH]; [done|].
  rewrite option_named_cons, filter_cons. destruct (decide (o.1.1 = name)); [|exact IH]. by exists v.
Qed.

Lemma strings_typed l : forallb isString (VString <$> l) = true.
Proof. induction l as [|s l IH]; [done|]. by rewrite fmap_cons. Qed.

Lemma given_typed c field name ty v d :
  option_named c name = Some (ty, v, d) → typed ty v = true → is_zero v = false →
  (if String.eqb ty "[]string" then bool_decide (d = Some comma) else true) = true →
  given c field name v = Ok (option_value v) ∧ typed ty (option_value v) = true.
Proof.
  intros Ho Hv Hz Hd. destruct v as [| | | | | | |l| |]; try done. cbn in Hv. apply andb_prop in Hv as [Hty Hl].
  rewrite Hty in Hd. apply bool_decide_eq_true in Hd as ->. unfold given, GetDelimiter. rewrite Ho. cbn.
  destruct l as [|[] l]; try done. split; [done|]. cbn [option_value typed]. rewrite Hty. apply strings_typed.
Qed.

Lemma from_tags_spec c field ty names :
  wf_CmdEnv c → forallb (λ name, match head (filter (λ o, o.1.1 = name) options) with Some o => declared name ty o | None => false end) names = true →
  let v := head (omap (passed c) names) in
  from_tags c field ty names = Ok (option_value <$> v) ∧ ∀ x, v = Some x → typed ty (option_value x) = true.
Proof.
  intros Hc. induction names as [|name names IH]; [done|]. cbn [forallb]. intros [Hn Hns]%andb_prop. specialize (IH Hns).
  pose proof (option_declared c name Hc) as Ho. destruct (head (filter _ options)) as [o|]; [|done].
  destruct Ho as (v & Ho & Hv). unfold declared in Hn. apply andb_prop in Hn as [[Hnm Hty]%andb_prop Hd].
  apply String.eqb_eq in Hty. rewrite Hty in Ho, Hv. cbn [from_tags omap list_omap].
  assert (Eg : GetField c name = Some (ty, v)) by (unfold GetField; by rewrite Ho).
  destruct (is_zero v) eqn:Hz; (assert (Ep : passed c name = if is_zero v then None else Some v) by (unfold passed; by rewrite Eg));
    rewrite Eg, Ep, Hz; [exact IH|]. rewrite String.eqb_refl. cbn [negb head fmap option_fmap option_map].
  destruct (given_typed c field name ty v o.2 Ho Hv Hz Hd) as [-> Ht]. cbn. split; [done|]. by intros x [= <-].
Qed.

Lemma set_field_spec c name ty tag v :
  wf_CmdEnv c → tag_ok (name, ty, tag) = true → typed ty v = true →
  set_field c (mkFieldType name tag) (Leaf ty v) = Ok (Leaf ty (in_effect c tag v)) ∧ typed ty (in_effect c tag v) = true.
Proof.
  intros Hc Ht Hv. unfold set_field, in_effect, chosen. cbn [ft_cmdenv ft_Name type_of].
  destruct (String.eqb tag "") eqn:E; [done|]. unfold tag_ok in Ht. cbn [fst snd] in Ht. rewrite E in Ht. cbn [orb] in Ht.
  destruct (from_tags_spec c name ty (split_at "," tag) Hc Ht) as [-> Hty]. cbn [res_bind].
  destruct (head _) as [x|]; [|done]. cbn. split; [done|]. by apply Hty.
Qed.

(** A structure is walked field by field. *)
Fixpoint apply_fields (c : CmdEnv) (fields : list (fieldType * setting)) : res (list (fieldType * setting)) :=
  match fields with
  | [] => Ok []
  | (f, s) :: rest =>
      let! set := set_field c f s in
      let! s := match s with Leaf _ _ => Ok set | _ => applyCmdEnvTags c s end in
      let! rest := apply_fields c rest in
      Ok ((f, s) :: rest)
  end.
Lemma applyCmdEnvTags_struct c fs : applyCmdEnvTags c (Struct fs) = (let! fs := apply_fields c fs in Ok (Struct fs)).
Proof.
  cbn [applyCmdEnvTags]. f_equal. induction fs as [|[f s] fs IH]; [done|]. cbn [apply_fields]. by rewrite <-IH.
Qed.

Lemma apply_leaves c fs gs :
  wf_CmdEnv c → forallb tag_ok fs = true → Forall2 leaf_shape fs gs →
  let gs' := map (λ g, (g.1, with_options c (ft_cmdenv g.1) g.2)) gs in
  apply_fields c gs = Ok gs' ∧ Forall2 leaf_shape fs gs'.
Proof.
  intros Hc Hok Hs. induction Hs as [|[[n ty] tag] [ft leaf] fs gs (Hn & v & Hl & Hv) _ IH]; [by split; [|constructor]|].
  cbn [fst snd] in *. subst ft leaf. cbn [forallb] in Hok. apply andb_prop in Hok as [Hok Hoks]. destruct (IH Hoks) as [IH1 IH2].
  destruct (set_field_spec c n ty tag v Hc Hok Hv) as [E Hv']. cbn [apply_fields]. rewrite E. cbn [res_bind]. rewrite IH1. cbn. split; [done|].
  constructor; [|done]. split; [done|]. by exists (in_effect c tag v).
Qed.

Lemma apply_sections c secs gs :
  wf_CmdEnv c → forallb (λ s, forallb tag_ok s.2) secs = true → Forall2 section_shape secs gs →
  let gs' := map (λ g, (g.1, with_options c (ft_cmdenv g.1) g.2)) gs in
  apply_fields c gs = Ok gs' ∧ Forall2 section_shape secs gs'.
Proof.
  intros Hc Hok Hs. induction Hs as [|[n fields] [ft sub] secs gs (Hn & fs & Hf & Hl) _ IH]; [by split; [|constructor]|].
  cbn [fst snd] in *. subst ft sub. cbn [forallb] in Hok. apply andb_prop in Hok as [Hok Hoks]. destruct (IH Hoks) as [IH1 IH2].
  destruct (apply_leaves c fields fs Hc Hok Hl) as [E Hl']. cbn [apply_fields]. unfold set_field. cbn [ft_cmdenv String.eqb res_bind].
  rewrite applyCmdEnvTags_struct, E. cbn [res_bind]. rewrite IH1. cbn. split; [done|].
  constructor; [|done]. split; [done|]. by eexists.
Qed.

(** The options never fail, and set what they say. *)
Lemma options_applied c s :
  wf_CmdEnv c → has_shape s → ApplyTags c s = Ok (with_options c "" s) ∧ has_shape (with_options c "" s).
Proof.
  intros Hc (secs & -> & Hs). unfold ApplyTags. rewrite applyCmdEnvTags_struct.
  destruct (apply_sections c schema secs Hc tags_declared Hs) as [-> Hs']. split; [done|]. by eexists.
Qed.

Section ExpandTypes.
Context (gf : string → string).

Lemma expand_typed ty v : typed ty v = true → typed ty (expand_leaf gf ty v) = true.
Proof.
  intros Hv. unfold expand_leaf. destruct (existsb _ _) eqn:E; [|done]. destruct v; try done; cbn in Hv |- *.
  - apply andb_prop in Hv as [-> Hl]. cbn. clear E. induction l as [|[] l IH]; try done. cbn. by apply IH.
  - apply andb_prop in Hv as [-> Hl]. cbn. clear E. induction m as [|[k []] m IH]; try done. cbn. by apply IH.
Qed.

Lemma expand_shape s : has_shape s → expandEnvVarsInConfig gf s = Ok (expand_setting gf s) ∧ has_shape (expand_setting gf s).
Proof.
  intros (secs & -> & Hs). split; [done|]. eexists. split; [reflexivity|].
  induction Hs as [|[n fields] [ft sub] ss secs (Hn & fs & Hf & Hl) _ IH]; [constructor|]. constructor; [|exact IH].
  cbn [fst snd] in *. subst. split; [done|]. eexists. split; [reflexivity|]. clear IH.
  induction Hl as [|[[m ty] tag] [ft leaf] fields fs (Hm & v & Hv & Ht) _ IH]; constructor; [|exact IH].
  cbn [fst snd] in *. subst. split; [done|]. eexists. split; [reflexivity|]. by apply expand_typed.
Qed.
End ExpandTypes.

(** C12: how a setting comes to have its value.  With the options and the settings that the code
    declares, the command line's options never fail to apply: each setting gets the value of the first
    option its tag names that has one, a list being one text to split, and keeps its own otherwise;
    the environment is then expanded, in a text as the references in it say; and each setting still
    has its declared type. *)
Theorem settings_decided c s gf :
  wf_CmdEnv c → has_shape s →
  ApplyTags c s = Ok (with_options c "" s) ∧ has_shape (with_options c "" s) ∧
  (let s := with_options c "" s in expandEnvVarsInConfig gf s = Ok (expand_setting gf s) ∧ has_shape (expand_setting gf s)) ∧
  ∀ ps, forallb piece_ok ps = true → expandEnvVarsInString gf (str_concat (written <$> ps)) = str_concat (meant gf <$> ps).
Proof.
  intros Hc Hs. destruct (options_applied c s Hc Hs) as [E Hs']. split_and!; [done..| |].
  - cbn zeta. by apply expand_shape.
  - intros ps. apply expand_pieces.
Qed.

(** ** An example *)

Module SettingsExample.
Definition no_options : CmdEnv := map (λ o : string * string * option ascii, (o.1.1, (o.1.2, zero o.1.2, o.2))) options.
Definition pass (name : string) (v : value) (c : CmdEnv) : CmdEnv :=
  map (λ o, if String.eqb o.1 name then (o.1, (o.2.1.1, v, o.2.2)) else o) c.
(** Two keys and two hosts. *)
Definition passed_options : CmdEnv := Eval vm_compute in
  pass "HoneycombAPIKey" (VString "${KEY}") (pass "OTelTracesAPIKey" (VString "traces")
    (pass "RedisClusterHosts" (VList [VString "a,b"]) no_options)).
Definition environment (name : string) : string := if String.eqb name "KEY" then "secret" else "".

Lemma zero_shape : has_shape zero_config.
Proof. eexists. split; [reflexivity|]. repeat first [reflexivity|econstructor]. Qed.
Lemma passed_wf : wf_CmdEnv passed_options.
Proof. unfold wf_CmdEnv. repeat first [reflexivity|econstructor]. Qed.

(** A flag given twice is a list of two: the second is lost. *)
Lemma second_host_lost :
  let c := pass "RedisClusterHosts" (VList [VString "a"; VString "b"]) no_options in
  match ApplyTags c zero_config with Ok s => value_at s "RedisPeerManagement" "ClusterHosts" | Err _ => None end = Some (VList [VString "a"]).
Proof. by vm_compute. Qed.

Lemma settings_decided_witness :
  wf_CmdEnv passed_options ∧ has_shape zero_config ∧
  ∃ s, expandEnvVarsInConfig environment (with_options passed_options "" zero_config) = Ok s ∧ has_shape s ∧
    value_at s "OTelTracing" "APIKey" = Some (VString "traces") ∧ value_at s "OTelMetrics" "APIKey" = Some (VString "secret") ∧
    value_at s "RedisPeerManagement" "ClusterHosts" = Some (VList [VString "a"; VString "b"]).
Proof.
  destruct (settings_decided passed_options zero_config environment passed_wf zero_shape) as (_ & _ & [E Hs] & _).
  split_and!; [exact passed_wf|exact zero_shape|]. eexists. split; [exact E|]. split; [exact Hs|]. by vm_compute.
Defined.
End SettingsExample.
