(* ===== verification/Load.v ===== *)
(** config/configLoadHelpers.go and the start of config/file_config.go: from the locations of the
    files to a configuration in use.

    The files are read and decoded by the classes GoFetch and GoDecode; what is decoded into a map is
    validated (Validate), what is decoded into the settings gets its defaults, the options of the
    command line and the variables of the environment (Settings), and becomes the configuration of
    Config.  [None] is a panic, which ends the process. *)
From Stdlib Require Import Ascii.
From S2P Require Import Prelude GoValue SamplerConfig Config MemorySize Validate ValidateFacts Settings.

Abbreviation object := (list (string * value)).

(** ** Formats *)

Inductive Format := FormatUnknown | FormatYAML | FormatJSON | FormatTOML.
#[export] Instance Format_eq_dec : EqDecision Format.
Proof. solve_decision. Defined.

(** path/filepath's Ext: from the last dot of the last element. *)
Fixpoint ext_from (s found : string) : string :=
  match s with
  | EmptyString => found
  | String c r => ext_from r (if Ascii.eqb c "/" then "" else if Ascii.eqb c "." then s else found)
  end.
Definition Ext (path : string) : string := ext_from path "".

Definition formatFromFilename (filename : string) : Format :=
  let ext := Ext filename in
  if existsb (String.eqb ext) [".yaml"; ".yml"; ".YAML"; ".YML"] then FormatYAML
  else if existsb (String.eqb ext) [".toml"; ".TOML"] then FormatTOML
  else if existsb (String.eqb ext) [".json"; ".JSON"] then FormatJSON
  else FormatUnknown.

Record response := mkResponse { fr_ContentType : string; fr_Body : res string }.

Definition formatFromResponse (resp : response) : Format :=
  let t := fr_ContentType resp in
  if existsb (String.eqb t) ["application/json"; "text/json"] then FormatJSON
  else if existsb (String.eqb t) ["application/x-toml"; "application/toml"; "text/x-toml"; "text/toml"] then FormatTOML
  else if existsb (String.eqb t) ["application/x-yaml"; "application/yaml"; "text/x-yaml"; "text/yaml"] then FormatYAML
  else FormatUnknown.

(** ** Where the contents come from *)

(** net/url (the scheme and the path), the file system, the environment, and a GET request with the key
    of the environment, if there is one. *)
Class GoFetch := {
  url_Parse_path : string → res (string * string);
  os_ReadFile : string → res string;
  os_Getenv : string → string;
  http_Get : string → option string → res response;
}.

Record configData := mkConfigData { cd_data : string; cd_format : Format; cd_location : string }.
Definition NewConfigData := mkConfigData.

Section Fetch.
Context `{!GoFetch}.

Definition getBytesFor (u : string) : res (string * Format) :=
  if String.eqb u "" then Err "empty url"
  else
    let! uu := url_Parse_path u in
    let '(scheme, path) := uu in
    if String.eqb scheme "file" || String.eqb scheme "" then
      let! r := os_ReadFile path in Ok (r, formatFromFilename path)
    else if String.eqb scheme "http" || String.eqb scheme "https" then
      let key := os_Getenv "HONEYCOMB_CONFIG_KEY" in
      let! resp := http_Get u (if negb (String.eqb key "") then Some key else None) in
      let format := formatFromResponse resp in
      let format := if decide (format = FormatUnknown) then formatFromFilename path else format in
      let! body := fr_Body resp in Ok (body, format)
    else Err ("unknown scheme " +:+ String (ascii_of_nat 34) scheme +:+ String (ascii_of_nat 34) "").

Fixpoint getConfigDataForLocations (locations : list string) : res (list configData) :=
  match locations with
  | [] => Ok []
  | location :: locations =>
      let location := TrimSpace location in
      let! r := getBytesFor location in
      let! rest := getConfigDataForLocations locations in
      Ok (mkConfigData r.1 r.2 location :: rest)
  end.

(** Both lists of locations, the configuration's first. *)
Definition newConfigAndRules (ConfigLocations RulesLocations : list string) : res (list configData * list configData) :=
  let! cData := getConfigDataForLocations ConfigLocations in
  let! rulesData := getConfigDataForLocations RulesLocations in
  Ok (cData, rulesData).
End Fetch.

(** ** Loading *)

(** The decoders of the formats (gopkg.in/yaml.v3, pelletier/go-toml and encoding/json), which fill a
    new map, or overwrite what a structure already has; creasty/defaults; the encoder of YAML; and MD5
    in hexadecimal. *)
Class GoDecode := {
  decode_map : Format → string → res object;
  decode_config : Format → string → setting → res setting;
  decode_rules : Format → string → V2SamplerConfig → res V2SamplerConfig;
  defaults_Set : setting → res setting;
  yaml_Marshal : setting → res string;
  md5_hex : string → string;
}.

Definition load {A} (decode : Format → string → A → res A) (data : string) (format : Format) (into : A) : res A :=
  match format with FormatUnknown => Err "unable to determine data format" | _ => decode format data into end.

Definition unable (location e : string) : string := "loadConfigsInto unable to load config " +:+ location +:+ ": " +:+ e.

Fixpoint load_all {A} (decode : Format → string → A → res A) (dest : A) (configs : list configData) : res A :=
  match configs with
  | [] => Ok dest
  | c :: configs =>
      match load decode (cd_data c) (cd_format c) dest with
      | Ok dest => load_all decode dest configs
      | Err e => Err (unable (cd_location c) e)
      end
  end.

(** ** Merging maps *)

Fixpoint set_entry (m : object) (k : string) (v : value) : object :=
  match m with
  | [] => [(k, v)]
  | (k', v') :: m => if String.eqb k' k then (k, v) :: m else (k', v') :: set_entry m k v
  end.

Definition set_entries (m : object) (vm : object) : object := foldl (λ m e, set_entry m e.1 e.2) m vm.

(** A map is merged into the one that is there; where what is there is no map, its first entry is
    the panic of a failed type assertion. *)
Definition merge_entry (dest : object) (kv : string * value) : option object :=
  match kv.2 with
  | VMap vm =>
      match lookup_entry dest kv.1 with
      | None | Some VNil => Some (set_entry dest kv.1 (VMap vm))
      | Some (VMap old) => Some (set_entry dest kv.1 (VMap (set_entries old vm)))
      | Some _ => match vm with [] => Some dest | _ => None end
      end
  | v => Some (set_entry dest kv.1 v)
  end.
Fixpoint merge_entries (dest temp : object) : option object :=
  match temp with [] => Some dest | kv :: temp => dest ← merge_entry dest kv; merge_entries dest temp end.

Section Load.
Context `{!GoDecode}.

Definition loadConfigsInto {A} (decode : Format → string → A → res A) (dest : A) (configs : list configData) : res (A * string) :=
  let! dest := load_all decode dest configs in Ok (dest, md5_hex (str_concat (cd_data <$> configs))).

Definition load_map (data : string) (format : Format) : res object := load (λ format data _, decode_map format data) data format [].

Fixpoint loadConfigsIntoMap (dest : object) (configs : list configData) : option (res object) :=
  match configs with
  | [] => Some (Ok dest)
  | c :: configs =>
      match load_map (cd_data c) (cd_format c) with
      | Err e => Some (Err (unable (cd_location c) e))
      | Ok temp => dest ← merge_entries dest temp; loadConfigsIntoMap dest configs
      end
  end.
End Load.

(** ** Validation *)

(** The embedded descriptions of the configuration and of the rules. *)
Class GoMetadata := { LoadConfigMetadata : res Metadata; LoadRulesMetadata : res Metadata }.

(** The value of a setting, replaced where it is the empty text. *)
Definition set_blank (section name v : string) (s : setting) : setting :=
  let in_section g :=
    match g with
    | (f, Leaf ty (VString "")) => if String.eqb (ft_Name f) name then (f, Leaf ty (VString v)) else g
    | g => g
    end in
  let at_top (g : fieldType * setting) :=
    match g with
    | (f, Struct fs) => if String.eqb (ft_Name f) section then (f, Struct (map in_section fs)) else g
    | g => g
    end in
  match s with Struct secs => Struct (map at_top secs) | s => s end.

(** A key that passes validation, where there is none. *)
Definition inject_keys (s : setting) : setting :=
  set_blank "OTelTracing" "APIKey" "InvalidHoneycombAPIKey"
    (set_blank "OTelMetrics" "APIKey" "InvalidHoneycombAPIKey" (set_blank "HoneycombLogger" "APIKey" "InvalidHoneycombAPIKey" s)).

Section Configs.
Context `{!GoFloat, !GoConfigText, !GoFetch, !GoDecode, !GoMetadata}.

(** Validated with as many steps as the contents nest. *)
Definition validate_all (m : Metadata) (vers : option string) (data : object) : option (list ValidationResult) :=
  Validate (height data) m vers data.

Definition prefixed {A} (what : string) (r : res A) : res A := match r with Ok x => Ok x | Err e => Err (what +:+ e) end.

(** The settings with their defaults and the options, keys injected, as a map again. *)
Definition hydrated (opts : CmdEnv) (configs : list configData) : res object :=
  let! config := loadConfigsInto decode_config zero_config configs in
  let! config := prefixed "loadConfigsInto unable to apply defaults: " (defaults_Set config.1) in
  let! config := prefixed "loadConfigsInto unable to apply command line options: " (ApplyTags opts config) in
  let! data := prefixed "loadConfigsInto unable to remarshal config: " (yaml_Marshal (inject_keys config)) in
  prefixed "validateConfig unable to reload hydrated config from buffer: " (load_map data FormatYAML).

Definition validateConfigs (opts : CmdEnv) (vers : option string) (configs : list configData)
    : option (res (list ValidationResult)) :=
  userData ← loadConfigsIntoMap [] configs;
  match userData with
  | Err e => Some (Err e)
  | Ok userData =>
      let userData := expandEnvVarsInValues os_Getenv userData in
      match LoadConfigMetadata with
      | Err e => Some (Err e)
      | Ok metadata =>
          result ← validate_all metadata vers userData;
          if HasErrors result then Some (Ok result)
          else
            match hydrated opts configs with
            | Err e => Some (Err e)
            | Ok rewritten =>
                finalResults ← validate_all metadata vers (expandEnvVarsInValues os_Getenv rewritten);
                Some (Ok (result ++ finalResults))
            end
      end
  end.

Definition validateRules (configs : list configData) : option (res (list ValidationResult)) :=
  userData ← loadConfigsIntoMap [] configs;
  match userData, LoadRulesMetadata with
  | Err e, _ | _, Err e => Some (Err e)
  | Ok userData, Ok metadata => Ok <$> ValidateRules (height userData) metadata userData
  end.

(** ** The settings *)

Definition applyConfigInto (opts : CmdEnv) (configs : list configData) : res (setting * string) :=
  let! loaded := loadConfigsInto decode_config zero_config configs in
  let! s := prefixed "applyConfigInto unable to apply defaults: " (defaults_Set loaded.1) in
  let! s := prefixed "applyConfigInto unable to apply command line options: " (ApplyTags opts s) in
  let! s := prefixed "applyConfigInto unable to expand environment variables in config: " (expandEnvVarsInConfig os_Getenv s) in
  Ok (s, loaded.2).
(** The rules are only loaded, into an empty structure: a file with no contents, which leaves a nil
    pointer, does not pass validation. *)
Definition new_rules : V2SamplerConfig := {| v2_RulesVersion := 0; v2_Samplers := ∅ |}.
Definition applyRulesInto (configs : list configData) : res (V2SamplerConfig * string) := loadConfigsInto decode_rules new_rules configs.
End Configs.

(** strconv.ParseInt, base 16, of so short a text. *)
Definition hex_value (c : ascii) : option Z :=
  let n := Z.of_N (N_of_ascii c) in
  if (48 <=? n) && (n <=? 57) then Some (n - 48)
  else if (97 <=? n) && (n <=? 102) then Some (n - 87)
  else if (65 <=? n) && (n <=? 70) then Some (n - 55)
  else None.
Fixpoint parse_hex (acc : Z) (s : string) : option Z :=
  match s with
  | EmptyString => Some acc
  | String c s => d ← hex_value c; parse_hex (16 * acc + d) s
  end.
Definition ParseHex (s : string) : option Z :=
  match s with
  | String "-" (String c r) => Z.opp <$> parse_hex 0 (String c r)
  | String "+" (String c r) => parse_hex 0 (String c r)
  | EmptyString => None
  | s => parse_hex 0 s
  end.

Definition ConfigHashMetrics (hash : string) : Z :=
  if (String.length hash <? 4)%nat then 0
  else default 0 (ParseHex (str_drop (String.length hash - 4) hash)).

(** ** The report of a load that found something *)

Record ConfigReport := mkReport {
  ConfigLocations : list string; ConfigResults : list ValidationResult;
  RulesLocations : list string; RulesResults : list ValidationResult }.

Definition report_HasErrors (e : ConfigReport) : bool := HasErrors (ConfigResults e) || HasErrors (RulesResults e).

Definition newline : string := String (ascii_of_nat 10) "".
Definition listed (rs : list ValidationResult) : string := str_concat ((λ r, "  " +:+ vr_Message r +:+ newline) <$> rs).
Definition report_Error (e : ConfigReport) : string :=
  let said := filter (λ r, vr_Message r ≠ "") (ConfigResults e) in
  let errors := filter (λ r, IsError r = true) said in
  let warnings := filter (λ r, IsError r = false) said in
  (if (0 <? length errors)%nat
   then "ERROR: Validation failed for config [" +:+ str_join ", " (ConfigLocations e) +:+ "]:" +:+ newline +:+ listed errors else "") +:+
  (if (0 <? length warnings)%nat
   then "WARNING: Configuration warnings for [" +:+ str_join ", " (ConfigLocations e) +:+ "]:" +:+ newline +:+ listed warnings +:+
        "  Please update your configuration following the latest documentation here: https://docs.honeycomb.io/manage-data-volume/sample/honeycomb-refinery/configure/" +:+ newline
   else "") +:+
  (if (0 <? length (RulesResults e))%nat
   then "ERROR: Validation failed for rules [" +:+ str_join ", " (RulesLocations e) +:+ "]:" +:+ newline +:+ listed (RulesResults e) else "").

(** ** A setting as the accessors have it *)

Section Contents.
Context (s : setting).
Definition text (section name : string) : string := match value_at s section name with Some (VString x) => x | _ => "" end.
Definition number (section name : string) : Z := match value_at s section name with Some (VInt x) => x | _ => 0 end.
Definition flag (section name : string) : bool := match value_at s section name with Some (VBool x) => x | _ => false end.
(** A DefaultTrue: nil or a boolean. *)
Definition flag_or_nil (section name : string) : option bool := match value_at s section name with Some (VBool x) => Some x | _ => None end.
Definition texts (section name : string) : list string :=
  match value_at s section name with Some (VList l) => omap as_string l | _ => [] end.
Definition text_map (section name : string) : gmap string string :=
  match value_at s section name with
  | Some (VMap l) => list_to_map (omap (λ kv, (λ v, (kv.1, v)) <$> as_string kv.2) l)
  | _ => ∅
  end.

Definition contents_of : configContents := {|
  General := {|
    gen_ConfigurationVersion := number "General" "ConfigurationVersion"; gen_MinRefineryVersion := text "General" "MinRefineryVersion";
    gen_DatasetPrefix := text "General" "DatasetPrefix"; gen_ConfigReloadInterval := number "General" "ConfigReloadInterval" |};
  Network := {|
    net_ListenAddr := text "Network" "ListenAddr"; net_PeerListenAddr := text "Network" "PeerListenAddr";
    net_HoneycombAPI := text "Network" "HoneycombAPI"; net_HTTPIdleTimeout := number "Network" "HTTPIdleTimeout";
    net_AdditionalHeaders := text_map "Network" "AdditionalHeaders" |};
  AccessKeys := {|
    ak_ReceiveKeys := texts "AccessKeys" "ReceiveKeys"; ak_SendKey := text "AccessKeys" "SendKey";
    ak_SendKeyMode := text "AccessKeys" "SendKeyMode"; ak_AcceptOnlyListedKeys := flag "AccessKeys" "AcceptOnlyListedKeys" |};
  Telemetry := {|
    tel_AddRuleReasonToTrace := flag "Telemetry" "AddRuleReasonToTrace";
    tel_AddSpanCountToRoot := flag_or_nil "Telemetry" "AddSpanCountToRoot";
    tel_AddCountsToRoot := flag "Telemetry" "AddCountsToRoot";
    tel_AddHostMetadataToTrace := flag_or_nil "Telemetry" "AddHostMetadataToTrace" |};
  Traces := {|
    tc_SendDelay := number "Traces" "SendDelay"; tc_BatchTimeout := number "Traces" "BatchTimeout";
    tc_TraceTimeout := number "Traces" "TraceTimeout"; tc_MaxBatchSize := number "Traces" "MaxBatchSize";
    tc_SendTicker := number "Traces" "SendTicker"; tc_SpanLimit := number "Traces" "SpanLimit";
    tc_MaxExpiredTraces := number "Traces" "MaxExpiredTraces" |};
  Debugging := {|
    dbg_DebugServiceAddr := text "Debugging" "DebugServiceAddr"; dbg_QueryAuthToken := text "Debugging" "QueryAuthToken";
    dbg_AdditionalErrorFields := texts "Debugging" "AdditionalErrorFields"; dbg_DryRun := flag "Debugging" "DryRun" |};
  Collection := {|
    col_PeerQueueSize := number "Collection" "PeerQueueSize"; col_IncomingQueueSize := number "Collection" "IncomingQueueSize";
    col_AvailableMemory := number "Collection" "AvailableMemory"; col_HealthCheckTimeout := number "Collection" "HealthCheckTimeout";
    col_MaxMemoryPercentage := number "Collection" "MaxMemoryPercentage"; col_MaxAlloc := number "Collection" "MaxAlloc";
    col_ShutdownDelay := number "Collection" "ShutdownDelay"; col_WorkerCount := number "Collection" "WorkerCount" |};
  Specialized := {|
    spc_EnvironmentCacheTTL := number "Specialized" "EnvironmentCacheTTL";
    spc_CompressPeerCommunication := flag_or_nil "Specialized" "CompressPeerCommunication";
    spc_AdditionalAttributes := text_map "Specialized" "AdditionalAttributes" |};
  IDFieldNames := {| id_TraceNames := texts "IDFieldNames" "TraceNames"; id_ParentNames := texts "IDFieldNames" "ParentNames" |};
  SampleCache := {|
    sc_KeptSize := number "SampleCache" "KeptSize"; sc_DroppedSize := number "SampleCache" "DroppedSize";
    sc_SizeCheckInterval := number "SampleCache" "SizeCheckInterval"; sc_WorkerCount := number "SampleCache" "WorkerCount" |};
  StressRelief := {|
    sr_Mode := text "StressRelief" "Mode"; sr_ActivationLevel := number "StressRelief" "ActivationLevel";
    sr_DeactivationLevel := number "StressRelief" "DeactivationLevel"; sr_SamplingRate := number "StressRelief" "SamplingRate";
    sr_MinimumActivationDuration := number "StressRelief" "MinimumActivationDuration" |} |}.
End Contents.

(** ** A configuration from its files *)

Section InUse.
Context `{!GoFloat, !GoConfigText, !GoFetch, !GoDecode, !GoMetadata}.
Context (opts : CmdEnv) (NoValidate : bool) (procs : Z).

(** The load as Config has it; a panic there is one more load that fails. *)
Definition or_panic {A} (r : option (res A)) : res A := default (Err "panic") r.
Definition applyConfig (configs : list configData) : res (configContents * string) :=
  let! r := applyConfigInto opts configs in Ok (contents_of r.1, r.2).

Definition load_config (vers : option string) (cData rulesData : list configData) : option fileConfig * option load_error :=
  newFileConfig IsError NoValidate (λ c, or_panic (validateConfigs opts vers c)) (λ r, or_panic (validateRules r))
    applyConfig applyRulesInto procs cData rulesData.
(** A reload does not tell the version. *)
Definition reload_config (ConfigLocations RulesLocations : list string) (f : fileConfig) (optData : list configData * list configData) :=
  Reload IsError (newConfigAndRules ConfigLocations RulesLocations) NoValidate (λ c, or_panic (validateConfigs opts None c))
    (λ r, or_panic (validateRules r)) applyConfig applyRulesInto procs f optData.
End InUse.
