(* ===== verification/LoadFacts.v ===== *)
(** What a configuration in use has been through: the files of Load merged, validated (ValidateFacts),
    and made settings (Settings). *)
From Stdlib Require Import Ascii.
From S2P Require Import Prelude GoValue SamplerConfig Config MemorySize Validate ValidateFacts Settings Load.

(** ** Merging *)

Lemma lookup_set_entry m k v k' : lookup_entry (set_entry m k v) k' = if decide (k = k') then Some v else lookup_entry m k'.
Proof.
  unfold lookup_entry. induction m as [|[k1 v1] m IH]; cbn [set_entry].
  - rewrite filter_cons. cbn [fst]. by destruct (decide (k = k')).
  - destruct (String.eqb_spec k1 k) as [->|Hne]; rewrite !filter_cons; cbn [fst]; [by destruct (decide (k = k'))|].
    destruct (decide (k1 = k')) as [->|]; [by destruct (decide (k = k'))|exact IH].
Qed.

(** A value one level down: what a file says of a setting. *)
Definition entry (m : object) (k kk : string) : option value :=
  match lookup_entry m k with Some (VMap l) => lookup_entry l kk | _ => None end.

(** Every section is a map, and keys occur once. *)
Definition plain (m : object) : Prop := NoDup m.*1 ∧ ∀ k v, (k, v) ∈ m → ∃ l, v = VMap l ∧ NoDup l.*1.
Definition sections (m : object) : Prop := ∀ k v, lookup_entry m k = Some v → ∃ l, v = VMap l.

Lemma lookup_entry_cons k v m k' : lookup_entry ((k, v) :: m) k' = if decide (k = k') then Some v else lookup_entry m k'.
Proof. unfold lookup_entry. rewrite filter_cons. cbn [fst]. by destruct (decide (k = k')). Qed.

Lemma lookup_notin m k : k ∉ m.*1 → lookup_entry m k = None.
Proof.
  induction m as [|[k1 v1] m IH]; [done|]. rewrite fmap_cons, not_elem_of_cons. intros [Hne Hm].
  rewrite lookup_entry_cons, decide_False by (cbn in Hne; congruence). by apply IH.
Qed.

Lemma lookup_set_entries vm old k :
  NoDup vm.*1 → lookup_entry (set_entries old vm) k = match lookup_entry vm k with Some v => Some v | None => lookup_entry old k end.
Proof.
  unfold set_entries. revert old. induction vm as [|[k1 v1] vm IH]; intros old; [done|]. rewrite fmap_cons. intros [Hn Hd]%NoDup_cons.
  cbn [foldl fst snd]. rewrite (IH _ Hd), lookup_entry_cons, lookup_set_entry. destruct (decide (k1 = k)) as [<-|]; [|done].
  by rewrite (lookup_notin vm k1 Hn).
Qed.

Lemma merge_entry_spec dest k l :
  sections dest → NoDup l.*1 → ∃ dest', merge_entry dest (k, VMap l) = Some dest' ∧ sections dest' ∧
    ∀ k' kk, entry dest' k' kk = if decide (k = k') then match lookup_entry l kk with Some v => Some v | None => entry dest k' kk end
                                 else entry dest k' kk.
Proof.
  intros Hs Hd. unfold merge_entry. cbn [fst snd].
  assert (Hset : ∀ new, sections (set_entry dest k (VMap new))).
  { intros new k' v. rewrite lookup_set_entry. destruct (decide (k = k')); [by intros [= <-]; eexists|apply Hs]. }
  destruct (lookup_entry dest k) as [v|] eqn:E.
  - destruct (Hs _ _ E) as [old ->]. eexists. split; [reflexivity|]. split; [done|]. intros k' kk. unfold entry.
    rewrite lookup_set_entry. destruct (decide (k = k')) as [<-|]; [|done]. by rewrite E, lookup_set_entries.
  - eexists. split; [reflexivity|]. split; [done|]. intros k' kk. unfold entry.
    rewrite lookup_set_entry. destruct (decide (k = k')) as [<-|]; [|done]. rewrite E. by destruct (lookup_entry l kk).
Qed.

Lemma merge_entries_spec dest temp :
  sections dest → plain temp → ∃ dest', merge_entries dest temp = Some dest' ∧ sections dest' ∧
    ∀ k kk, entry dest' k kk = match entry temp k kk with Some v => Some v | None => entry dest k kk end.
Proof.
  revert dest. induction temp as [|[k v] temp IH]; intros dest Hs [Hn Hp]; [by exists dest|].
  rewrite fmap_cons in Hn. apply NoDup_cons in Hn as [Hk Hn]. destruct (Hp k v) as (l & -> & Hl); [left|].
  destruct (merge_entry_spec dest k l Hs Hl) as (d1 & E1 & Hs1 & He1). cbn [merge_entries]. rewrite E1. cbn.
  destruct (IH d1 Hs1) as (d2 & E2 & Hs2 & He2); [split; [done|]; intros k' v' Hin; apply (Hp k' v'); by right|].
  exists d2. split; [done|]. split; [done|]. intros k' kk. rewrite He2, He1. unfold entry. rewrite lookup_entry_cons.
  destruct (decide (k = k')) as [<-|]; [|done]. by rewrite (lookup_notin temp k Hk).
Qed.

(** What the files say of a setting, the last one that says anything. *)
Definition last_said (files : list object) (k kk : string) : option value := last (omap (λ m, entry m k kk) files).

Section Files.
Context `{!GoDecode}.

Definition decoded (configs : list configData) (files : list object) : Prop :=
  Forall2 (λ c m, load_map (cd_data c) (cd_format c) = Ok m) configs files.

(** Files are merged setting by setting, the last one winning. *)
Lemma last_wins configs files dest :
  decoded configs files → Forall plain files → sections dest →
  ∃ user, loadConfigsIntoMap dest configs = Some (Ok user) ∧
    ∀ k kk, entry user k kk = match last_said files k kk with Some v => Some v | None => entry dest k kk end.
Proof.
  intros Hd. revert dest. induction Hd as [|c m configs files Hm _ IH]; intros dest Hp Hs; [by exists dest|].
  apply Forall_cons in Hp as [Hp Hps]. cbn [loadConfigsIntoMap]. rewrite Hm.
  destruct (merge_entries_spec dest m Hs Hp) as (d1 & E1 & Hs1 & He1). rewrite E1. cbn.
  destruct (IH d1 Hps Hs1) as (user & E & He). exists user. split; [done|]. intros k kk. rewrite He, He1. unfold last_said.
  cbn [omap list_omap]. destruct (entry m k kk) as [v|] eqn:Em; [|done]. rewrite last_cons. by destruct (last _).
Qed.
End Files.

(** ** Files hold a key once *)

Lemma set_entry_keys m k v x : x ∈ (set_entry m k v).*1 ↔ x = k ∨ x ∈ m.*1.
Proof.
  induction m as [|[k1 v1] m IH]; cbn [set_entry].
  - rewrite !fmap_cons. cbn. rewrite list_elem_of_singleton. split; [by left|]. by intros [|?%elem_of_nil].
  - destruct (String.eqb_spec k1 k) as [->|]; rewrite !fmap_cons, !elem_of_cons; cbn; [tauto|]. rewrite IH. tauto.
Qed.

Lemma set_entry_nodup m k v : NoDup m.*1 → NoDup (set_entry m k v).*1.
Proof.
  induction m as [|[k1 v1] m IH]; cbn [set_entry]; [by intros _; apply NoDup_singleton|].
  rewrite fmap_cons. intros [Hk Hm]%NoDup_cons. destruct (String.eqb_spec k1 k) as [->|Hne]; rewrite fmap_cons; [by apply NoDup_cons|].
  apply NoDup_cons. split; [|by apply IH]. rewrite set_entry_keys. cbn in *. intros [?|?]; [done|by destruct Hk].
Qed.

Lemma merge_entry_nodup dest kv dest' : merge_entry dest kv = Some dest' → NoDup dest.*1 → NoDup dest'.*1.
Proof.
  unfold merge_entry. intros E Hd. destruct kv as [k v]. cbn [fst snd] in E. repeat case_match; simplify_eq; try done; by apply set_entry_nodup.
Qed.

Lemma merge_entries_nodup temp dest dest' : merge_entries dest temp = Some dest' → NoDup dest.*1 → NoDup dest'.*1.
Proof.
  revert dest. induction temp as [|kv temp IH]; intros dest; cbn [merge_entries]; [by intros [= ->]|].
  destruct (merge_entry dest kv) as [d|] eqn:E; [|done]. cbn. intros E' Hd. eapply IH; [done|]. by eapply merge_entry_nodup.
Qed.

Lemma loaded_nodup `{!GoDecode} configs dest user :
  loadConfigsIntoMap dest configs = Some (Ok user) → NoDup dest.*1 → NoDup user.*1.
Proof.
  revert dest. induction configs as [|c configs IH]; intros dest; cbn [loadConfigsIntoMap]; [by intros [= ->]|].
  destruct (load_map _ _) as [temp|]; [|done]. destruct (merge_entries dest temp) as [d|] eqn:E; [|done]. cbn.
  intros E' Hd. eapply IH; [done|]. by eapply merge_entries_nodup.
Qed.

(** ** Validation *)

Section Accepted.
Context `{!GoFloat, !GoConfigText, !GoFetch, !GoDecode, !GoMetadata}.
Context (md rmd : Metadata) (Hmd : LoadConfigMetadata = Ok md) (Hrmd : LoadRulesMetadata = Ok rmd)
  (Hwf : wf_metadata md) (Hrwf : wf_metadata rmd).

(** The merged files, the environment expanded. *)
Definition expanded (user : object) : object := expandEnvVarsInValues os_Getenv user.

Lemma validateConfigs_accepts opts vers configs rs :
  validateConfigs opts vers configs = Some (Ok rs) → HasErrors rs = false →
  ∃ user hyd, loadConfigsIntoMap [] configs = Some (Ok user) ∧ conforms md vers (expanded user) ∧
    hydrated opts configs = Ok hyd ∧ conforms md vers (expanded hyd).
Proof.
  unfold validateConfigs. destruct (loadConfigsIntoMap [] configs) as [[user|]|]; [|done..]. cbn [mbind option_bind]. rewrite Hmd.
  destruct (validate_total md vers Hwf _ (expanded user) (le_n _)) as (rs1 & E1 & Hc1). unfold validate_all. unfold expanded in E1. rewrite E1. cbn [mbind option_bind].
  destruct (HasErrors rs1) eqn:Eh; [by intros [= <-]; rewrite Eh|]. destruct (hydrated opts configs) as [hyd|]; [|done].
  destruct (validate_total md vers Hwf _ (expanded hyd) (le_n _)) as (rs2 & E2 & Hc2). unfold expanded in E2. rewrite E2. cbn.
  intros [= <-] [_ Hh]%HasErrors_app. exists user, hyd. split_and!; [done|by apply Hc1|done|by apply Hc2].
Qed.

(** Validation itself never panics. *)
Lemma validateConfigs_total opts vers configs : loadConfigsIntoMap [] configs ≠ None → validateConfigs opts vers configs ≠ None.
Proof.
  intros Hl. unfold validateConfigs. destruct (loadConfigsIntoMap [] configs) as [[user|]|]; [|done..]. cbn [mbind option_bind]. rewrite Hmd.
  destruct (validate_total md vers Hwf _ (expanded user) (le_n _)) as (rs1 & E1 & _). unfold validate_all. unfold expanded in E1. rewrite E1. cbn [mbind option_bind].
  destruct (HasErrors rs1); [done|]. destruct (hydrated opts configs) as [hyd|]; [|done].
  destruct (validate_total md vers Hwf _ (expanded hyd) (le_n _)) as (rs2 & E2 & _). unfold expanded in E2. by rewrite E2.
Qed.

Lemma validateRules_accepts configs rs :
  validateRules configs = Some (Ok rs) → HasErrors rs = false →
  ∃ rules, loadConfigsIntoMap [] configs = Some (Ok rules) ∧ rules_conform rmd rules.
Proof.
  unfold validateRules. destruct (loadConfigsIntoMap [] configs) as [[rules|]|] eqn:El; cbn [mbind option_bind]; [|by destruct LoadRulesMetadata|done].
  rewrite Hrmd. destruct (rules_decided rmd _ rules Hrwf (loaded_nodup _ _ _ El (NoDup_nil_2)) (le_n _)) as (rs1 & E1 & Hc). rewrite E1. cbn.
  intros [= <-] Hh. exists rules. split; [done|]. by apply Hc.
Qed.
End Accepted.

(** ** A configuration in use *)

Lemma no_errors rs : (0 <? length (filter (λ r, IsError r = true) rs))%nat = false → HasErrors rs = false.
Proof.
  intros Hl. unfold HasErrors. induction rs as [|r rs IH]; [done|]. rewrite filter_cons in Hl. cbn [existsb].
  destruct (decide (IsError r = true)) as [Hr|Hr]; [done|]. apply not_true_is_false in Hr. rewrite Hr. by apply IH.
Qed.

Lemma validated_ok vC vR (cData rData : list configData) w :
  validated IsError false vC vR cData rData = inl w →
  ∃ rs rrs, vC cData = Ok rs ∧ HasErrors rs = false ∧ vR rData = Ok rrs ∧ HasErrors rrs = false.
Proof.
  unfold validated. destruct (vC cData) as [rs|]; [|done]. destruct (vR rData) as [rrs|]; [|done].
  destruct (_ || _) eqn:E; [done|]. apply orb_false_iff in E as [E1 E2]. intros _. exists rs, rrs. by split_and!; [|apply no_errors| |].
Qed.

Lemma or_panic_ok {A} (r : option (res A)) x : or_panic r = Ok x → r = Some (Ok x).
Proof. by destruct r as [[]|]; cbn; [intros [= ->]|..]. Qed.

Section InUse.
Context `{!GoFloat, !GoConfigText, !GoFetch, !GoDecode, !GoMetadata}.
Context (md rmd : Metadata) (opts : CmdEnv) (procs : Z).

(** What the files, the options and the environment make of the settings. *)
Definition settled_by (cData : list configData) (c : configContents) : Prop :=
  ∃ decoded defaulted, load_all decode_config zero_config cData = Ok decoded ∧ defaults_Set decoded = Ok defaulted ∧
    (has_shape defaulted → c = set_WorkerCount procs (contents_of (expand_setting os_Getenv (with_options opts "" defaulted)))).

(** What a configuration in use is to its files. *)
Definition in_use (vers : option string) (cData rData : list configData) (cfg : fileConfig) : Prop :=
  (∃ user hyd, loadConfigsIntoMap [] cData = Some (Ok user) ∧ conforms md vers (expanded user) ∧
     hydrated opts cData = Ok hyd ∧ conforms md vers (expanded hyd)) ∧
  (∃ rules, loadConfigsIntoMap [] rData = Some (Ok rules) ∧ rules_conform rmd rules) ∧
  settled_by cData (mainConfig cfg) ∧ load_all decode_rules new_rules rData = Ok (rulesConfig cfg) ∧
  GetHashes cfg = (md5_hex (str_concat (cd_data <$> cData)), md5_hex (str_concat (cd_data <$> rData))).

Lemma applyConfig_settled cData c hash :
  wf_CmdEnv opts → applyConfig opts cData = Ok (c, hash) →
  settled_by cData (set_WorkerCount procs c) ∧ hash = md5_hex (str_concat (cd_data <$> cData)).
Proof.
  intros Ho. unfold applyConfig, applyConfigInto, loadConfigsInto. destruct (load_all _ _ cData) as [d|] eqn:El; [|done]. cbn [res_bind fst snd].
  destruct (defaults_Set d) as [s|] eqn:Ed; [|done]. cbn [prefixed res_bind]. destruct (ApplyTags opts s) as [s1|] eqn:Ea; [|done].
  cbn [prefixed res_bind]. destruct (expandEnvVarsInConfig os_Getenv s1) as [s2|] eqn:Ee; [|done]. cbn. intros [= <- <-].
  split; [|done]. exists d, s. split_and!; [done..|]. intros Hs. destruct (options_applied opts s Ho Hs) as [Ea' Hs'].
  rewrite Ea in Ea'. injection Ea' as ->. destruct (expand_shape os_Getenv _ Hs') as [Ee' _]. rewrite Ee in Ee'. by injection Ee' as ->.
Qed.

Lemma newFileConfig_in_use vers cData rData cfg e :
  LoadConfigMetadata = Ok md → LoadRulesMetadata = Ok rmd → wf_metadata md → wf_metadata rmd → wf_CmdEnv opts →
  load_config opts false procs vers cData rData = (Some cfg, e) → in_use vers cData rData cfg.
Proof.
  intros Hmd Hrmd Hw Hrw Ho. unfold load_config, newFileConfig. destruct (validated _ _ _ _ _ _) as [w|] eqn:Ev; [|done].
  apply validated_ok in Ev as (rs & rrs & Ers%or_panic_ok & Hrs & Errs%or_panic_ok & Hrrs).
  destruct (applyConfig opts cData) as [[c hash]|] eqn:Ea; [|done].
  destruct (applyRulesInto rData) as [[r rhash]|] eqn:Er; [|done]. intros [= <- _].
  destruct (applyConfig_settled cData c hash Ho Ea) as [Hset ->].
  unfold applyRulesInto, loadConfigsInto in Er. destruct (load_all decode_rules _ rData) as [r'|] eqn:El; [|done]. cbn in Er. injection Er as -> <-.
  split_and!; [by eapply validateConfigs_accepts|by eapply validateRules_accepts|done..].
Qed.
End InUse.

Section Correct.
Context `{!GoFloat, !GoConfigText, !GoFetch, !GoDecode, !GoMetadata}.

(** A reload that fails, or finds nothing new, leaves the configuration as it was. *)
Lemma reload_in_use md rmd opts procs cLocs rLocs f optData f' calls e :
  LoadConfigMetadata = Ok md → LoadRulesMetadata = Ok rmd → wf_metadata md → wf_metadata rmd → wf_CmdEnv opts →
  reload_config opts false procs cLocs rLocs f optData = (f', calls, e) →
  f' = f ∧ calls = [] ∨
  e = None ∧ ∃ cData rData, newConfigAndRules cLocs rLocs = Ok (cData, rData) ∧
    in_use md rmd opts procs None (cData ++ optData.1) (rData ++ optData.2) f'.
Proof.
  intros Hmd Hrmd Hw Hrw Ho. unfold reload_config, Reload. destruct (newConfigAndRules cLocs rLocs) as [[cData rData]|]; [|intros [= <- <- <-]; by left].
  destruct (newFileConfig _ _ _ _ _ _ _ (cData ++ optData.1) (rData ++ optData.2)) as [[cfg|] [e'|]] eqn:E; try (intros [= <- <- <-]; by left).
  destruct (_ && _); intros [= <- <- <-]; [by left|]. right. split; [done|]. exists cData, rData. split; [done|].
  by apply (newFileConfig_in_use _ _ _ _ _ _ _ _ _ Hmd Hrmd Hw Hrw Ho) in E.
Qed.

(** The load of the files and of what is added to them that a reload makes fails so. *)
Definition load_fails (opts : CmdEnv) procs cLocs rLocs (optData : list configData * list configData)
    (e : load_error (ValidationResult := ValidationResult)) : Prop :=
  match newConfigAndRules cLocs rLocs with
  | Err e' => e = LoadFailed e'
  | Ok (cData, rData) => (load_config opts false procs None (cData ++ optData.1) (rData ++ optData.2)).2 = Some e
  end.

(** The hashes of the texts of two lists of files. *)
Definition hashes_of (cData rData : list configData) : string * string :=
  (md5_hex (str_concat (cd_data <$> cData)), md5_hex (str_concat (cd_data <$> rData))).

Lemma newFileConfig_answers opts procs vers cData rData : load_config opts false procs vers cData rData ≠ (None, None).
Proof.
  unfold load_config, newFileConfig. destruct (validated _ _ _ _ _ _); [|done].
  destruct (applyConfig _ _) as [[??]|]; [|done]. by destruct (applyRulesInto _) as [[??]|].
Qed.

(** Each way a reload can go: it fails as the load does; or the load has the hashes of the
    configuration in use, which stays; or it takes over and every callback is called, once, in order. *)
Lemma reload_outcome md rmd opts procs cLocs rLocs f optData f' calls e :
  LoadConfigMetadata = Ok md → LoadRulesMetadata = Ok rmd → wf_metadata md → wf_metadata rmd → wf_CmdEnv opts →
  reload_config opts false procs cLocs rLocs f optData = (f', calls, e) →
  match e with
  | Some e => load_fails opts procs cLocs rLocs optData e ∧ f' = f ∧ calls = []
  | None => (∀ e, ¬ load_fails opts procs cLocs rLocs optData e) ∧
      ∃ cData rData, newConfigAndRules cLocs rLocs = Ok (cData, rData) ∧
        let hashes := hashes_of (cData ++ optData.1) (rData ++ optData.2) in
        if decide (GetHashes f = hashes) then f' = f ∧ calls = []
        else in_use md rmd opts procs None (cData ++ optData.1) (rData ++ optData.2) f' ∧ callbacks f' = callbacks f ∧
          calls = (λ cb, (cb, hashes.1, hashes.2)) <$> callbacks f
  end.
Proof.
  intros Hmd Hrmd Hw Hrw Ho. unfold reload_config, Reload, load_fails.
  destruct (newConfigAndRules cLocs rLocs) as [[cData rData]|e']; [|intros [= <- <- <-]; done].
  fold (load_config opts false procs None (cData ++ optData.1) (rData ++ optData.2)).
  pose proof (newFileConfig_answers opts procs None (cData ++ optData.1) (rData ++ optData.2)) as Hne.
  destruct (load_config opts false procs None (cData ++ optData.1) (rData ++ optData.2)) as [[cfg|] [e'|]] eqn:E;
    [intros [= <- <- <-]; done| |intros [= <- <- <-]; done|done].
  pose proof (newFileConfig_in_use _ _ _ _ _ _ _ _ _ Hmd Hrmd Hw Hrw Ho E) as Hin.
  assert (Hh : GetHashes cfg = hashes_of (cData ++ optData.1) (rData ++ optData.2)) by apply Hin.
  unfold GetHashes in Hh |- *. intros Er. assert (e = None) as -> by (destruct (_ && _); by injection Er).
  split; [done|]. exists cData, rData. split; [done|]. cbn zeta. rewrite <-Hh. cbn [fst snd].
  destruct (decide _) as [Eh|Eh].
  - injection Eh as E1 E2. rewrite E1, E2, !String.eqb_refl in Er. cbn in Er. by injection Er as -> ->.
  - destruct (String.eqb_spec (mainHash f) (mainHash cfg)) as [E1|]; [destruct (String.eqb_spec (rulesHash f) (rulesHash cfg)) as [E2|]|].
    + by rewrite E1, E2 in Eh.
    + cbn in Er. injection Er as <- <-. split_and!; [exact Hin|done..].
    + cbn in Er. injection Er as <- <-. split_and!; [exact Hin|done..].
Qed.

(** C11: what a configuration in use has been through.  When validation is on, whatever a load of the
    files, or a reload that changes the configuration, puts in use conforms: the files, merged setting
    by setting so that the last one wins, conform to the metadata once the environment is expanded,
    and again once defaults and options are applied; the rules conform too; and the settings in use
    are those the files decode to, with their defaults, the options and the environment, their hashes
    those of the files.  A reload that puts nothing new in use leaves the configuration as it was. *)
Theorem configuration_in_use md rmd opts procs :
  LoadConfigMetadata = Ok md → LoadRulesMetadata = Ok rmd → wf_metadata md → wf_metadata rmd → wf_CmdEnv opts →
  (∀ vers cData rData cfg e, load_config opts false procs vers cData rData = (Some cfg, e) →
     in_use md rmd opts procs vers cData rData cfg ∧
     ∀ files, decoded cData files → Forall plain files →
       ∃ user, loadConfigsIntoMap [] cData = Some (Ok user) ∧ ∀ k kk, entry user k kk = last_said files k kk) ∧
  (∀ cLocs rLocs f optData, let '(f', calls, _) := reload_config opts false procs cLocs rLocs f optData in
     f' = f ∧ calls = [] ∨
     ∃ cData rData, newConfigAndRules cLocs rLocs = Ok (cData, rData) ∧
       in_use md rmd opts procs None (cData ++ optData.1) (rData ++ optData.2) f').
Proof.
  intros Hmd Hrmd Hw Hrw Ho. split.
  - intros vers cData rData cfg e E. split; [by eapply newFileConfig_in_use|]. intros files Hd Hp.
    destruct (last_wins cData files [] Hd Hp) as (user & El & He); [by intros k v|]. exists user. split; [done|].
    intros k kk. rewrite He. by destruct (last_said files k kk).
  - intros cLocs rLocs f optData. destruct (reload_config _ _ _ _ _ f optData) as [[f' calls] e] eqn:E.
    destruct (reload_in_use _ _ _ _ _ _ _ _ _ _ _ Hmd Hrmd Hw Hrw Ho E) as [?|[_ ?]]; [by left|by right].
Qed.
End Correct.

(** Once a configuration only has warnings it is taken at the start, and refused at every reload. *)
Lemma warnings_refuse_reload `{!GoFloat, !GoConfigText, !GoFetch, !GoDecode, !GoMetadata} opts procs cLocs rLocs cData rData cfg e f :
  newConfigAndRules cLocs rLocs = Ok (cData, rData) → load_config opts false procs None cData rData = (Some cfg, Some e) →
  reload_config opts false procs cLocs rLocs f ([], []) = (f, [], Some e).
Proof. unfold load_config, reload_config, Reload. intros -> E. by rewrite !app_nil_r, E. Qed.

(** ** Two files *)

Module LoadExample.
Export ValidateExample SettingsExample.
#[local] Existing Instance example_float.

(** Files by their paths; the decoder knows the contents of each. *)
#[export] Instance fetch : GoFetch := {|
  url_Parse_path u := Ok ("", u);
  os_ReadFile path := Ok path;
  os_Getenv name := if String.eqb name "SIZE" then "512MiB" else "";
  http_Get _ _ := Err "no network";
|}.
Definition base : list (string * value) := [("Collection", VMap [("CacheCapacity", VString "1MiB"); ("Workers", VInt 1)])].
Definition over : list (string * value) := [("Collection", VMap [("CacheCapacity", VString "${SIZE}")])].
#[export] Instance decoders : GoDecode := {|
  decode_map _ data :=
    if String.eqb data "/base.yaml" then Ok base else if String.eqb data "/over.yaml" then Ok over
    else if String.eqb data "/rules.yaml" then Ok rules else if String.eqb data "hydrated" then Ok base else Err "no such file";
  decode_config _ _ s := Ok s;
  decode_rules _ _ r := Ok r;
  defaults_Set s := Ok s;
  yaml_Marshal _ := Ok "hydrated";
  md5_hex s := s;
|}.
#[export] Instance metadata : GoMetadata := {| LoadConfigMetadata := Ok meta; LoadRulesMetadata := Ok meta |}.

Definition files : list configData := Eval vm_compute in default [] (match getConfigDataForLocations [" /base.yaml"; "/over.yaml"] with Ok l => Some l | Err _ => None end).
Definition rule_files : list configData := Eval vm_compute in default [] (match getConfigDataForLocations ["/rules.yaml"] with Ok l => Some l | Err _ => None end).

(** A section that is a text in one file and a map in the next is the panic. *)
Lemma merge_panics : merge_entries [("Collection", VString "")] base = None.
Proof. done. Qed.

Lemma plain_files : Forall plain [base; over].
Proof.
  assert (Hp : ∀ l : list (string * value), NoDup l.*1 → plain [("Collection", VMap l)]).
  { intros l Hl. split; [apply NoDup_singleton|]. intros k v [= -> ->]%list_elem_of_singleton. by exists l. }
  repeat constructor; try apply Hp; by apply (bool_decide_unpack _); vm_compute.
Qed.

Lemma configuration_in_use_witness :
  ∃ cfg user, load_config no_options false 4 (Some "v3.0.0") files rule_files = (Some cfg, None) ∧
    in_use meta meta no_options 4 (Some "v3.0.0") files rule_files cfg ∧
    loadConfigsIntoMap [] files = Some (Ok user) ∧ entry user "Collection" "CacheCapacity" = Some (VString "${SIZE}") ∧
    entry user "Collection" "Workers" = Some (VInt 1).
Proof.
  assert (Ho : wf_CmdEnv no_options) by (unfold wf_CmdEnv; repeat first [reflexivity|econstructor]).
  assert (Em : LoadConfigMetadata = Ok meta) by reflexivity. assert (Er : LoadRulesMetadata = Ok meta) by reflexivity.
  destruct (configuration_in_use meta meta no_options 4 Em Er meta_wf meta_wf Ho) as [Hl _].
  assert (E : is_Some (load_config no_options false 4 (Some "v3.0.0") files rule_files).1 ∧
              (load_config no_options false 4 (Some "v3.0.0") files rule_files).2 = None) by (vm_compute; split; [by eexists|done]).
  destruct (load_config no_options false 4 (Some "v3.0.0") files rule_files) as [[cfg|] e] eqn:Ec; [|by destruct E as [[] _]].
  destruct E as [_ E]. cbn in E. subst e. destruct (Hl _ _ _ _ _ Ec) as [Hin Hw].
  destruct (Hw [base; over]) as (user & Eu & Hu); [repeat constructor|exact plain_files|].
  exists cfg, user. split_and!; [done..| |]; rewrite Hu; by vm_compute.
Defined.
End LoadExample.
