(* ===== verification/Accessors.v ===== *)
(** config/file_config.go: the accessors of the settings that Config does not hold, and what the rest
    of the program makes of them: the addresses a router listens on, and the parts main.go puts
    together.

    The settings are those of Settings; [text], [number] and the like read one by its section and its
    name (Load).  An accessor's lock is left out: a reload replaces the settings as a whole. *)
From Stdlib Require Import Ascii.
From S2P Require Import Prelude Net GoValue SamplerConfig Config MemorySize Validate ValidateFacts Settings Load.

Implicit Types (s : setting).

(** ** Addresses *)

(** An address that is no host and port reads as blank. *)
Definition usable (addr : string) : string := match SplitHostPort addr with Ok _ => addr | Err _ => "" end.

Definition GetListenAddr s : string := usable (text s "Network" "ListenAddr").
Definition GetPeerListenAddr s : string := usable (text s "Network" "PeerListenAddr").
Definition GetHTTPIdleTimeout s : Z := number s "Network" "HTTPIdleTimeout".
Definition GetGRPCEnabled s : bool := DefaultTrue_Get (flag_or_nil s "GRPCServerParameters" "Enabled").
(** It is optional. *)
Definition GetGRPCListenAddr s : string :=
  let addr := text s "GRPCServerParameters" "ListenAddr" in if negb (String.eqb addr "") then usable addr else addr.
Definition GetDebugServiceAddr s : string := usable (text s "Debugging" "DebugServiceAddr").

Record GRPCServerParameters := mkGRPC {
  grpc_Enabled : option bool; grpc_ListenAddr : string; grpc_MaxConnectionIdle : Z; grpc_MaxConnectionAge : Z;
  grpc_MaxConnectionAgeGrace : Z; grpc_KeepAlive : Z; grpc_KeepAliveTimeout : Z; grpc_MaxSendMsgSize : Z; grpc_MaxRecvMsgSize : Z }.
Definition GetGRPCConfig s : GRPCServerParameters :=
  let n := number s "GRPCServerParameters" in
  mkGRPC (flag_or_nil s "GRPCServerParameters" "Enabled") (text s "GRPCServerParameters" "ListenAddr") (n "MaxConnectionIdle")
    (n "MaxConnectionAge") (n "MaxConnectionAgeGrace") (n "KeepAlive") (n "KeepAliveTimeout") (n "MaxSendMsgSize") (n "MaxRecvMsgSize").

(** What a router listens on: HTTP, and gRPC when it is a router of incoming traffic. *)
Definition listening (incoming : bool) s : string * option string :=
  let '(listenAddr, grpcAddr) := if incoming then (GetListenAddr s, GetGRPCListenAddr s) else (GetPeerListenAddr s, "") in
  (listenAddr, if GetGRPCEnabled s && (0 <? String.length grpcAddr)%nat then Some grpcAddr else None).

(** ** Peers and Redis *)

Definition GetPeerManagementType s : string := text s "PeerManagement" "Type".
Definition GetPeers s : list string := texts s "PeerManagement" "Peers".
Definition GetIdentifierInterfaceName s : string := text s "PeerManagement" "IdentifierInterfaceName".
Definition GetUseIPV6Identifier s : bool := flag s "PeerManagement" "UseIPV6Identifier".
Definition GetRedisIdentifier s : string := text s "PeerManagement" "Identifier".

Record RedisPeerManagementConfig := mkRedis {
  rd_Host : string; rd_ClusterHosts : list string; rd_Username : string; rd_Password : string; rd_AuthCode : string;
  rd_ClusterName : string; rd_Prefix : string; rd_Database : Z; rd_UseTLS : bool; rd_UseTLSInsecure : bool; rd_Timeout : Z }.
Definition GetRedisPeerManagement s : RedisPeerManagementConfig :=
  let t := text s "RedisPeerManagement" in
  mkRedis (t "Host") (texts s "RedisPeerManagement" "ClusterHosts") (t "Username") (t "Password") (t "AuthCode") (t "ClusterName")
    (t "Prefix") (number s "RedisPeerManagement" "Database") (flag s "RedisPeerManagement" "UseTLS")
    (flag s "RedisPeerManagement" "UseTLSInsecure") (number s "RedisPeerManagement" "Timeout").
Definition GetRedisHost s : string := text s "RedisPeerManagement" "Host".
Definition GetRedisClusterHosts s : list string := texts s "RedisPeerManagement" "ClusterHosts".
Definition GetRedisUsername s : string := text s "RedisPeerManagement" "Username".
Definition GetRedisPrefix s : string := text s "RedisPeerManagement" "Prefix".
Definition GetRedisPassword s : string := text s "RedisPeerManagement" "Password".
Definition GetRedisAuthCode s : string := text s "RedisPeerManagement" "AuthCode".
Definition GetRedisDatabase s : Z := number s "RedisPeerManagement" "Database".
Definition GetUseTLS s : bool := flag s "RedisPeerManagement" "UseTLS".
Definition GetUseTLSInsecure s : bool := flag s "RedisPeerManagement" "UseTLSInsecure".
Definition GetPeerTimeout s : Z := number s "RedisPeerManagement" "Timeout".

(** ** Telemetry about refinery itself *)

Definition GetLoggerLevel s : Z := number s "Logger" "Level".
Definition GetLoggerType s : string := text s "Logger" "Type".

Record HoneycombLoggerConfig := mkHoneycombLogger {
  hl_APIHost : string; hl_APIKey : string; hl_Dataset : string; hl_SamplerEnabled : option bool; hl_SamplerThroughput : Z;
  hl_AdditionalAttributes : gmap string string }.
Definition GetSamplerEnabled (c : HoneycombLoggerConfig) : bool := DefaultTrue_Get (hl_SamplerEnabled c).
Definition GetHoneycombLoggerConfig s : HoneycombLoggerConfig :=
  let t := text s "HoneycombLogger" in
  mkHoneycombLogger (t "APIHost") (t "APIKey") (t "Dataset") (flag_or_nil s "HoneycombLogger" "SamplerEnabled")
    (number s "HoneycombLogger" "SamplerThroughput") (text_map s "HoneycombLogger" "AdditionalAttributes").

Record StdoutLoggerConfig := mkStdoutLogger { sl_Structured : bool; sl_SamplerEnabled : bool; sl_SamplerThroughput : Z }.
Definition GetStdoutLoggerConfig s : StdoutLoggerConfig :=
  mkStdoutLogger (flag s "StdoutLogger" "Structured") (flag s "StdoutLogger" "SamplerEnabled") (number s "StdoutLogger" "SamplerThroughput").

Record PrometheusMetricsConfig := mkPrometheus { pm_Enabled : bool; pm_ListenAddr : string }.
Definition GetPrometheusMetricsConfig s : PrometheusMetricsConfig :=
  mkPrometheus (flag s "PrometheusMetrics" "Enabled") (text s "PrometheusMetrics" "ListenAddr").

Record OTelMetricsConfig := mkOTelMetrics {
  om_Enabled : bool; om_APIHost : string; om_APIKey : string; om_Dataset : string; om_Compression : string; om_ReportingInterval : Z }.
Definition GetOTelMetricsConfig s : OTelMetricsConfig :=
  let t := text s "OTelMetrics" in
  mkOTelMetrics (flag s "OTelMetrics" "Enabled") (t "APIHost") (t "APIKey") (t "Dataset") (t "Compression")
    (number s "OTelMetrics" "ReportingInterval").

Record OTelTracingConfig := mkOTelTracing {
  ot_Enabled : bool; ot_APIHost : string; ot_APIKey : string; ot_Dataset : string; ot_SampleRate : Z; ot_Insecure : bool }.
Definition GetOTelTracingConfig s : OTelTracingConfig :=
  let t := text s "OTelTracing" in
  mkOTelTracing (flag s "OTelTracing" "Enabled") (t "APIHost") (t "APIKey") (t "Dataset") (number s "OTelTracing" "SampleRate")
    (flag s "OTelTracing" "Insecure").

Record OpAMPConfig := mkOpAMP { oa_Endpoint : string; oa_Enabled : bool; oa_RecordUsage : option bool }.
Definition GetOpAMPConfig s : OpAMPConfig :=
  mkOpAMP (text s "OpAMP" "Endpoint") (flag s "OpAMP" "Enabled") (flag_or_nil s "OpAMP" "RecordUsage").

Definition GetGeneralConfig s : GeneralConfig := General (contents_of s).

(** ** The traces' settings *)

Definition GetSendDelay (t : TracesConfig) : Z := tc_SendDelay t.
Definition GetBatchTimeout (t : TracesConfig) : Z := tc_BatchTimeout t.
Definition GetTraceTimeout (t : TracesConfig) : Z := tc_TraceTimeout t.
Definition GetMaxBatchSize (t : TracesConfig) : Z := tc_MaxBatchSize t.
Definition GetMaxExpiredTraces (t : TracesConfig) : Z := tc_MaxExpiredTraces t.
Definition GetSendTickerValue (t : TracesConfig) : Z := tc_SendTicker t.

(** ** What the addresses are *)

Lemma usable_spec addr : usable addr = "" ∨ usable addr = addr ∧ ∃ host port, SplitHostPort addr = Ok (host, port).
Proof. unfold usable. destruct (SplitHostPort addr) as [[host port]|] eqn:E; [right|by left]. split; [done|]. by exists host, port. Qed.

Lemma joined_usable host port :
  has_char lbracket host = false → has_char rbracket host = false →
  has_char colon port = false → has_char lbracket port = false → has_char rbracket port = false →
  usable (JoinHostPort host port) = JoinHostPort host port.
Proof. intros. unfold usable. by rewrite join_split. Qed.

(** Only a router of incoming traffic listens for gRPC, on the address that is configured, and only
    where that is a host and a port. *)
Lemma listening_spec incoming s addr :
  (listening incoming s).2 = Some addr →
  incoming = true ∧ GetGRPCEnabled s = true ∧ addr = text s "GRPCServerParameters" "ListenAddr" ∧ ∃ host port, SplitHostPort addr = Ok (host, port).
Proof.
  unfold listening. destruct incoming; cbn [snd]; [|by rewrite andb_false_r]. unfold GetGRPCListenAddr.
  destruct (GetGRPCEnabled s); [|done]. cbn [andb]. destruct (String.eqb_spec (text s "GRPCServerParameters" "ListenAddr") "") as [->|Hne]; [done|].
  cbn [negb]. destruct (usable_spec (text s "GRPCServerParameters" "ListenAddr")) as [->|[-> Hs]]; [done|].
  destruct (0 <? _)%nat; [|done]. by intros [= <-].
Qed.
