(* ===== verification/Serializer.v ===== *)
(** config/config_serializer.go: the configuration in use, as it is reported.

    The sections are built again from the accessors, or copied whole, and written as YAML (the class
    [GoYAMLText]).  [f] is the configuration that the accessors read and [s] the settings that it was
    decoded from. *)
From S2P Require Import Prelude Net GoValue SamplerConfig Config MemorySize Validate ValidateFacts Settings Load LoadFacts Accessors.

Class GoYAMLText := { yaml_settings : setting → res string; yaml_rules : V2SamplerConfig → res string }.

(** A section as a value that is copied. *)
Definition whole (s : setting) (section : string) : setting :=
  match s with Struct secs => default (Struct []) (snd <$> head (filter (λ f, ft_Name f.1 = section) secs)) | _ => Struct [] end.

(** A section built of named values, of the types its declaration gives. *)
Definition leaf (name type tag : string) (v : value) : fieldType * setting := (mkFieldType name tag, Leaf type v).
Definition VStrings (l : list string) : value := VList (VString <$> l).
Definition VTexts (m : gmap string string) : value := VMap ((λ kv, (kv.1, VString kv.2)) <$> map_to_list m).
Definition getDefaultTrueValue (b : bool) : value := VBool b.

Section Serialize.
Context (f : fileConfig) (s : setting).

Definition getRefineryTelemetryConfig : setting := Struct [
  leaf "AddRuleReasonToTrace" "bool" "" (VBool (GetAddRuleReasonToTrace f));
  leaf "AddSpanCountToRoot" "*DefaultTrue" "" (getDefaultTrueValue (GetAddSpanCountToRoot f));
  leaf "AddCountsToRoot" "bool" "" (VBool (GetAddCountsToRoot f));
  leaf "AddHostMetadataToTrace" "*DefaultTrue" "" (getDefaultTrueValue (GetAddHostMetadataToTrace f))].

Definition getPeerManagementConfig : setting := Struct [
  leaf "Type" "string" "" (VString (GetPeerManagementType s)); leaf "Identifier" "string" "" (VString (GetRedisIdentifier s));
  leaf "IdentifierInterfaceName" "string" "" (VString (GetIdentifierInterfaceName s));
  leaf "UseIPV6Identifier" "bool" "" (VBool (GetUseIPV6Identifier s)); leaf "Peers" "[]string" "" (VStrings (GetPeers s))].

(** A field that is left out has its zero value. *)
Definition populateConfigContents : setting :=
  let opAMPConfig := GetOpAMPConfig s in
  let section (name : string) (v : setting) : fieldType * setting := (mkFieldType name "", v) in
  Struct [
    section "General" (whole s "General");
    section "Network" (Struct [
      leaf "ListenAddr" "string" "HTTPListenAddr" (VString (GetListenAddr s));
      leaf "PeerListenAddr" "string" "PeerListenAddr" (VString (GetPeerListenAddr s));
      leaf "HoneycombAPI" "string" "HoneycombAPI" (VString (GetHoneycombAPI f));
      leaf "HTTPIdleTimeout" "Duration" "" (VInt (GetHTTPIdleTimeout s));
      leaf "AdditionalHeaders" "map[string]string" "" (zero "map[string]string")]);
    section "OpAMP" (Struct [
      leaf "Endpoint" "string" "OpAMPEndpoint" (VString (oa_Endpoint opAMPConfig));
      leaf "Enabled" "bool" "" (VBool (oa_Enabled opAMPConfig));
      leaf "RecordUsage" "*DefaultTrue" "" (getDefaultTrueValue (DefaultTrue_Get (oa_RecordUsage opAMPConfig)))]);
    section "AccessKeys" (whole s "AccessKeys");
    section "Telemetry" getRefineryTelemetryConfig;
    section "Traces" (whole s "Traces");
    section "Debugging" (Struct [
      leaf "DebugServiceAddr" "string" "" (VString (GetDebugServiceAddr s));
      leaf "QueryAuthToken" "string" "QueryAuthToken" (VString (GetQueryAuthToken f));
      leaf "AdditionalErrorFields" "[]string" "" (VStrings (GetAdditionalErrorFields f));
      leaf "DryRun" "bool" "" (VBool (GetIsDryRun f))]);
    section "Logger" (Struct [leaf "Type" "string" "" (VString (GetLoggerType s)); leaf "Level" "Level" "" (VInt (GetLoggerLevel s))]);
    section "HoneycombLogger" (whole s "HoneycombLogger");
    section "StdoutLogger" (whole s "StdoutLogger");
    section "PrometheusMetrics" (whole s "PrometheusMetrics");
    section "OTelMetrics" (whole s "OTelMetrics");
    section "OTelTracing" (whole s "OTelTracing");
    section "PeerManagement" getPeerManagementConfig;
    section "RedisPeerManagement" (whole s "RedisPeerManagement");
    section "Collection" (whole s "Collection");
    section "Specialized" (Struct [
      leaf "EnvironmentCacheTTL" "Duration" "" (VInt (GetEnvironmentCacheTTL f));
      leaf "CompressPeerCommunication" "*DefaultTrue" "" (getDefaultTrueValue (GetCompressPeerCommunication f));
      leaf "AdditionalAttributes" "map[string]string" "" (VTexts (GetAdditionalAttributes f))]);
    section "IDFieldNames" (Struct [
      leaf "TraceNames" "[]string" "" (VStrings (GetTraceIdFieldNames f));
      leaf "ParentNames" "[]string" "" (VStrings (GetParentIdFieldNames f))]);
    section "GRPCServerParameters" (whole s "GRPCServerParameters");
    section "SampleCache" (whole s "SampleCache");
    section "StressRelief" (whole s "StressRelief")].

Definition SerializeToYAML `{!GoYAMLText} : res (string * string) :=
  match yaml_settings populateConfigContents with
  | Err e => Err ("error serializing config to YAML: " +:+ e)
  | Ok y => match yaml_rules (rulesConfig f) with Err e => Err ("error serializing rules to YAML: " +:+ e) | Ok r => Ok (y, r) end
  end.
End Serialize.

(** ** What is reported is what is in use *)

(** A setting reads alike in two settings, by its type; where it may be nil, the flag it stands for. *)
Definition reads_alike (type : string) (s1 s2 : setting) (section name : string) : Prop :=
  if String.eqb type "string" then text s1 section name = text s2 section name
  else if String.eqb type "[]string" then texts s1 section name = texts s2 section name
  else if String.eqb type "map[string]string" then text_map s1 section name = text_map s2 section name
  else if String.eqb type "bool" then flag s1 section name = flag s2 section name
  else if String.eqb type "*DefaultTrue" then DefaultTrue_Get (flag_or_nil s1 section name) = DefaultTrue_Get (flag_or_nil s2 section name)
  else number s1 section name = number s2 section name.

(** The addresses read as blank when they are no host and port; the additional headers are left out. *)
Inductive treatment := Omitted | Checked | Kept.
Definition treatment_of (section name : string) : treatment :=
  if String.eqb section "Network" && String.eqb name "AdditionalHeaders" then Omitted
  else if existsb (λ a, String.eqb section a.1 && String.eqb name a.2)
            [("Network", "ListenAddr"); ("Network", "PeerListenAddr"); ("Debugging", "DebugServiceAddr")] then Checked
  else Kept.

Lemma texts_back (l : list string) : omap as_string (VString <$> l) = l.
Proof. induction l as [|x l IH]; [done|]. cbn. by rewrite IH. Qed.
Lemma text_map_back (m : gmap string string) :
  list_to_map (omap (λ kv, (λ v, (kv.1, v)) <$> as_string kv.2) ((λ kv, (kv.1, VString kv.2)) <$> map_to_list m)) = m.
Proof.
  rewrite <-(list_to_map_to_list m) at 2. f_equal. induction (map_to_list m) as [|[k v] l IH]; [done|]. cbn. by rewrite IH.
Qed.

Lemma whole_value s section name :
  match whole s section with
  | Struct fs => match snd <$> head (filter (λ f, ft_Name f.1 = name) fs) with Some (Leaf _ v) => Some v | _ => None end
  | _ => None
  end = value_at s section name.
Proof. unfold whole, value_at. destruct s as [|secs|]; try done. by destruct (snd <$> _). Qed.

Definition reported (f : fileConfig) (s : setting) (section : string) (field : string * string * string) : Prop :=
  let '(name, type, _) := field in
  match treatment_of section name with
  | Omitted => text_map (populateConfigContents f s) section name = ∅
  | Checked => text (populateConfigContents f s) section name = usable (text s section name)
  | Kept => reads_alike type (populateConfigContents f s) s section name
  end.

(** A section that is copied reads the same. *)
Lemma copied_section f s section :
  (∀ name, value_at (populateConfigContents f s) section name = value_at s section name) →
  section ≠ "Network" → section ≠ "Debugging" → ∀ fields : list (string * string * string), Forall (reported f s section) fields.
Proof.
  intros Hv Hn Hd fields. apply Forall_forall. intros [[name type] tag] _. unfold reported, treatment_of.
  rewrite (proj2 (String.eqb_neq section "Network") Hn). cbn [andb existsb fst snd].
  rewrite (proj2 (String.eqb_neq section "Network") Hn), (proj2 (String.eqb_neq section "Debugging") Hd). cbn [andb orb].
  unfold reads_alike, text, texts, text_map, flag, flag_or_nil, number. rewrite Hv. by repeat case_match.
Qed.

(** A section that is built: its fields one by one. *)
Ltac built Hf := repeat (apply Forall_cons; split); try (by apply Forall_nil); unfold reported; cbv beta iota;
  match goal with |- context [treatment_of ?a ?b] => let k := eval vm_compute in (treatment_of a b) in change (treatment_of a b) with k end;
  cbv beta iota; unfold reads_alike;
  repeat match goal with |- context [String.eqb ?a ?b] => let k := eval vm_compute in (String.eqb a b) in change (String.eqb a b) with k end;
  cbv beta iota; unfold populateConfigContents, getRefineryTelemetryConfig, getPeerManagementConfig,
    GetHoneycombAPI, GetQueryAuthToken, GetAdditionalErrorFields, GetIsDryRun, GetEnvironmentCacheTTL, GetCompressPeerCommunication,
    GetAdditionalAttributes, GetTraceIdFieldNames, GetParentIdFieldNames, GetAddRuleReasonToTrace, GetAddSpanCountToRoot, GetAddCountsToRoot,
    GetAddHostMetadataToTrace; rewrite ?Hf.

(** What is reported is what is in use.  Of the configuration that the accessors read, decoded from
    some settings, every setting reads in the report as it does in the settings, but for three
    addresses, which read as blank when they are no host and port, and the additional headers, which
    the report leaves out. *)
Theorem report_faithful f s : mainConfig f = contents_of s → Forall (λ section, Forall (reported f s section.1) section.2) schema.
Proof.
  intros Hf. unfold schema.
  repeat match goal with |- Forall (λ section, _) _ => first [by apply Forall_nil | apply Forall_cons; split; cbn [fst snd]] end;
    try (apply copied_section; [exact (whole_value s _)|discriminate..]);
    unfold NetworkConfig_fields, OpAMPConfig_fields, RefineryTelemetryConfig_fields, DebuggingConfig_fields, LoggerConfig_fields,
      PeerManagementConfig_fields, SpecializedConfig_fields, IDFieldsConfig_fields; built Hf;
    first [reflexivity | exact (texts_back _) | exact (text_map_back _)].
Qed.

(** ** On concrete settings *)

Module SerializerExample.
Definition configured : setting := Struct [(mkFieldType "Network" "", Struct [
  leaf "ListenAddr" "string" "HTTPListenAddr" (VString "0.0.0.0:8080"); leaf "PeerListenAddr" "string" "PeerListenAddr" (VString "8081");
  leaf "AdditionalHeaders" "map[string]string" "" (VMap [("x-routing", VString "a")])])].
Definition config : fileConfig := mkFileConfig (contents_of configured) "" {| v2_RulesVersion := 2; v2_Samplers := ∅ |} "" [].

Lemma report_faithful_witness :
  mainConfig config = contents_of configured ∧
  text_map configured "Network" "AdditionalHeaders" = {["x-routing" := "a"]} ∧
  text_map (populateConfigContents config configured) "Network" "AdditionalHeaders" = ∅ ∧
  text (populateConfigContents config configured) "Network" "PeerListenAddr" = "".
Proof.
  pose proof (report_faithful config configured eq_refl) as Hr. split_and!; [reflexivity|reflexivity|..].
  - apply Forall_cons in Hr as [_ [Hn _]%Forall_cons]. cbn [fst snd] in Hn. unfold NetworkConfig_fields in Hn.
    do 4 apply Forall_cons in Hn as [_ Hn]. apply Forall_cons in Hn as [Hn _]. exact Hn.
  - by vm_compute.
Defined.
End SerializerExample.
