(* ===== verification/Loggers.v ===== *)
(** logger/logger.go, logger/honeycomb.go, logger/logrus.go and logger/null.go: what a call of a logger
    writes.

    The clients of the two logging libraries keep what they are given: an event is what libhoney is
    asked to send, a line what logrus is asked to write.  The samplers of dynsampler-go are the class
    [GoLogSampler]; logrus' own levels are the class [Logrus].  A message is the text that fmt makes;
    what is random is an argument. *)
From S2P Require Import Prelude GoValue SamplerConfig Config MemorySize Validate ValidateFacts Settings Load Accessors.

Inductive severity := SDebug | SInfo | SWarn | SError.
Definition severity_name (sv : severity) : string :=
  match sv with SDebug => "debug" | SInfo => "info" | SWarn => "warn" | SError => "error" end.

(** The numbers of config.Level. *)
Definition level_number (l : Level) : Z :=
  match l with UnknownLevel => 0 | DebugLevel => 1 | InfoLevel => 2 | WarnLevel => 3 | ErrorLevel => 4 | PanicLevel => 5 end.
Definition severity_level (sv : severity) : Z :=
  level_number (match sv with SDebug => DebugLevel | SInfo => InfoLevel | SWarn => WarnLevel | SError => ErrorLevel end).

Abbreviation log_fields := (gmap string value).

(** A sampler is started for a throughput, and asked for the rate of a key. *)
Class GoLogSampler (S : Type) := { sampler_Start : Z → res S; sampler_rate : S → string → S * Z }.

(** ** To Honeycomb *)

Record builder := mkBuilder { bd_APIHost : string; bd_WriteKey : string; bd_Dataset : string; bd_fields : log_fields }.
Record log_event := mkLogEvent {
  le_APIHost : string; le_WriteKey : string; le_Dataset : string; le_fields : log_fields; le_SampleRate : option Z }.
Record entry := mkEntry { en_builder : builder; en_level : string }.

Section Honeycomb.
Context {S : Type} `{!GoLogSampler S}.

(** What is sent is discarded when there is no key at the start; other headers go with every request. *)
Inductive transmission := DiscardSender | Sender (headers : gmap string string).
Record HoneycombLogger := mkHoneycomb {
  hc_level : Z; hc_config : HoneycombLoggerConfig; hc_builder : builder; hc_sampler : option S; hc_transmission : transmission }.
Implicit Types (h : HoneycombLogger) (b : builder).

Definition bd_AddField b (key : string) (v : value) : builder :=
  mkBuilder (bd_APIHost b) (bd_WriteKey b) (bd_Dataset b) (<[key := v]> (bd_fields b)).
Definition bd_Add b (fields : log_fields) : builder := mkBuilder (bd_APIHost b) (bd_WriteKey b) (bd_Dataset b) (fields ∪ bd_fields b).

(** The fields of every event: the attributes that are configured, then the version and the host. *)
Definition resource_fields (c : HoneycombLoggerConfig) (version : string) (hostname : option string) : log_fields :=
  let m := <["refinery_version" := VString version]> (VString <$> hl_AdditionalAttributes c) in
  match hostname with Some name => <["hostname" := VString name]> m | None => m end.

Definition Start (s : setting) (additionalHeaders : gmap string string) (version : string) (hostname : option string) : res HoneycombLogger :=
  let c := GetHoneycombLoggerConfig s in
  let tx := if String.eqb (hl_APIKey c) "" then DiscardSender else Sender additionalHeaders in
  let b := mkBuilder (hl_APIHost c) (hl_APIKey c) (hl_Dataset c) (resource_fields c version hostname) in
  if GetSamplerEnabled c then
    match sampler_Start (hl_SamplerThroughput c) with
    | Err e => Err e
    | Ok sampler => Ok (mkHoneycomb (GetLoggerLevel s) c b (Some sampler) tx)
    end
  else Ok (mkHoneycomb (GetLoggerLevel s) c b None tx).

(** The destination changes, and the level; the fields, the sampler and the transmission stay. *)
Definition reloadBuilder h (s : setting) : HoneycombLogger :=
  let c := GetHoneycombLoggerConfig s in
  mkHoneycomb (GetLoggerLevel s) c (mkBuilder (hl_APIHost c) (hl_APIKey c) (hl_Dataset c) (bd_fields (hc_builder h))) (hc_sampler h) (hc_transmission h).

Definition SetLevel h (lvl : string) : HoneycombLogger :=
  mkHoneycomb (level_number (ParseLevel lvl)) (hc_config h) (hc_builder h) (hc_sampler h) (hc_transmission h).

(** Debug, Info, Warn and Error: [None] is the null entry. *)
Definition at_severity h (sv : severity) : option builder :=
  if severity_level sv <? hc_level h then None else Some (bd_AddField (hc_builder h) "level" (VString (severity_name sv))).

(** [f] is the format, [msg] the message made of it. *)
Definition Logf h b (f msg : string) : HoneycombLogger * log_event :=
  let fields := <["msg" := VString msg]> (bd_fields b) in
  let level := match fields !! "level" with Some (VString l) => l | _ => "unknown" end in
  match hc_sampler h with
  | None => (h, mkLogEvent (bd_APIHost b) (bd_WriteKey b) (bd_Dataset b) fields None)
  | Some sampler =>
      let '(sampler, rate) := sampler_rate sampler (level +:+ ":" +:+ f) in
      (mkHoneycomb (hc_level h) (hc_config h) (hc_builder h) (Some sampler) (hc_transmission h),
       mkLogEvent (bd_APIHost b) (bd_WriteKey b) (bd_Dataset b) fields (Some (u64 rate)))
  end.

(** A whole call: the entry of the severity, its fields, the message. *)
Definition log h (sv : severity) (fields : log_fields) (f msg : string) : HoneycombLogger * list log_event :=
  match at_severity h sv with
  | None => (h, [])
  | Some b => let '(h, ev) := Logf h (bd_Add b fields) f msg in (h, [ev])
  end.

(** Responses that are reported: an error, or a status over 202; a status of zero is a message that
    was sampled away. *)
Definition reports (status : Z) (err : option string) : bool :=
  if status =? 0 then false else match err with Some _ => true | None => 202 <? status end.

(** The headers that are added to a request. *)
Definition RoundTrip (headers requestHeaders : gmap string string) : gmap string string := headers ∪ requestHeaders.
End Honeycomb.

(** ** To the standard output *)

(** logrus' levels, the lower the graver, and the names it knows. *)
Definition logrus_level (sv : severity) : Z := match sv with SError => 2 | SWarn => 3 | SInfo => 4 | SDebug => 5 end.
Class Logrus := { logrus_ParseLevel : string → res Z }.
Class LogrusLaws `{Logrus} := {
  parse_panic : logrus_ParseLevel "panic" = Ok 0; parse_error : logrus_ParseLevel "error" = Ok 2; parse_warn : logrus_ParseLevel "warn" = Ok 3;
  parse_info : logrus_ParseLevel "info" = Ok 4; parse_debug : logrus_ParseLevel "debug" = Ok 5 }.

Module Stdout.
Section Stdout.
Context {S : Type} `{!GoLogSampler S, !Logrus}.

Record StdoutLogger := mkStdout { so_level : Z; so_structured : bool; so_sampler : option S }.
Record line := mkLine { ln_severity : severity; ln_fields : log_fields; ln_msg : string }.
Implicit Types (l : StdoutLogger).

(** The level may be set before the start. *)
Definition Start (level : Z) (s : setting) : res StdoutLogger :=
  let c := GetStdoutLoggerConfig s in
  if sl_SamplerEnabled c then
    match sampler_Start (sl_SamplerThroughput c) with Err e => Err e | Ok sampler => Ok (mkStdout level (sl_Structured c) (Some sampler)) end
  else Ok (mkStdout level (sl_Structured c) None).

Definition SetLevel l (level : string) : res StdoutLogger :=
  match logrus_ParseLevel level with Err e => Err e | Ok n => Ok (mkStdout n (so_structured l) (so_sampler l)) end.

Definition at_severity l (sv : severity) : bool := logrus_level sv <=? so_level l.

(** [draw] is a number that is drawn below the rate. *)
Definition shouldDrop (rate draw : Z) : bool := if rate <=? 1 then false else negb (draw =? 0).

(** The entry that has the rate is not the one that is written. *)
Definition Logf l (sv : severity) (fields : log_fields) (f msg : string) (draw : Z) : StdoutLogger * list line :=
  match so_sampler l with
  | None => (l, [mkLine sv fields msg])
  | Some sampler =>
      let '(sampler, rate) := sampler_rate sampler ((match sv with SWarn => "warning" | sv => severity_name sv end) +:+ ":" +:+ f) in
      let l := mkStdout (so_level l) (so_structured l) (Some sampler) in
      if shouldDrop (u64 rate) draw then (l, []) else (l, [mkLine sv fields msg])
  end.

Definition log l (sv : severity) (fields : log_fields) (f msg : string) (draw : Z) : StdoutLogger * list line :=
  if at_severity l sv then Logf l sv fields f msg draw else (l, []).
End Stdout.
End Stdout.

(** ** The two write the same messages *)

Section Agree.
Context {S : Type} `{!GoLogSampler S, !Logrus, !LogrusLaws}.

(** A level means the same for both loggers.  Set to any level the configuration knows, and
    without sampling, either both write a message or neither does, and they write exactly those that
    are at least as grave as the level; what they write has the message and the fields of the call,
    and to Honeycomb it goes with the fields of the node, except where the call has its own. *)
Theorem loggers_agree (h : HoneycombLogger (S := S)) (l : Stdout.StdoutLogger (S := S)) (lvl : Level) sv fields f msg draw :
  lvl ≠ UnknownLevel → hc_sampler h = None → Stdout.so_sampler l = None →
  ∃ l', Stdout.SetLevel l (Level_String lvl) = Ok l' ∧
  let h' := SetLevel h (Level_String lvl) in
  match (log h' sv fields f msg).2, (Stdout.log l' sv fields f msg draw).2 with
  | [ev], [ln] =>
      level_number lvl ≤ severity_level sv ∧ Stdout.ln_severity ln = sv ∧ Stdout.ln_msg ln = msg ∧ Stdout.ln_fields ln = fields ∧
      le_APIHost ev = bd_APIHost (hc_builder h) ∧ le_WriteKey ev = bd_WriteKey (hc_builder h) ∧ le_Dataset ev = bd_Dataset (hc_builder h) ∧
      le_fields ev !! "msg" = Some (VString msg) ∧
      (∀ key, key ≠ "msg" → le_fields ev !! key = match fields !! key with Some v => Some v | None =>
                if String.eqb key "level" then Some (VString (severity_name sv)) else bd_fields (hc_builder h) !! key end)
  | [], [] => severity_level sv < level_number lvl
  | _, _ => False
  end.
Proof.
  intros Hl Hh Hs. assert (Hset : ∃ n, logrus_ParseLevel (Level_String lvl) = Ok n ∧
    ∀ sv, (logrus_level sv <=? n) = negb (severity_level sv <? level_number lvl) ∧ level_number (ParseLevel (Level_String lvl)) = level_number lvl).
  { destruct lvl; try done; eexists; (split; [apply parse_panic || apply parse_error || apply parse_warn || apply parse_info || apply parse_debug|]);
      by intros []. }
  destruct Hset as (n & En & Hn). destruct (Hn sv) as [Hsv Elvl]. unfold Stdout.SetLevel. rewrite En. eexists. split; [done|].
  unfold log, at_severity, Stdout.log, Stdout.at_severity, SetLevel. cbn [hc_level Stdout.so_level]. rewrite Elvl, Hsv.
  destruct (Z.ltb_spec (severity_level sv) (level_number lvl)) as [Hlt|Hge]; cbn [negb snd]; [done|].
  unfold Logf, Stdout.Logf. cbn [hc_sampler Stdout.so_sampler hc_builder]. rewrite Hh, Hs. cbn [snd].
  split_and!; try done; cbn [le_fields bd_fields bd_Add bd_AddField]; [by rewrite lookup_insert_eq|].
  intros key Hkey. rewrite lookup_insert_ne, lookup_union by congruence. destruct (fields !! key) as [v|].
  - by rewrite union_Some_l.
  - assert (E : ∀ x : option value, None ∪ x = x) by (by intros []). rewrite E. destruct (String.eqb_spec key "level") as [->|Hne]; [by rewrite lookup_insert_eq|].
    by rewrite lookup_insert_ne by congruence.
Qed.
End Agree.

(** ** On concrete loggers *)

Module LoggersExample.
#[export] Instance sampler : GoLogSampler unit := {| sampler_Start _ := Ok (); sampler_rate s _ := (s, 10) |}.
#[export] Instance logrus : Logrus := {| logrus_ParseLevel s :=
  if String.eqb s "panic" then Ok 0 else if String.eqb s "error" then Ok 2 else if String.eqb s "warn" then Ok 3
  else if String.eqb s "info" then Ok 4 else if String.eqb s "debug" then Ok 5 else Err "not a valid logrus Level" |}.
#[export] Instance logrus_laws : LogrusLaws.
Proof. by split. Qed.
Definition honeycomb : HoneycombLogger (S := unit) :=
  mkHoneycomb 0 (mkHoneycombLogger "" "" "" None 0 ∅) (mkBuilder "https://api.honeycomb.io" "key" "Refinery Logs" {["refinery_version" := VString "v3"]}) None DiscardSender.
Definition stdout : Stdout.StdoutLogger (S := unit) := Stdout.mkStdout 0 false None.
Definition call : log_fields := {["port" := VInt 8080]}.

Lemma loggers_agree_witness :
  (∃ l', Stdout.SetLevel stdout "warn" = Ok l' ∧ (Stdout.log l' SInfo call "listening" "listening" 0).2 = []) ∧
  (log (SetLevel honeycomb "warn") SInfo call "listening" "listening").2 = [].
Proof.
  destruct (loggers_agree honeycomb stdout WarnLevel SInfo call "listening" "listening" 0 ltac:(discriminate) eq_refl eq_refl) as (l' & E & Hw).
  split; [|reflexivity]. exists l'. split; [exact E|]. cbn zeta in Hw.
  change ((log (SetLevel honeycomb (Level_String WarnLevel)) SInfo call "listening" "listening").2) with (@nil log_event) in Hw.
  destruct (Stdout.log l' SInfo call "listening" "listening" 0).2; [reflexivity|destruct Hw].
Defined.

(** A line that is kept of ten does not say so. *)
Lemma rate_not_written :
  (Stdout.log (Stdout.mkStdout 5 false (Some ())) SInfo ∅ "x" "x" 0).2 = [Stdout.mkLine SInfo ∅ "x"] ∧
  (Stdout.log (Stdout.mkStdout 5 false (Some ())) SInfo ∅ "x" "x" 3).2 = [].
Proof. done. Qed.
End LoggersExample.
