(* ===== verification/Convert.v ===== *)
(** tools/convert/helpers.go: removing the deprecated options of an old configuration.

    The contents are those of Validate: a map is the list of its entries, and a map within it is
    changed in place.  A field is looked for under its present name and, when it is not there, under
    the name it had in version 1; its replacements are computed from its value; then it is removed.
    A group that is deprecated as a whole is copied to the group that replaces it. *)
From Stdlib Require Import Ascii.
From S2P Require Import Prelude GoValue SamplerConfig Config MemorySize Validate ValidateFacts Settings Load LoadFacts.

(** ** The metadata that conversion reads *)

Record Replacement := mkReplacement { rp_Field : string; rp_Formula : string }.
Record convField := mkConvField { cf_Field : Field; cf_V1Group : string; cf_V1Name : string; cf_Replacements : list Replacement }.
Record convGroup := mkConvGroup { cg_Name : string; cg_Fields : list convField; cg_Deprecation : Deprecation; cg_Replacements : list Replacement }.
Definition as_group (g : convGroup) : Group := mkGroup (cg_Name g) (cf_Field <$> cg_Fields g) (cg_Deprecation g).
Definition GetLastVersion (f : convField) : string := dp_LastVersion (fd_Deprecation (cf_Field f)).
Definition field_name (f : convField) : string := fd_Name (cf_Field f).

(** ** Looking up, removing and setting *)

Definition dot : ascii := ".".
Definition slash : ascii := "/".

(** strings.SplitN(s, sep, 2), when there is a second part. *)
Fixpoint cut (c : ascii) (s : string) : option (string * string) :=
  match s with
  | EmptyString => None
  | String d s => if Ascii.eqb d c then Some ("", s) else (λ p, (String d p.1, p.2)) <$> cut c s
  end.

(** The first of the names that is a map in the data. *)
Fixpoint first_map (data : object) (names : list string) : option (string * object) :=
  match names with
  | [] => None
  | g :: names => match lookup_entry data g with Some (VMap m) => Some (g, m) | _ => first_map data names end
  end.

(** The fuel is the length of the key: what is left of it gets shorter. *)
Fixpoint fetch (fuel : nat) (data : object) (key : string) : option value :=
  match lookup_entry data key with
  | Some v => Some v
  | None =>
      match fuel, cut dot key with
      | S fuel, Some (groups, rest) =>
          match first_map data (split_at slash groups) with Some (_, submap) => fetch fuel submap rest | None => None end
      | _, _ => None
      end
  end.
Definition _fetch (data : object) (key : string) : option value := fetch (String.length key) data key.

Definition delete_entry (m : object) (k : string) : object := filter (λ kv, kv.1 ≠ k) m.

Fixpoint remove (fuel : nat) (data : object) (key : string) : object :=
  match fuel, cut dot key with
  | S fuel, Some (groups, rest) =>
      match first_map data (split_at slash groups) with
      | Some (g, submap) => set_entry data g (VMap (if str_contains rest "." then remove fuel submap rest else delete_entry submap rest))
      | None => data
      end
  | _, _ => delete_entry data key
  end.
Definition removeField (data : object) (key : string) : object := remove (String.length key) data key.

Definition setFieldValue (data : object) (groupName fieldName : string) (v : value) : object :=
  let data := match lookup_entry data groupName with Some _ => data | None => set_entry data groupName (VMap []) end in
  match lookup_entry data groupName with
  | Some (VMap m) => set_entry data groupName (VMap (set_entry m fieldName v))
  | _ => data
  end.

(** ** Replacements *)

Definition star : ascii := "*".

(** The product wraps around. *)
Definition evaluateFormula (formula : string) (v : value) : res Z :=
  let formula := TrimSpace formula in
  match v with
  | VInt val | VInt64 val =>
      if String.eqb formula "value" then Ok val
      else
        match split_at star formula with
        | [l; r] =>
            let '(l, r) := (TrimSpace l, TrimSpace r) in
            let multiPos := if String.eqb l "value" then r else if String.eqb r "value" then l else "" in
            match Atoi multiPos with Some multiplier => Ok (s64 (val * multiplier)) | None => Err ("invalid multiplier: " +:+ r) end
        | _ => Err ("invalid multiplication formula: " +:+ formula)
        end
  | _ => Err "unsupported value type"
  end.

Definition applyReplacement (r : Replacement) (groupName : string) (deprecatedValue : value) (data : object) : object * option string :=
  match _fetch data (groupName +:+ "." +:+ rp_Field r) with
  | Some _ => (data, None)
  | None =>
      match evaluateFormula (rp_Formula r) deprecatedValue with
      | Err _ => (data, None)
      | Ok newValue =>
          (setFieldValue data groupName (rp_Field r) (VInt64 newValue),
           Some (rp_Field r +:+ " set to " +:+ format_int newValue +:+ " (using formula: " +:+ rp_Formula r +:+ ")"))
      end
  end.

Fixpoint applyReplacements (rs : list Replacement) (groupName : string) (deprecatedValue : value) (data : object) : object * list string :=
  match rs with
  | [] => (data, [])
  | r :: rs =>
      let '(data, msg) := applyReplacement r groupName deprecatedValue data in
      let '(data, msgs) := applyReplacements rs groupName deprecatedValue data in
      (data, match msg with Some m => m :: msgs | None => msgs end)
  end.

Fixpoint applyGroupReplacements (rs : list Replacement) (name : string) (deprecatedGroupData data : object) : object * list string * bool :=
  match rs with
  | [] => (data, [], false)
  | r :: rs =>
      let target := rp_Field r in
      match lookup_entry data target with
      | Some _ =>
          let '(data, msgs, ok) := applyGroupReplacements rs name deprecatedGroupData data in
          (data, ("skipped copy to " +:+ target +:+ " (target group already exists)") :: msgs, ok)
      | None =>
          let data := set_entry data target (VMap (set_entries [] deprecatedGroupData)) in
          let '(data, msgs, _) := applyGroupReplacements rs name deprecatedGroupData data in
          (data, ("copied " +:+ name +:+ " group content to " +:+ target) :: msgs, true)
      end
  end.

(** ** The whole *)

Definition arrow (s : string) : string := "  → " +:+ s.

(** The contents, what was removed so far, and whether this key was there. *)
Definition handleDeprecatedField (s : object * list string) (key : string) (f : convField) (groupName : string) : object * list string * bool :=
  let '(data, removed) := s in
  match _fetch data key with
  | None => (data, removed, false)
  | Some v =>
      if String.eqb (GetLastVersion f) "" then (data, removed, false)
      else
        let said := key +:+ " (deprecated in " +:+ GetLastVersion f +:+ ")" in
        let '(data, conversions) := applyReplacements (cf_Replacements f) groupName v data in
        (removeField data key, removed ++ said :: (arrow <$> conversions), true)
  end.

Definition removeDeprecated_field (g : convGroup) (s : object * list string) (f : convField) : object * list string :=
  let '(data, removed, handled) := handleDeprecatedField s (cg_Name g +:+ "." +:+ field_name f) f (cg_Name g) in
  if negb handled && negb (String.eqb (cf_V1Group f) "") && negb (String.eqb (cf_V1Name f) "")
  then (handleDeprecatedField (data, removed) (cf_V1Group f +:+ "." +:+ cf_V1Name f) f (cg_Name g)).1
  else (data, removed).

(** A group, once its fields are done with. *)
Definition removeDeprecated_whole (g : convGroup) (s : object * list string) : object * list string :=
  let '(data, removed) := s in
  if IsDeprecated (as_group g) then
    match lookup_entry data (cg_Name g) with
    | Some (VMap groupMap) =>
        let deprecationVersion := GetDeprecationVersion (as_group g) in
        if String.eqb deprecationVersion "" then (data, removed)
        else
          let said := cg_Name g +:+ " group (deprecated in " +:+ deprecationVersion +:+ ")" in
          let '(data, conversions, ok) := applyGroupReplacements (cg_Replacements g) (cg_Name g) groupMap data in
          let data := if ok || bool_decide (cg_Replacements g = []) then delete_entry data (cg_Name g) else data in
          (data, removed ++ said :: (arrow <$> conversions))
    | _ => (data, removed)
    end
  else (data, removed).

Definition removeDeprecated_group (s : object * list string) (g : convGroup) : object * list string :=
  removeDeprecated_whole g (foldl (removeDeprecated_field g) s (cg_Fields g)).

(** Mutated: the contents that are given are the ones that are returned. *)
Definition removeDeprecated (metadata : list convGroup) (data : object) : object * list string :=
  foldl removeDeprecated_group (data, []) metadata.

(** ** What each operation does to an entry of a section *)

Definition no_char (c : ascii) (s : string) : Prop := index_char c s = None.

Lemma cut_key g rest : no_char dot g → cut dot (g +:+ "." +:+ rest) = Some (g, rest).
Proof.
  unfold no_char. induction g as [|c g IH]; [done|]. cbn [index_char].
  change (String c g +:+ "." +:+ rest) with (String c (g +:+ "." +:+ rest)). cbn [cut]. rewrite (Ascii.eqb_sym dot c).
  destruct (Ascii.eqb c dot); [done|]. intros Hg. rewrite IH by by destruct (index_char dot g). done.
Qed.
Lemma cut_none s : no_char dot s → cut dot s = None.
Proof.
  unfold no_char. induction s as [|c s IH]; [done|]. cbn [index_char cut]. rewrite (Ascii.eqb_sym dot c).
  destruct (Ascii.eqb c dot); [done|]. intros Hs. rewrite IH by by destruct (index_char dot s). done.
Qed.
Lemma split_one c s : no_char c s → split_at c s = [s].
Proof.
  unfold no_char. induction s as [|d s IH]; [done|]. cbn [index_char split_at]. rewrite (Ascii.eqb_sym c d).
  destruct (Ascii.eqb d c); [done|]. intros Hs. by rewrite IH by by destruct (index_char c s).
Qed.

Lemma lookup_delete m k k' : lookup_entry (delete_entry m k) k' = if decide (k = k') then None else lookup_entry m k'.
Proof.
  unfold delete_entry. induction m as [|[k1 v1] m IH]; [by destruct (decide (k = k'))|]. rewrite filter_cons. cbn [fst].
  destruct (decide (k1 ≠ k)) as [Hne|Heq]; rewrite !lookup_entry_cons, IH.
  - destruct (decide (k = k')), (decide (k1 = k')); congruence.
  - destruct (decide (k = k')), (decide (k1 = k')); try done. subst. by destruct Heq.
Qed.

Lemma first_map_some data names g m : first_map data names = Some (g, m) → g ∈ names ∧ lookup_entry data g = Some (VMap m).
Proof.
  induction names as [|n names IH]; [done|]. cbn [first_map]. destruct (lookup_entry data n) as [[]|] eqn:E;
    try (intros Hf; destruct (IH Hf); split; [by right|done]). intros [= <- <-]. split; [by left|done].
Qed.

Lemma remove_none fuel data key k : lookup_entry data k = None → lookup_entry (remove fuel data key) k = None.
Proof.
  intros Hk. assert (Hd : lookup_entry (delete_entry data key) k = None) by (rewrite lookup_delete; by case_decide).
  destruct fuel as [|fuel]; [done|]. cbn [remove]. destruct (cut dot key) as [[groups rest]|]; [|done].
  destruct (first_map data (split_at slash groups)) as [[g m]|] eqn:E; [|done]. apply first_map_some in E as [_ E].
  rewrite lookup_set_entry. destruct (decide (g = k)) as [->|]; [congruence|done].
Qed.

(** A removal takes an entry away or leaves it. *)
Lemma remove_entry fuel data key k kk : entry data k kk = None → entry (remove fuel data key) k kk = None.
Proof.
  intros Hk. assert (Hd : entry (delete_entry data key) k kk = None) by (unfold entry; rewrite lookup_delete; by case_decide).
  destruct fuel as [|fuel]; [done|]. cbn [remove]. destruct (cut dot key) as [[groups rest]|]; [|done].
  destruct (first_map data (split_at slash groups)) as [[g m]|] eqn:E; [|done]. apply first_map_some in E as [_ E].
  unfold entry. rewrite lookup_set_entry. destruct (decide (g = k)) as [->|]; [|done]. unfold entry in Hk. rewrite E in Hk.
  destruct (str_contains rest "."); [by apply remove_none|]. rewrite lookup_delete. by case_decide.
Qed.

Lemma no_dot_contains s : no_char dot s → str_contains s "." = false.
Proof.
  unfold no_char. induction s as [|c s IH]; [done|]. cbn [index_char]. destruct (Ascii.eqb_spec dot c) as [|Hne]; [done|]. intros Hs.
  change (str_contains (String c s) ".") with (HasPrefix (String c s) "." || str_contains s "."). rewrite HasPrefix_cons.
  destruct (Ascii.eqb_spec "." c) as [E|_]; [by destruct Hne|]. apply IH. by destruct (index_char dot s).
Qed.

(** It leaves every entry but those it names. *)
Lemma removeField_other data groups name k kk :
  no_char dot groups → no_char dot name → ¬ (k ∈ split_at slash groups ∧ kk = name) →
  entry (removeField data (groups +:+ "." +:+ name)) k kk = entry data k kk.
Proof.
  intros Hg Hn Hk. unfold removeField. destruct (String.length (groups +:+ "." +:+ name)) as [|fuel] eqn:El.
  { rewrite !str_length_app in El. change (String.length ".") with 1%nat in El. lia. }
  cbn [remove]. rewrite cut_key, no_dot_contains by done. destruct (first_map data (split_at slash groups)) as [[g m]|] eqn:E; [|done].
  apply first_map_some in E as [Hin E]. unfold entry. rewrite lookup_set_entry. destruct (decide (g = k)) as [->|]; [|done].
  rewrite E, lookup_delete. destruct (decide (name = kk)) as [->|]; [|done]. by destruct Hk.
Qed.

Lemma removeField_gone data g name :
  no_char dot g → no_char slash g → no_char dot name → entry (removeField data (g +:+ "." +:+ name)) g name = None.
Proof.
  intros Hg Hs Hn. unfold removeField. destruct (String.length (g +:+ "." +:+ name)) as [|fuel] eqn:El.
  { rewrite !str_length_app in El. change (String.length ".") with 1%nat in El. lia. }
  cbn [remove]. rewrite cut_key, no_dot_contains, split_one by done. cbn [first_map]. unfold entry.
  destruct (lookup_entry data g) as [[]|] eqn:E; rewrite ?E; try done. rewrite lookup_set_entry, decide_True, lookup_delete, decide_True by done. done.
Qed.

(** With plain keys, a field is fetched from its section. *)
Definition plain_keys (data : object) : Prop := ∀ k, lookup_entry data k ≠ None → no_char dot k.

Lemma fetch_entry data g name :
  plain_keys data → no_char dot g → no_char slash g → no_char dot name → _fetch data (g +:+ "." +:+ name) = entry data g name.
Proof.
  intros Hp Hg Hs Hn. unfold _fetch. destruct (String.length (g +:+ "." +:+ name)) as [|fuel] eqn:El.
  { rewrite !str_length_app in El. change (String.length ".") with 1%nat in El. lia. }
  cbn [fetch]. assert (Hnone : lookup_entry data (g +:+ "." +:+ name) = None).
  { destruct (lookup_entry data _) eqn:E; [|done]. exfalso. assert (Hd : no_char dot (g +:+ "." +:+ name)) by (apply Hp; by rewrite E).
    apply cut_none in Hd. by rewrite cut_key in Hd. }
  rewrite Hnone, cut_key, split_one by done. cbn [first_map]. unfold entry.
  destruct (lookup_entry data g) as [[]|]; try done. destruct fuel as [|fuel]; cbn [fetch]; destruct (lookup_entry _ name); try done.
  by rewrite cut_none.
Qed.

Lemma setFieldValue_entry data g name v k kk :
  entry (setFieldValue data g name v) k kk =
  match lookup_entry data g with
  | None | Some (VMap _) => if decide (g = k ∧ name = kk) then Some v else entry data k kk
  | _ => entry data k kk
  end.
Proof.
  unfold setFieldValue. destruct (lookup_entry data g) as [v0|] eqn:E.
  - rewrite E. destruct v0; try done. unfold entry. rewrite lookup_set_entry. destruct (decide (g = k)) as [->|Hne].
    + rewrite lookup_set_entry, E. destruct (decide (name = kk)); [rewrite decide_True by done|rewrite decide_False by tauto]; done.
    + rewrite decide_False by tauto. done.
  - rewrite lookup_set_entry, decide_True by done. unfold entry. rewrite !lookup_set_entry. destruct (decide (g = k)) as [->|Hne].
    + rewrite lookup_set_entry, E. destruct (decide (name = kk)); [rewrite decide_True by done|rewrite decide_False by tauto]; done.
    + rewrite decide_False by tauto. done.
Qed.

(** ** What the whole keeps, and what it removes *)

(** Names without dots, and groups without slashes. *)
Definition wf_field (f : convField) : Prop := no_char dot (field_name f) ∧ no_char dot (cf_V1Group f) ∧ no_char dot (cf_V1Name f).
Definition wf_group (g : convGroup) : Prop :=
  no_char dot (cg_Name g) ∧ no_char slash (cg_Name g) ∧ Forall wf_field (cg_Fields g) ∧
  Forall (λ r, no_char dot (rp_Field r)) (cg_Replacements g).
Definition wf_meta (md : list convGroup) : Prop := Forall wf_group md.

Section Keep.
Context (k kk : string) (x : option value).

(** The entry may be removed only if it was not there. *)
Definition removal_ok (groups name : string) : Prop := x = None ∨ ¬ (k ∈ split_at slash groups ∧ kk = name).
Definition field_keeps (g : convGroup) (f : convField) : Prop :=
  GetLastVersion f ≠ "" →
  Forall (λ r, ¬ (cg_Name g = k ∧ rp_Field r = kk)) (cf_Replacements f) ∧ removal_ok (cg_Name g) (field_name f) ∧
  removal_ok (cf_V1Group f) (cf_V1Name f).
Definition group_keeps (g : convGroup) : Prop :=
  Forall (field_keeps g) (cg_Fields g) ∧
  (IsDeprecated (as_group g) = true → Forall (λ r, rp_Field r ≠ k) (cg_Replacements g) ∧ (x = None ∨ cg_Name g ≠ k)).

Lemma applyReplacements_keeps rs g v data :
  Forall (λ r, ¬ (g = k ∧ rp_Field r = kk)) rs → entry data k kk = x → entry (applyReplacements rs g v data).1 k kk = x.
Proof.
  intros Hrs. revert data. induction Hrs as [|r rs Hr _ IH]; intros data Hx; [done|]. cbn [applyReplacements].
  destruct (applyReplacement r g v data) as [d1 m1] eqn:E. specialize (IH d1).
  destruct (applyReplacements rs g v d1) as [d2 m2]. cbn [fst] in *. apply IH. unfold applyReplacement in E.
  destruct (_fetch _ _); [by injection E as <- _|]. destruct (evaluateFormula _ _); [|by injection E as <- _]. injection E as <- _.
  rewrite setFieldValue_entry, decide_False by done. by destruct (lookup_entry data g) as [[]|].
Qed.

Lemma handled_keeps s groups name f g :
  no_char dot groups → no_char dot name → (GetLastVersion f ≠ "" → Forall (λ r, ¬ (g = k ∧ rp_Field r = kk)) (cf_Replacements f) ∧ removal_ok groups name) →
  entry s.1 k kk = x → entry (handleDeprecatedField s (groups +:+ "." +:+ name) f g).1.1 k kk = x.
Proof.
  intros Hg Hn Hok Hx. unfold handleDeprecatedField. destruct s as [data removed]. cbn [fst] in *. destruct (_fetch data _) as [v|]; [|done].
  destruct (String.eqb_spec (GetLastVersion f) "") as [|Hne]; [done|]. destruct (Hok Hne) as [Hrs Hr].
  pose proof (applyReplacements_keeps _ _ v data Hrs Hx) as Ha. destruct (applyReplacements _ _ _ _) as [d msgs]. cbn [fst] in *.
  destruct Hr as [Hnone|Hr]; [|by rewrite removeField_other].
  rewrite Hnone in *. by apply remove_entry.
Qed.

Lemma field_kept g f s :
  wf_group g → wf_field f → field_keeps g f → entry s.1 k kk = x → entry (removeDeprecated_field g s f).1 k kk = x.
Proof.
  intros (Hg & _) (Hf & Hv1 & Hv2) Hk Hx. unfold removeDeprecated_field.
  pose proof (handled_keeps s (cg_Name g) (field_name f) f (cg_Name g) Hg Hf) as H1. destruct (handleDeprecatedField s _ f _) as [[d rm] h].
  cbn [fst] in H1. assert (Hd : entry d k kk = x) by (apply H1; [intros Hne; split; apply (Hk Hne)|done]).
  destruct (negb h && _ && _); [|done]. apply handled_keeps; [done..| |done]. intros Hne. split; apply (Hk Hne).
Qed.

Lemma fields_kept g fs s :
  wf_group g → Forall wf_field fs → Forall (field_keeps g) fs → entry s.1 k kk = x →
  entry (foldl (removeDeprecated_field g) s fs).1 k kk = x.
Proof.
  intros Hg Hw. revert s. induction Hw as [|f fs Hf _ IH]; intros s Hk Hx; [done|]. apply Forall_cons in Hk as [Hk Hks].
  cbn [foldl]. apply IH; [done|]. by apply field_kept.
Qed.

Lemma groups_kept rs name m data :
  Forall (λ r, rp_Field r ≠ k) rs → entry data k kk = x → entry (applyGroupReplacements rs name m data).1.1 k kk = x.
Proof.
  intros Hrs. revert data. induction Hrs as [|r rs Hr _ IH]; intros data Hx; [done|]. cbn [applyGroupReplacements].
  destruct (lookup_entry data (rp_Field r)).
  - specialize (IH data Hx). by destruct (applyGroupReplacements rs name m data) as [[d msgs] ok].
  - assert (Hs : entry (set_entry data (rp_Field r) (VMap (set_entries [] m))) k kk = x) by (unfold entry; by rewrite lookup_set_entry, decide_False).
    specialize (IH _ Hs). by destruct (applyGroupReplacements rs name m _) as [[d msgs] ok].
Qed.

Lemma delete_kept data g : x = None ∨ g ≠ k → entry data k kk = x → entry (delete_entry data g) k kk = x.
Proof. intros Hg Hx. unfold entry in *. rewrite lookup_delete. destruct (decide (g = k)) as [->|]; [|done]. destruct Hg as [->|]; done. Qed.

Lemma whole_kept g s : group_keeps g → entry s.1 k kk = x → entry (removeDeprecated_whole g s).1 k kk = x.
Proof.
  intros [_ Hg] Hd. unfold removeDeprecated_whole. destruct s as [d rm]. cbn [fst] in Hd.
  destruct (IsDeprecated (as_group g)); [|done]. destruct (Hg eq_refl) as [Hr Hn].
  destruct (lookup_entry d (cg_Name g)) as [[]|]; try done. destruct (String.eqb _ _); [done|].
  pose proof (groups_kept _ (cg_Name g) m d Hr Hd) as Hd'. destruct (applyGroupReplacements _ _ m d) as [[d' msgs] ok]. cbn [fst] in *.
  destruct (ok || _); [by apply delete_kept|done].
Qed.
Lemma group_kept g s : wf_group g → group_keeps g → entry s.1 k kk = x → entry (removeDeprecated_group s g).1 k kk = x.
Proof. intros Hw Hk Hx. apply whole_kept; [done|]. apply fields_kept; [done|apply Hw|apply Hk|done]. Qed.

Lemma all_kept md s : wf_meta md → Forall group_keeps md → entry s.1 k kk = x → entry (foldl removeDeprecated_group s md).1 k kk = x.
Proof.
  intros Hw. revert s. induction Hw as [|g md Hg _ IH]; intros s Hk Hx; [done|]. apply Forall_cons in Hk as [Hk Hks].
  cbn [foldl]. apply IH; [done|]. by apply group_kept.
Qed.
End Keep.

(** ** Plain keys stay plain *)

Lemma plain_set data k v : plain_keys data → no_char dot k → plain_keys (set_entry data k v).
Proof. intros Hp Hk k'. rewrite lookup_set_entry. destruct (decide (k = k')) as [->|]; [done|apply Hp]. Qed.
Lemma plain_remove fuel data key : plain_keys data → plain_keys (remove fuel data key).
Proof. intros Hp k Hk. apply Hp. intros E. by apply Hk, remove_none. Qed.
Lemma plain_delete data k : plain_keys data → plain_keys (delete_entry data k).
Proof. intros Hp k'. rewrite lookup_delete. destruct (decide (k = k')); [done|apply Hp]. Qed.
Lemma plain_field data g name v : plain_keys data → no_char dot g → plain_keys (setFieldValue data g name v).
Proof.
  intros Hp Hg. unfold setFieldValue. assert (Hp' : plain_keys (match lookup_entry data g with Some _ => data | None => set_entry data g (VMap []) end)).
  { destruct (lookup_entry data g); [done|by apply plain_set]. }
  destruct (lookup_entry (match lookup_entry data g with Some _ => data | None => _ end) g) as [[]|]; try done. by apply plain_set.
Qed.
Lemma plain_replacements rs g v data : plain_keys data → no_char dot g → plain_keys (applyReplacements rs g v data).1.
Proof.
  intros Hp Hg. revert data Hp. induction rs as [|r rs IH]; intros data Hp; [done|]. cbn [applyReplacements].
  destruct (applyReplacement r g v data) as [d1 m1] eqn:E. assert (H1 : plain_keys d1).
  { unfold applyReplacement in E. destruct (_fetch _ _); [by injection E as <- _|].
    destruct (evaluateFormula _ _); injection E as <- _; [by apply plain_field|done]. }
  specialize (IH _ H1). by destruct (applyReplacements rs g v d1).
Qed.
Lemma plain_handled s key f g : plain_keys s.1 → no_char dot g → plain_keys (handleDeprecatedField s key f g).1.1.
Proof.
  intros Hp Hg. unfold handleDeprecatedField. destruct s as [data removed]. cbn [fst] in *. destruct (_fetch data key) as [v|]; [|done].
  destruct (String.eqb _ _); [done|]. pose proof (plain_replacements (cf_Replacements f) g v data Hp Hg) as Hd.
  destruct (applyReplacements _ _ _ _) as [d msgs]. by apply plain_remove.
Qed.
Lemma plain_removed_field g s f : plain_keys s.1 → no_char dot (cg_Name g) → plain_keys (removeDeprecated_field g s f).1.
Proof.
  intros Hp Hg. unfold removeDeprecated_field. pose proof (plain_handled s (cg_Name g +:+ "." +:+ field_name f) f (cg_Name g) Hp Hg) as Hd.
  destruct (handleDeprecatedField s _ f _) as [[d rm] h]. destruct (negb h && _ && _); [by apply plain_handled|done].
Qed.
Lemma plain_fields g fs s : plain_keys s.1 → no_char dot (cg_Name g) → plain_keys (foldl (removeDeprecated_field g) s fs).1.
Proof. intros Hp Hg. revert s Hp. induction fs as [|f fs IH]; intros s Hp; [done|]. cbn [foldl]. by apply IH, plain_removed_field. Qed.
Lemma plain_groups rs name m data : plain_keys data → Forall (λ r, no_char dot (rp_Field r)) rs → plain_keys (applyGroupReplacements rs name m data).1.1.
Proof.
  intros Hp Hrs. revert data Hp. induction Hrs as [|r rs Hr _ IH]; intros data Hp; [done|]. cbn [applyGroupReplacements].
  destruct (lookup_entry data (rp_Field r)).
  - specialize (IH data Hp). by destruct (applyGroupReplacements rs name m data) as [[d msgs] ok].
  - specialize (IH _ (plain_set _ _ (VMap (set_entries [] m)) Hp Hr)). by destruct (applyGroupReplacements rs name m _) as [[d msgs] ok].
Qed.
Lemma plain_whole g s : wf_group g → plain_keys s.1 → plain_keys (removeDeprecated_whole g s).1.
Proof.
  intros (Hg & _ & _ & Hr) Hd. unfold removeDeprecated_whole. destruct s as [d rm]. cbn [fst] in Hd. destruct (IsDeprecated _); [|done].
  destruct (lookup_entry d (cg_Name g)) as [[]|]; try done. destruct (String.eqb _ _); [done|].
  pose proof (plain_groups _ (cg_Name g) m d Hd Hr) as Hd'. destruct (applyGroupReplacements _ _ m d) as [[d' msgs] ok]. cbn [fst] in *.
  destruct (ok || _); [by apply plain_delete|done].
Qed.
Lemma plain_all md s : wf_meta md → plain_keys s.1 → plain_keys (foldl removeDeprecated_group s md).1.
Proof.
  intros Hw. revert s. induction Hw as [|g md Hg _ IH]; intros s Hp; [done|]. cbn [foldl]. apply IH, plain_whole; [done|].
  apply plain_fields; [done|apply Hg].
Qed.

(** ** The deprecated options are removed, and nothing else is touched *)

Lemma field_gone g f s :
  wf_group g → wf_field f → plain_keys s.1 → GetLastVersion f ≠ "" → Forall (λ r, rp_Field r ≠ field_name f) (cf_Replacements f) →
  entry (removeDeprecated_field g s f).1 (cg_Name g) (field_name f) = None.
Proof.
  intros (Hg & Hs & _) (Hf & Hv1 & Hv2) Hp Hv Hr. unfold removeDeprecated_field, handleDeprecatedField at 1. destruct s as [data rm]. cbn [fst] in Hp.
  rewrite fetch_entry by done. destruct (entry data (cg_Name g) (field_name f)) as [v|] eqn:E.
  - apply String.eqb_neq in Hv. rewrite Hv. destruct (applyReplacements _ _ _ _) as [d msgs]. cbn [negb andb fst]. by apply removeField_gone.
  - cbn [negb andb]. destruct (negb _ && _); [|done]. apply handled_keeps; [done|done| |done]. intros _. split; [|by left].
    eapply Forall_impl; [exact Hr|]. by intros r Hne [_ ?].
Qed.

(** No replacement writes an option; nor is it in a group that replaces another. *)
Definition not_replaced (md : list convGroup) (k kk : string) : Prop :=
  ∀ g, g ∈ md →
    (∀ f r, f ∈ cg_Fields g → GetLastVersion f ≠ "" → r ∈ cf_Replacements f → ¬ (cg_Name g = k ∧ rp_Field r = kk)) ∧
    (IsDeprecated (as_group g) = true → ∀ r, r ∈ cg_Replacements g → rp_Field r ≠ k).
(** No deprecated option is it, by its name or by the one it had, and its group is not deprecated. *)
Definition not_deprecated (md : list convGroup) (k kk : string) : Prop :=
  ∀ g, g ∈ md →
    (∀ f, f ∈ cg_Fields g → GetLastVersion f ≠ "" →
       ¬ (cg_Name g = k ∧ field_name f = kk) ∧ ¬ (k ∈ split_at slash (cf_V1Group f) ∧ kk = cf_V1Name f)) ∧
    (IsDeprecated (as_group g) = true → cg_Name g ≠ k).

Lemma keeps_none md k kk : not_replaced md k kk → Forall (group_keeps k kk None) md.
Proof.
  intros Hn. apply Forall_forall. intros g Hg. destruct (Hn g Hg) as [Hf Hr]. split.
  - apply Forall_forall. intros f Hin Hv. split_and!; [|by left..]. apply Forall_forall. intros r Hr'. by eapply Hf.
  - intros Hd. split; [|by left]. apply Forall_forall. intros r Hr'. by apply Hr.
Qed.

Lemma keeps_some md k kk x : wf_meta md → not_replaced md k kk → not_deprecated md k kk → Forall (group_keeps k kk x) md.
Proof.
  intros Hw Hn Hd. apply Forall_forall. intros g Hg. destruct (Hn g Hg) as [Hf Hr]. destruct (Hd g Hg) as [Hdf Hdg].
  unfold wf_meta in Hw. rewrite Forall_forall in Hw. destruct (Hw g Hg) as (_ & Hs & _). split.
  - apply Forall_forall. intros f Hin Hv. destruct (Hdf f Hin Hv) as [H1 H2]. split_and!.
    + apply Forall_forall. intros r Hr'. by eapply Hf.
    + right. rewrite split_one by done. rewrite list_elem_of_singleton. intros [-> ->]. by apply H1.
    + by right.
  - intros Hgd. split; [|right; by apply Hdg]. apply Forall_forall. intros r Hr'. by apply Hr.
Qed.

(** C30: migration removes what is deprecated and nothing else.  Whatever the contents (but that the
    names of groups have no dot, which in a path ends the group's name), after the deprecated options
    are removed none is left under its present name, unless a replacement puts another there; and an option that is neither deprecated, under either of its names, nor written by
    a replacement, nor in a group that is, has the value it had. *)
Theorem deprecated_removed md data :
  wf_meta md → plain_keys data →
  let data' := (removeDeprecated md data).1 in
  (∀ g f, g ∈ md → f ∈ cg_Fields g → GetLastVersion f ≠ "" → not_replaced md (cg_Name g) (field_name f) →
     entry data' (cg_Name g) (field_name f) = None) ∧
  (∀ k kk, not_replaced md k kk → not_deprecated md k kk → entry data' k kk = entry data k kk).
Proof.
  intros Hw Hp. cbn zeta. unfold removeDeprecated. split.
  - intros g f Hg Hf Hv Hn. pose proof (keeps_none _ _ _ Hn) as Hk.
    pose proof (Hn g Hg) as [Hnf _]. assert (Hr : Forall (λ r, rp_Field r ≠ field_name f) (cf_Replacements f)).
    { apply Forall_forall. intros r Hr E. by apply (Hnf f r Hf Hv Hr). }
    apply list_elem_of_split in Hg as (pre & post & ->). apply Forall_app in Hw as [Hw1 [Hwg Hw2]%Forall_cons].
    apply Forall_app in Hk as [_ [Hkg Hk2]%Forall_cons]. rewrite foldl_app. cbn [foldl]. apply all_kept; [done..|].
    apply whole_kept; [done|]. set (s := foldl _ _ pre). assert (Hs : plain_keys s.1) by by apply plain_all.
    destruct Hwg as (Hg1 & Hg2 & Hgf & Hg3). destruct Hkg as [Hkf _].
    apply list_elem_of_split in Hf as (fs1 & fs2 & Efs). rewrite Efs in *. apply Forall_app in Hgf as Hgf'.
    destruct Hgf' as [Hf1 [Hff Hf2]%Forall_cons]. apply Forall_app in Hkf as [_ [_ Hkf2]%Forall_cons].
    assert (Hwg : wf_group g) by (split_and!; [done..| |done]; by rewrite Efs).
    rewrite foldl_app. cbn [foldl]. apply fields_kept; [done..|]. apply field_gone; [done..| |done|done]. by apply plain_fields.
  - intros k kk Hn Hd. by apply all_kept; [|apply keeps_some|].
Qed.

(** ** Two deprecations of the real metadata *)

Module ConvertExample.
Definition field (name version : string) (replacements : list Replacement) : convField :=
  mkConvField (mkField name "int" VNil [] [] (mkDeprecation version "")) "InMemCollector" name replacements.
Definition capacity : convField :=
  field "CacheCapacity" "v3.0.0" [mkReplacement "PeerQueueSize" "3 * value"; mkReplacement "IncomingQueueSize" "3 * value"].
Definition collection : convGroup :=
  mkConvGroup "Collection" [capacity; field "PeerQueueSize" "" []; field "IncomingQueueSize" "" []] (mkDeprecation "" "") [].
Definition meta : list convGroup :=
  [mkConvGroup "LegacyMetrics" [field "Enabled" "" []] (mkDeprecation "v3.0.0" "") [mkReplacement "OTelMetrics" ""]; collection].
Definition old : object := [
  ("LegacyMetrics", VMap [("Enabled", VBool true)]);
  ("Collection", VMap [("CacheCapacity", VInt 1000); ("IncomingQueueSize", VInt 7); ("WorkerCount", VInt 4)])].

(** A size that is set is kept, the other is computed. *)
Lemma migrated : (removeDeprecated meta old).1 = [
  ("Collection", VMap [("IncomingQueueSize", VInt 7); ("WorkerCount", VInt 4); ("PeerQueueSize", VInt64 3000)]);
  ("OTelMetrics", VMap [("Enabled", VBool true)])].
Proof. by vm_compute. Qed.

(** Under both of its names: the present one is removed, the old one stays. *)
Lemma old_name_left :
  (removeDeprecated meta [("Collection", VMap [("CacheCapacity", VInt 1)]); ("InMemCollector", VMap [("CacheCapacity", VInt 2)])]).1 =
  [("Collection", VMap [("PeerQueueSize", VInt64 3); ("IncomingQueueSize", VInt64 3)]); ("InMemCollector", VMap [("CacheCapacity", VInt 2)])].
Proof. by vm_compute. Qed.

(** Replacements write the two sizes of queues only. *)
Lemma only_queues kk : kk ≠ "PeerQueueSize" → kk ≠ "IncomingQueueSize" → not_replaced meta "Collection" kk.
Proof.
  intros Hp Hi g Hg. repeat (apply elem_of_cons in Hg as [->|Hg]); [..|by apply elem_of_nil in Hg].
  - split; [|intros _ r Hr; by apply list_elem_of_singleton in Hr as ->].
    intros f r Hf Hv. apply list_elem_of_singleton in Hf as ->. done.
  - split; [|done]. intros f r Hf Hv Hr [_ E]. repeat (apply elem_of_cons in Hf as [->|Hf]); try done; [|by apply elem_of_nil in Hf].
    cbn in Hr. repeat (apply elem_of_cons in Hr as [->|Hr]); [by destruct Hp|by destruct Hi|by apply elem_of_nil in Hr].
Qed.
Lemma kept_untouched : not_deprecated meta "Collection" "WorkerCount".
Proof.
  intros g Hg. repeat (apply elem_of_cons in Hg as [->|Hg]); [..|by apply elem_of_nil in Hg]; (split; [|done]); intros f Hf Hv.
  - apply list_elem_of_singleton in Hf as ->. done.
  - repeat (apply elem_of_cons in Hf as [->|Hf]); try done; [|by apply elem_of_nil in Hf]. split; [by intros [_ ?]|]. by intros [_ ?].
Qed.

Lemma conv_meta_wf : wf_meta meta.
Proof. repeat constructor. Qed.
Lemma old_plain : plain_keys old.
Proof.
  intros k. unfold old. rewrite !lookup_entry_cons. destruct (decide ("LegacyMetrics" = k)) as [<-|]; [done|].
  by destruct (decide ("Collection" = k)) as [<-|].
Qed.

Lemma deprecated_removed_witness :
  wf_meta meta ∧ plain_keys old ∧ entry (removeDeprecated meta old).1 "Collection" "CacheCapacity" = None ∧
  entry (removeDeprecated meta old).1 "Collection" "WorkerCount" = Some (VInt 4).
Proof.
  destruct (deprecated_removed meta old conv_meta_wf old_plain) as [Hgone Hkept]. split_and!; [exact conv_meta_wf|exact old_plain| |].
  - apply (Hgone collection capacity); [right; left|left|done|by apply (only_queues "CacheCapacity")].
  - rewrite (Hkept _ _ (only_queues "WorkerCount" ltac:(discriminate) ltac:(discriminate)) kept_untouched). reflexivity.
Defined.
End ConvertExample.
