(* ===== verification/ConvertText.v ===== *)
(** tools/convert/helpers.go: the text that the conversion tool writes.

    The functions its templates call: lines of a document, and a setting that is carried over from
    an old configuration, or shown in a comment.  A value is printed as fmt does; quoting a string and
    printing a duration are the class [GoText].  The letters and spaces are those of ASCII. *)
From Stdlib Require Import Ascii.
From S2P Require Import Prelude GoValue SamplerConfig Config MemorySize Validate ValidateFacts Settings Load LoadFacts Convert.

(** %#v of a string, and time.Duration's String. *)
Class GoText := { Quote : string → string; Duration_String : Z → string }.

Definition newline : ascii := "010".
Definition blank : ascii := " ".
Definition nl : string := String newline "".
Definition Repeat (s : string) (n : nat) : string := str_concat (repeat s n).

(** ** Lines *)

(** [^a-zA-Z0-9]+ replaced by a dash. *)
Definition is_alnum (c : ascii) : bool := is_letter c || (let n := N_of_ascii c in (48 <=? n) && (n <=? 57))%N.
Fixpoint dashes (in_run : bool) (s : string) : string :=
  match s with
  | EmptyString => ""
  | String c s =>
      if is_alnum c then String c (dashes false s)
      else if in_run then dashes true s else String "-" (dashes true s)
  end.
Definition anchorize (s : string) : string := ToLower (dashes false s).

Definition box (s : string) : string :=
  let boxwidth := (String.length s + 6)%nat in
  Repeat "#" boxwidth +:+ nl +:+ "## " +:+ s +:+ " ##" +:+ nl +:+ Repeat "#" boxwidth.

(** Every line is a comment; blanks at the very end are dropped. *)
Fixpoint trim_right (c : ascii) (s : string) : string :=
  match s with
  | EmptyString => ""
  | String d s => let s := trim_right c s in if Ascii.eqb d c && String.eqb s "" then "" else String d s
  end.
Definition comment (s : string) : string := trim_right blank ("## " +:+ str_join (nl +:+ "## ") (split_at newline s)).

(** A line's end with the blanks around it, replaced by an end and an indentation. *)
Definition is_tab (c : ascii) : bool := Ascii.eqb c blank || Ascii.eqb c "009".
Fixpoint indent_from (fuel : nat) (end_ : string) (s : string) : string :=
  match fuel, s with
  | S fuel, String c s' =>
      match (span is_tab s).2 with
      | String d rest => if Ascii.eqb d newline then end_ +:+ indent_from fuel end_ (span is_tab rest).2 else String c (indent_from fuel end_ s')
      | EmptyString => String c (indent_from fuel end_ s')
      end
  | _, _ => ""
  end.
Definition indentRest (count : nat) (s : string) : string := indent_from (String.length s) (nl +:+ Repeat " " count) s.
Definition indent (count : nat) (s : string) : string := Repeat " " count +:+ indentRest count s.

(** Words go to a line until the next one does not fit. *)
Definition width : nat := 70.
Fixpoint wrap_words (words : list string) (result line : string) : string :=
  match words with
  | [] => result +:+ TrimSpace line
  | w :: words =>
      let '(result, line) :=
        if (width <? String.length line + String.length w)%nat then (result +:+ TrimSpace line +:+ nl, "") else (result, line) in
      wrap_words words result (line +:+ w +:+ " ")
  end.
Definition wordwrap (s : string) : string :=
  str_join nl ((λ l, wrap_words (split_at blank l) "" "") <$> split_at newline s).

Definition wci (ind : nat) (s : string) : string := indent ind (comment (wordwrap s)).

(** A break between paragraphs becomes a mark, and a mark, or the spaces after a sentence, become an
    end of line. *)
Definition paragraph_mark := "__PARAGRAPH_BREAK__".
(** The run of spaces up to its last end of line, if it has one, and what follows. *)
Fixpoint to_last_newline (s : string) : option string :=
  match s with
  | String c s' =>
      if is_space c then
        match to_last_newline s' with
        | Some rest => Some rest
        | None => if Ascii.eqb c newline then Some s' else None
        end
      else None
  | EmptyString => None
  end.
Fixpoint mark_paragraphs (fuel : nat) (s : string) : string :=
  match fuel, s with
  | S fuel, String c s' =>
      if Ascii.eqb c newline then
        match to_last_newline s' with
        | Some rest => paragraph_mark +:+ mark_paragraphs fuel rest
        | None => String c (mark_paragraphs fuel s')
        end
      else String c (mark_paragraphs fuel s')
  | _, _ => ""
  end.
Definition ends_sentence (c : ascii) : bool := Ascii.eqb c "." || Ascii.eqb c "?" || Ascii.eqb c "!".
Fixpoint break_sentences (fuel : nat) (s : string) : string :=
  match fuel, s with
  | S fuel, String c s' =>
      let '(spaces, rest) := span is_space s' in
      if ends_sentence c && negb (String.eqb spaces "") then String c (nl +:+ break_sentences fuel rest)
      else if HasPrefix s paragraph_mark then nl +:+ break_sentences fuel (str_drop (String.length paragraph_mark) s)
      else String c (break_sentences fuel s')
  | _, _ => ""
  end.
Definition wrapForDocs (s : string) : string :=
  let s := mark_paragraphs (String.length s) s in break_sentences (String.length s) s.

(** ** Numbers and words *)

(** The digits in groups of three, from the last. *)
Fixpoint groups (fuel : nat) (s : string) (output : list string) : list string :=
  match fuel with
  | S fuel =>
      if (3 <? String.length s)%nat
      then groups fuel (str_take (String.length s - 3) s) (str_drop (String.length s - 3) s :: output)
      else s :: output
  | O => s :: output
  end.
Definition _formatIntWithUnderscores (i : Z) : string := let s := format_int i in str_join "_" (groups (String.length s) s []).

Definition genSlice (s : list string) : string :=
  "(makeSlice " +:+ str_join " " ((λ v, String "034" v +:+ String "034" "") <$> s) +:+ ")".
Definition meta (s : string) : string := "{{ " +:+ s +:+ " }}".
Definition envvar (s : string) : string := "# May be specified in the environment as " +:+ s +:+ ".".
Definition reload (b : bool) : string := if b then "## Eligible for live reload." else "## Not eligible for live reload.".

Definition schemaType (typ : string) : string :=
  if bool_decide (typ ∈ ["int"; "percentage"]) then "integer"
  else if String.eqb typ "float" then "number"
  else if String.eqb typ "string" then "string"
  else if String.eqb typ "bool" then "boolean"
  else if bool_decide (typ ∈ ["duration"; "hostport"; "url"]) then "string"
  else if String.eqb typ "stringarray" then "array"
  else if String.eqb typ "map" then "object"
  else "UNKNOWN".

(** ** Settings *)

Section Print.
Context `{!GoFloat, !GoText}.
Implicit Types (data : object) (v : value).

(** internal comparison: two values that print alike are equivalent. *)
Definition _equivalent (a b : value) : bool := String.eqb (fmt_v a) (fmt_v b).

Definition _isZeroValue v : bool :=
  match v with
  | VString s => String.eqb s ""
  | VInt z | VInt64 z => z =? 0
  | VFloat64 f => f64_eqb f (f64_of_Z 0)
  | VBool b => negb b
  | VMap m => bool_decide (m = [])
  | _ => false
  end.

(** Of a list, the elements that are strings. *)
Definition _getStringsFrom v : list string := match v with VList l => omap as_string l | _ => [] end.

(** The range A-z of the pattern holds six more characters. *)
Definition plain_char (c : ascii) : bool :=
  let n := N_of_ascii c in ((65 <=? n) && (n <=? 122) || (48 <=? n) && (n <=? 57))%N.
Definition yamlf v : string :=
  match v with
  | VString s =>
      if negb (String.eqb s "") && str_forallb plain_char s then s
      else if str_contains s (String "034" "") && negb (str_contains s "'") then "'" +:+ s +:+ "'"
      else Quote s
  | VInt i => _formatIntWithUnderscores i
  | VFloat64 f => fmt_float_f f
  | v => fmt_v v
  end.
Definition yamlf_duration (d : Z) : string := Duration_String d.

Definition set_line (key : string) (text : string) : string := key +:+ ": " +:+ text.
Definition shown_line (key : string) (text : string) : string := "# " +:+ key +:+ ": " +:+ text.

Definition choice data (key oldkey : string) (choices : list string) (def : string) : string :=
  match _fetch data oldkey with
  | Some v =>
      if _equivalent v (VString def) then shown_line key (yamlf (VString def))
      else if existsb (λ c, _equivalent v (VString c)) choices then set_line key (yamlf v)
      else shown_line key (yamlf v +:+ "  ### Invalid option!")
  | None => shown_line key (yamlf (VString def))
  end.

(** [None] is a panic: an unknown condition, or one without its arguments. *)
Definition conditional data (key extra : string) : option string :=
  let extras := split_at blank extra in
  let kind := default "" (extras !! 0%nat) in
  let answer (b : bool) : string := if b then key +:+ ": true" else "# " +:+ key +:+ ": false" in
  if String.eqb kind "eq" then
    match extras !! 1%nat, extras !! 2%nat with
    | Some k, Some v => Some (answer (match _fetch data k with Some x => _equivalent x (VString v) | None => false end))
    | _, _ => None
    end
  else if String.eqb kind "nostar" then
    k ← extras !! 1%nat;
    Some (answer (match _fetch data k with
                  | Some x => let l := _getStringsFrom x in (0 <? length l)%nat && negb (existsb (String.eqb "*") l)
                  | None => false
                  end))
  else if String.eqb kind "nonempty" then
    k ← extras !! 1%nat;
    Some (answer (match _fetch data k with Some x => negb (String.eqb (fmt_v x) "") | None => false end))
  else None.

Definition present data (oldkey : string) : option value :=
  match _fetch data oldkey with Some (VString "") => None | r => r end.

(** Of a number that is no integer, zero. *)
Definition whole v : Z := match v with VInt z | VInt64 z => z | _ => 0 end.

Definition memorysize data (key oldkey example : string) : string :=
  match present data oldkey with
  | Some v => set_line key (MemorySize.MarshalText (u64 (whole v)))
  | None => shown_line key (yamlf (VString example))
  end.
Definition secondsToDuration data (key oldkey example : string) : string :=
  match present data oldkey with
  | Some v => set_line key (yamlf_duration (s64 (whole v * 10 ^ 9)))
  | None => shown_line key (yamlf (VString example))
  end.
Definition nonDefaultOnly data (key oldkey : string) (def : value) : string :=
  match _fetch data oldkey with
  | Some v => if negb (_equivalent v def) then set_line key (yamlf v) else shown_line key (yamlf def)
  | None => shown_line key (yamlf def)
  end.
Definition nonEmptyString data (key oldkey example : string) : string :=
  match present data oldkey with
  | Some v => set_line key (yamlf v)
  | None => shown_line key (yamlf (VString example))
  end.
Definition nonZero data (key oldkey example : string) : string :=
  match _fetch data oldkey with
  | Some v => (if _isZeroValue v then "# " else "") +:+ set_line key (yamlf v)
  | None => shown_line key (yamlf (VString example))
  end.

(** [None] is the panic on an element that is no string. *)
Definition renderStringarray data (key oldkey example : string) : option string :=
  let render comment sa := comment +:+ key +:+ ":" +:+ nl +:+ "      " +:+ str_join (nl +:+ "      ") ((λ s, comment +:+ "- " +:+ s) <$> sa) in
  sa ← match _fetch data oldkey with Some (VList l) => mapM as_string l | _ => Some [] end;
  Some (match sa with [] => render "# " (split_at "," example) | sa => render "" sa end).

(** The examples, or the strings that are configured when they print otherwise. *)
Definition stringArray data (key oldkey : string) (ind : nat) (examples : list value) : string :=
  let keys := omap as_string examples in
  let '(comment, keys) :=
    match _fetch data oldkey with
    | Some v =>
        let userkeys := _getStringsFrom v in
        if negb (_equivalent (VList (VString <$> keys)) (VList (VString <$> userkeys))) then ("", userkeys) else ("# ", keys)
    | None => ("# ", keys)
    end in
  comment +:+ key +:+ ":" +:+ nl +:+ str_concat ((λ k, Repeat " " ind +:+ comment +:+ "- " +:+ yamlf (VString k) +:+ nl) <$> keys).

(** A map that is configured panics: it is never of the type that is asserted.  Of the example, the
    pairs, whose names differ, in some order, here the order they are written in; one without a colon
    panics. *)
Definition renderMap data (key oldkey example : string) : option string :=
  match lookup_entry data key with
  | Some _ => None
  | None =>
      pairs ← mapM (cut ":") (split_at "," example);
      Some ("# " +:+ key +:+ ":" +:+ nl +:+ "      " +:+ str_join (nl +:+ "      ") ((λ kv, "#  " +:+ kv.1 +:+ ": " +:+ kv.2) <$> pairs))
  end.
End Print.

(** ** Wrapping keeps the words *)

(** Words are what stands between blanks and ends of lines. *)
Fixpoint chunks (f : ascii → bool) (s : string) : list string :=
  match s with
  | EmptyString => [""]
  | String c s =>
      if f c then "" :: chunks f s
      else match chunks f s with [] => [String c ""] | x :: l => String c x :: l end
  end.
Definition separates (c : ascii) : bool := Ascii.eqb c blank || Ascii.eqb c newline.
Definition words_of (s : string) : list string := filter (λ w, w ≠ "") (chunks separates s).
(** No other spaces than blanks and ends of lines. *)
Definition plain_text (s : string) : Prop := str_forallb (λ c, negb (trims c) || separates c) s = true.

Lemma split_chunks c s : split_at c s = chunks (λ d, Ascii.eqb d c) s.
Proof. induction s as [|d s IH]; [done|]. cbn. by rewrite IH. Qed.

Lemma chunks_nonempty f s : chunks f s ≠ [].
Proof. destruct s as [|c s]; [done|]. cbn. destruct (f c); [done|]. by destruct (chunks f s). Qed.

Lemma chunks_app f a c b : f c = true → chunks f (a +:+ String c b) = chunks f a ++ chunks f b.
Proof.
  intros Hc. induction a as [|d a IH]; [change ("" +:+ String c b) with (String c b); cbn; by rewrite Hc|].
  change (String d a +:+ String c b) with (String d (a +:+ String c b)). cbn. rewrite IH. destruct (f d); [done|].
  pose proof (chunks_nonempty f a). by destruct (chunks f a).
Qed.

Lemma words_app a c b : separates c = true → words_of (a +:+ String c b) = words_of a ++ words_of b.
Proof. intros Hc. unfold words_of. by rewrite chunks_app, filter_app. Qed.

Lemma words_join c l : separates c = true → words_of (str_join (String c "") l) = concat (words_of <$> l).
Proof.
  intros Hc. induction l as [|x l IH]; [done|]. destruct l as [|y l]; [cbn; by rewrite app_nil_r|].
  change (str_join (String c "") (x :: y :: l)) with (x +:+ String c "" +:+ str_join (String c "") (y :: l)).
  change (String c "" +:+ str_join (String c "") (y :: l)) with (String c (str_join (String c "") (y :: l))).
  by rewrite words_app, IH.
Qed.

(** A text without separators is one word, or none. *)
Lemma chunks_none f w : str_forallb (λ c, negb (f c)) w = true → chunks f w = [w].
Proof.
  induction w as [|c w IH]; [done|]. cbn [str_forallb]. intros [Hc Hw]%andb_true_iff. apply negb_true_iff in Hc.
  cbn [chunks]. by rewrite Hc, (IH Hw).
Qed.

(** Trimming takes no part of a word, if what it trims separates. *)
Lemma chunks_rtrim s : plain_text s → ∃ n, chunks separates s = chunks separates (rtrim s) ++ repeat "" n.
Proof.
  unfold plain_text. induction s as [|c s IH]; intros Hp; [by exists O|]. cbn [str_forallb] in Hp. apply andb_true_iff in Hp as [Hc Hp].
  destruct (IH Hp) as [n E]. cbn [rtrim]. destruct (trims c) eqn:Et; cbn [andb].
  - assert (Hs : separates c = true) by exact Hc. destruct (String.eqb_spec (rtrim s) "") as [Er|Hne].
    + exists (S n). rewrite Er in E. cbn [chunks]. rewrite Hs, E. done.
    + exists n. cbn [chunks]. by rewrite Hs, E.
  - exists n. cbn [chunks]. rewrite E. destruct (separates c); [done|].
    pose proof (chunks_nonempty separates (rtrim s)). by destruct (chunks separates (rtrim s)).
Qed.

Lemma filter_blank_words n : filter (λ w, w ≠ "") (repeat "" n) = [].
Proof. induction n as [|n IH]; [done|]. cbn [repeat]. rewrite filter_cons_False by tauto. exact IH. Qed.

Lemma words_trim s : plain_text s → words_of (TrimSpace s) = words_of s.
Proof.
  intros Hp. unfold TrimSpace.
  assert (Hd : plain_text (span trims s).2 ∧ words_of (span trims s).2 = words_of s).
  { unfold plain_text in *. induction s as [|c s IH]; [done|]. cbn [span]. cbn [str_forallb] in Hp. apply andb_true_iff in Hp as [Hc Hp].
    destruct (trims c) eqn:Et; [|split; [cbn [snd str_forallb]; by rewrite Et, Hp|done]].
    destruct (span trims s) as [a b]. destruct (IH Hp) as [H1 H2]. split; [done|]. cbn [snd] in *. rewrite H2.
    assert (Hs : separates c = true) by exact Hc. unfold words_of. cbn [chunks]. by rewrite Hs, filter_cons_False by tauto. }
  destruct Hd as [Hp' E]. destruct (chunks_rtrim _ Hp') as [n En]. rewrite <-E. unfold words_of at 2. by rewrite En, filter_app, filter_blank_words, app_nil_r.
Qed.

Lemma rtrim_blank s : rtrim (s +:+ " ") = rtrim s.
Proof. induction s as [|c s IH]; [done|]. change (String c s +:+ " ") with (String c (s +:+ " ")). cbn [rtrim]. by rewrite IH. Qed.
Lemma trim_blank s : TrimSpace (s +:+ " ") = TrimSpace s.
Proof.
  unfold TrimSpace. induction s as [|c s IH]; [done|]. change (String c s +:+ " ") with (String c (s +:+ " ")). cbn [span].
  destruct (trims c); [|apply (rtrim_blank (String c s))]. destruct (span trims (s +:+ " ")), (span trims s). exact IH.
Qed.

Lemma rtrim_forallb f s : str_forallb f s = true → str_forallb f (rtrim s) = true.
Proof.
  induction s as [|c s IH]; [done|]. cbn [str_forallb rtrim]. intros [Hc Hs]%andb_true_iff.
  destruct (trims c && _); [done|]. cbn [str_forallb]. by rewrite Hc, IH.
Qed.
Lemma trim_forallb f s : str_forallb f s = true → str_forallb f (TrimSpace s) = true.
Proof.
  unfold TrimSpace. induction s as [|c s IH]; [done|]. intros Hs. cbn [span]. destruct (trims c); [|by apply rtrim_forallb].
  cbn [str_forallb] in Hs. apply andb_true_iff in Hs as [_ Hs]. specialize (IH Hs). by destruct (span trims s).
Qed.
Lemma rtrim_length s : (String.length (rtrim s) ≤ String.length s)%nat.
Proof. induction s as [|c s IH]; [done|]. cbn [rtrim]. destruct (trims c && _); cbn [String.length]; lia. Qed.
Lemma trim_length s : (String.length (TrimSpace s) ≤ String.length s)%nat.
Proof.
  unfold TrimSpace. induction s as [|c s IH]; [done|]. cbn [span]. destruct (trims c); [|apply rtrim_length].
  destruct (span trims s). cbn [snd String.length] in *. lia.
Qed.

Lemma forallb_app f a b : str_forallb f (a +:+ b) = str_forallb f a && str_forallb f b.
Proof. induction a as [|c a IH]; [done|]. change (String c a +:+ b) with (String c (a +:+ b)). cbn [str_forallb]. by rewrite IH, andb_assoc. Qed.

(** A word has no space of any kind; a line that is being made is empty, or ends with a blank. *)
Definition a_word (w : string) : Prop := str_forallb (λ c, negb (trims c)) w = true.
Definition fits (l : string) : Prop := (String.length l ≤ width)%nat ∨ a_word l.
Definition growing (line : string) : Prop := line = "" ∨ ∃ l, line = l +:+ " " ∧ fits l ∧ str_forallb (λ c, negb (trims c) || Ascii.eqb c blank) l = true.

Lemma wrap_prefix words result line : wrap_words words result line = result +:+ wrap_words words "" line.
Proof.
  revert result line. induction words as [|w words IH]; intros result line; [done|]. cbn [wrap_words]. destruct (width <? _)%nat.
  - rewrite IH, (IH ("" +:+ _)). by rewrite !str_app_assoc.
  - apply IH.
Qed.

Lemma growing_plain line : growing line → plain_text line ∧ str_forallb (λ c, negb (Ascii.eqb c newline)) (TrimSpace line) = true ∧ fits (TrimSpace line).
Proof.
  intros [->|(l & -> & Hf & Hl)]; [split_and!; [done..|by left; cbn; lia]|]. rewrite trim_blank. split_and!.
  - unfold plain_text. rewrite forallb_app, andb_true_r. induction l as [|c l IH]; [done|]. cbn [str_forallb] in *.
    apply andb_true_iff in Hl as [Hc Hl]. unfold separates at 1. rewrite orb_assoc, Hc. cbn. apply IH; [|done].
    destruct Hf as [Hf|Hf]; [left; cbn [String.length] in Hf; lia|right; by apply andb_true_iff in Hf as [_ ?]].
  - apply trim_forallb. clear Hf. induction l as [|c l IH]; [done|]. cbn [str_forallb] in *. apply andb_true_iff in Hl as [Hc Hl].
    rewrite (IH Hl), andb_true_r. by destruct (Ascii.eqb_spec c newline) as [->|].
  - destruct Hf as [Hf|Hf]; [left|right; by apply trim_forallb]. pose proof (trim_length l). lia.
Qed.

Lemma a_word_plain w : a_word w → str_forallb (λ c, negb (trims c) || Ascii.eqb c blank) w = true ∧ words_of w = filter (λ w, w ≠ "") [w].
Proof.
  unfold a_word. intros Hw. split.
  - induction w as [|c w IH]; [done|]. cbn [str_forallb] in *. apply andb_true_iff in Hw as [-> Hw]. cbn [orb andb]. by apply IH.
  - unfold words_of. f_equal. apply chunks_none. induction w as [|c w IH]; [done|]. cbn [str_forallb] in *. apply andb_true_iff in Hw as [Hc Hw].
    rewrite (IH Hw), andb_true_r. unfold separates. destruct (Ascii.eqb_spec c blank) as [->|]; [done|]. by destruct (Ascii.eqb_spec c newline) as [->|].
Qed.

Lemma growing_next line w : a_word w → growing line → (String.length line + String.length w ≤ width)%nat ∨ line = "" →
  growing (line +:+ w +:+ " ") ∧ words_of (line +:+ w +:+ " ") = words_of line ++ words_of w.
Proof.
  intros Hw Hg Hlen. destruct (a_word_plain w Hw) as [Hc Ew]. change (w +:+ " ") with (w +:+ String blank "").
  assert (Esp : words_of (w +:+ String blank "") = words_of w) by by rewrite (words_app w blank ""), app_nil_r.
  destruct Hg as [->|(l & -> & Hf & Hl)].
  - split; [|exact Esp]. right. exists w. split_and!; [done|by right|done].
  - change (l +:+ " ") with (l +:+ String blank ""). rewrite !str_app_assoc. change (String blank "" +:+ w +:+ String blank "") with (String blank (w +:+ String blank "")). split.
    + right. exists (l +:+ String blank w). split_and!.
      * rewrite str_app_assoc. done.
      * left. destruct Hlen as [Hlen|E]; [|by destruct l]. rewrite !str_length_app in *. cbn [String.length] in *. lia.
      * rewrite forallb_app, Hl. cbn [str_forallb andb]. by rewrite Hc.
    + rewrite !words_app by done. change (words_of "") with (@nil string). by rewrite !app_nil_r.
Qed.

Lemma wrap_line words line : Forall a_word words → growing line →
  words_of (wrap_words words "" line) = words_of line ++ concat (words_of <$> words) ∧
  Forall fits (split_at newline (wrap_words words "" line)).
Proof.
  intros Hws. revert line. induction Hws as [|w words Hw _ IH]; intros line Hg; destruct (growing_plain line Hg) as (Hp & Hn & Hf).
  - cbn [wrap_words fmap list_fmap concat]. change ("" +:+ TrimSpace line) with (TrimSpace line). rewrite words_trim, app_nil_r by done.
    split; [done|]. rewrite split_chunks, chunks_none by done. by constructor.
  - cbn [wrap_words]. destruct (Nat.ltb_spec width (String.length line + String.length w)) as [Hlt|Hle].
    + rewrite wrap_prefix. destruct (growing_next "" w Hw (or_introl eq_refl) (or_intror eq_refl)) as [Hg' Ew].
      destruct (IH _ Hg') as [E Hl]. change ("" +:+ w +:+ " ") with (w +:+ " ") in *. change ("" +:+ TrimSpace line +:+ nl) with (TrimSpace line +:+ nl).
      rewrite str_app_assoc. change (nl +:+ ?x) with (String newline x). rewrite words_app by done. rewrite E, Ew, words_trim by done.
      split; [done|]. rewrite split_chunks, chunks_app, chunks_none, <-split_chunks by done. by constructor.
    + destruct (growing_next line w Hw Hg (or_introl Hle)) as [Hg' Ew]. destruct (IH _ Hg') as [E Hl]. split; [|done].
      rewrite E, Ew. cbn [fmap list_fmap concat]. by rewrite app_assoc.
Qed.

Lemma join_pieces c s : str_join (String c "") (split_at c s) = s.
Proof.
  rewrite split_chunks. induction s as [|d s IH]; [done|]. cbn [chunks]. pose proof (chunks_nonempty (λ d, Ascii.eqb d c) s) as Hne.
  destruct (Ascii.eqb_spec d c) as [->|_]; destruct (chunks _ s) as [|x [|y l]]; try done; rewrite <-IH; done.
Qed.
Lemma words_split c s : separates c = true → words_of s = concat (words_of <$> split_at c s).
Proof. intros Hc. rewrite <-(join_pieces c s) at 1. by apply words_join. Qed.

Lemma split_forallb f c s : str_forallb (λ d, f d || Ascii.eqb d c) s = true → Forall (λ x, str_forallb f x = true) (split_at c s).
Proof.
  rewrite split_chunks. induction s as [|d s IH]; [by constructor|]. cbn [str_forallb chunks]. intros [Hd Hs]%andb_true_iff. specialize (IH Hs).
  destruct (Ascii.eqb d c); [by constructor|]. rewrite orb_false_r in Hd. destruct IH as [|x l Hx Hl]; constructor; cbn [str_forallb]; rewrite ?Hd; try done.
Qed.

Lemma split_join c ls : ls ≠ [] → split_at c (str_join (String c "") ls) = concat (split_at c <$> ls).
Proof.
  intros Hne. induction ls as [|x ls IH]; [done|]. destruct ls as [|y ls]; [cbn; by rewrite app_nil_r|].
  change (str_join (String c "") (x :: y :: ls)) with (x +:+ String c (str_join (String c "") (y :: ls))).
  rewrite split_chunks, chunks_app, <-!split_chunks by apply Ascii.eqb_refl. by rewrite IH.
Qed.

(** Wrapping a text changes no word of it.  Of a text whose only spaces are blanks and ends of
    lines, the words of the result are those of the text, in their order, and every line of the result
    has at most seventy characters or is one word. *)
Theorem wordwrap_keeps s : plain_text s →
  words_of (wordwrap s) = words_of s ∧
  Forall (λ l, (String.length l ≤ 70)%nat ∨ a_word l) (split_at newline (wordwrap s)).
Proof.
  intros Hp. assert (Hl : Forall (λ l, Forall a_word (split_at blank l)) (split_at newline s)).
  { assert (Hs : str_forallb (λ d, (negb (trims d) || Ascii.eqb d blank) || Ascii.eqb d newline) s = true).
    { unfold plain_text, separates in Hp. induction s as [|c s IH]; [done|]. cbn [str_forallb] in *. apply andb_true_iff in Hp as [Hc Hp].
      rewrite (IH Hp), andb_true_r, <-orb_assoc. exact Hc. }
    eapply Forall_impl; [exact (split_forallb _ _ _ Hs)|]. intros l. by apply split_forallb. }
  unfold wordwrap. unfold nl. rewrite words_join, (words_split newline s) by done. rewrite split_join.
  2: { rewrite split_chunks. pose proof (chunks_nonempty (λ d, Ascii.eqb d newline) s). by destruct (chunks _ s). }
  revert Hl. generalize (split_at newline s) as ls. intros ls Hl. induction Hl as [|l ls Hw _ [IH1 IH2]]; [done|].
  destruct (wrap_line (split_at blank l) "" Hw (or_introl eq_refl)) as [E Hf]. cbn [fmap list_fmap concat]. split.
  - rewrite E, (words_split blank l) by done. change (words_of "") with (@nil string). cbn [app]. by f_equal.
  - by apply Forall_app.
Qed.

(** ** Numbers keep their digits *)

Lemma groups_concat fuel s output : str_concat (groups fuel s output) = s +:+ str_concat output.
Proof.
  revert s output. induction fuel as [|fuel IH]; intros s output; [done|]. cbn [groups]. destruct (Nat.ltb_spec 3 (String.length s)); [|done].
  rewrite IH. cbn [str_concat foldr]. rewrite <-str_app_assoc. f_equal. generalize (String.length s - 3)%nat. clear.
  induction s as [|c s IH]; intros [|n]; try done. cbn [str_take str_drop]. change (String c ?a +:+ ?b) with (String c (a +:+ b)). by rewrite IH.
Qed.

Lemma groups_sized fuel s output : (String.length s ≤ fuel)%nat → Forall (λ g, String.length g = 3%nat) output →
  ∃ g gs, groups fuel s output = g :: gs ∧ (String.length g ≤ 3)%nat ∧ Forall (λ g, String.length g = 3%nat) gs.
Proof.
  assert (Ht : ∀ n x, (n ≤ String.length x)%nat → String.length (str_take n x) = n ∧ String.length (str_drop n x) = (String.length x - n)%nat).
  { intros n x. revert n. induction x as [|c x IH]; intros [|n] Hn; cbn in *; try done; try lia. destruct (IH n ltac:(lia)). lia. }
  revert s output. induction fuel as [|fuel IH]; intros s output Hlen Ho.
  - exists s, output. split_and!; [done|lia|done].
  - cbn [groups]. destruct (Nat.ltb_spec 3 (String.length s)) as [Hlt|Hge]; [|by exists s, output].
    destruct (Ht (String.length s - 3)%nat s ltac:(lia)) as [E1 E2]. apply IH; [lia|]. constructor; [lia|done].
Qed.

(** An integer is printed as its decimal digits in groups of three. *)
Lemma underscores_keep i :
  ∃ g gs, _formatIntWithUnderscores i = str_join "_" (g :: gs) ∧ g +:+ str_concat gs = format_int i ∧
    (String.length g ≤ 3)%nat ∧ Forall (λ g, String.length g = 3%nat) gs.
Proof.
  unfold _formatIntWithUnderscores. destruct (groups_sized (String.length (format_int i)) (format_int i) [] ltac:(done) ltac:(constructor)) as (g & gs & E & Hg & Hgs).
  exists g, gs. rewrite E. split_and!; [done| |done|done]. pose proof (groups_concat (String.length (format_int i)) (format_int i) []) as Hc.
  rewrite E in Hc. by rewrite str_app_nil_r in Hc.
Qed.

(** ** On concrete values *)

Module TextExample.
Definition sample : string := "The number of spans that a trace may have before it is sent, whether or not its root has arrived." +:+ nl +:+ "  None".
Lemma wordwrap_keeps_witness :
  plain_text sample ∧ words_of (wordwrap sample) = words_of sample ∧ length (split_at newline (wordwrap sample)) = 3%nat.
Proof.
  assert (Hp : plain_text sample) by reflexivity. destruct (wordwrap_keeps sample Hp) as [E _]. split_and!; [exact Hp|exact E|reflexivity].
Defined.

#[export] Instance text : GoText := {| Quote s := String "034" s +:+ String "034" ""; Duration_String d := format_int (d / 10 ^ 9) +:+ "s" |}.
Existing Instance example_float.

(** A number of seconds of a JSON document is no integer, and becomes zero. *)
Lemma json_seconds_lost :
  secondsToDuration [("SendDelay", VFloat64 (f64_of_Z 2))] "SendDelay" "SendDelay" "" = "SendDelay: 0s" ∧
  secondsToDuration [("SendDelay", VInt64 2)] "SendDelay" "SendDelay" "" = "SendDelay: 2s".
Proof. split; by vm_compute. Qed.
(** A string that YAML reads as another type, or as a list, is not quoted. *)
Lemma unquoted : yamlf (VString "true") = "true" ∧ yamlf (VString "12345678") = "12345678" ∧ yamlf (VString "[a]") = "[a]".
Proof. split_and!; by vm_compute. Qed.
(** A map that is configured cannot be carried over. *)
Lemma map_panics : renderMap [("AdditionalAttributes", VMap [("a", VString "b")])] "AdditionalAttributes" "AdditionalAttributes" "x:y" = None.
Proof. by vm_compute. Qed.
(** A word that is too long for a line follows an empty one. *)
Lemma long_word_after_blank : wordwrap (Repeat "x" 71) = nl +:+ Repeat "x" 71.
Proof. by vm_compute. Qed.
End TextExample.
