(* ===== verification/ConvertRules.v ===== *)
(** tools/convert/ruleconvert.go and the commands of tools/convert/main.go that read a file: rules of
    version 1 become rules of version 2.

    The sections of a map are its entries, in the order that a range over it gives.  Writing a map as
    JSON and reading it as the configuration of a sampler is the class [GoSamplerJSON]; a value of
    config.Duration is shown as its text. *)
From Stdlib Require Import Ascii.
From S2P Require Import Prelude GoValue SamplerConfig Config MemorySize Validate ValidateFacts Settings Load LoadFacts Convert ConvertText.

(** The five samplers of version 1.  What is read as one of them is its configuration. *)
Definition sampler_types : list string :=
  ["DeterministicSampler"; "DynamicSampler"; "EMADynamicSampler"; "RulesBasedSampler"; "TotalThroughputSampler"].
Definition type_of (c : SamplerConfig) : string :=
  match c with
  | CfgDeterministic _ => "DeterministicSampler" | CfgRulesBased _ => "RulesBasedSampler" | CfgDynamic _ => "DynamicSampler"
  | CfgEMADynamic _ => "EMADynamicSampler" | CfgEMAThroughput _ => "EMAThroughputSampler"
  | CfgWindowedThroughput _ => "WindowedThroughputSampler" | CfgTotalThroughput _ => "TotalThroughputSampler"
  end.
Class GoSamplerJSON := { via_json : string → object → res SamplerConfig }.
Class GoSamplerJSONLaws `{GoSamplerJSON} := { via_json_type typ m c : via_json typ m = Ok c → type_of c = typ }.

Definition no_choice : V2SamplerChoice := Build_V2SamplerChoice None None None None None None None.

Section Rules.
Context `{!GoText, !GoSamplerJSON}.
Implicit Types (m rules sub : object) (v : value).

(** ** Names and types of version 1 *)

(** A number of seconds becomes a duration, in 64 bits; anything else stays what it is. *)
Definition seconds v : value :=
  match v with VInt z | VInt64 z => VOther (Duration_String (s64 (z * 10 ^ 9))) | v => v end.

Definition renamed (k : string) v : string * value :=
  let k := ToLower k in
  if String.eqb k "clearfrequencysec" then ("clearfrequency", seconds v)
  else if String.eqb k "adjustmentinterval" then (k, seconds v)
  else (k, v).

(** Keys that become the same one: the later of them stays. *)
Fixpoint transform_value (v : value) : value :=
  match v with
  | VMap m => VMap (set_entries [] (map (λ kv, renamed kv.1 (transform_value kv.2)) m))
  | VList l => VList (map (λ x, match x with VMap _ => transform_value x | _ => x end) l)
  | v => v
  end.
Definition transformSamplerMap m : object := set_entries [] (map (λ kv, renamed kv.1 (transform_value kv.2)) m).

(** ** Reading a sampler *)

Definition readV1RulesIntoV2Sampler (samplerType : string) m : res V2SamplerChoice :=
  if negb (bool_decide (samplerType ∈ sampler_types)) then Err "no sampler found"
  else
    match via_json samplerType (transformSamplerMap m) with
    | Err e => Err ("readV1RulesIntoV2Sampler " +:+ e)
    | Ok c => Ok (set_Sampler no_choice c)
    end.

(** The first string under a key that is this one but for the case of its letters. *)
Fixpoint getStringForCaseInsensitiveKey m (key : string) : option string :=
  match m with
  | [] => None
  | (k, v) :: m =>
      if String.eqb (ToLower k) (ToLower key)
      then match v with VString s => Some s | _ => getStringForCaseInsensitiveKey m key end
      else getStringForCaseInsensitiveKey m key
  end.

Definition sampler_type m : string := default "DeterministicSampler" (getStringForCaseInsensitiveKey m "sampler").
Definition is_destination m : bool :=
  match getStringForCaseInsensitiveKey m "sampler", getStringForCaseInsensitiveKey m "samplerate" with None, None => false | _, _ => true end.

(** ** All the rules; [None] is a panic on a sampler that cannot be read *)

Definition convert_section (samplers : gmap string V2SamplerChoice) (kv : string * value) : option (gmap string V2SamplerChoice) :=
  match kv.2 with
  | VMap sub =>
      if is_destination sub then
        match readV1RulesIntoV2Sampler (sampler_type sub) sub with
        | Ok sampler => Some (<[kv.1 := sampler]> samplers)
        | Err _ => None
        end
      else Some samplers
  | _ => Some samplers
  end.
Fixpoint convert_sections (samplers : gmap string V2SamplerChoice) rules : option (gmap string V2SamplerChoice) :=
  match rules with [] => Some samplers | kv :: rules => samplers ← convert_section samplers kv; convert_sections samplers rules end.

Definition convertRulesToNewConfig rules : option V2SamplerConfig :=
  match readV1RulesIntoV2Sampler (sampler_type rules) rules with
  | Err _ => None
  | Ok sampler => Build_V2SamplerConfig 2 <$> convert_sections {["__default__" := sampler]} rules
  end.

(** The names of the samplers of each destination that are to be looked at again. *)
Definition CheckConfigForSampleRateChanges (cfg : V2SamplerConfig) : gmap string (gset string) :=
  omap (λ choice, let meaningfuls := NameMeaningfulSamplers choice in if bool_decide (meaningfuls = ∅) then None else Some meaningfuls) (v2_Samplers cfg).

(** ** A file of a helm chart *)

Fixpoint removeEmpty_value (v : value) : value :=
  match v with
  | VMap m => VMap (flat_map (λ kv, match kv.2 with VNil => [] | _ => [(kv.1, removeEmpty_value kv.2)] end) m)
  | v => v
  end.

(** Of the rules of a chart: the switch of live reloading moves out, and the rest is converted; rules
    that are no map panic. *)
Definition helm_rules (data : object) : option (object * option V2SamplerConfig) :=
  match lookup_entry data "rules" with
  | None => Some (data, None)
  | Some (VMap helmRules) =>
      let '(data, helmRules) :=
        match lookup_entry helmRules "LiveReload" with
        | Some mapname => (set_entry data "LiveReload" mapname, delete_entry helmRules "LiveReload")
        | None => (data, helmRules)
        end in
      match convertRulesToNewConfig helmRules with Some rules => Some (data, Some rules) | None => None end
  | Some _ => None
  end.

(** ** Commands *)

Definition getType (ext : string) : string :=
  if bool_decide (ext ∈ [".yaml"; ".yml"; ".YAML"; ".YML"]) then "Y"
  else if bool_decide (ext ∈ [".toml"; ".TOML"]) then "T"
  else if bool_decide (ext ∈ [".json"; ".JSON"]) then "J"
  else "".

(** What validating a file prints, and whether it is good. *)
Definition validation_output (what : string) (results : list ValidationResult) : string * bool :=
  ((if (0 <? length results)%nat
    then "Validation Errors in " +:+ what +:+ " file:" +:+ nl +:+ str_concat ((λ r, "  " +:+ vr_Message r +:+ nl) <$> results)
    else ""), negb (HasErrors results)).
End Rules.

(** ** What conversion makes of each section *)

Section Facts.
Context `{!GoText, !GoSamplerJSON}.
Implicit Types (m rules sub : object) (v : value).

Lemma lower_char_idem c : lower_char (lower_char c) = lower_char c.
Proof. by destruct c as [[] [] [] [] [] [] [] []]. Qed.
Lemma ToLower_idem s : ToLower (ToLower s) = ToLower s.
Proof. induction s as [|c s IH]; [done|]. cbn [ToLower]. by rewrite lower_char_idem, IH. Qed.

Lemma renamed_lower k v : ToLower (renamed k v).1 = (renamed k v).1.
Proof. unfold renamed. repeat (destruct (String.eqb _ _)); [done|apply ToLower_idem..]. Qed.

Lemma set_entries_keys m l k : k ∈ (set_entries m l).*1 ↔ k ∈ m.*1 ∨ k ∈ l.*1.
Proof.
  revert m. induction l as [|[k1 v1] l IH]; intros m; cbn [set_entries foldl fmap list_fmap fst]; [set_solver|].
  unfold set_entries in *. rewrite IH, set_entry_keys. cbn [fst]. rewrite elem_of_cons. tauto.
Qed.

(** What is read as a sampler has names in lower case. *)
Lemma transform_lower m k : k ∈ (transformSamplerMap m).*1 → ToLower k = k.
Proof.
  unfold transformSamplerMap. rewrite set_entries_keys. intros [Hk|Hk]; [by apply elem_of_nil in Hk|].
  apply list_elem_of_fmap in Hk as ([k' v'] & -> & Hin). apply list_elem_of_In, in_map_iff in Hin as ([k0 v0] & <- & _). apply renamed_lower.
Qed.

Definition converted (v : value) : option (res V2SamplerChoice) :=
  match v with
  | VMap sub => if is_destination sub then Some (readV1RulesIntoV2Sampler (sampler_type sub) sub) else None
  | _ => None
  end.

Lemma convert_section_eq samplers k v :
  convert_section samplers (k, v) =
  match converted v with None => Some samplers | Some (Ok c) => Some (<[k := c]> samplers) | Some (Err _) => None end.
Proof. unfold convert_section, converted. cbn [fst snd]. destruct v; try done. by destruct (is_destination _). Qed.

Lemma convert_sections_lookup rules samplers samplers' name :
  NoDup rules.*1 → convert_sections samplers rules = Some samplers' →
  samplers' !! name = match lookup_entry rules name ≫= converted with Some (Ok c) => Some c | _ => samplers !! name end.
Proof.
  revert samplers. induction rules as [|[k v] rules IH]; intros samplers Hnd Hc; cbn [convert_sections] in Hc.
  - by injection Hc as <-.
  - cbn [fmap list_fmap fst] in Hnd. apply NoDup_cons in Hnd as [Hk Hnd].
    destruct (convert_section samplers (k, v)) as [s1|] eqn:E1; [|done]. change (convert_sections s1 rules = Some samplers') in Hc.
    rewrite (IH s1 Hnd Hc), lookup_entry_cons. rewrite convert_section_eq in E1. destruct (decide (k = name)) as [->|Hne].
    + rewrite (lookup_notin rules name Hk). cbn. destruct (converted v) as [[c|e]|]; [|done|]; injection E1 as <-; [|done]. by rewrite lookup_insert_eq.
    + destruct (lookup_entry rules name ≫= converted) as [[c|e]|]; [done| |]; destruct (converted v) as [[c1|e1]|]; try done; injection E1 as <-; by rewrite ?lookup_insert_ne.
Qed.

Lemma convert_sections_none rules samplers :
  convert_sections samplers rules = None ↔ ∃ k v e, (k, v) ∈ rules ∧ converted v = Some (Err e).
Proof.
  revert samplers. induction rules as [|[k v] rules IH]; intros samplers; cbn [convert_sections].
  { split; [done|]. intros (k & v & e & Hin & _). by apply elem_of_nil in Hin. }
  rewrite convert_section_eq. destruct (converted v) as [[c|e]|] eqn:Ev; cbn [mbind option_bind].
  - rewrite IH. split; intros (k' & v' & e & Hin & E); exists k', v', e; (split; [|done]); [by right|]. apply elem_of_cons in Hin as [[= -> ->]|?]; [congruence|done].
  - split; [|done]. intros _. exists k, v, e. split; [by left|done].
  - rewrite IH. split; intros (k' & v' & e & Hin & E); exists k', v', e; (split; [|done]); [by right|]. apply elem_of_cons in Hin as [[= -> ->]|?]; [congruence|done].
Qed.

Lemma read_choice `{!GoSamplerJSONLaws} typ m c :
  readV1RulesIntoV2Sampler typ m = Ok c → typ ∈ sampler_types ∧ ∃ cfg, via_json typ (transformSamplerMap m) = Ok cfg ∧ Sampler c = (Some cfg, typ).
Proof.
  unfold readV1RulesIntoV2Sampler. destruct (bool_decide_reflect (typ ∈ sampler_types)) as [Hin|]; [|done]. cbn [negb].
  destruct (via_json typ (transformSamplerMap m)) as [cfg|] eqn:E; [|done]. intros [= <-]. split; [done|]. exists cfg. split; [done|].
  apply via_json_type in E as <-. by destruct cfg.
Qed.

(** Rules of version 1 keep their destinations.  Conversion gives rules of version 2, unless one of
    the samplers cannot be read, when it panics.  The top level becomes the default; each section that
    names a sampler becomes the sampler of that name, of the type it names, read from the section with
    its names in lower case; nothing else becomes a sampler. *)
Theorem rules_converted `{!GoSamplerJSONLaws} rules :
  NoDup rules.*1 → "__default__" ∉ rules.*1 →
  match convertRulesToNewConfig rules with
  | None => (∃ e, readV1RulesIntoV2Sampler (sampler_type rules) rules = Err e) ∨
      ∃ name sub e, (name, VMap sub) ∈ rules ∧ is_destination sub = true ∧ readV1RulesIntoV2Sampler (sampler_type sub) sub = Err e
  | Some cfg =>
      v2_RulesVersion cfg = 2 ∧
      ∀ name c, v2_Samplers cfg !! name = Some c ↔
        ∃ section, (name = "__default__" ∧ section = rules ∨ lookup_entry rules name = Some (VMap section) ∧ is_destination section = true) ∧
          readV1RulesIntoV2Sampler (sampler_type section) section = Ok c ∧
          sampler_type section ∈ sampler_types ∧
          ∃ sampler, via_json (sampler_type section) (transformSamplerMap section) = Ok sampler ∧ Sampler c = (Some sampler, sampler_type section)
  end.
Proof.
  intros Hnd Hdef. unfold convertRulesToNewConfig. destruct (readV1RulesIntoV2Sampler (sampler_type rules) rules) as [d|e] eqn:Ed; [|left; by eexists].
  destruct (convert_sections _ rules) as [samplers|] eqn:Es; cbn [fmap option_fmap option_map].
  - split; [done|]. intros name c. cbn [v2_Samplers]. rewrite (convert_sections_lookup _ _ _ name Hnd Es). split.
    + intros Hc. assert (Hsec : ∃ section, (name = "__default__" ∧ section = rules ∨ lookup_entry rules name = Some (VMap section) ∧ is_destination section = true) ∧
        readV1RulesIntoV2Sampler (sampler_type section) section = Ok c).
      { destruct (lookup_entry rules name) as [v|] eqn:El; cbn [mbind option_bind] in Hc.
        - destruct (decide (name = "__default__")) as [->|Hne]; [by rewrite lookup_notin in El|].
          destruct v as [| | | | | | | |sub|]; cbn [converted] in Hc; try by rewrite lookup_singleton_ne in Hc. exists sub.
          destruct (is_destination sub) eqn:Edest; [|by rewrite lookup_singleton_ne in Hc].
          destruct (readV1RulesIntoV2Sampler _ sub) eqn:Er; [|by rewrite lookup_singleton_ne in Hc]. injection Hc as ->. split; [by right|done].
        - apply lookup_singleton_Some in Hc as [<- <-]. exists rules. split; [by left|done]. }
      destruct Hsec as (section & Hw & Hr). destruct (read_choice _ _ _ Hr) as (Ht & sampler & Hv & Hs). exists section. split_and!; [done..|]. by exists sampler.
    + intros (section & [[-> ->]|[El Edest]] & Hr & _).
      * rewrite lookup_notin by done. cbn [mbind option_bind]. rewrite lookup_singleton_eq. congruence.
      * rewrite El. cbn [mbind option_bind converted]. rewrite Edest, Hr. done.
  - right. apply convert_sections_none in Es as (name & v & e & Hin & Hc). destruct v as [| | | | | | | |sub|]; cbn [converted] in Hc; try done.
    destruct (is_destination sub) eqn:Edest; [|done]. exists name, sub, e. injection Hc as Hc. by split_and!.
Qed.
End Facts.

(** ** On concrete rules *)

Module RulesConvertExample.
Export TextExample.
#[export] Instance json : GoSamplerJSON := {| via_json typ m :=
  if String.eqb typ "DeterministicSampler"
  then Ok (CfgDeterministic {| det_SampleRate := match lookup_entry m "samplerate" with Some (VInt z) => z | _ => 1 end |}) else Err "not here" |}.
#[export] Instance json_laws : GoSamplerJSONLaws.
Proof. split. cbn. intros typ m c. destruct (String.eqb_spec typ "DeterministicSampler") as [->|]; [by intros [= <-]|done]. Qed.

(** A section that only has a rate, as a number, is not taken for a destination. *)
Definition old_rules : object := [
  ("SampleRate", VInt 2); ("web", VMap [("Sampler", VString "DeterministicSampler"); ("SampleRate", VInt 10)]);
  ("db", VMap [("SampleRate", VInt 5)])].

Lemma rules_converted_witness :
  match convertRulesToNewConfig old_rules with
  | Some cfg => v2_RulesVersion cfg = 2 ∧ v2_Samplers cfg !! "db" = None
  | None => False
  end.
Proof.
  assert (Hnd : NoDup old_rules.*1) by (cbn; repeat constructor; set_solver).
  assert (Hd : "__default__" ∉ old_rules.*1) by (cbn; set_solver).
  pose proof (rules_converted old_rules Hnd Hd) as Hr.
  destruct (convertRulesToNewConfig old_rules) as [cfg|] eqn:E; [|revert E; vm_compute; discriminate].
  destruct Hr as [Hv Hs]. split; [exact Hv|]. destruct (v2_Samplers cfg !! "db") as [c|] eqn:Edb; [|reflexivity].
  apply (Hs "db" c) in Edb as (section & [[En _]|[El Hdest]] & _); [discriminate En|].
  injection El as <-. discriminate Hdest.
Defined.

Lemma rate_only_dropped : is_destination [("SampleRate", VInt 5)] = false ∧ is_destination [("SampleRate", VString "5")] = true.
Proof. split; by vm_compute. Qed.

(** A frequency of a JSON document is no integer, and stays a number. *)
Lemma json_frequency : transformSamplerMap [("ClearFrequencySec", VFloat64 (f64_of_Z 30))] = [("clearfrequency", VFloat64 (f64_of_Z 30))].
Proof. by vm_compute. Qed.
End RulesConvertExample.
