(* ===== verification/Http.v ===== *)
(** net/http as the handlers of route/ use it, and the parts of route/route.go, route/errors.go and
    route/middleware.go that are about requests and responses alone.

    A response is what its writer has sent: the status and the headers are fixed by the first
    [WriteHeader], or by the first [Write], and later calls of [WriteHeader] do nothing.  A body is
    the bytes that can be read and the error that follows them, if it is not the end.  A handler is a
    function of a state, the request and the writer; [None] is a panic, or the end of the process. *)
From Stdlib Require Import Ascii.
From S2P Require Import Prelude GoValue Metrics Msgp Event SamplerConfig Config Payload Transmit.

(** ** Requests *)

Record httpBody := mkBody { bd_bytes : string; bd_err : option string }.

(** [hq_Vars] is gorilla/mux's [Vars]; the headers are under their canonical names. *)
Record httpRequest := mkHttp {
  hq_Method : string;
  hq_URL : string;
  hq_Vars : gmap string string;
  hq_Header : gmap string (list string);
  hq_RemoteAddr : string;
  hq_Body : httpBody }.

Definition Header_Get (h : gmap string (list string)) (key : string) : string :=
  default "" (head (default [] (h !! CanonicalHeaderKey key))).

Definition with_header (req : httpRequest) (key v : string) : httpRequest :=
  mkHttp (hq_Method req) (hq_URL req) (hq_Vars req) (<[CanonicalHeaderKey key := [v]]> (hq_Header req)) (hq_RemoteAddr req)
    (hq_Body req).

Definition APIKeyHeader := "X-Honeycomb-Team".
Definition APIKeyHeaderShort := "X-Hny-Team".
Definition DatasetHeader := "X-Honeycomb-Dataset".
Definition SampleRateHeader := "X-Honeycomb-Samplerate".
Definition TimestampHeader := "X-Honeycomb-Event-Time".
Definition QueryTokenHeader := "X-Honeycomb-Refinery-Query".

(** The API key of a request, under either of its names. *)
Definition request_key (req : httpRequest) : string :=
  let apiKey := Header_Get (hq_Header req) APIKeyHeader in
  if String.eqb apiKey "" then Header_Get (hq_Header req) APIKeyHeaderShort else apiKey.

Definition getUserAgentFromRequest (req : httpRequest) : string := Header_Get (hq_Header req) "User-Agent".

(** net/url's PathUnescape. *)
Definition unhex (c : ascii) : option N :=
  let n := N_of_ascii c in
  if ((48 <=? n) && (n <=? 57))%N then Some (n - 48)%N
  else if ((65 <=? n) && (n <=? 70))%N then Some (n - 55)%N
  else if ((97 <=? n) && (n <=? 102))%N then Some (n - 87)%N
  else None.
Fixpoint PathUnescape (s : string) : option string :=
  match s with
  | EmptyString => Some ""
  | String c s =>
      if Ascii.eqb c "%" then
        match s with
        | String a (String b s) =>
            match unhex a, unhex b, PathUnescape s with
            | Some x, Some y, Some t => Some (String (ascii_of_N (16 * x + y)) t)
            | _, _, _ => None
            end
        | _ => None
        end
      else String c <$> PathUnescape s
  end.

Definition getDatasetFromRequest (req : httpRequest) : res string :=
  let dataset := default "" (hq_Vars req !! "datasetName") in
  if String.eqb dataset "" then Err "missing dataset name"
  else match PathUnescape dataset with Some d => Ok d | None => Err "invalid URL escape" end.

(** ** Bodies *)

(** compress/gzip, the zstd decoder (github.com/klauspost/compress), and the decoders that fill a map
    (vmihailenco/msgpack and jsoniter). *)
Class GoBody := {
  gzip_NewReader : httpBody → res httpBody;
  zstd_DecodeAll : string → res string;
  msgpack_Decode_map : string → res (gmap string value);
  jsoniter_Unmarshal_map : string → res (gmap string value);
}.

Section Body.
Context `{!GoBody}.

Definition HTTPMessageSizeMax : Z := 5000000.

(** The limited reader ends after so many bytes, whatever follows. *)
Definition readBodyToBuffer (b : httpBody) : res string :=
  if HTTPMessageSizeMax <=? Z.of_nat (String.length (bd_bytes b))
  then Ok (str_take (Z.to_nat HTTPMessageSizeMax) (bd_bytes b))
  else match bd_err b with Some e => Err e | None => Ok (bd_bytes b) end.

Definition readGzipBody (b : httpBody) : res string := let! b := gzip_NewReader b in readBodyToBuffer b.
Definition readZstdBody (b : httpBody) : res string := let! b := readBodyToBuffer b in zstd_DecodeAll b.
Definition readUncompressedBody (b : httpBody) : res string := readBodyToBuffer b.

Definition readAndCloseMaybeCompressedBody (req : httpRequest) : res string :=
  let enc := Header_Get (hq_Header req) "Content-Encoding" in
  if String.eqb enc "gzip" then readGzipBody (hq_Body req)
  else if String.eqb enc "zstd" then readZstdBody (hq_Body req)
  else readUncompressedBody (hq_Body req).

Definition is_msgpack (req : httpRequest) : bool :=
  let t := Header_Get (hq_Header req) "Content-Type" in
  String.eqb t "application/x-msgpack" || String.eqb t "application/msgpack".

(** [unmarshal] into a map, which has no unmarshaler of its own. *)
Definition unmarshal_map (req : httpRequest) (data : string) : res (gmap string value) :=
  if is_msgpack req then msgpack_Decode_map data else jsoniter_Unmarshal_map data.
End Body.

(** ** Responses *)

Record writer := mkWriter {
  w_sent : option (Z * gmap string string);   (** the status and the headers, once sent *)
  w_Header : gmap string string;
  w_Body : string }.

Definition new_writer : writer := mkWriter None ∅ "".
Definition set_header (w : writer) (key v : string) : writer :=
  mkWriter (w_sent w) (Header_Set (w_Header w) key v) (w_Body w).
Definition WriteHeader (w : writer) (code : Z) : writer :=
  match w_sent w with Some _ => w | None => mkWriter (Some (code, w_Header w)) (w_Header w) (w_Body w) end.
Definition Write (w : writer) (b : string) : writer :=
  let w := WriteHeader w 200 in mkWriter (w_sent w) (w_Header w) (w_Body w +:+ b).

(** The status the client sees once the handler has returned. *)
Definition status (w : writer) : Z := match w_sent w with Some (code, _) => code | None => 200 end.

Definition StatusBadRequest : Z := 400.
Definition StatusUnauthorized : Z := 401.
Definition StatusInternalServerError : Z := 500.

Record handlerError := mkHandlerError { he_msg : string; he_status : Z; he_detailed : bool; he_friendly : bool }.

Definition ErrGenericMessage := "unexpected error!".
Definition ErrCaughtPanic := mkHandlerError "caught panic" StatusInternalServerError false false.
Definition ErrPostBody := mkHandlerError "failed to read request body" StatusInternalServerError false false.
Definition ErrAuthNeeded := mkHandlerError "unknown API key - check your credentials" StatusBadRequest true true.
Definition ErrAuthInvalid := mkHandlerError "invalid API key - check your credentials" StatusUnauthorized true true.
Definition ErrUpstreamFailed := mkHandlerError "failed to create upstream request" StatusServiceUnavailable true true.
Definition ErrUpstreamUnavailable := mkHandlerError "upstream target unavailable" StatusServiceUnavailable true true.
Definition ErrReqToEvent := mkHandlerError "failed to parse event" StatusBadRequest false true.
Definition ErrBatchToEvent := mkHandlerError "failed to parse event within batch" StatusBadRequest false true.

Definition dq : string := String (ascii_of_nat 34) "".
Definition quoted (s : string) : string := dq +:+ s +:+ dq.

(** The message is put between the quotes as it is. *)
Definition error_body (he : handlerError) (err : string) : string :=
  let errmsg := he_msg he in
  let errmsg := if he_detailed he then he_msg he +:+ ": " +:+ err else errmsg in
  let errmsg := if negb (he_friendly he) then ErrGenericMessage else errmsg in
  "{" +:+ quoted "source" +:+ ":" +:+ quoted "refinery" +:+ "," +:+ quoted "error" +:+ ":" +:+ quoted errmsg +:+ "}".

Definition handlerReturnWithError (w : writer) (he : handlerError) (err : string) : writer :=
  Write (WriteHeader w (he_status he)) (error_body he err).

(** The object as each format has it, or that package's error. *)
Definition marshalToFormat (w : writer) (json toml yaml : res string) (format : string) : writer :=
  let send body := Write (set_header w "Content-Type" ("application/" +:+ format)) body in
  let refuse msg := WriteHeader (Write w msg) StatusBadRequest in
  let failed e name := refuse ("got error " +:+ e +:+ " trying to marshal to " +:+ name +:+ "
") in
  if String.eqb format "json" then match json with Ok b => send b | Err e => failed e "json" end
  else if String.eqb format "toml" then match toml with Ok b => send b | Err e => failed e "toml" end
  else if String.eqb format "yaml" then match yaml with Ok b => send b | Err e => failed e "toml" end
  else refuse ("invalid format '" +:+ format +:+ "' when marshaling
").

Definition setResponseHeaders {St : Type} (next : httpRequest → writer → St) (req : httpRequest) (w : writer) : St :=
  next req (set_header (set_header w "Content-Type" "application/json") "Access-Control-Allow-Origin" "*").

(** ** Who may ask *)

Section Auth.
Context {St : Type}.
Implicit Types (next : St → httpRequest → writer → option (St * writer)).

Definition queryTokenChecker (f : fileConfig) next (s : St) (req : httpRequest) (w : writer) : option (St * writer) :=
  let requiredToken := GetQueryAuthToken f in
  if String.eqb requiredToken "" then
    Some (s, handlerReturnWithError w ErrAuthNeeded
               "/query endpoint is not authorized for use (specify QueryAuthToken in config)")
  else
    let token := Header_Get (hq_Header req) QueryTokenHeader in
    if String.eqb token requiredToken then next s req w
    else Some (s, handlerReturnWithError w ErrAuthNeeded
                    ("token " +:+ token +:+ " found in " +:+ QueryTokenHeader +:+ " not authorized for query")).

Definition apiKeyProcessor (f : fileConfig) next (s : St) (req : httpRequest) (w : writer) : option (St * writer) :=
  let apiKey := request_key req in
  match IsAccepted (GetAccessKeyConfig f) apiKey with
  | Some err => Some (s, handlerReturnWithError w ErrAuthInvalid err)
  | None =>
      match GetReplaceKey (GetAccessKeyConfig f) apiKey with
      | Err err => Some (s, handlerReturnWithError w ErrAuthInvalid err)
      | Ok replacement =>
          next s (if negb (String.eqb replacement apiKey) then with_header req APIKeyHeader replacement else req) w
      end
  end.
End Auth.

(** ** Facts *)

Lemma Header_Get_set req key v : Header_Get (hq_Header (with_header req key v)) key = v.
Proof. unfold Header_Get, with_header. cbn [hq_Header]. by rewrite lookup_insert_eq. Qed.

Lemma Header_Get_set_ne req key key' v :
  CanonicalHeaderKey key ≠ CanonicalHeaderKey key' →
  Header_Get (hq_Header (with_header req key v)) key' = Header_Get (hq_Header req) key'.
Proof. intros Hne. unfold Header_Get, with_header. cbn [hq_Header]. by rewrite lookup_insert_ne. Qed.

Lemma unhex_digit n : (n < 16)%N → unhex (hex_digit n) = Some n.
Proof.
  intros Hn. assert (Hin : n ∈ (N.of_nat <$> seq 0 16)).
  { apply list_elem_of_fmap. exists (N.to_nat n). split; [by rewrite N2Nat.id|]. apply elem_of_seq. lia. }
  clear Hn. revert n Hin. apply Forall_forall. repeat constructor.
Qed.

Lemma percent_escaped : path_unescaped "%" = false.
Proof. done. Qed.

(** A dataset's name in the path of a request is the name the handler of the request reads. *)
Lemma path_roundtrip s : PathUnescape (PathEscape s) = Some s.
Proof.
  induction s as [|c s IH]; [done|]. cbn [PathEscape]. destruct (path_unescaped c) eqn:E.
  - cbn [PathUnescape]. destruct (Ascii.eqb_spec c "%") as [->|_]; [by rewrite percent_escaped in E|].
    by rewrite IH.
  - pose proof (N_ascii_bounded c) as Hb. cbn [PathUnescape]. change (Ascii.eqb "%" "%") with true. cbn iota.
    rewrite !unhex_digit, IH by first [apply N.mod_lt; lia|apply N.Div0.div_lt_upper_bound; lia].
    rewrite <-N.div_mod by lia. by rewrite ascii_N_embedding.
Qed.
