(* ===== verification/BatchedEvents.v ===== *)
(** route/batched_event.go, types/json_to_msgp.go and [getEventTime] of route/route.go: the body of
    a batch as a node receives it, in MessagePack or in JSON.

    A JSON document is the tree fastjson's parser gives for it; a number is its [GetFloat64] and its
    [GetInt64].  The theorems: what a transmission sends, a node decodes; and an event in JSON
    presents the fields of its object. *)
From Stdlib Require Import SpecFloat Ascii.
From S2P Require Import Prelude GoValue Msgp Event SamplerConfig Config Payload PayloadFacts PayloadWire PayloadSend.
From S2P Require Import Metrics Transmit TransmitSend.

(** ** Times *)

(** Package time and strconv: RFC 3339 with nanoseconds, and integers of any base. *)
Class GoTime := { time_Parse : string → option Z; ParseInt : string → option Z }.

(** The zero [time.Time]: the first of January of the year 1. *)
Definition zeroTime : Z := - 62135596800 * 10 ^ 9.
Definition time_Unix (sec nsec : Z) : Z := sec * 10 ^ 9 + nsec.

(** math.Modf, and the time it stands for. *)
Definition float_time `{GoFloat} (f : float64) : Z :=
  match f64_trunc f with
  | Some z =>
      let sec := f64_of_Z z in
      time_Unix (f64_to_int sec) (f64_to_int (f64_mul (f64_sub f sec) (f64_of_Z (10 ^ 9))))
  | None => time_Unix (f64_to_int f) (f64_to_int S754_nan)
  end.

Definition getEventTime `{GoFloat, GoTime} (etHeader : string) : Z :=
  if String.eqb etHeader "" then zeroTime
  else
    let eventTime := default zeroTime (time_Parse etHeader) in
    if eventTime =? zeroTime then
      match ParseInt etHeader with
      | Some epochInt =>
          if (String.length etHeader =? 10)%nat then time_Unix epochInt 0
          else if (10 <? String.length etHeader)%nat then
            match parse_float (str_take 10 etHeader +:+ "." +:+ str_drop 10 etHeader) with
            | Some epochFloat => float_time epochFloat
            | None => eventTime
            end
          else eventTime
      | None => match parse_float etHeader with Some epochFloat => float_time epochFloat | None => eventTime end
      end
    else eventTime.

(** ** One event *)

Record batchedEvent := mkBev {
  bt_Timestamp : string;
  bt_MsgPackTimestamp : option Z;
  bt_SampleRate : Z;
  bt_Data : Payload }.

Definition getBatchedEventTime `{GoFloat, GoTime} (b : batchedEvent) : Z :=
  match bt_MsgPackTimestamp b with Some t => t | None => getEventTime (bt_Timestamp b) end.

Definition defaultSampleRate : Z := 1.
Definition getSampleRate (b : batchedEvent) : Z :=
  if bt_SampleRate b =? 0 then defaultSampleRate else u64 (bt_SampleRate b).

(** The zero value: no configuration, no fields. *)
Definition no_event : batchedEvent := mkBev "" None 0 (NewPayload None ∅).

Section Msgpack.
Context `{!Msgp}.
Context (cu : CoreFieldsUnmarshaler) (cfg : option fileConfig).

Definition unmarshal_field (b : batchedEvent) (field bts : string) : res (batchedEvent * string) :=
  if String.eqb field "time" then
    if IsNil bts then
      let! bts := ReadNilBytes bts in Ok (mkBev (bt_Timestamp b) None (bt_SampleRate b) (bt_Data b), bts)
    else
      let! (t, bts) := ReadTimeBytes bts in Ok (mkBev (bt_Timestamp b) (Some t) (bt_SampleRate b) (bt_Data b), bts)
  else if String.eqb field "samplerate" then
    let! (n, bts) := ReadInt64Bytes bts in Ok (mkBev (bt_Timestamp b) (bt_MsgPackTimestamp b) n (bt_Data b), bts)
  else if String.eqb field "data" then
    let! (p, bts) := UnmarshalMsgpFirstEvent cu bts (NewPayload cfg ∅) in
    Ok (mkBev (bt_Timestamp b) (bt_MsgPackTimestamp b) (bt_SampleRate b) p, bts)
  else let! bts := Skip bts in Ok (b, bts).

Fixpoint unmarshal_fields (fieldsRemaining : nat) (b : batchedEvent) (bts : string) : res (batchedEvent * string) :=
  match fieldsRemaining with
  | O => Ok (b, bts)
  | S fieldsRemaining =>
      let! (field, bts) := ReadMapKeyZC bts in
      let! (b, bts) := unmarshal_field b field bts in
      unmarshal_fields fieldsRemaining b bts
  end.

Definition event_UnmarshalMsg (b : batchedEvent) (bts : string) : res (batchedEvent * string) :=
  let! (fieldsRemaining, bts) := ReadMapHeaderBytes bts in
  unmarshal_fields (Z.to_nat fieldsRemaining) b bts.

Fixpoint unmarshal_events (n : nat) (bts : string) : res (list batchedEvent * string) :=
  match n with
  | O => Ok ([], bts)
  | S n =>
      let! (b, bts) := event_UnmarshalMsg no_event bts in
      let! (bs, bts) := unmarshal_events n bts in
      Ok (b :: bs, bts)
  end.

Definition events_UnmarshalMsg (bts : string) : res (list batchedEvent * string) :=
  let! (totalValues, bts) := ReadArrayHeaderBytes bts in
  unmarshal_events (Z.to_nat totalValues) bts.
End Msgpack.

(** ** JSON *)

Inductive jvalue :=
| JObject (fields : list (string * jvalue))
| JArray (items : list jvalue)
| JString (s : string)
| JNumber (float : float64) (int : Z)
| JTrue
| JFalse
| JNull.

Class GoFastJSON := { fastjson_Parse : string → res jvalue }.

Section JSON.
Context `{!Msgp}.

(** The errors of the source are those of a value that is not of its type. *)
Fixpoint AppendJSONValue (v : jvalue) : string :=
  match v with
  | JObject obj =>
      AppendMapHeader (u32 (Z.of_nat (length obj))) +:+
      str_concat (map (λ kv, AppendString kv.1 +:+ AppendJSONValue kv.2) obj)
  | JArray arr => AppendArrayHeader (u32 (Z.of_nat (length arr))) +:+ str_concat (map AppendJSONValue arr)
  | JString s => AppendString s
  | JNumber f _ => AppendFloat64 f
  | JTrue => AppendBool true
  | JFalse => AppendBool false
  | JNull => AppendNil
  end.

Definition JSONToMessagePack `{!GoFastJSON} (jsonData : string) : res string :=
  let! v := fastjson_Parse jsonData in Ok (AppendJSONValue v).

(** What the visit of one field of the event's object does: the event and the [data] found. *)
Definition visit_field (acc : batchedEvent * option jvalue) (kv : string * jvalue) : batchedEvent * option jvalue :=
  let '(b, data) := acc in
  match kv.2 with
  | JString s =>
      if String.eqb kv.1 "time" then (mkBev s (bt_MsgPackTimestamp b) (bt_SampleRate b) (bt_Data b), data) else acc
  | JNumber _ n =>
      if String.eqb kv.1 "samplerate" then (mkBev (bt_Timestamp b) (bt_MsgPackTimestamp b) n (bt_Data b), data) else acc
  | JObject _ => if String.eqb kv.1 "data" then (b, Some kv.2) else acc
  | _ => acc
  end.

Definition unmarshalBatchedEventFromFastJSON (cu : CoreFieldsUnmarshaler) (cfg : option fileConfig) (v : jvalue)
    : res batchedEvent :=
  match v with
  | JObject obj =>
      let '(b, dataValue) := foldl visit_field (no_event, None) obj in
      match dataValue with
      | Some v =>
          let! (p, _) := UnmarshalMsgpFirstEvent cu (AppendJSONValue v) (NewPayload cfg ∅) in
          Ok (mkBev (bt_Timestamp b) (bt_MsgPackTimestamp b) (bt_SampleRate b) p)
      | None => Ok (mkBev (bt_Timestamp b) (bt_MsgPackTimestamp b) (bt_SampleRate b) (NewPayload cfg ∅))
      end
  | _ => Err "expected JSON object for event"
  end.

Fixpoint unmarshal_json_events (cu : CoreFieldsUnmarshaler) (cfg : option fileConfig) (arr : list jvalue)
    : res (list batchedEvent) :=
  match arr with
  | [] => Ok []
  | v :: arr =>
      let! b := unmarshalBatchedEventFromFastJSON cu cfg v in
      let! bs := unmarshal_json_events cu cfg arr in
      Ok (b :: bs)
  end.

Definition events_UnmarshalJSON `{!GoFastJSON} (cu : CoreFieldsUnmarshaler) (cfg : option fileConfig) (data : string)
    : res (list batchedEvent) :=
  let! v := fastjson_Parse data in
  match v with
  | JArray arr => unmarshal_json_events cu cfg arr
  | _ => Err "expected JSON array"
  end.
End JSON.

(** ** What a transmission sends, a node decodes *)

Section Flags.
Context `{!Msgp}.

(** What a payload that has been through the extraction says of itself: it need not be extracted
    again, and when it is marked empty it has no trace ID. *)
Definition settled (p : Payload) : Prop :=
  hasExtractedMetadata p = true ∧ (isEmpty p = true → f_TraceID (pl_meta p) = "").

Lemma try_meta_isEmpty p key d p' d' : try_meta p key d = Ok (Some (p', d')) → isEmpty p' = isEmpty p.
Proof.
  unfold try_meta. destruct (meta_field key) as [f|]; [|done]. destruct (typeIsCorrect _ _); [|done].
  intros E. by apply res_bind_ok in E as ([] & _ & [= <- _]).
Qed.

Lemma try_ids_isEmpty ids parents p key d p' d' : try_ids ids parents p key d = Ok (Some (p', d')) → isEmpty p' = isEmpty p.
Proof.
  unfold try_ids. destruct (bool_decide _); [|done]. destruct (_ && _).
  - intros E. by apply res_bind_ok in E as ([] & _ & [= <- _]).
  - destruct (bool_decide _); [|done]. intros E. apply res_bind_ok in E as ([s r] & _ & [= <- _]). by destruct (String.eqb s "").
Qed.

Lemma try_key_isEmpty keys n p key d p' d' : try_key keys n p key d = Ok (Some (p', d')) → isEmpty p' = isEmpty p.
Proof.
  unfold try_key. destruct (_ && _ && _); [|done]. intros E. apply res_bind_ok in E as ([v r] & _ & [= <- _]).
  unfold Set_. by destruct (metadataFields !! key).
Qed.

Lemma extract_entry_isEmpty ids parents keys n p d p' n' d' :
  extract_entry ids parents keys n p d = Ok (p', n', d') → isEmpty p' = isEmpty p.
Proof.
  unfold extract_entry. intros E. apply res_bind_ok in E as ([key r] & _ & E). apply res_bind_ok in E as (m & Em & E).
  destruct m as [[q e]|]; [injection E as <- _ _; by apply try_meta_isEmpty in Em|].
  apply res_bind_ok in E as (i & Ei & E). destruct i as [[q e]|]; [injection E as <- _ _; by apply try_ids_isEmpty in Ei|].
  apply res_bind_ok in E as (k & Ek & E). destruct k as [[q e]|]; [injection E as <- _ _; by apply try_key_isEmpty in Ek|].
  by apply res_bind_ok in E as (e & _ & [= <- _ _]).
Qed.

Lemma extract_entries_isEmpty ids parents keys m n p d p' n' d' :
  extract_entries ids parents keys m n p d = Ok (p', n', d') → isEmpty p' = isEmpty p.
Proof.
  revert n p d. induction m as [|m IH]; intros n p d; cbn [extract_entries]; [by intros [= <- _ _]|].
  intros E. apply res_bind_ok in E as ([[q k] e] & E1 & E2). rewrite (IH _ _ _ E2). by apply extract_entry_isEmpty in E1.
Qed.

Lemma first_event_settled cu bts cfg p rest :
  UnmarshalMsgpFirstEvent cu bts (NewPayload cfg ∅) = Ok (p, rest) → settled p.
Proof.
  unfold UnmarshalMsgpFirstEvent, extractCriticalFieldsFromBytes. intros E.
  apply res_bind_ok in E as ([q c] & E & [= <- _]). apply res_bind_ok in E as ([size d] & _ & E).
  apply res_bind_ok in E as ([[q' n] d'] & Ee & [= <- _]). split; [done|]. cbn [isEmpty with_data with_flags pl_meta].
  assert (Eq : ∀ p, isEmpty (log_not_root p) = isEmpty p ∧ f_TraceID (pl_meta (log_not_root p)) = f_TraceID (pl_meta p)).
  { intros [? ? ? ? ? ? []]. unfold log_not_root. simpl. by destruct (String.eqb _ "log"). }
  assert (Eq2 : ∀ (b : bool) l, isEmpty (if b then with_missing q' l else q') = isEmpty q' ∧
    pl_meta (if b then with_missing q' l else q') = pl_meta q') by by intros [].
  rewrite !(proj1 (Eq _)), !(proj2 (Eq _)), (proj1 (Eq2 _ _)), (proj2 (Eq2 _ _)). destruct (Z.eqb_spec size 0) as [->|Hne].
  - cbn in Ee. by injection Ee as <- _ _.
  - apply extract_entries_isEmpty in Ee as ->. done.
Qed.
End Flags.

Section Wire.
Context `{!Msgp, !MsgpLaws}.
Context (cu : CoreFieldsUnmarshaler) (cfg : option fileConfig).

(** The values of an event that can cross: a time and a rate of 64 bits, and a payload over the
    serialization of entries. *)
Definition crossable (ev : event) : Prop :=
  in_s64 (ev_Timestamp ev) ∧ in_u64 (ev_SampleRate ev) ∧
  ∃ es, sending metadata_table (map_to_list (memoizedFields (ev_Data ev))) (ev_Data ev) es.

Definition crossed (ev : event) (b : batchedEvent) : Prop :=
  bt_MsgPackTimestamp b = Some (ev_Timestamp ev) ∧
  getSampleRate b = (if ev_SampleRate ev =? 0 then defaultSampleRate else ev_SampleRate ev) ∧
  settled (bt_Data b) ∧
  ∃ es es', holds (msgpData (ev_Data ev)) es ∧ holds (msgpData (bt_Data b)) es' ∧
    same_fields cu (ev_Data ev) es (bt_Data b) es'.

Lemma header_time_eq : header_time = fixmap 3 +:+ fixstr "time".
Proof. by vm_compute. Qed.
Lemma key_samplerate_eq : key_samplerate = fixstr "samplerate".
Proof. by vm_compute. Qed.
Lemma key_data_eq : key_data = fixstr "data".
Proof. by vm_compute. Qed.

Lemma time_not_nil t rest : in_s64 t → IsNil (AppendTimeExt t +:+ rest) = false.
Proof.
  intros Ht. destruct (reads_skips _ _ _ time_object (read_time t Ht)) as [Hne Hs].
  unfold IsNil. rewrite type_object by done. apply bool_decide_eq_false_2, type_time.
Qed.

Lemma rate_back r b : in_u64 r → bt_SampleRate b = s64 r → getSampleRate b = if r =? 0 then defaultSampleRate else r.
Proof.
  intros Hr Hb. unfold getSampleRate. rewrite Hb. destruct (Z.eqb_spec r 0) as [->|Hne]; [done|].
  assert (Hu : u64 (s64 r) = r) by by rewrite u64_s64, u64_id.
  destruct (Z.eqb_spec (s64 r) 0) as [E|_]; [|done]. rewrite E in Hu. by destruct Hne.
Qed.

Lemma event_crosses ev b rest :
  names_ok (cu_traceIdFieldNames cu) (cu_parentIdFieldNames cu) → crossable ev → marshal_event (packEvent ev) = Ok b →
  ∃ bev, event_UnmarshalMsg cu cfg no_event (b +:+ rest) = Ok (bev, rest) ∧ crossed ev bev.
Proof.
  intros Hn (Ht & Hr & es & Hsend). unfold marshal_event. cbn [packEvent bv_data bv_time bv_sampleRate].
  destruct (MarshalMsg (ev_Data ev)) as [data|] eqn:Em; [|done]. intros [= <-].
  destruct (sent_arrives _ _ _ es data cu cfg rest Hsend Em Hn) as (q & es' & Eq & Hq & Hsame).
  exists (mkBev "" (Some (ev_Timestamp ev)) (s64 (ev_SampleRate ev)) q). split.
  - unfold event_UnmarshalMsg. rewrite header_time_eq, key_samplerate_eq, key_data_eq, !str_app_assoc.
    rewrite (read_fixmap 3) by lia. cbn [res_bind]. change (Z.to_nat 3) with 3%nat. cbn [unmarshal_fields].
    rewrite (read_fixkey "time") by done. cbn [res_bind]. unfold unmarshal_field at 1.
    rewrite time_not_nil, (read_time _ Ht) by done. cbn [String.eqb Ascii.eqb Bool.eqb res_bind].
    rewrite (read_fixkey "samplerate") by done. cbn [res_bind]. unfold unmarshal_field at 1.
    rewrite (read_int64 _ (s64_range _)). cbn [String.eqb Ascii.eqb Bool.eqb res_bind].
    rewrite (read_fixkey "data") by done. cbn [res_bind]. unfold unmarshal_field at 1.
    rewrite Eq. cbn [String.eqb Ascii.eqb Bool.eqb res_bind]. done.
  - split_and!; [done|by apply rate_back|by eapply first_event_settled|]. exists es, es'. split_and!; [apply Hsend|done..].
Qed.

Lemma events_cross g rest :
  names_ok (cu_traceIdFieldNames cu) (cu_parentIdFieldNames cu) → Forall crossable g → Forall (λ ev, packable ev = true) g →
  ∃ bevs, unmarshal_events cu cfg (length g) (body_of g +:+ rest) = Ok (bevs, rest) ∧ Forall2 crossed g bevs.
Proof.
  intros Hn Hg. revert rest. induction Hg as [|ev g Hev _ IH]; intros rest Hp; [by exists []|].
  apply Forall_cons in Hp as [Hpev Hp]. unfold packable in Hpev.
  destruct (marshal_event (packEvent ev)) as [b|] eqn:Em; [|done].
  unfold body_of. rewrite fmap_cons. cbn [str_concat foldr length unmarshal_events]. unfold wire_of at 1. rewrite Em.
  fold (str_concat (wire_of <$> g)). fold (body_of g). rewrite str_app_assoc.
  destruct (event_crosses ev b (body_of g +:+ rest) Hn Hev Em) as (bev & -> & Hc). cbn [res_bind].
  destruct (IH rest Hp) as (bevs & -> & Hcs). cbn [res_bind]. exists (bev :: bevs). split; [done|by constructor].
Qed.

Lemma body_crosses g :
  names_ok (cu_traceIdFieldNames cu) (cu_parentIdFieldNames cu) → Forall crossable g → Forall (λ ev, packable ev = true) g →
  Z.of_nat (length g) < 2 ^ 32 →
  ∃ bevs, events_UnmarshalMsg cu cfg (AppendArrayHeader (Z.of_nat (length g)) +:+ body_of g) = Ok (bevs, "") ∧
    Forall2 crossed g bevs.
Proof.
  intros Hn Hg Hp Hlen. unfold events_UnmarshalMsg. rewrite (read_array _) by lia. cbn [res_bind]. rewrite Nat2Z.id.
  rewrite <-(str_app_nil_r (body_of g)). by apply events_cross.
Qed.

(** A batch crosses from node to node.  The body of the request that carries a group of events
    decodes, on the node that receives it, to one event for each of them, in order: of the same
    time, the same sample rate (an unset one being 1), and with the fields it was sent with. *)
Theorem batch_crosses `{!GoHTTP} d dest u g :
  names_ok (cu_traceIdFieldNames cu) (cu_parentIdFieldNames cu) → Forall crossable g → Forall (λ ev, packable ev = true) g →
  Z.of_nat (length g) < 2 ^ 32 → dt_enableCompression d = false →
  ∃ bevs, events_UnmarshalMsg cu cfg (rq_Body (request_of d dest u g)) = Ok (bevs, "") ∧ Forall2 crossed g bevs.
Proof.
  intros Hn Hg Hp Hlen Hz. unfold request_of, mk_request. cbn [rq_Body]. rewrite Hz. by apply body_crosses.
Qed.
End Wire.

(** ** An event in JSON *)

Section FromJSON.
Context `{!Msgp, !MsgpLaws}.

(** A field's value that is no object, array or number. *)
Definition json_scalar (v : jvalue) : option value :=
  match v with
  | JString s => Some (VString s) | JTrue => Some (VBool true) | JFalse => Some (VBool false) | JNull => Some VNil
  | _ => None
  end.
Definition json_fits (kv : string * jvalue) : Prop :=
  fits kv.1 ∧ match kv.2 with JString s => fits s | JTrue | JFalse | JNull => True | _ => False end.

Definition json_entry (kv : string * jvalue) : entry := mkEntry (AppendString kv.1) kv.1 (AppendJSONValue kv.2).

Lemma json_append v x : json_scalar v = Some x → AppendIntf x = Ok (AppendJSONValue v).
Proof. destruct v; intros [= <-]; [apply intf_string|apply intf_bool|apply intf_bool|apply intf_nil]. Qed.

Lemma json_fits_scalar kv : json_fits kv → ∃ x, json_scalar kv.2 = Some x ∧ scalar x.
Proof. destruct kv as [k []]; intros [_ Hv]; try done; by eexists. Qed.

Lemma json_entry_readable kv : json_fits kv → readable_entry (json_entry kv) ∧ Some (raw_val (json_entry kv)) = json_scalar kv.2.
Proof.
  intros Hkv. destruct (json_fits_scalar kv Hkv) as (x & Hx & Hs). pose proof Hkv as [Hk Hv].
  pose proof (read_intf x _ Hs (json_append _ _ Hx)) as Hr. split; [split_and!|].
  - by eapply entry_of_reads; [apply intf_object|..].
  - by exists x.
  - intros f Hf Ht. cbn [json_entry e_raw] in *. destruct kv as [k v]. cbn [fst snd] in *.
    destruct v as [| |s| | | |]; try done; cbn [AppendJSONValue] in *.
    + rewrite type_string in Ht. destruct f; [|done..]. exists s. by apply read_string.
    + rewrite type_bool in Ht. destruct f; [done| |done]. eexists. apply read_bool.
    + rewrite type_bool in Ht. destruct f; [done| |done]. eexists. apply read_bool.
    + rewrite type_nil in Ht. by destruct f.
  - rewrite Hx. f_equal. by apply raw_val_reads.
Qed.

Lemma json_bytes obj : str_concat (map (λ kv, AppendString kv.1 +:+ AppendJSONValue kv.2) obj) = entries_bytes (json_entry <$> obj).
Proof. unfold entries_bytes. rewrite <-list_fmap_compose. done. Qed.

Definition json_lookup (obj : list (string * jvalue)) (k : string) : option value :=
  match list_find (λ kv, kv.1 = k) obj with Some (_, kv) => json_scalar kv.2 | None => None end.

Lemma json_raw_lookup obj k : Forall json_fits obj → raw_lookup (json_entry <$> obj) k = json_lookup obj k.
Proof.
  unfold json_lookup. induction 1 as [|kv obj Hkv _ IH]; [done|]. rewrite fmap_cons, raw_lookup_cons. cbn [json_entry e_key list_find].
  destruct (String.eqb_spec kv.1 k) as [E|Hne].
  - rewrite decide_True by done. by rewrite (proj2 (json_entry_readable kv Hkv)).
  - rewrite decide_False by done. rewrite IH. by destruct (list_find _ obj) as [[i kv']|].
Qed.

(** An event in JSON presents the fields of its object.  A document whose [data] is an object of
    strings, booleans and nulls under distinct names is accepted, with the time and the sample rate
    of the last fields of those names; every field of the object that is neither metadata nor an ID
    reads as the object has it, and no other exists. *)
Theorem json_event_presents_fields cu cfg top b obj :
  names_ok (cu_traceIdFieldNames cu) (cu_parentIdFieldNames cu) →
  foldl visit_field (no_event, None) top = (b, Some (JObject obj)) →
  Forall json_fits obj → NoDup obj.*1 → Z.of_nat (length obj) < 2 ^ 32 →
  ∃ p, unmarshalBatchedEventFromFastJSON cu cfg (JObject top) =
      Ok (mkBev (bt_Timestamp b) (bt_MsgPackTimestamp b) (bt_SampleRate b) p) ∧
    ∀ k, metadataFields !! k = None →
      (k ∈ cu_samplingKeyFields cu → k ∉ cu_traceIdFieldNames cu ∧ k ∉ cu_parentIdFieldNames cu) →
      Get p k = default VNil (json_lookup obj k) ∧ Exists_ p k = bool_decide (is_Some (json_lookup obj k)).
Proof.
  intros Hn Htop Hobj Hnd Hlen. unfold unmarshalBatchedEventFromFastJSON. rewrite Htop.
  set (es := json_entry <$> obj). set (data := AppendJSONValue (JObject obj)).
  assert (Hes : Forall readable_entry es).
  { apply Forall_fmap. eapply Forall_impl; [exact Hobj|]. intros kv Hkv. by apply json_entry_readable. }
  assert (Hdata : data = AppendMapHeader (Z.of_nat (length es)) +:+ entries_bytes es).
  { unfold data. cbn [AppendJSONValue]. rewrite json_bytes, u32_id by (unfold in_u32; lia). unfold es. by rewrite length_fmap. }
  pose proof (read_map (Z.of_nat (length es)) ltac:(unfold es; rewrite length_fmap; lia)) as Hhd.
  assert (Hhne : AppendMapHeader (Z.of_nat (length es)) ≠ "").
  { pose proof (Hhd "") as Er. rewrite str_app_nil_r in Er. intros E. rewrite E in Er.
    apply map_header_object in Er as (_ & raw & Eq & Hne & _). by destruct raw. }
  assert (Hh : holds data es).
  { split; [eapply Forall_impl; [exact Hes|]; by intros e []|]. right. by eexists. }
  assert (Hne : data ≠ "") by (rewrite Hdata; by apply str_ne_app).
  pose proof (UnmarshalMsgpFirstEvent_arrived cu cfg data es "" Hh Hne Hes) as Ea. rewrite str_app_nil_r in Ea.
  rewrite Ea. cbn [res_bind]. eexists. split; [done|]. intros k Hk Hkey.
  assert (Hnd' : NoDup (e_key <$> es)) by (unfold es; rewrite <-list_fmap_compose; exact Hnd).
  destruct (arrived_parts cu cfg data es) as (Ed & _).
  rewrite (Get_fields _ es), (Exists_fields _ es) by by rewrite Ed.
  rewrite (arrived_plain cu cfg data es k Hnd' Hk Hkey). unfold es. by rewrite json_raw_lookup.
Qed.

(** An event without [data] is not the empty event the batch handler refuses: one whose [data] is
    an empty object is. *)
Lemma missing_data_not_empty cu cfg :
  (∃ b, unmarshalBatchedEventFromFastJSON cu cfg (JObject []) = Ok b ∧ isEmpty (bt_Data b) = false) ∧
  ∃ b, unmarshalBatchedEventFromFastJSON cu cfg (JObject [("data", JObject [])]) = Ok b ∧ isEmpty (bt_Data b) = true.
Proof.
  split; [by eexists|]. unfold unmarshalBatchedEventFromFastJSON. cbn [foldl visit_field fst snd String.eqb Ascii.eqb Bool.eqb].
  unfold UnmarshalMsgpFirstEvent. pose proof (read_map 0 ltac:(lia)) as Hhd.
  pose proof (extract_app (cu_traceIdFieldNames cu) (cu_parentIdFieldNames cu) (cu_samplingKeyFields cu)
    (NewPayload cfg ∅) (AppendMapHeader 0) [] "" (Forall_nil_2 _) Hhd) as E. cbn zeta in E.
  change (entries_bytes []) with "" in E. rewrite !str_app_nil_r in E. cbn [arrive foldl] in E.
  cbn [AppendJSONValue length map str_concat foldr]. change (u32 (Z.of_nat 0)) with 0. rewrite str_app_nil_r, E.
  cbn [res_bind]. eexists. split; [done|]. cbn [bt_Data with_data isEmpty with_flags].
  unfold log_not_root, finish_keys. by repeat case_match.
Qed.
End FromJSON.

#[local] Existing Instance ExampleMsgp.codec.
#[local] Existing Instance ExampleMsgp.codec_laws.
#[local] Existing Instance TransmitSend.Example.http.

Module Example.
Definition ev : event := mkEvent "http://peer" "key" "data" "" 4 1000 PayloadSend.Example.event 0 0.
Definition top : list (string * jvalue) :=
  [("samplerate", JNumber (f64_of_Z 2) 2); ("data", JObject [("service", JString "api"); ("error", JTrue)])].
End Example.

Lemma batch_crosses_witness :
  ∃ b, events_UnmarshalMsg PayloadWire.Example.core None
      (rq_Body (request_of TransmitSend.Example.d Example.ev "" [Example.ev])) = Ok ([b], "") ∧ getSampleRate b = 4.
Proof.
  destruct (batch_crosses PayloadWire.Example.core None TransmitSend.Example.d Example.ev "" [Example.ev])
    as (bevs & E & Hc).
  - exact PayloadWire.Example.core_names.
  - apply Forall_singleton. split_and!; [done..|]. eexists. exact PayloadSend.Example.event_sending.
  - apply Forall_singleton. by vm_compute.
  - done.
  - done.
  - inversion Hc as [|? b ? bs (_ & Hr & _) Hnil]; subst. inversion Hnil; subst. exists b. split; [exact E|exact Hr].
Defined.

Lemma json_event_presents_fields_witness :
  ∃ b, unmarshalBatchedEventFromFastJSON PayloadWire.Example.core None (JObject Example.top) = Ok b ∧
    bt_SampleRate b = 2 ∧ Get (bt_Data b) "service" = VString "api".
Proof.
  destruct (json_event_presents_fields PayloadWire.Example.core None Example.top (mkBev "" None 2 (NewPayload None ∅))
    [("service", JString "api"); ("error", JTrue)]) as (p & E & Hf).
  - exact PayloadWire.Example.core_names.
  - done.
  - repeat constructor.
  - apply (bool_decide_unpack (NoDup _)). by vm_compute.
  - done.
  - eexists. split; [exact E|]. split; [done|]. cbn [bt_Data].
    rewrite (proj1 (Hf "service" ltac:(by vm_compute) ltac:(intros _; split; apply (bool_decide_unpack (_ ∉ _)); by vm_compute))).
    by vm_compute.
Defined.
