(* ===== verification/TraceKey.v ===== *)
(** sample/trace_key.go: the key a dynamic sampler samples a trace by.

    The distinct values of a field are kept in a map from their 64-bit hash (wyhash, a
    third-party function: the class [GoWyhash]).  A key object and its buffers are reused; what
    survives from one [build] to the next is only the capacity of the buffers, because
    [Reset] empties the maps, so [build] takes the key's immutable fields. *)
From S2P Require Import Prelude GoValue SamplerConfig Event.

Class GoWyhash := { wyhash : string → Z → Z }.

Definition maxKeyLength : Z := 100.

Record traceKey := mkTraceKey {
  tk_fields : list string;
  tk_rootOnlyFields : list string;
  tk_useTraceLength : bool }.

(** The fields are sorted first (in place: the second component is the caller's slice). *)
Definition newTraceKey (fields : list string) (useTraceLength : bool) : traceKey * list string :=
  let fields := sort_strings fields in
  let is_root f := HasPrefix f RootPrefix in
  (mkTraceKey (filter (λ f, is_root f = false) fields)
     (str_drop (String.length RootPrefix) <$> filter (λ f, is_root f = true) fields)
     useTraceLength, fields).

(** ** distinctValue *)

Record distinctValue := mkDistinct {
  dv_values : list (gmap Z string);
  dv_totalUniqueCount : Z;
  dv_maxDistinctValue : Z }.

Section Build.
Context `{GoFloat, GoWyhash} {P : Type} `{!PayloadOps P}.
Implicit Types (d : distinctValue) (sp : Span P) (t : Trace P).

Definition Reset (fields : list string) (maxDistinctValue : Z) : distinctValue :=
  mkDistinct (replicate (length fields) ∅) 0 maxDistinctValue.

Definition Values d (fieldIdx : nat) : list string :=
  match dv_values d !! fieldIdx with
  | None => []
  | Some valueMap => sort_strings (map_to_list valueMap).*2
  end.

Definition append_value (v : value) : string :=
  match v with
  | VString s => s
  | VInt z | VInt64 z => format_int z
  | VFloat64 f => fmt_float_f f
  | VBool b => format_bool b
  | VNil => "<nil>"
  | _ => fmt_v v
  end.

(** An index out of range panics; the callers' indices are in range. *)
Definition AddAsString d (v : value) (fieldIdx : nat) : distinctValue * bool :=
  let buf := append_value v in
  let hash := wyhash buf 0 in
  match dv_values d !! fieldIdx with
  | None => (d, false)
  | Some m =>
      match m !! hash with
      | Some _ => (d, false)
      | None =>
          let total := dv_totalUniqueCount d + 1 in
          if dv_maxDistinctValue d <=? total
          then (mkDistinct (dv_values d) total (dv_maxDistinctValue d), false)
          else (mkDistinct (<[fieldIdx := <[hash := buf]> m]> (dv_values d)) total (dv_maxDistinctValue d), true)
      end
  end.

(** ** build *)

(** The inner loop over the spans for field [i]; [true] is [break outer]. *)
Fixpoint collect_field (i : nat) (field : string) (spans : list (Span P)) d : distinctValue * bool :=
  match spans with
  | [] => (d, false)
  | sp :: spans =>
      if p_Exists (sp_Data sp) field then
        if maxKeyLength <=? dv_totalUniqueCount d then (d, true)
        else collect_field i field spans (AddAsString d (p_Get (sp_Data sp) field) i).1
      else collect_field i field spans d
  end.

Fixpoint collect_fields (i : nat) (fields : list string) (spans : list (Span P)) d : distinctValue :=
  match fields with
  | [] => d
  | field :: fields =>
      let '(d, stop) := collect_field i field spans d in
      if stop then d else collect_fields (S i) fields spans d
  end.

Definition bullet : string := "•".

(** The text of one field's values and how many it counts. *)
Fixpoint write_values (prevStr : string) (values : list string) : string * Z :=
  match values with
  | [] => ("", 0)
  | str :: values =>
      let '(s, n) := write_values str values in
      if negb (String.eqb str prevStr) then (str +:+ bullet +:+ s, n + 1) else (s, n)
  end.

Fixpoint write_fields (i : nat) (fields : list string) (values : nat → list string) : string * Z :=
  match fields with
  | [] => ("", 0)
  | _ :: fields =>
      let '(rest, m) := write_fields (S i) fields values in
      match values i with
      | [] => (rest, m)
      | vs => let '(s, n) := write_values "" vs in (s +:+ "," +:+ rest, n + m)
      end
  end.

Fixpoint write_root_fields (fields : list string) sp : string * Z :=
  match fields with
  | [] => ("", 0)
  | field :: fields =>
      let '(s, n) := write_root_fields fields sp in
      if p_Exists (sp_Data sp) field then (fmt_v (p_Get (sp_Data sp) field) +:+ "," +:+ s, n + 1) else (s, n)
  end.

(** The root's part of the key, and the trace length's. *)
Definition key_suffix (k : traceKey) t : string * Z :=
  let '(root, r) :=
    match root_span t with
    | Some sp => write_root_fields (tk_rootOnlyFields k) sp
    | None => ("", 0)
    end in
  let '(len, l) :=
    if tk_useTraceLength k then (format_int (Z.of_nat (length (tr_spans t))), 1) else ("", 0) in
  (root +:+ len, r + l).

Definition build (k : traceKey) t : string * Z :=
  let d := collect_fields 0 (tk_fields k) (tr_spans t) (Reset (tk_fields k) maxKeyLength) in
  let '(text, n) := write_fields 0 (tk_fields k) (Values d) in
  let '(suffix, m) := key_suffix k t in
  (text +:+ suffix, n + m).

(** ** The key as a specification: sorted distinct renderings that are not empty, field by field *)

(** The renderings of [field] over the spans that have it. *)
Definition renderings (field : string) (spans : list (Span P)) : list string :=
  (λ sp, append_value (p_Get (sp_Data sp) field)) <$>
    filter (λ sp, p_Exists (sp_Data sp) field = true) spans.

Definition distinct (l : list string) : list string := sort_strings (elements (list_to_set l : gset string)).

(** A field's values, each with a bullet, and how many: the empty text is not among them, but a field
    whose only value it is still has its comma. *)
Definition spec_field (field : string) (spans : list (Span P)) : string * Z :=
  match distinct (renderings field spans) with
  | [] => ("", 0)
  | vs => let vs := filter (λ s, s ≠ "") vs in
          (str_concat ((λ s, s +:+ bullet) <$> vs) +:+ ",", Z.of_nat (length vs))
  end.

Definition spec_build (k : traceKey) t : string * Z :=
  let parts := (λ f, spec_field f (tr_spans t)) <$> tk_fields k in
  let '(suffix, m) := key_suffix k t in
  (str_concat parts.*1 +:+ suffix, foldr Z.add 0 parts.*2 + m).

(** How many distinct values the fields of the key have. *)
Definition unique_count (fields : list string) (spans : list (Span P)) : nat :=
  sum_list ((λ f, length (distinct (renderings f spans))) <$> fields).
End Build.

(** ** The construction meets the specification *)

Section Correct.
Context `{GoFloat, GoWyhash} {P : Type} `{!PayloadOps P}.
Implicit Types (d : distinctValue) (sp : Span P) (t : Trace P) (S : gset string).

(** The hash separates the strings of [S]. *)
Definition hash_inj S : Prop := ∀ s1 s2, s1 ∈ S → s2 ∈ S → wyhash s1 0 = wyhash s2 0 → s1 = s2.

(** The map holds exactly the strings of [S]. *)
Definition represents (m : gmap Z string) S : Prop :=
  ∀ h s, m !! h = Some s ↔ s ∈ S ∧ wyhash s 0 = h.

Lemma represents_empty : represents ∅ ∅.
Proof. intros h s. rewrite lookup_empty. set_solver. Qed.

Lemma represents_insert m S b :
  represents m S → m !! wyhash b 0 = None → represents (<[wyhash b 0 := b]> m) ({[b]} ∪ S).
Proof.
  intros Hm Hb h s. destruct (decide (h = wyhash b 0)) as [->|Hne].
  - rewrite lookup_insert_eq. split; [intros [= <-]; set_solver|].
    intros [[->%elem_of_singleton|Hs]%elem_of_union E]; [done|].
    assert (m !! wyhash b 0 = Some s) by (apply Hm; done). congruence.
  - rewrite lookup_insert_ne by done. rewrite (Hm h s). set_solver.
Qed.

Lemma represents_present m S b s :
  represents m S → hash_inj ({[b]} ∪ S) → m !! wyhash b 0 = Some s → {[b]} ∪ S = S.
Proof.
  intros Hm Hinj Hs. apply Hm in Hs as [Hs E].
  assert (s = b) as -> by (apply Hinj; set_solver). set_solver.
Qed.

Lemma represents_values m S :
  represents m S → sort_strings (map_to_list m).*2 = sort_strings (elements S).
Proof.
  intros Hm. apply sort_strings_unique. apply NoDup_Permutation.
  - apply NoDup_fmap_2_strong; [|apply NoDup_map_to_list].
    intros [h1 s1] [h2 s2] H1%elem_of_map_to_list H2%elem_of_map_to_list E. simpl in *. subst.
    apply Hm in H1 as [_ <-]. by apply Hm in H2 as [_ <-].
  - apply NoDup_elements.
  - intros s. rewrite list_elem_of_fmap, elem_of_elements. split.
    + intros ([h s'] & -> & Hin%elem_of_map_to_list). by apply Hm in Hin as [? _].
    + intros Hs. exists (wyhash s 0, s). split; [done|]. apply elem_of_map_to_list. by apply Hm.
Qed.

Definition field_set (field : string) (spans : list (Span P)) : gset string :=
  list_to_set (renderings field spans).

Lemma field_set_cons field sp spans :
  field_set field (sp :: spans) =
    if p_Exists (sp_Data sp) field
    then {[append_value (p_Get (sp_Data sp) field)]} ∪ field_set field spans
    else field_set field spans.
Proof.
  unfold field_set, renderings. rewrite filter_cons.
  destruct (p_Exists (sp_Data sp) field); [by rewrite decide_True|by rewrite decide_False].
Qed.

Lemma collect_field_spec i field spans d m S :
  dv_values d !! i = Some m → represents m S → dv_maxDistinctValue d = maxKeyLength →
  hash_inj (S ∪ field_set field spans) →
  dv_totalUniqueCount d - Z.of_nat (size S) + Z.of_nat (size (S ∪ field_set field spans)) < maxKeyLength →
  ∃ m', collect_field i field spans d =
          (mkDistinct (<[i := m']> (dv_values d))
             (dv_totalUniqueCount d - Z.of_nat (size S) + Z.of_nat (size (S ∪ field_set field spans)))
             maxKeyLength, false)
        ∧ represents m' (S ∪ field_set field spans).
Proof.
  revert d m S. induction spans as [|sp spans IH]; intros d m S Hi Hm Hmax Hinj Hlt.
  - exists m. unfold field_set, renderings in *. simpl in *. rewrite union_empty_r_L in *.
    split; [|done]. rewrite list_insert_id by done. destruct d; simpl in *. subst. do 2 f_equal. lia.
  - rewrite field_set_cons in *. cbn [collect_field].
    destruct (p_Exists (sp_Data sp) field); [|by apply (IH d m S)].
    set (b := append_value (p_Get (sp_Data sp) field)) in *. set (F := field_set field spans) in *.
    assert (Hsub : (size S <= size (S ∪ ({[b]} ∪ F)))%nat) by (apply subseteq_size; set_solver).
    rewrite (proj2 (Z.leb_gt maxKeyLength (dv_totalUniqueCount d))) by lia.
    unfold AddAsString. rewrite Hi. fold b. destruct (m !! wyhash b 0) as [s|] eqn:Eb; simpl.
    + assert (E : {[b]} ∪ S = S) by (apply (represents_present m S b s); auto; intros ?????; apply Hinj; set_solver).
      replace (S ∪ ({[b]} ∪ F)) with (S ∪ F) in * by set_solver. by apply (IH d m S).
    + assert (Hb : b ∉ S).
      { intros Hb. assert (m !! wyhash b 0 = Some b) by (by apply Hm). congruence. }
      assert (Hsz : size ({[b]} ∪ S) = Datatypes.S (size S)) by (by rewrite size_union, size_singleton by set_solver).
      replace (S ∪ ({[b]} ∪ F)) with (({[b]} ∪ S) ∪ F) in * by set_solver.
      assert (size ({[b]} ∪ S) <= size ({[b]} ∪ S ∪ F))%nat by (apply subseteq_size; set_solver).
      rewrite (proj2 (Z.leb_gt _ _)) by lia. simpl.
      destruct (IH (mkDistinct (<[i := <[wyhash b 0 := b]> m]> (dv_values d)) (dv_totalUniqueCount d + 1)
                      (dv_maxDistinctValue d)) (<[wyhash b 0 := b]> m) ({[b]} ∪ S)) as (m' & E' & Hm'); simpl.
      * apply list_lookup_insert_eq. by eapply lookup_lt_Some.
      * by apply represents_insert.
      * done.
      * done.
      * lia.
      * exists m'. split; [|done]. rewrite E'. simpl. rewrite list_insert_insert_eq. do 2 f_equal. lia.
Qed.

Definition field_sizes (fields : list string) (spans : list (Span P)) : nat :=
  sum_list ((λ f, size (field_set f spans)) <$> fields).

Lemma collect_fields_spec fields spans i d :
  (∀ f, f ∈ fields → hash_inj (field_set f spans)) →
  (∀ k, (k < length fields)%nat → dv_values d !! (i + k)%nat = Some ∅) →
  dv_maxDistinctValue d = maxKeyLength →
  dv_totalUniqueCount d + Z.of_nat (field_sizes fields spans) < maxKeyLength →
  let d' := collect_fields i fields spans d in
  (∀ j, (j < i)%nat → dv_values d' !! j = dv_values d !! j) ∧
  (∀ k f, fields !! k = Some f →
     ∃ m, dv_values d' !! (i + k)%nat = Some m ∧ represents m (field_set f spans)).
Proof.
  cbv zeta. revert i d. induction fields as [|f fields IH]; intros i d Hinj Hi Hmax Hlt; [done|].
  change (field_sizes (f :: fields) spans) with (size (field_set f spans) + field_sizes fields spans)%nat in Hlt.
  cbn [collect_fields].
  destruct (collect_field_spec i f spans d ∅ ∅) as (m & E & Hm).
  { rewrite <-(Nat.add_0_r i). apply Hi. simpl. lia. }
  { apply represents_empty. }
  { done. }
  { rewrite union_empty_l_L. apply Hinj. set_solver. }
  { rewrite union_empty_l_L, size_empty. lia. }
  rewrite E. rewrite union_empty_l_L, size_empty in *.
  assert (Hlen : (i < length (dv_values d))%nat).
  { eapply lookup_lt_Some. rewrite <-(Nat.add_0_r i). apply Hi. simpl. lia. }
  match goal with |- context [collect_fields _ _ _ ?d1] => destruct (IH (Datatypes.S i) d1) as [IH1 IH2] end.
  { intros g Hg. apply Hinj. set_solver. }
  { intros k Hk. simpl. rewrite list_lookup_insert_ne by lia.
    replace (Datatypes.S (i + k)) with (i + Datatypes.S k)%nat by lia. apply Hi. simpl. lia. }
  { done. }
  { simpl. lia. }
  split.
  - intros j Hj. rewrite IH1 by lia. simpl. by rewrite list_lookup_insert_ne by lia.
  - intros [|k] g Hk.
    + injection Hk as ->. exists m. split; [|done]. rewrite Nat.add_0_r.
      rewrite IH1 by lia. simpl. by apply list_lookup_insert_eq.
    + replace (i + Datatypes.S k)%nat with (Datatypes.S i + k)%nat by lia. by apply IH2.
Qed.

(** ** The text *)

Lemma write_values_fresh prev vs :
  NoDup vs → prev ∉ vs →
  write_values prev vs =
    (str_concat ((λ s, s +:+ bullet) <$> vs), Z.of_nat (length vs)).
Proof.
  revert prev. induction vs as [|v vs IH]; intros prev Hnd Hp; [done|].
  apply NoDup_cons in Hnd as [Hv Hnd]. cbn [write_values]. rewrite IH by done.
  rewrite (proj2 (String.eqb_neq v prev)) by set_solver. simpl. f_equal; [|lia].
  by rewrite str_app_assoc.
Qed.

(** The comparison with the previous value starts from [""], so an empty value is not written. *)
Lemma write_values_spec vs :
  NoDup vs → StronglySorted str_le vs →
  write_values "" vs =
    (str_concat ((λ s, s +:+ bullet) <$> filter (λ s, s ≠ "") vs),
     Z.of_nat (length (filter (λ s, s ≠ "") vs))).
Proof.
  intros Hnd Hs. destruct vs as [|v vs]; [done|].
  apply NoDup_cons in Hnd as [Hv Hnd]. apply StronglySorted_inv in Hs as [Hs Hle].
  assert (Hid : "" ∉ vs → filter (λ s, s ≠ "") vs = vs).
  { intros Hne. apply filter_all. apply Forall_forall. intros s Hin ->. done. }
  rewrite filter_cons. destruct (decide (v = "")) as [->|Hne].
  - rewrite decide_False by naive_solver. rewrite Hid by done.
    cbn [write_values]. rewrite write_values_fresh by done. done.
  - rewrite decide_True by done.
    assert (Hn : "" ∉ v :: vs).
    { apply not_elem_of_cons. split; [done|]. intros Hin.
      rewrite Forall_forall in Hle. specialize (Hle _ Hin). destruct v; done. }
    rewrite write_values_fresh; [|by constructor|done].
    rewrite Hid; [done|]. by apply not_elem_of_cons in Hn as [_ ?].
Qed.

Lemma distinct_sorted l : NoDup (distinct l) ∧ StronglySorted str_le (distinct l).
Proof.
  unfold distinct. split; [|apply sort_strings_sorted].
  rewrite sort_strings_perm. apply NoDup_elements.
Qed.

Lemma write_fields_spec fields spans i (values : nat → list string) :
  (∀ k f, fields !! k = Some f → values (i + k)%nat = distinct (renderings f spans)) →
  let parts := (λ f, spec_field f spans) <$> fields in
  write_fields i fields values = (str_concat parts.*1, foldr Z.add 0 parts.*2).
Proof.
  cbv zeta. revert i. induction fields as [|f fields IH]; intros i Hv; [done|].
  cbn [write_fields fmap list_fmap].
  rewrite IH by (intros k g Hk; rewrite Nat.add_succ_comm; by apply Hv).
  pose proof (Hv O f eq_refl) as E. rewrite Nat.add_0_r in E. rewrite E.
  destruct (distinct_sorted (renderings f spans)) as [Hnd Hs].
  destruct (distinct (renderings f spans)) as [|v vs] eqn:Ed.
  - assert (Es : spec_field f spans = ("", 0)) by (unfold spec_field; by rewrite Ed).
    simpl. by rewrite Es.
  - rewrite write_values_spec by done. simpl. unfold spec_field at 3 5. rewrite Ed. simpl.
    by rewrite !str_app_assoc.
Qed.

Lemma build_spec (k : traceKey) t :
  (∀ f, f ∈ tk_fields k → hash_inj (field_set f (tr_spans t))) →
  Z.of_nat (unique_count (tk_fields k) (tr_spans t)) < maxKeyLength →
  build k t = spec_build k t.
Proof.
  intros Hinj Hlt. unfold build, spec_build.
  destruct (key_suffix k t) as [suffix m].
  destruct (collect_fields_spec (tk_fields k) (tr_spans t) 0 (Reset (tk_fields k) maxKeyLength))
    as [_ Hv]; [done| |done| |].
  { intros j Hj. simpl. by apply lookup_replicate_2. }
  { simpl. unfold unique_count, distinct in Hlt.
    replace (field_sizes (tk_fields k) (tr_spans t)) with
      (sum_list ((λ f, length (sort_strings (elements (field_set f (tr_spans t))))) <$> tk_fields k)); [done|].
    unfold field_sizes. f_equal. apply list_fmap_ext. intros _ f _.
    by rewrite sort_strings_perm. }
  rewrite (write_fields_spec (tk_fields k) (tr_spans t) 0); [done|].
  intros j f Hj. destruct (Hv j f Hj) as (m' & Em & Hm'). unfold Values. rewrite Em.
  by apply represents_values.
Qed.

Lemma renderings_perm f l1 l2 : l1 ≡ₚ l2 → renderings f l1 ≡ₚ renderings f l2.
Proof. intros E. unfold renderings. by rewrite E. Qed.

Lemma distinct_perm l1 l2 : l1 ≡ₚ l2 → distinct l1 = distinct l2.
Proof. intros E. unfold distinct. by rewrite E. Qed.

Lemma spec_field_perm f l1 l2 : l1 ≡ₚ l2 → spec_field f l1 = spec_field f l2.
Proof. intros E. unfold spec_field. by rewrite (distinct_perm _ _ (renderings_perm f _ _ E)). Qed.

Lemma filter_sort (Pr : string → Prop) `{!∀ f, Decision (Pr f)} (l : list string) :
  filter Pr (sort_strings l) = sort_strings (filter Pr l).
Proof.
  apply (StronglySorted_unique str_le); [|apply sort_strings_sorted|by rewrite !sort_strings_perm].
  pose proof (sort_strings_sorted l) as Hs. induction Hs as [|f l' Hs IH Hf]; [constructor|].
  rewrite filter_cons. case_decide; [|done]. constructor; [done|]. apply Forall_forall. intros g Hg.
  apply list_elem_of_filter in Hg as [_ Hg]. rewrite Forall_forall in Hf. by apply Hf.
Qed.

(** C37: the key of a trace is canonical: as long as fewer than [maxKeyLength] distinct values occur
    (and the 64-bit hash separates the values of each field), the text built for the sampler's fields
    is, for each of them that is not of the root, in sorted order, the sorted distinct values over all
    the spans that are not the empty text, then the root's values of the fields of the root, in sorted
    order, and the length; and the count returned is the number of values written.  So neither the
    order in which the spans arrived nor the order in which the fields are given matters: with a
    permutation of either, and the same root, the key is the same. *)
Theorem build_canonical (fields : list string) (useTraceLength : bool) t :
  let k := (newTraceKey fields useTraceLength).1 in
  (∀ f, f ∈ tk_fields k → hash_inj (field_set f (tr_spans t))) →
  Z.of_nat (unique_count (tk_fields k) (tr_spans t)) < maxKeyLength →
  tk_fields k = sort_strings (filter (λ f, HasPrefix f RootPrefix = false) fields) ∧
  tk_rootOnlyFields k =
    str_drop (String.length RootPrefix) <$> sort_strings (filter (λ f, HasPrefix f RootPrefix = true) fields) ∧
  build k t = spec_build k t ∧
  (∀ fields' t', fields' ≡ₚ fields → tr_spans t' ≡ₚ tr_spans t → root_span t' = root_span t →
     build (newTraceKey fields' useTraceLength).1 t' = build k t).
Proof.
  cbv zeta. set (k := (newTraceKey fields useTraceLength).1). intros Hinj Hlt.
  split_and!; [apply filter_sort|unfold k; simpl; by rewrite filter_sort|by apply build_spec|].
  intros fields' t' Ef E Er.
  assert ((newTraceKey fields' useTraceLength).1 = k) as ->.
  { unfold k, newTraceKey. by rewrite (sort_strings_unique fields' fields Ef). }
  rewrite !build_spec; try done.
  - assert (Es : (λ f, spec_field f (tr_spans t')) <$> tk_fields k = (λ f, spec_field f (tr_spans t)) <$> tk_fields k).
    { apply list_fmap_ext. intros _ f _. by apply spec_field_perm. }
    unfold spec_build, key_suffix. by rewrite Es, Er, (Permutation_length E).
  - intros f Hf. unfold field_set. rewrite (renderings_perm f _ _ E). by apply Hinj.
  - unfold unique_count in *. rewrite (list_fmap_ext _ (λ f, length (distinct (renderings f (tr_spans t))))); [done|].
    intros _ f _. by rewrite (distinct_perm _ _ (renderings_perm f _ _ E)).
Qed.
End Correct.

Module TraceKeyExamples.
#[local] Existing Instances example_float EventExamples.map_payload.
(** Strings are countable: an injective stand-in for the hash. *)
#[local] Instance encode_hash : GoWyhash := {| wyhash := λ s _, Zpos (encode s) |}.

Lemma encode_hash_inj (S : gset string) : hash_inj S.
Proof. intros s1 s2 _ _ [= E]. by apply encode_inj. Qed.

Definition key : traceKey := (newTraceKey ["root.a"; "b"; "a"] true).1.

Lemma build_canonical_witness :
  build key EventExamples.three = ("1•2•,1,3", 4) ∧
  build key EventExamples.three = spec_build key EventExamples.three ∧
  build (newTraceKey ["a"; "b"; "root.a"] true).1 EventExamples.three = build key EventExamples.three.
Proof.
  split; [by vm_compute|].
  destruct (build_canonical ["root.a"; "b"; "a"] true EventExamples.three) as (_ & _ & Hs & Hp);
    [intros f _; apply encode_hash_inj|vm_compute; reflexivity|].
  split; [exact Hs|]. apply Hp; [|reflexivity|reflexivity].
  apply (bool_decide_unpack _). by vm_compute.
Defined.

(** A value that is the empty text leaves no mark: two traces with different values have one key, of one
    value. *)
Definition of_values (vs : list string) : Trace (gmap string value) :=
  EventExamples.trace None ((λ v, EventExamples.span false [("a", VString v)]) <$> vs).
Lemma empty_value_unmarked :
  distinct (renderings "a" (tr_spans (of_values [""; "x"]))) ≠ distinct (renderings "a" (tr_spans (of_values ["x"; "x"]))) ∧
  build key (of_values [""; "x"]) = ("x•,2", 2) ∧ build key (of_values ["x"; "x"]) = ("x•,2", 2).
Proof. split; [by vm_compute|split; by vm_compute]. Qed.
End TraceKeyExamples.
