(* ===== verification/Rules.v ===== *)
(** sample/rules.go: how a rule is matched against a trace.

    [None] is a panic of the condition's predicate (see SamplerConfig.v).  gjson is a
    third-party library: [gjson_Get json path] is [Some] of the result's [String] where the
    result exists. *)
From Stdlib Require Import SpecFloat.
From S2P Require Import Prelude GoValue SamplerConfig Event.

Class GoGjson := { gjson_Get : string → string → option string }.

(** ** compare

    [None] is the code's second result [false]. *)

Definition compare_Z (a b : Z) : comparison := if a <? b then Lt else if b <? a then Gt else Eq.
Definition compare_f64 (a b : float64) : comparison :=
  if f64_ltb a b then Lt else if f64_ltb b a then Gt else Eq.
Definition compare_bool (a b : bool) : comparison :=
  if negb a && b then Lt else if a && negb b then Gt else Eq.

Definition compare (a b : value) : option comparison :=
  match a, b with
  | VNil, VNil => Some Eq
  | VNil, _ => Some Lt
  | _, VNil => Some Gt
  | VInt64 x, VInt y => Some (compare_Z x y)
  | VInt64 x, VInt64 y => Some (compare_Z x y)
  | VInt64 x, VFloat64 y => Some (compare_f64 (f64_of_Z x) y)
  | VFloat64 x, VInt y => Some (compare_f64 x (f64_of_Z y))
  | VFloat64 x, VInt64 y => Some (compare_f64 x (f64_of_Z y))
  | VFloat64 x, VFloat64 y => Some (compare_f64 x y)
  | VBool x, VBool y => Some (compare_bool x y)
  | VString x, VString y => Some (String.compare x y)
  | _, _ => None
  end.

Definition conditionMatchesValue (c : RulesBasedSamplerCondition) (v : value) (exists_ : bool) : bool :=
  let op := c_Operator c in
  let when (test : comparison → bool) :=
    match compare v (c_Value c) with Some r => test r | None => false end in
  if exists_ then
    if String.eqb op Exists then true
    else if String.eqb op NEQ then when (λ r, negb (bool_decide (r = Eq)))
    else if String.eqb op EQ then when (λ r, bool_decide (r = Eq))
    else if String.eqb op GT then when (λ r, bool_decide (r = Gt))
    else if String.eqb op GTE then when (λ r, bool_decide (r = Gt) || bool_decide (r = Eq))
    else if String.eqb op LT then when (λ r, bool_decide (r = Lt))
    else if String.eqb op LTE then when (λ r, bool_decide (r = Lt) || bool_decide (r = Eq))
    else false
  else String.eqb op NotExists.

Section Match.
Context `{GoFloat, GoGjson} {P : Type} `{!PayloadOps P}.
Implicit Types (t : Trace P) (sp : Span P) (c : RulesBasedSamplerCondition).

(** ** extractValueFromSpan *)

(** The loop over the fields: a value found, or the span the last iteration was using. *)
Fixpoint extract_loop t (original : Span P) (fields : list string) (cur : Span P) (onlyRoot : bool)
    : (value * bool * bool) + Span P :=
  match fields with
  | [] => inr cur
  | field :: fields =>
      if HasPrefix field RootPrefix then
        match root_span t with
        | Some root =>
            let field := str_drop (String.length RootPrefix) field in
            if p_Exists (sp_Data root) field
            then inl (p_Get (sp_Data root) field, true, onlyRoot)
            else extract_loop t original fields root onlyRoot
        | None => extract_loop t original fields original onlyRoot
        end
      else
        if p_Exists (sp_Data original) field
        then inl (p_Get (sp_Data original) field, true, false)
        else extract_loop t original fields original false
  end.

Fixpoint gjson_first (json : string) (fields : list string) : option string :=
  match fields with
  | [] => None
  | field :: fields =>
      match gjson_Get json field with Some s => Some s | None => gjson_first json fields end
  end.

(** (value, exists, checkedOnlyRoot) *)
Definition extractValueFromSpan t sp c (checkNestedFields : bool) : value * bool * bool :=
  if bool_decide (GetComputedField c = Some NUM_DESCENDANTS)
  then (VInt64 (DescendantCount t), true, true)
  else
    let fields := default [] (c_Fields c) in
    match extract_loop t sp fields sp true with
    | inl r => r
    | inr sp =>
        let nested :=
          if checkNestedFields then
            match p_MarshalJSON (sp_Data sp) with
            | Some jsonStr => gjson_first jsonStr fields
            | None => None
            end
          else None in
        match nested with Some s => (VString s, true, false) | None => (VNil, false, false) end
    end.

(** [condition.Matches], or the basic comparison where no predicate was compiled. *)
Definition condition_matches c (v : value) (ex : bool) : option bool :=
  match c_Matches c with
  | None => Some (conditionMatchesValue c v ex)
  | Some m => m v ex
  end.

(** ** ruleMatchesTrace *)

Fixpoint any_span t c (nested : bool) (spans : list (Span P)) : option bool :=
  match spans with
  | [] => Some false
  | sp :: spans =>
      let '(v, ex, checkedOnlyRoot) := extractValueFromSpan t sp c nested in
      match condition_matches c v ex with
      | None => None
      | Some true => Some true
      | Some false => if checkedOnlyRoot then Some false else any_span t c nested spans
      end
  end.

Definition has_root t : bool := bool_decide (is_Some (root_span t)).

(** The number of matched conditions, [Some None] where the function returns false early. *)
Fixpoint count_matched t (nested : bool) (conds : list RulesBasedSamplerCondition) (matched : nat)
    : option (option nat) :=
  match conds with
  | [] => Some (Some matched)
  | c :: conds =>
      if String.eqb (c_Operator c) HasRootSpan then
        if Bool.eqb (has_root t) (TryConvertToBool (c_Value c))
        then count_matched t nested conds (S matched)
        else Some None
      else
        match any_span t c nested (tr_spans t) with
        | None => None
        | Some true => count_matched t nested conds (S matched)
        | Some false => count_matched t nested conds matched
        end
  end.

Definition ruleMatchesTrace t (rule : RulesBasedSamplerRule) (nested : bool) : option bool :=
  match r_Conditions rule with
  | None => Some true
  | Some conds =>
      match count_matched t nested conds O with
      | None => None
      | Some None => Some false
      | Some (Some matched) => Some (matched =? length conds)%nat
      end
  end.

(** ** ruleMatchesSpanInTrace *)

(** One span against every condition: [inr tt] is the early [return false]. *)
Fixpoint span_matches t sp (nested : bool) (conds : list RulesBasedSamplerCondition) : option (bool + unit) :=
  match conds with
  | [] => Some (inl true)
  | c :: conds =>
      let '(v, ex, checkedOnlyRoot) := extractValueFromSpan t sp c nested in
      match condition_matches c v ex with
      | None => None
      | Some true => span_matches t sp nested conds
      | Some false => Some (if checkedOnlyRoot then inr tt else inl false)
      end
  end.

Fixpoint some_span_matches t (nested : bool) (conds : list RulesBasedSamplerCondition)
    (spans : list (Span P)) : option bool :=
  match spans with
  | [] => Some false
  | sp :: spans =>
      match span_matches t sp nested conds with
      | None => None
      | Some (inr _) => Some false
      | Some (inl true) => Some true
      | Some (inl false) => some_span_matches t nested conds spans
      end
  end.

Definition ruleMatchesSpanInTrace t (rule : RulesBasedSamplerRule) (nested : bool) : option bool :=
  match r_Conditions rule with
  | None => Some true
  | Some conds => some_span_matches t nested conds (tr_spans t)
  end.

(** ** What a match means *)

(** The condition holds of one span, as the code evaluates it. *)
Definition holds_on t (nested : bool) c sp : Prop :=
  let '(v, ex, _) := extractValueFromSpan t sp c nested in condition_matches c v ex = Some true.

(** Evaluating the condition never panics. *)
Definition total_condition c : Prop := ∀ m v ex, c_Matches c = Some m → is_Some (m v ex).

Lemma condition_matches_total c v ex : total_condition c → is_Some (condition_matches c v ex).
Proof.
  intros Ht. unfold condition_matches. destruct (c_Matches c) as [m|] eqn:E; [|done]. by apply Ht.
Qed.

(** The loop reports [checkedOnlyRoot] only where it has looked at nothing but the root. *)
Lemma extract_loop_root t sp1 sp2 fields cur1 cur2 only v ex :
  extract_loop t sp1 fields cur1 only = inl (v, ex, true) →
  extract_loop t sp2 fields cur2 only = inl (v, ex, true).
Proof.
  revert cur1 cur2 only. induction fields as [|f fields IH]; intros cur1 cur2 only; simpl; [done|].
  destruct (HasPrefix f RootPrefix).
  - destruct (root_span t) as [root|]; [destruct (p_Exists _ _); [done|]|]; eauto.
  - destruct (p_Exists (sp_Data sp1) f); [done|]. intros E.
    exfalso. clear IH. revert E. generalize sp1 at 2 as cur.
    induction fields as [|g fields IH]; intros cur; simpl; [done|].
    destruct (HasPrefix g RootPrefix).
    + destruct (root_span t); [destruct (p_Exists _ _); [done|]|]; apply IH.
    + destruct (p_Exists _ _); [done|]. apply IH.
Qed.

Lemma extract_only_root t c nested sp1 sp2 v ex :
  extractValueFromSpan t sp1 c nested = (v, ex, true) →
  extractValueFromSpan t sp2 c nested = (v, ex, true).
Proof.
  unfold extractValueFromSpan. case_bool_decide; [done|].
  destruct (extract_loop t sp1 _ sp1 true) as [[[v1 ex1] o1]|s] eqn:E.
  - intros [= -> -> ->]. by rewrite (extract_loop_root _ _ sp2 _ _ sp2 _ _ _ E).
  - destruct nested; [destruct (p_MarshalJSON _); [destruct (gjson_first _ _)|]|]; done.
Qed.

(** The early exit of the inner loops is sound. *)
Lemma any_span_spec t c nested spans :
  total_condition c →
  ∃ b, any_span t c nested spans = Some b ∧ (b = true ↔ ∃ sp, sp ∈ spans ∧ holds_on t nested c sp).
Proof.
  intros Ht. induction spans as [|sp spans (b & E & Hb)]; simpl.
  { exists false. split; [done|]. set_solver. }
  destruct (extractValueFromSpan t sp c nested) as [[v ex] only] eqn:Ev.
  destruct (condition_matches_total c v ex Ht) as [[] Em]; rewrite Em.
  - exists true. split; [done|]. split; [intros _|done]. exists sp.
    split; [set_solver|]. unfold holds_on. by rewrite Ev.
  - assert (Hn : ¬ holds_on t nested c sp) by (unfold holds_on; rewrite Ev; congruence).
    destruct only.
    + exists false. split; [done|]. split; [done|]. intros (sp' & _ & Hsp').
      unfold holds_on in Hsp'. rewrite (extract_only_root _ _ _ _ sp' _ _ Ev) in Hsp'. congruence.
    + exists b. split; [done|]. rewrite Hb. setoid_rewrite elem_of_cons. naive_solver.
Qed.

(** One condition of a rule of trace scope. *)
Definition holds_in_trace t (nested : bool) c : Prop :=
  if String.eqb (c_Operator c) HasRootSpan then has_root t = TryConvertToBool (c_Value c)
  else ∃ sp, sp ∈ tr_spans t ∧ holds_on t nested c sp.

(** *** Conditions as Init leaves them *)

(** The conditions of a sampler's rules have been through [Init], once. *)
Definition compiled `{!GoRegexp} c : Prop := ∃ c0, uninitialized c0 ∧ c = (Init c0).1.

(** A [not-in] whose datatype is none that the code knows: its predicate calls a nil function. *)
Definition faulty c : Prop := bad_not_in c ∧ is_Some (c_Matches c).

Lemma setMatches_keeps `{!GoRegexp} r : c_Matches r = None →
  c_Operator (setMatchesFunction r).1 = c_Operator r ∧ c_Datatype (setMatchesFunction r).1 = c_Datatype r ∧
  (is_Some (setMatchesFunction r).2 → c_Matches (setMatchesFunction r).1 = None).
Proof.
  intros Hm. destruct (setMatchesFunction r) as [r1 e] eqn:Hset. unfold setMatchesFunction, setCompareOperators,
    setMatchStringBasedOperators, setInBasedOperators, setRegexStringMatchOperator in Hset. cbn [fst snd].
  repeat split_match_in Hset; simplify_eq/=; split_and!; try reflexivity; by intros [? ?].
Qed.

(** Which conditions panic when evaluated is decided by [Init]. *)
Lemma Init_keeps `{!GoRegexp} c0 : uninitialized c0 →
  c_Operator (Init c0).1 = c_Operator c0 ∧ c_Datatype (Init c0).1 = c_Datatype c0 ∧
  (is_Some (Init c0).2 → c_Matches (Init c0).1 = None).
Proof.
  intros [Hd Hm]. unfold Init. rewrite Hd. cbv zeta.
  destruct (negb _); [destruct (0 <? _)|]; [done| |].
  - by destruct (setMatches_keeps (set_Fields (set_initDone c0) [c_Field (set_initDone c0)]) Hm) as (-> & -> & ?).
  - by destruct (setMatches_keeps (set_initDone c0) Hm) as (-> & -> & ?).
Qed.

Lemma setMatches_bad `{!GoRegexp} r m v ex :
  c_Matches r = None → bad_not_in r → c_Matches (setMatchesFunction r).1 = Some m → m v ex = None.
Proof.
  intros Hm [Hop Hdt].
  assert (setMatchesFunction r = setInBasedOperators r NotIn) as -> by (unfold setMatchesFunction; by rewrite Hop).
  unfold setInBasedOperators.
  assert (∀ s, s ∈ "bool" :: membership_datatypes → String.eqb (c_Datatype r) s = false) as Hd
    by (intros s Hs; apply String.eqb_neq; intros Es; by rewrite Es in Hdt).
  rewrite !Hd by (unfold membership_datatypes; set_solver).
  destruct (c_Value r); cbn; intros E; congruence || (injection E as <-; reflexivity).
Qed.

Lemma compiled_faulty `{!GoRegexp} c v ex : compiled c → faulty c → condition_matches c v ex = None.
Proof.
  intros (c0 & [Hd Hn] & ->) [Hb [m Hm]]. unfold condition_matches. rewrite Hm.
  unfold Init in Hb, Hm. rewrite Hd in Hb, Hm. cbv zeta in Hb, Hm.
  destruct (negb _); [destruct (0 <? _)|]; [cbn in Hm; congruence| |].
  all: match type of Hb with bad_not_in (setMatchesFunction ?r).1 =>
    destruct (setMatches_keeps r) as (Eo & Ed & _); [done|];
    apply (setMatches_bad r); [done|unfold bad_not_in in *; by rewrite <-Eo, <-Ed|done] end.
Qed.

Lemma compiled_cases `{!GoRegexp} c : compiled c → faulty c ∨ ¬ faulty c ∧ total_condition c.
Proof.
  intros (c0 & Hu & ->). destruct (Init_keeps c0 Hu) as (Eo & Ed & Herr).
  destruct (c_Matches (Init c0).1) as [m|] eqn:Hm.
  2: { right. split; [intros [_ [? ?]]; congruence|]. intros ???. congruence. }
  destruct (decide (c_Operator c0 = NotIn ∧ c_Datatype c0 ∉ "bool" :: membership_datatypes)) as [Hb|Hb].
  - left. split; [unfold bad_not_in; by rewrite Eo, Ed|]. by exists m.
  - right. split; [intros [Hb' _]; unfold bad_not_in in Hb'; by rewrite Eo, Ed in Hb'|].
    intros m' v ex Hm'. apply not_eq_None_Some. apply (initialized_predicate_total c0); [done|done|].
    split; [|done]. destruct (Init c0).2; [|done]. exfalso. enough (Some m = None) by done. by rewrite <-Herr, <-Hm by eauto.
Qed.

(** The evaluation panics: the trace has a span, and a faulty condition is reached, as no [has-root-span]
    before it has failed. *)
Definition panics t (conds : list RulesBasedSamplerCondition) : Prop :=
  tr_spans t ≠ [] ∧ ∃ before c after, conds = before ++ c :: after ∧ faulty c ∧
    Forall (λ c', c_Operator c' = HasRootSpan → has_root t = TryConvertToBool (c_Value c')) before.

Lemma faulty_operator c : faulty c → c_Operator c ≠ HasRootSpan.
Proof. by intros [[-> _] _]. Qed.

Lemma panics_cons `{!GoRegexp} t c conds : compiled c →
  panics t (c :: conds) ↔ tr_spans t ≠ [] ∧ faulty c ∨
    (c_Operator c = HasRootSpan → has_root t = TryConvertToBool (c_Value c)) ∧ panics t conds.
Proof.
  intros _. unfold panics. split.
  - intros (Hs & before & c' & after & E & Hf & Hb). destruct before as [|c0 before]; injection E as -> ->; [by left|right].
    apply Forall_cons in Hb as [Hc Hb]. split; [done|]. split; [done|]. by exists before, c', after.
  - intros [[Hs Hf]|(Hc & Hs & before & c' & after & -> & Hf & Hb)]; (split; [done|]).
    + exists [], c, conds. split_and!; [done|done|by apply Forall_nil].
    + exists (c :: before), c', after. split_and!; [done|done|]. by apply Forall_cons.
Qed.

Lemma count_matched_compiled `{!GoRegexp} t nested conds n : Forall compiled conds →
  match count_matched t nested conds n with
  | None => panics t conds
  | Some r => ¬ panics t conds ∧ (r = Some (n + length conds)%nat ↔ Forall (holds_in_trace t nested) conds) ∧
      ∀ k, r = Some k → (k <= n + length conds)%nat
  end.
Proof.
  intros Hall. revert n. induction Hall as [|c conds Hc _ IH]; intros n; cbn [count_matched length].
  { split_and!; [intros (_ & [|??] & ? & ? & [=] & _)|by rewrite Nat.add_0_r|intros k [= ->]; lia]. }
  assert (Hcons : Forall (holds_in_trace t nested) (c :: conds) ↔
    (if String.eqb (c_Operator c) HasRootSpan then has_root t = TryConvertToBool (c_Value c)
     else ∃ sp, sp ∈ tr_spans t ∧ holds_on t nested c sp) ∧ Forall (holds_in_trace t nested) conds) by apply Forall_cons.
  pose proof (panics_cons t c conds Hc) as Hp. destruct (String.eqb_spec (c_Operator c) HasRootSpan) as [Eo|Eo].
  - assert (Hnf : ¬ faulty c) by (intros Hf; by apply faulty_operator in Hf).
    destruct (Bool.eqb_spec (has_root t) (TryConvertToBool (c_Value c))) as [Er|Er].
    + specialize (IH (S n)). replace (n + S (length conds))%nat with (S n + length conds)%nat by lia.
      destruct (count_matched t nested conds (S n)) as [r|]; [|apply Hp; by right]. destruct IH as (Hn & Hr & Hk).
      split_and!; [rewrite Hp; tauto|tauto|done].
    + split_and!; [rewrite Hp; tauto|naive_solver|done].
  - destruct (decide (tr_spans t = [])) as [Es|Es].
    { rewrite Es. cbn [any_span]. specialize (IH n). destruct (count_matched t nested conds n) as [r|]; [|by destruct IH].
      destruct IH as (Hn & Hr & Hk). split_and!; [by intros [? _]| |].
      - split; [intros ->; specialize (Hk _ eq_refl); lia|]. rewrite Hcons, Es. intros [(sp & Hsp & _) _]. by apply elem_of_nil in Hsp.
      - intros k Hr'. specialize (Hk k Hr'). lia. }
    destruct (compiled_cases c Hc) as [Hf|[Hf Htot]].
    + destruct (tr_spans t) as [|sp spans]; [done|]. cbn [any_span]. destruct (extractValueFromSpan t sp c nested) as [[v ex] only].
      rewrite compiled_faulty by done. apply Hp. by left.
    + destruct (any_span_spec t c nested (tr_spans t) Htot) as ([] & E & Hb); rewrite E.
      * specialize (IH (S n)). replace (n + S (length conds))%nat with (S n + length conds)%nat by lia.
        destruct (count_matched t nested conds (S n)) as [r|]; [|apply Hp; by right]. destruct IH as (Hn & Hr & Hk).
        split_and!; [rewrite Hp; tauto| |done]. rewrite Hr, Hcons. naive_solver.
      * specialize (IH n). destruct (count_matched t nested conds n) as [r|]; [|apply Hp; by right]. destruct IH as (Hn & Hr & Hk).
        split_and!; [rewrite Hp; tauto| |].
        -- split; [intros ->; specialize (Hk _ eq_refl); lia|]. rewrite Hcons. intros [Hx _]. by apply Hb in Hx.
        -- intros k Hr'. specialize (Hk k Hr'). lia.
Qed.

(** C10: a rule of trace scope, whose conditions [Init] has compiled, matches exactly when every one of
    its conditions holds in the trace ([has-root-span] of the trace itself, any other of at least one
    span): counting matches and leaving the loops early ([checkedOnlyRoot], a failed [has-root-span])
    changes no outcome.  The evaluation ends with an answer, except that it panics exactly when the
    trace has spans and a [not-in] with a datatype the code does not know is reached, as no
    [has-root-span] before it fails. *)
Theorem ruleMatchesTrace_spec `{!GoRegexp} t (rule : RulesBasedSamplerRule) (nested : bool) :
  Forall compiled (default [] (r_Conditions rule)) →
  match ruleMatchesTrace t rule nested with
  | Some b => ¬ panics t (default [] (r_Conditions rule)) ∧
      (b = true ↔ Forall (holds_in_trace t nested) (default [] (r_Conditions rule)))
  | None => panics t (default [] (r_Conditions rule))
  end.
Proof.
  intros Hall. unfold ruleMatchesTrace. destruct (r_Conditions rule) as [conds|]; cbn [default] in *.
  - pose proof (count_matched_compiled t nested conds 0 Hall) as Hc. destruct (count_matched t nested conds 0) as [r|]; [|done].
    destruct Hc as (Hn & Hr & Hk). destruct r as [k|]; (split; [done|]).
    + rewrite <-Hr, Nat.eqb_eq. simpl. naive_solver.
    + rewrite <-Hr. naive_solver.
  - split; [|done]. by intros (_ & [|??] & ? & ? & [=] & _).
Qed.

Lemma span_matches_spec t sp nested conds :
  Forall total_condition conds →
  ∃ r, span_matches t sp nested conds = Some r ∧
    (r = inl true ↔ Forall (λ c, holds_on t nested c sp) conds) ∧
    (r = inr tt → ∀ sp', ¬ Forall (λ c, holds_on t nested c sp') conds).
Proof.
  intros Ht. induction conds as [|c conds IH]; simpl.
  { exists (inl true). split_and!; [done|by split|done]. }
  apply Forall_cons in Ht as [Hc Ht]. destruct (IH Ht) as (r & E & Hr & Hx). clear IH.
  destruct (extractValueFromSpan t sp c nested) as [[v ex] only] eqn:Ev.
  destruct (condition_matches_total c v ex Hc) as [[] Em]; rewrite Em.
  - exists r. assert (Hh : holds_on t nested c sp) by (unfold holds_on; by rewrite Ev).
    split_and!; [done|rewrite Forall_cons; tauto|].
    intros Er sp'. rewrite Forall_cons. specialize (Hx Er sp'). tauto.
  - assert (Hn : ¬ holds_on t nested c sp) by (unfold holds_on; rewrite Ev; congruence).
    exists (if only then inr tt else inl false). split_and!; [done| |].
    + rewrite Forall_cons. destruct only; naive_solver.
    + destruct only; [|done]. intros _ sp'. rewrite Forall_cons. intros [Hsp' _].
      unfold holds_on in Hsp'. rewrite (extract_only_root _ _ _ _ sp' _ _ Ev) in Hsp'. congruence.
Qed.

(** A rule of span scope matches exactly when it has no conditions, or some single span
    satisfies all of its conditions; the early [return false] is taken only where no span can. *)
Theorem ruleMatchesSpanInTrace_spec t (rule : RulesBasedSamplerRule) (nested : bool) :
  Forall total_condition (default [] (r_Conditions rule)) →
  ∃ b, ruleMatchesSpanInTrace t rule nested = Some b ∧
    (b = true ↔ r_Conditions rule = None ∨
       ∃ conds sp, r_Conditions rule = Some conds ∧ sp ∈ tr_spans t ∧
         Forall (λ c, holds_on t nested c sp) conds).
Proof.
  intros Ht. unfold ruleMatchesSpanInTrace. destruct (r_Conditions rule) as [conds|]; simpl in *;
    [|exists true; naive_solver].
  assert (∀ spans, ∃ b, some_span_matches t nested conds spans = Some b ∧
    (b = true ↔ ∃ sp, sp ∈ spans ∧ Forall (λ c, holds_on t nested c sp) conds)) as Hs.
  { induction spans as [|sp spans (b & E & Hb)]; simpl; [exists false; set_solver|].
    destruct (span_matches_spec t sp nested conds Ht) as (r & Er & Hr & Hx). rewrite Er.
    setoid_rewrite elem_of_cons. destruct r as [[]|[]].
    - exists true. naive_solver.
    - exists b. naive_solver.
    - exists false. naive_solver. }
  destruct (Hs (tr_spans t)) as (b & E & Hb). exists b. split; [done|]. rewrite Hb. naive_solver.
Qed.
End Match.

Module RulesExamples.
#[local] Existing Instances example_float EventExamples.map_payload.
#[local] Instance no_gjson : GoGjson := {| gjson_Get := λ _ _, None |}.

(** [a > 1] on some span, compared without a datatype. *)
Definition a_gt_1 : RulesBasedSamplerCondition :=
  mkCondition "a" (Some ["a"]) GT (VInt 1) "" None true.
Definition has_root_true : RulesBasedSamplerCondition :=
  mkCondition "" None HasRootSpan (VBool true) "" None true.
Definition rule (scope : string) (conds : list RulesBasedSamplerCondition) : RulesBasedSamplerRule :=
  mkRule "rule" 1 true scope (Some conds) None.

Lemma total_basic : Forall total_condition [a_gt_1; has_root_true].
Proof. repeat constructor; intros m v ex [=]. Qed.

(** Literal patterns, as [SamplerConfig.Examples] has them. *)
#[local] Existing Instance Examples.example_regexp.

(** The same conditions as [Init] compiles them, and a [not-in] over a datatype it does not know. *)
Definition compiled_conditions : list RulesBasedSamplerCondition :=
  [(Init (mkCondition "a" None GT (VInt 1) "int" None false)).1;
   (Init (mkCondition "" None HasRootSpan (VBool true) "" None false)).1].
Definition not_in_date : RulesBasedSamplerCondition :=
  (Init (mkCondition "a" None NotIn (VInt 1) "date" None false)).1.

Lemma compiled_examples : Forall compiled (not_in_date :: compiled_conditions).
Proof. repeat constructor; (eexists; split; [|reflexivity]; done). Qed.

Lemma ruleMatchesTrace_spec_witness :
  ruleMatchesTrace EventExamples.three (rule "trace" compiled_conditions) false = Some true ∧
  Forall (holds_in_trace EventExamples.three false) compiled_conditions ∧
  panics EventExamples.three (compiled_conditions ++ [not_in_date]).
Proof.
  pose proof compiled_examples as Hall. apply Forall_cons in Hall as [Hn Hc].
  assert (E : ruleMatchesTrace EventExamples.three (rule "trace" compiled_conditions) false = Some true)
    by (vm_compute; reflexivity).
  split; [exact E|]. split.
  - pose proof (ruleMatchesTrace_spec EventExamples.three (rule "trace" compiled_conditions) false Hc) as Hr.
    rewrite E in Hr. apply Hr. reflexivity.
  - assert (Hf : Forall compiled (compiled_conditions ++ [not_in_date]))
      by (apply Forall_app; split; [exact Hc|apply Forall_singleton; exact Hn]).
    pose proof (ruleMatchesTrace_spec EventExamples.three
      (rule "trace" (compiled_conditions ++ [not_in_date])) false Hf) as Hr.
    assert (E' : ruleMatchesTrace EventExamples.three
      (rule "trace" (compiled_conditions ++ [not_in_date])) false = None) by (vm_compute; reflexivity).
    rewrite E' in Hr. exact Hr.
Defined.

Lemma ruleMatchesSpanInTrace_spec_witness :
  ruleMatchesSpanInTrace EventExamples.three (rule "span" [a_gt_1]) false = Some true ∧
  ruleMatchesSpanInTrace EventExamples.three (rule "span" [a_gt_1; has_root_true]) false = Some false ∧
  ∃ b, ruleMatchesSpanInTrace EventExamples.three (rule "span" [a_gt_1; has_root_true]) false = Some b.
Proof.
  split; [by vm_compute|split; [by vm_compute|]].
  destruct (ruleMatchesSpanInTrace_spec EventExamples.three (rule "span" [a_gt_1; has_root_true]) false
              total_basic) as (b & E & _).
  exists b. exact E.
Defined.
End RulesExamples.
