(* ===== verification/Samplers.v ===== *)
(** sample/: the samplers and the factory that builds them.

    The factory's dynsampler instances are shared between samplers by pointer: a heap of
    instances, [shared] the factory's map from keys to locations, a sampler holding a location.
    dynsampler-go is third-party: the class [GoDynsampler] gives the instance a literal starts
    as, and its methods.  Pseudo-random draws are an argument: [intn n] is what rand.Intn(n)
    returns.  [None] is the end of the process: a panic, or os.Exit. *)
From Stdlib Require Import SpecFloat.
From S2P Require Import Prelude GoValue Metrics SamplerConfig Config Event TraceKey Rules.

(** ** Third-party functions *)

Class GoSha1 := { sha1_Sum : string → string }.

(** binary.BigEndian.Uint32 of the first four bytes. *)
Definition be_uint32 (s : string) : Z :=
  match s with
  | String a (String b (String c (String d _))) =>
      let z x := Z.of_N (Ascii.N_of_ascii x) in ((z a * 256 + z b) * 256 + z c) * 256 + z d
  | _ => 0
  end.

Inductive dynKind := KDynamic | KEMADynamic | KEMAThroughput | KWindowedThroughput | KTotalThroughput.
#[export] Instance dynKind_eq_dec : EqDecision dynKind.
Proof. solve_decision. Defined.

(** The struct literals the sources start. *)
Inductive dynParams :=
| AvgSampleRate (GoalSampleRate ClearFrequencyDuration MaxKeys : Z)
| EMASampleRate (GoalSampleRate AdjustmentIntervalDuration : Z) (Weight AgeOutValue : float64)
    (BurstDetectionDelay : Z) (BurstMultiple : float64) (MaxKeys : Z)
| EMAThroughput (GoalThroughputPerSec InitialSampleRate AdjustmentInterval : Z) (Weight AgeOutValue : float64)
    (BurstDetectionDelay : Z) (BurstMultiple : float64) (MaxKeys : Z)
| TotalThroughput (GoalThroughputPerSec ClearFrequencyDuration MaxKeys : Z)
| WindowedThroughput (GoalThroughputPerSec : float64) (UpdateFrequencyDuration LookbackFrequencyDuration MaxKeys : Z).

Class GoDynsampler (D : Type) := {
  dyn_start : dynParams → D;
  dyn_GetSampleRateMulti : D → string → Z → Z * D;
  dyn_GetMetrics : D → string → list (string * Z);
  (** [SetGoalThroughputPerSec], where the instance's type has it *)
  dyn_SetGoal : dynKind → option (D → Z → D);
}.

(** ** The literals *)

Definition second : Z := 1000000000.

Definition createDynForDynamicSampler (c : DynamicSamplerConfig) : dynParams :=
  AvgSampleRate (dyn_SampleRate c)
    (if dyn_ClearFrequency c =? 0 then 30 * second else dyn_ClearFrequency c)
    (if dyn_MaxKeys c =? 0 then 500 else dyn_MaxKeys c).
Definition createDynForEMADynamicSampler (c : EMADynamicSamplerConfig) : dynParams :=
  EMASampleRate (ema_GoalSampleRate c) (ema_AdjustmentInterval c) (ema_Weight c) (ema_AgeOutValue c)
    (ema_BurstDetectionDelay c) (ema_BurstMultiple c)
    (if ema_MaxKeys c =? 0 then 500 else ema_MaxKeys c).
Definition createDynForEMAThroughputSampler (c : EMAThroughputSamplerConfig) : dynParams :=
  EMAThroughput (Z.quot (emat_GoalThroughputPerSec c) 1) (emat_InitialSampleRate c) (emat_AdjustmentInterval c)
    (emat_Weight c) (emat_AgeOutValue c) (emat_BurstDetectionDelay c) (emat_BurstMultiple c)
    (if emat_MaxKeys c =? 0 then 500 else emat_MaxKeys c).
Definition createDynForTotalThroughputSampler (c : TotalThroughputSamplerConfig) : dynParams :=
  TotalThroughput (Z.quot (tot_GoalThroughputPerSec c) 1)
    (if tot_ClearFrequency c =? 0 then 30 * second else tot_ClearFrequency c)
    (if tot_MaxKeys c =? 0 then 500 else tot_MaxKeys c).
Definition createDynForWindowedThroughputSampler (c : WindowedThroughputSamplerConfig) : dynParams :=
  WindowedThroughput (f64_div (f64_of_Z (win_GoalThroughputPerSec c)) (f64_of_Z 1))
    (win_UpdateFrequency c) (win_LookbackFrequency c)
    (if win_MaxKeys c =? 0 then 500 else win_MaxKeys c).

(** ** Metric names *)

Record samplerMetricNames := mkNames {
  n_numKept : string; n_numDropped : string; n_sampleRate : string;
  n_samplerKeyCardinality : string; n_numDroppedByDropRule : string }.

Definition newSamplerMetricNames (prefix : string) : samplerMetricNames * list metric_op :=
  (mkNames (prefix +:+ "_num_kept") (prefix +:+ "_num_dropped") (prefix +:+ "_sample_rate")
     (prefix +:+ "_sampler_key_cardinality") "rulebased_num_dropped_by_drop_rule",
   [MRegister (prefix +:+ "_num_dropped") Counter; MRegister (prefix +:+ "_num_kept") Counter;
    MRegister (prefix +:+ "_sample_rate") Histogram;
    MRegister (prefix +:+ "_sampler_key_cardinality") Histogram;
    MRegister (prefix +:+ "rulebased_num_dropped_by_drop_rule") Counter]).

Definition getMetricType (name : string) : MetricType := if HasSuffix name "_count" then Counter else Gauge.

(** ** The samplers *)

Record DeterministicSampler := mkDet { det_sampleRate : Z; det_upperBound : Z; det_names : samplerMetricNames }.

Record dynsamplerMetricsRecorder := mkRecorder {
  rec_dynPrefix : string;
  rec_lastMetrics : gmap string (MetricType * Z);
  rec_names : samplerMetricNames }.

(** DynamicSampler, EMADynamicSampler, EMAThroughputSampler, WindowedThroughputSampler and
    TotalThroughputSampler: the same fields and methods. *)
Record dynSampler := mkDyn {
  d_kind : dynKind; d_key : traceKey; d_keyFields : list string; d_nonRootFields : list string;
  d_dynsampler : nat; d_recorder : dynsamplerMetricsRecorder }.

Inductive basicSampler :=
| SDeterministic (s : DeterministicSampler)
| SDyn (s : dynSampler).

(** A rule's text holds the address of its downstream sampler, so the map from the text to the
    sampler is a map from the rule's position. *)
Record RulesBasedSampler := mkRules {
  rs_Config : RulesBasedSamplerConfig;
  rs_samplers : gmap nat basicSampler;
  rs_keyFields : list string; rs_nonRootFields : list string;
  rs_names : samplerMetricNames }.

Inductive sampler :=
| Basic (s : basicSampler)
| Rules (s : RulesBasedSampler).

(** (rate, keep, reason, key) *)
Record decision := mkDecision { dc_rate : Z; dc_keep : bool; dc_reason : string; dc_key : string }.

Definition kind_name (k : dynKind) : string :=
  match k with
  | KDynamic => "dynamic"
  | KEMADynamic => "emadynamic"
  | KEMAThroughput => "emathroughput"
  | KWindowedThroughput => "windowedthroughput"
  | KTotalThroughput => "totalthroughput"
  end.

(** What [createSampler] reads of a dynamic sampler's configuration. *)
Record dynConf := mkDynConf {
  cf_kind : dynKind; cf_goal : Z; cf_FieldList : list string; cf_UseTraceLength : bool;
  cf_params : dynParams; cf_UseClusterSize : bool }.

Definition conf_Dynamic (c : DynamicSamplerConfig) : dynConf :=
  mkDynConf KDynamic (dyn_SampleRate c) (dyn_FieldList c) (dyn_UseTraceLength c) (createDynForDynamicSampler c) false.
Definition conf_EMADynamic (c : EMADynamicSamplerConfig) : dynConf :=
  mkDynConf KEMADynamic (ema_GoalSampleRate c) (ema_FieldList c) (ema_UseTraceLength c)
    (createDynForEMADynamicSampler c) false.
Definition conf_TotalThroughput (c : TotalThroughputSamplerConfig) : dynConf :=
  mkDynConf KTotalThroughput (tot_GoalThroughputPerSec c) (tot_FieldList c) (tot_UseTraceLength c)
    (createDynForTotalThroughputSampler c) (tot_UseClusterSize c).
Definition conf_EMAThroughput (c : EMAThroughputSamplerConfig) : dynConf :=
  mkDynConf KEMAThroughput (emat_GoalThroughputPerSec c) (emat_FieldList c) (emat_UseTraceLength c)
    (createDynForEMAThroughputSampler c) (emat_UseClusterSize c).
Definition conf_WindowedThroughput (c : WindowedThroughputSamplerConfig) : dynConf :=
  mkDynConf KWindowedThroughput (win_GoalThroughputPerSec c) (win_FieldList c) (win_UseTraceLength c)
    (createDynForWindowedThroughputSampler c) (win_UseClusterSize c).

(** The configuration after [newTraceKey] has sorted its field list in place. *)
Definition sorted_Dynamic (c : DynamicSamplerConfig) : DynamicSamplerConfig :=
  {| dyn_SampleRate := dyn_SampleRate c; dyn_ClearFrequency := dyn_ClearFrequency c;
     dyn_FieldList := sort_strings (dyn_FieldList c); dyn_MaxKeys := dyn_MaxKeys c;
     dyn_UseTraceLength := dyn_UseTraceLength c |}.
Definition sorted_EMADynamic (c : EMADynamicSamplerConfig) : EMADynamicSamplerConfig :=
  {| ema_GoalSampleRate := ema_GoalSampleRate c; ema_AdjustmentInterval := ema_AdjustmentInterval c;
     ema_Weight := ema_Weight c; ema_AgeOutValue := ema_AgeOutValue c; ema_BurstMultiple := ema_BurstMultiple c;
     ema_BurstDetectionDelay := ema_BurstDetectionDelay c; ema_FieldList := sort_strings (ema_FieldList c);
     ema_MaxKeys := ema_MaxKeys c; ema_UseTraceLength := ema_UseTraceLength c |}.
Definition sorted_EMAThroughput (c : EMAThroughputSamplerConfig) : EMAThroughputSamplerConfig :=
  {| emat_GoalThroughputPerSec := emat_GoalThroughputPerSec c; emat_UseClusterSize := emat_UseClusterSize c;
     emat_InitialSampleRate := emat_InitialSampleRate c; emat_AdjustmentInterval := emat_AdjustmentInterval c;
     emat_Weight := emat_Weight c; emat_AgeOutValue := emat_AgeOutValue c; emat_BurstMultiple := emat_BurstMultiple c;
     emat_BurstDetectionDelay := emat_BurstDetectionDelay c; emat_FieldList := sort_strings (emat_FieldList c);
     emat_MaxKeys := emat_MaxKeys c; emat_UseTraceLength := emat_UseTraceLength c |}.
Definition sorted_WindowedThroughput (c : WindowedThroughputSamplerConfig) : WindowedThroughputSamplerConfig :=
  {| win_UpdateFrequency := win_UpdateFrequency c; win_LookbackFrequency := win_LookbackFrequency c;
     win_GoalThroughputPerSec := win_GoalThroughputPerSec c; win_UseClusterSize := win_UseClusterSize c;
     win_FieldList := sort_strings (win_FieldList c); win_MaxKeys := win_MaxKeys c;
     win_UseTraceLength := win_UseTraceLength c |}.
Definition sorted_TotalThroughput (c : TotalThroughputSamplerConfig) : TotalThroughputSamplerConfig :=
  {| tot_GoalThroughputPerSec := tot_GoalThroughputPerSec c; tot_UseClusterSize := tot_UseClusterSize c;
     tot_ClearFrequency := tot_ClearFrequency c; tot_FieldList := sort_strings (tot_FieldList c);
     tot_MaxKeys := tot_MaxKeys c; tot_UseTraceLength := tot_UseTraceLength c |}.

(** ** The factory *)

Record SamplerFactory (D : Type) := mkFactory {
  f_peerCount : Z;
  f_heap : list (dynKind * D);
  f_sharedDynsamplers : gmap string nat;
  f_goalThroughputConfigs : gmap string Z }.
Arguments mkFactory {D}. Arguments f_peerCount {D}. Arguments f_heap {D}.
Arguments f_sharedDynsamplers {D}. Arguments f_goalThroughputConfigs {D}.

Section Factory.
Context {D : Type} `{GoDynsampler D, GoFloat, GoRegexp}.
Implicit Types (f : SamplerFactory D).
(** [s.Peers]: nil, or what GetPeers answers now. *)
Variable peers : option (res (list string)).

Definition Factory_Start f : SamplerFactory D := mkFactory 1 (f_heap f) ∅ ∅.

Definition set_goal (n : Z) (inst : dynKind * D) : dynKind * D :=
  match dyn_SetGoal inst.1 with Some set => (inst.1, set inst.2 n) | None => inst end.

Definition peer_count f : Z :=
  match peers with
  | Some (Ok l) => if (0 <? length l)%nat then Z.of_nat (length l) else f_peerCount f
  | _ => f_peerCount f
  end.

(** One entry of the map of shared instances. *)
Definition update_goal (goals : gmap string Z) (peerCount : Z) (heap : list (dynKind * D))
    (entry : string * nat) : list (dynKind * D) :=
  match goals !! entry.1 with
  | Some cfg => alter (set_goal (Z.max (Z.quot cfg peerCount) 1)) entry.2 heap
  | None => heap
  end.

Definition updatePeerCounts f : SamplerFactory D :=
  let n := peer_count f in
  mkFactory n (foldl (update_goal (f_goalThroughputConfigs f) n) (f_heap f) (map_to_list (f_sharedDynsamplers f)))
    (f_sharedDynsamplers f) (f_goalThroughputConfigs f).

(** The type assertion: AvgSampleRate is asked for as the interface every instance implements. *)
Definition assertable (want have : dynKind) : bool :=
  bool_decide (want = KDynamic) || bool_decide (want = have).

Definition getSharedDynsampler f (dynsamplerKey : string) (kind : dynKind) (params : dynParams)
    : nat * SamplerFactory D :=
  let create :=
    (length (f_heap f),
     mkFactory (f_peerCount f) (f_heap f ++ [(kind, dyn_start params)])
       (<[dynsamplerKey := length (f_heap f)]> (f_sharedDynsamplers f)) (f_goalThroughputConfigs f)) in
  match f_sharedDynsamplers f !! dynsamplerKey with
  | Some loc =>
      match f_heap f !! loc with
      | Some inst => if assertable kind inst.1 then (loc, f) else create
      | None => create
      end
  | None => create
  end.

Definition ClearDynsamplers f : SamplerFactory D := mkFactory (f_peerCount f) (f_heap f) ∅ ∅.

Definition dynsampler_key (keyPrefix : string) (c : dynConf) : string :=
  keyPrefix +:+ ":" +:+ kind_name (cf_kind c) +:+ ":" +:+ format_int (cf_goal c) +:+ ":"
    +:+ fmt_v (VList (VString <$> cf_FieldList c)).

(** ** Starting a sampler *)

Definition RegisterMetrics f (prefix : string) (loc : nat) : dynsamplerMetricsRecorder * list metric_op :=
  let dynPrefix := prefix +:+ "_" in
  let metrics := match f_heap f !! loc with Some inst => dyn_GetMetrics inst.2 dynPrefix | None => [] end in
  let '(names, ops) := newSamplerMetricNames prefix in
  (mkRecorder dynPrefix (foldl (λ m kv, <[kv.1 := (getMetricType kv.1, kv.2)]> m) ∅ metrics) names, ops).

(** [Start] of the dynamic samplers: EMADynamicSampler computes its key fields before the
    field list is sorted, the others after. *)
Definition dyn_Start f (c : dynConf) (loc : nat) : option (dynSampler * list metric_op) :=
  let '(key, sorted) := newTraceKey (cf_FieldList c) (cf_UseTraceLength c) in
  let fields := match cf_kind c with KEMADynamic => cf_FieldList c | _ => sorted end in
  match GetKeyFields fields with
  | None => None
  | Some (keyFields, nonRootFields) =>
      let '(recorder, ops) := RegisterMetrics f (kind_name (cf_kind c)) loc in
      Some (mkDyn (cf_kind c) key keyFields nonRootFields loc recorder, ops)
  end.

(** A zero sample rate divides by zero. *)
Definition det_Start (c : DeterministicSamplerConfig) : option (DeterministicSampler * list metric_op) :=
  if u32 (det_SampleRate c) =? 0 then None
  else
    let '(names, ops) := newSamplerMetricNames "deterministic" in
    Some (mkDet (det_SampleRate c) (MaxUint32 / u32 (det_SampleRate c)) names, ops).

(** The cases of [createSampler] that share a dynsampler. *)
Definition createDyn f (c : dynConf) (keyPrefix : string)
    : option (basicSampler * SamplerFactory D * list metric_op) :=
  let key := dynsampler_key keyPrefix c in
  let '(loc, f) := getSharedDynsampler f key (cf_kind c) (cf_params c) in
  let f := if cf_UseClusterSize c
           then mkFactory (f_peerCount f) (f_heap f) (f_sharedDynsamplers f)
                  (<[key := cf_goal c]> (f_goalThroughputConfigs f))
           else f in
  match dyn_Start f c loc with
  | None => None
  | Some (s, ops) => Some (SDyn s, updatePeerCounts f, ops)
  end.

Definition createDet f (c : DeterministicSamplerConfig)
    : option (basicSampler * SamplerFactory D * list metric_op) :=
  match det_Start c with
  | None => None
  | Some (s, ops) => Some (SDeterministic s, updatePeerCounts f, ops)
  end.

(** The wrapper's configuration in the order of the switch, and the wrapper with its field
    list sorted; os.Exit where no sampler is set. *)
Definition GetDownstreamSampler f (parentSamplerKey : string) (ds : RulesBasedDownstreamSampler)
    : option (basicSampler * RulesBasedDownstreamSampler * SamplerFactory D * list metric_op) :=
  let keyPrefix := "rules:" +:+ parentSamplerKey +:+ ":" in
  let wrap r (ds' : RulesBasedDownstreamSampler) :=
    match r with None => None | Some (s, f, ops) => Some (s, ds', f, ops) end in
  match ds_DynamicSampler ds, ds_EMADynamicSampler ds, ds_TotalThroughputSampler ds,
        ds_EMAThroughputSampler ds, ds_WindowedThroughputSampler ds, ds_DeterministicSampler ds with
  | Some c, _, _, _, _, _ => wrap (createDyn f (conf_Dynamic c) keyPrefix)
      {| ds_DynamicSampler := Some (sorted_Dynamic c); ds_EMADynamicSampler := ds_EMADynamicSampler ds;
         ds_EMAThroughputSampler := ds_EMAThroughputSampler ds;
         ds_WindowedThroughputSampler := ds_WindowedThroughputSampler ds;
         ds_TotalThroughputSampler := ds_TotalThroughputSampler ds;
         ds_DeterministicSampler := ds_DeterministicSampler ds |}
  | None, Some c, _, _, _, _ => wrap (createDyn f (conf_EMADynamic c) keyPrefix)
      {| ds_DynamicSampler := None; ds_EMADynamicSampler := Some (sorted_EMADynamic c);
         ds_EMAThroughputSampler := ds_EMAThroughputSampler ds;
         ds_WindowedThroughputSampler := ds_WindowedThroughputSampler ds;
         ds_TotalThroughputSampler := ds_TotalThroughputSampler ds;
         ds_DeterministicSampler := ds_DeterministicSampler ds |}
  | None, None, Some c, _, _, _ => wrap (createDyn f (conf_TotalThroughput c) keyPrefix)
      {| ds_DynamicSampler := None; ds_EMADynamicSampler := None;
         ds_EMAThroughputSampler := ds_EMAThroughputSampler ds;
         ds_WindowedThroughputSampler := ds_WindowedThroughputSampler ds;
         ds_TotalThroughputSampler := Some (sorted_TotalThroughput c);
         ds_DeterministicSampler := ds_DeterministicSampler ds |}
  | None, None, None, Some c, _, _ => wrap (createDyn f (conf_EMAThroughput c) keyPrefix)
      {| ds_DynamicSampler := None; ds_EMADynamicSampler := None;
         ds_EMAThroughputSampler := Some (sorted_EMAThroughput c);
         ds_WindowedThroughputSampler := ds_WindowedThroughputSampler ds;
         ds_TotalThroughputSampler := None; ds_DeterministicSampler := ds_DeterministicSampler ds |}
  | None, None, None, None, Some c, _ => wrap (createDyn f (conf_WindowedThroughput c) keyPrefix)
      {| ds_DynamicSampler := None; ds_EMADynamicSampler := None; ds_EMAThroughputSampler := None;
         ds_WindowedThroughputSampler := Some (sorted_WindowedThroughput c);
         ds_TotalThroughputSampler := None; ds_DeterministicSampler := ds_DeterministicSampler ds |}
  | None, None, None, None, None, Some c => wrap (createDet f c) ds
  | None, None, None, None, None, None => None
  end.

(** The loop of RulesBasedSampler.Start from rule number [i] on. *)
Fixpoint start_rules f (samplerPrefix : string) (i : nat) (rules : list RulesBasedSamplerRule)
    : option (list RulesBasedSamplerRule * gmap nat basicSampler * SamplerFactory D * list metric_op) :=
  match rules with
  | [] => Some ([], ∅, f, [])
  | rule :: rules =>
      let conds : option (list RulesBasedSamplerCondition) :=
        (λ l : list RulesBasedSamplerCondition, (λ c, (Init c).1) <$> l) <$> r_Conditions rule in
      let next f ds :=
        match start_rules f samplerPrefix (S i) rules with
        | None => None
        | Some (rules, samplers, f, ops) =>
            Some (mkRule (r_Name rule) (r_SampleRate rule) (r_Drop rule) (r_Scope rule) conds ds :: rules,
                  samplers, f, ops)
        end in
      match r_Sampler rule with
      | None => next f None
      | Some ds =>
          match GetDownstreamSampler f samplerPrefix ds with
          | None => None
          | Some (s, ds, f, ops) =>
              match next f (Some ds) with
              | None => None
              | Some (rules, samplers, f, ops') => Some (rules, <[i := s]> samplers, f, (ops ++ ops')%list)
              end
          end
      end
  end.

Definition rules_Start f (c : RulesBasedSamplerConfig) (samplerPrefix : string)
    : option (RulesBasedSampler * SamplerFactory D * list metric_op) :=
  let '(names, ops) := newSamplerMetricNames "rulesbased" in
  let '(c, fields) := RulesBased_GetSamplingFields c in
  match GetKeyFields fields with
  | None => None
  | Some (keyFields, nonRootFields) =>
      match start_rules f samplerPrefix 0 (rb_Rules c) with
      | None => None
      | Some (rules, samplers, f, ops') =>
          Some (mkRules (mkRulesConfig rules (rb_CheckNestedFields c)) samplers keyFields nonRootFields names,
                f, (ops ++ ops')%list)
      end
  end.

(** The sampler, the configuration as it is left, the factory and the registrations;
    os.Exit on a configuration of no known type. *)
Definition createSampler f (c : option SamplerConfig) (keyPrefix : string)
    : option (sampler * SamplerConfig * SamplerFactory D * list metric_op) :=
  let wrap r c' := match r with None => None | Some (s, f, ops) => Some (Basic s, c', f, ops) end in
  match c with
  | None => None
  | Some (CfgDeterministic c) => wrap (createDet f c) (CfgDeterministic c)
  | Some (CfgDynamic c) => wrap (createDyn f (conf_Dynamic c) keyPrefix) (CfgDynamic (sorted_Dynamic c))
  | Some (CfgEMADynamic c) => wrap (createDyn f (conf_EMADynamic c) keyPrefix) (CfgEMADynamic (sorted_EMADynamic c))
  | Some (CfgTotalThroughput c) =>
      wrap (createDyn f (conf_TotalThroughput c) keyPrefix) (CfgTotalThroughput (sorted_TotalThroughput c))
  | Some (CfgEMAThroughput c) =>
      wrap (createDyn f (conf_EMAThroughput c) keyPrefix) (CfgEMAThroughput (sorted_EMAThroughput c))
  | Some (CfgWindowedThroughput c) =>
      wrap (createDyn f (conf_WindowedThroughput c) keyPrefix) (CfgWindowedThroughput (sorted_WindowedThroughput c))
  | Some (CfgRulesBased c) =>
      match rules_Start f c keyPrefix with
      | None => None
      | Some (s, f, ops) => Some (Rules s, CfgRulesBased (rs_Config s), updatePeerCounts f, ops)
      end
  end.

Definition GetSamplerImplementationForKey f (cfg : fileConfig) (samplerKey : string) :=
  createSampler f (GetSamplerConfigForDestName cfg samplerKey).1 samplerKey.
End Factory.

(** ** Sampling a trace *)

Section Sample.
Context {D : Type} `{GoDynsampler D, GoFloat, GoWyhash, GoGjson, GoSha1}.
Context {P : Type} `{!PayloadOps P}.
Implicit Types (f : SamplerFactory D) (t : Trace P) (intn : Z → Z).

Definition shardingSalt : string := "5VQ8l2jE5aJLPVqk".

Definition det_GetSampleRate (s : DeterministicSampler) t : decision * list metric_op :=
  if det_sampleRate s <=? 1 then (mkDecision 1 true "deterministic/always" "", [])
  else
    let v := be_uint32 (sha1_Sum (tr_TraceID t +:+ shardingSalt)) in
    let shouldKeep := v <=? det_upperBound s in
    (mkDecision (u64 (det_sampleRate s)) shouldKeep "deterministic/chance" "",
     [MIncrement (if shouldKeep then n_numKept (det_names s) else n_numDropped (det_names s))]).

(** One reading of the dynsampler's own metrics; a metric unknown at registration has the
    zero entry, a counter from 0. *)
Fixpoint record_internal (last : gmap string (MetricType * Z)) (metrics : list (string * Z))
    : gmap string (MetricType * Z) * list metric_op :=
  match metrics with
  | [] => (last, [])
  | (name, val) :: metrics =>
      let '(ty, v) := default (Counter, 0) (last !! name) in
      match ty with
      | Counter =>
          let '(last, ops) := record_internal (<[name := (ty, val)]> last) metrics in
          (last, MCount name (s64 (val - v)) :: ops)
      | Gauge =>
          let '(last, ops) := record_internal last metrics in (last, MGauge name (f64_of_Z val) :: ops)
      | _ => record_internal last metrics
      end
  end.

Definition RecordMetrics (r : dynsamplerMetricsRecorder) (metrics : list (string * Z))
    (kept : bool) (rate numTraceKey : Z) : dynsamplerMetricsRecorder * list metric_op :=
  let '(last, ops) := record_internal (rec_lastMetrics r) metrics in
  (mkRecorder (rec_dynPrefix r) last (rec_names r),
   (ops ++ [MIncrement (if kept then n_numKept (rec_names r) else n_numDropped (rec_names r));
            MHistogram (n_samplerKeyCardinality (rec_names r)) (f64_of_Z numTraceKey);
            MHistogram (n_sampleRate (rec_names r)) (f64_of_Z rate)])%list).

(** rand.Intn panics unless its argument is positive. *)
Definition dyn_GetSampleRate f (s : dynSampler) t intn
    : option (decision * dynSampler * SamplerFactory D * list metric_op) :=
  let '(key, n) := build (d_key s) t in
  match f_heap f !! d_dynsampler s with
  | None => None
  | Some (kind, inst) =>
      let count := DescendantCount t in
      let '(r, inst) := dyn_GetSampleRateMulti inst key count in
      let rate := u64 r in
      let rate := if rate <? 1 then 1 else rate in
      if s64 rate <=? 0 then None
      else
        let shouldKeep := intn (s64 rate) =? 0 in
        let '(recorder, ops) := RecordMetrics (d_recorder s) (dyn_GetMetrics inst (rec_dynPrefix (d_recorder s)))
                                  shouldKeep rate n in
        Some (mkDecision rate shouldKeep (kind_name (d_kind s)) key,
              mkDyn (d_kind s) (d_key s) (d_keyFields s) (d_nonRootFields s) (d_dynsampler s) recorder,
              mkFactory (f_peerCount f) (<[d_dynsampler s := (kind, inst)]> (f_heap f))
                (f_sharedDynsamplers f) (f_goalThroughputConfigs f), ops)
  end.

Definition basic_GetSampleRate f (s : basicSampler) t intn
    : option (decision * basicSampler * SamplerFactory D * list metric_op) :=
  match s with
  | SDeterministic d => let '(r, ops) := det_GetSampleRate d t in Some (r, s, f, ops)
  | SDyn d =>
      match dyn_GetSampleRate f d t intn with
      | None => None
      | Some (r, d, f, ops) => Some (r, SDyn d, f, ops)
      end
  end.

(** The scope's match and its reason. *)
Definition rule_matches t (rule : RulesBasedSamplerRule) (nested : bool) : option (bool * string) :=
  if String.eqb (r_Scope rule) "span" then
    (λ m, (m, "rules/span/")) <$> ruleMatchesSpanInTrace t rule nested
  else if String.eqb (r_Scope rule) "trace" || String.eqb (r_Scope rule) "" then
    (λ m, (m, "rules/trace/")) <$> ruleMatchesTrace t rule nested
  else Some (true, "rules/invalid scope/").

(** The outcome of rule number [i], which matched. *)
Definition apply_rule f (s : RulesBasedSampler) (i : nat) (rule : RulesBasedSamplerRule) (reason : string) t intn
    : option (decision * RulesBasedSampler * SamplerFactory D * list metric_op) :=
  let count (keep : bool) :=
    if keep then [MIncrement (n_numKept (rs_names s))]
    else (MIncrement (n_numDropped (rs_names s)) ::
          if r_Drop rule then [MIncrement (n_numDroppedByDropRule (rs_names s))] else []) in
  match r_Sampler rule with
  | Some _ =>
      match rs_samplers s !! i with
      | None => Some (mkDecision 1 true (reason +:+ "bad_rule:" +:+ r_Name rule) "", s, f, [])
      | Some b =>
          match basic_GetSampleRate f b t intn with
          | None => None
          | Some (d, b, f, ops) =>
              Some (mkDecision (dc_rate d) (dc_keep d) (reason +:+ r_Name rule +:+ ":" +:+ dc_reason d) (dc_key d),
                    mkRules (rs_Config s) (<[i := b]> (rs_samplers s)) (rs_keyFields s) (rs_nonRootFields s) (rs_names s),
                    f, (ops ++ count (dc_keep d))%list)
          end
      end
  | None =>
      let rate := u64 (r_SampleRate rule) in
      let keep := negb (r_Drop rule) && (0 <? r_SampleRate rule) && (intn (r_SampleRate rule) =? 0) in
      Some (mkDecision rate keep (reason +:+ r_Name rule) "", s, f,
            MHistogram (n_sampleRate (rs_names s)) (f64_of_Z rate) :: count keep)
  end.

Fixpoint first_rule f (s : RulesBasedSampler) (i : nat) (rules : list RulesBasedSamplerRule) t intn
    : option (decision * RulesBasedSampler * SamplerFactory D * list metric_op) :=
  match rules with
  | [] => Some (mkDecision 1 true "no rule matched" "", s, f, [])
  | rule :: rules =>
      match rule_matches t rule (rb_CheckNestedFields (rs_Config s)) with
      | None => None
      | Some (true, reason) => apply_rule f s i rule reason t intn
      | Some (false, _) => first_rule f s (S i) rules t intn
      end
  end.

Definition rules_GetSampleRate f (s : RulesBasedSampler) t intn :=
  first_rule f s 0 (rb_Rules (rs_Config s)) t intn.

Definition GetSampleRate f (s : sampler) t intn
    : option (decision * sampler * SamplerFactory D * list metric_op) :=
  match s with
  | Basic b =>
      match basic_GetSampleRate f b t intn with
      | None => None
      | Some (d, b, f, ops) => Some (d, Basic b, f, ops)
      end
  | Rules r =>
      match rules_GetSampleRate f r t intn with
      | None => None
      | Some (d, r, f, ops) => Some (d, Rules r, f, ops)
      end
  end.

Definition Sampler_GetKeyFields (s : sampler) : list string * list string :=
  match s with
  | Basic (SDeterministic _) => ([], [])
  | Basic (SDyn d) => (d_keyFields d, d_nonRootFields d)
  | Rules r => (rs_keyFields r, rs_nonRootFields r)
  end.
End Sample.

(** ** Deterministic sampling *)

Section Deterministic.
Context `{GoSha1} {P : Type}.
Implicit Types (t : Trace P).

Definition trace_hash t : Z := be_uint32 (sha1_Sum (tr_TraceID t +:+ shardingSalt)).

Lemma det_keep c s ops t :
  2 ≤ det_SampleRate c < 2 ^ 32 → det_Start c = Some (s, ops) →
  (dc_rate (det_GetSampleRate s t).1 = det_SampleRate c) ∧
  (dc_keep (det_GetSampleRate s t).1 = true ↔ trace_hash t < hashes_kept MaxUint32 (det_SampleRate c)).
Proof.
  intros Hr Hs. unfold det_Start in Hs. rewrite u32_id in Hs by (unfold in_u32; lia).
  rewrite (proj2 (Z.eqb_neq _ _)) in Hs by lia.
  destruct (newSamplerMetricNames _) as [names l]. simplify_eq.
  unfold det_GetSampleRate. simpl. rewrite (proj2 (Z.leb_gt _ _)) by lia. simpl.
  rewrite u64_id by (unfold in_u64; lia). split; [done|].
  fold (trace_hash t). rewrite Z.leb_le. unfold hashes_kept. lia.
Qed.

(** Deterministic sampling is a property of the trace ID and the rate alone: with rate [r] a
    trace is kept exactly when its 32-bit hash is below [K], with [2^32 <= r * K < 2^32 + r], so
    one hash in [r] is kept; every instance agrees, and what a higher rate keeps a lower rate
    keeps as well.  A rate of at most 1 keeps everything. *)
Theorem deterministic_sampling (c : DeterministicSamplerConfig) :
  2 ≤ det_SampleRate c < 2 ^ 32 →
  ∃ s ops K, det_Start c = Some (s, ops) ∧
    2 ^ 32 ≤ det_SampleRate c * K < 2 ^ 32 + det_SampleRate c ∧
    (∀ t, dc_rate (det_GetSampleRate s t).1 = det_SampleRate c ∧
          (dc_keep (det_GetSampleRate s t).1 = true ↔ trace_hash t < K)) ∧
    (∀ c' s' ops' t, 2 ≤ det_SampleRate c' ≤ det_SampleRate c → det_Start c' = Some (s', ops') →
       dc_keep (det_GetSampleRate s t).1 = true → dc_keep (det_GetSampleRate s' t).1 = true).
Proof.
  intros Hr. destruct (det_Start c) as [[s ops]|] eqn:E.
  - exists s, ops, (hashes_kept MaxUint32 (det_SampleRate c)). split_and!; [done| | | |].
    + apply (hashes_kept_bounds MaxUint32); unfold MaxUint32; lia.
    + apply (hashes_kept_bounds MaxUint32); unfold MaxUint32; lia.
    + intros t. by apply (det_keep c s ops t).
    + intros c' s' ops' t Hr' E' Hk.
      apply (det_keep c' s' ops' t); [lia|done|].
      apply (det_keep c s ops t) in Hk; [|done|done].
      pose proof (hashes_kept_mono MaxUint32 (det_SampleRate c') (det_SampleRate c) ltac:(unfold MaxUint32; lia)). lia.
  - exfalso. unfold det_Start in E. rewrite u32_id in E by (unfold in_u32; lia).
    rewrite (proj2 (Z.eqb_neq _ _)) in E by lia. by destruct (newSamplerMetricNames _).
Qed.
End Deterministic.

(** ** Rules in order *)

Section RulesOrder.
Context {D : Type} `{GoDynsampler D, GoFloat, GoWyhash, GoGjson, GoSha1}.
Context {P : Type} `{!PayloadOps P}.
Implicit Types (f : SamplerFactory D) (t : Trace P) (intn : Z → Z).

(** The rule is evaluated and does not match. *)
Definition skipped t (nested : bool) (rule : RulesBasedSamplerRule) : Prop :=
  ∃ why, rule_matches t rule nested = Some (false, why).

Lemma first_rule_skip f s i pre rules t intn :
  Forall (skipped t (rb_CheckNestedFields (rs_Config s))) pre →
  first_rule f s i (pre ++ rules) t intn = first_rule f s (i + length pre) rules t intn.
Proof.
  intros Hp. revert i. induction Hp as [|r pre [why E] _ IH]; intros i; simpl.
  - by rewrite Nat.add_0_r.
  - rewrite E, IH. f_equal. lia.
Qed.

(** C15: the first rule that matches decides: with no match every trace is kept at rate 1; otherwise
    the rules after the first match are not looked at, a plain rule keeps one draw in
    [SampleRate] (never when it is a drop rule or its rate is not positive, always when its rate
    is 1), and a rule with a downstream sampler takes that sampler's rate, decision and key. *)
Theorem rules_first_match f (s : RulesBasedSampler) t intn :
  (∀ n, 0 < n → 0 ≤ intn n < n) →
  let nested := rb_CheckNestedFields (rs_Config s) in
  (Forall (skipped t nested) (rb_Rules (rs_Config s)) →
     rules_GetSampleRate f s t intn = Some (mkDecision 1 true "no rule matched" "", s, f, [])) ∧
  (∀ pre rule post why, rb_Rules (rs_Config s) = pre ++ rule :: post →
     Forall (skipped t nested) pre → rule_matches t rule nested = Some (true, why) →
     (r_Sampler rule = None → ∃ keep ops,
        rules_GetSampleRate f s t intn =
          Some (mkDecision (u64 (r_SampleRate rule)) keep (why +:+ r_Name rule) "", s, f, ops) ∧
        (keep = true ↔ r_Drop rule = false ∧ 0 < r_SampleRate rule ∧ intn (r_SampleRate rule) = 0) ∧
        (r_Drop rule = false → r_SampleRate rule = 1 → keep = true)) ∧
     (∀ ds b d b' f' ops, r_Sampler rule = Some ds → rs_samplers s !! length pre = Some b →
        basic_GetSampleRate f b t intn = Some (d, b', f', ops) → ∃ s' ops',
        rules_GetSampleRate f s t intn =
          Some (mkDecision (dc_rate d) (dc_keep d) (why +:+ r_Name rule +:+ ":" +:+ dc_reason d) (dc_key d),
                s', f', ops') ∧
        rs_Config s' = rs_Config s ∧ rs_samplers s' !! length pre = Some b')).
Proof.
  intros Hi. cbv zeta. unfold rules_GetSampleRate. split.
  - intros Hs. pose proof (first_rule_skip f s 0 (rb_Rules (rs_Config s)) [] t intn Hs) as E.
    by rewrite app_nil_r in E.
  - intros pre rule post why E Hpre Hm. rewrite E, first_rule_skip by done.
    cbn [first_rule Nat.add]. rewrite Hm. unfold apply_rule. split.
    + intros ->. eexists _, _. split; [reflexivity|].
      rewrite !andb_true_iff, negb_true_iff, Z.ltb_lt, Z.eqb_eq.
      split; [tauto|]. intros -> ->. split_and!; [done|lia|]. specialize (Hi 1). lia.
    + intros ds b d b' f' ops -> -> ->. eexists _, _. split; [reflexivity|].
      simpl. by rewrite lookup_insert_eq.
Qed.
End RulesOrder.

(** ** Dynamic samplers *)

Section Dynamic.
Context {D : Type} `{GoDynsampler D, GoFloat, GoWyhash, GoGjson, GoSha1}.
Context {P : Type} `{!PayloadOps P}.
Implicit Types (f : SamplerFactory D) (t : Trace P) (intn : Z → Z).

(** A dynamic sampler samples one trace in the rate its dynsampler gives for the trace's key
    and number of descendants (at least 1, whatever the dynsampler answers from 0 up), and reports
    that rate, its own name and the key; only its instance in the shared heap advances. *)
Theorem dynamic_sampling f (s : dynSampler) t intn kind inst r inst' :
  f_heap f !! d_dynsampler s = Some (kind, inst) →
  dyn_GetSampleRateMulti inst (build (d_key s) t).1 (DescendantCount t) = (r, inst') →
  0 ≤ r < 2 ^ 63 →
  ∃ s' f' ops, dyn_GetSampleRate f s t intn =
      Some (mkDecision (Z.max r 1) (intn (Z.max r 1) =? 0) (kind_name (d_kind s)) (build (d_key s) t).1,
            s', f', ops) ∧
    d_dynsampler s' = d_dynsampler s ∧ d_key s' = d_key s ∧
    f_heap f' !! d_dynsampler s = Some (kind, inst') ∧
    (∀ l, l ≠ d_dynsampler s → f_heap f' !! l = f_heap f !! l) ∧
    f_sharedDynsamplers f' = f_sharedDynsamplers f.
Proof.
  intros Hh Hr Hb. unfold dyn_GetSampleRate. destruct (build (d_key s) t) as [key n]. simpl in Hr.
  rewrite Hh, Hr, (u64_id r) by (unfold in_u64; lia).
  assert (E : (if r <? 1 then 1 else r) = Z.max r 1) by (destruct (Z.ltb_spec r 1); lia).
  rewrite E, s64_id by (unfold in_s64; lia). rewrite (proj2 (Z.leb_gt _ _)) by lia.
  destruct (RecordMetrics _ _ _ _ _) as [rec ops].
  eexists _, _, _. split; [reflexivity|]. simpl. split_and!; [done|done| | |done].
  - apply list_lookup_insert_eq. by eapply lookup_lt_Some.
  - intros l Hl. by apply list_lookup_insert_ne.
Qed.
End Dynamic.

(** ** The shared instances *)

Section Shared.
Context {D : Type} `{GoDynsampler D, GoFloat, GoRegexp}.
Implicit Types (f : SamplerFactory D) (peers : option (res (list string))).

(** Every key has its own instance. *)
Definition factory_wf f : Prop :=
  1 ≤ f_peerCount f ∧
  (∀ k l, f_sharedDynsamplers f !! k = Some l → (l < length (f_heap f))%nat) ∧
  (∀ k1 k2 l, f_sharedDynsamplers f !! k1 = Some l → f_sharedDynsamplers f !! k2 = Some l → k1 = k2).

Lemma factory_wf_start f : factory_wf (Factory_Start f).
Proof. split_and!; simpl; [lia|by intros ??|by intros ???]. Qed.

Lemma factory_wf_clear f : factory_wf f → factory_wf (ClearDynsamplers f).
Proof. intros (Hn & _ & _). split_and!; simpl; [done|by intros ??|by intros ???]. Qed.

Lemma factory_wf_shared f key kind params :
  factory_wf f → factory_wf (getSharedDynsampler f key kind params).2.
Proof.
  intros (Hn & Hl & Hinj).
  assert (Hcreate : factory_wf (mkFactory (f_peerCount f) (f_heap f ++ [(kind, dyn_start params)])
    (<[key := length (f_heap f)]> (f_sharedDynsamplers f)) (f_goalThroughputConfigs f))).
  { split_and!; simpl; [done| |].
    - intros k l. rewrite length_app. simpl. destruct (decide (k = key)) as [->|].
      + rewrite lookup_insert_eq. intros [= <-]. lia.
      + rewrite lookup_insert_ne by done. intros E%Hl. lia.
    - intros k1 k2 l. destruct (decide (k1 = key)) as [->|], (decide (k2 = key)) as [->|];
        rewrite ?lookup_insert_eq, ?lookup_insert_ne by done; [done| | |apply Hinj].
      + intros [= <-] E%Hl. lia.
      + intros E%Hl [= <-]. lia. }
  unfold getSharedDynsampler. destruct (_ !! key) as [l|]; [|done].
  destruct (_ !! l) as [inst|]; [|done]. by destruct (assertable _ _).
Qed.

Lemma update_goals_length goals n l heap :
  length (foldl (update_goal goals n) heap l) = length heap.
Proof.
  revert heap. induction l as [|e l IH]; intros heap; simpl; [done|].
  rewrite IH. unfold update_goal. destruct (_ !! _); [apply length_alter|done].
Qed.

Lemma factory_wf_update peers f : factory_wf f → factory_wf (updatePeerCounts peers f).
Proof.
  intros (Hn & Hl & Hinj). split_and!; simpl; [|by rewrite update_goals_length|done].
  unfold peer_count. destruct peers as [[l|e]|]; try done.
  destruct (Nat.ltb_spec 0 (length l)); [lia|done].
Qed.

(** The loop changes a location through its own key only. *)
Lemma update_goals_lookup goals n (l : list (string * nat)) heap loc :
  NoDup l.*2 →
  foldl (update_goal goals n) heap l !! loc =
    match list_find (λ e, e.2 = loc) l with
    | Some (_, e) =>
        match goals !! e.1 with
        | Some cfg => set_goal (Z.max (Z.quot cfg n) 1) <$> heap !! loc
        | None => heap !! loc
        end
    | None => heap !! loc
    end.
Proof.
  revert heap. induction l as [|e l IH]; intros heap Hnd; [done|].
  apply NoDup_cons in Hnd as [He Hnd]. cbn [foldl]. rewrite IH by done. cbn [list_find].
  unfold update_goal at 1 2 3. destruct (decide (e.2 = loc)) as [<-|Hne].
  - destruct (list_find (λ e0, e0.2 = e.2) l) as [[i e']|] eqn:F.
    + exfalso. apply list_find_Some in F as (Hi & E & _). apply He. rewrite <-E.
      apply list_elem_of_fmap. exists e'. split; [done|]. by eapply list_elem_of_lookup_2.
    + destruct (goals !! e.1); [|done]. apply list_lookup_alter_eq.
  - assert (E : ∀ g : (dynKind * D) → _, alter g e.2 heap !! loc = heap !! loc)
      by (intros g; by apply list_lookup_alter_ne).
    destruct (list_find (λ e0, e0.2 = loc) l) as [[i e']|]; simpl;
      destruct (goals !! e.1); rewrite ?E; done.
Qed.

Lemma shared_locs_nodup f : factory_wf f → NoDup (map_to_list (f_sharedDynsamplers f)).*2.
Proof.
  intros (_ & _ & Hinj). apply NoDup_fmap_2_strong; [|apply NoDup_map_to_list].
  intros [k1 l1] [k2 l2] E1%elem_of_map_to_list E2%elem_of_map_to_list E. simpl in E. subst.
  by rewrite (Hinj k1 k2 l2 E1 E2).
Qed.

(** The goal throughput follows the cluster: when the number of peers is known to be [n] (a
    failed or empty answer keeps the last known one, at least 1), every shared instance whose
    sampler uses the cluster size gets the goal [max (configured / n) 1] and no other changes; and
    starting, sharing, updating and clearing keep one instance per key. *)
Theorem goal_throughput_per_peer peers f key loc inst :
  factory_wf f → f_sharedDynsamplers f !! key = Some loc → f_heap f !! loc = Some inst →
  let f' := updatePeerCounts peers f in
  factory_wf f' ∧ factory_wf (ClearDynsamplers f') ∧
  (∀ k kind params, factory_wf (getSharedDynsampler f' k kind params).2) ∧
  f_heap f' !! loc =
    Some (match f_goalThroughputConfigs f !! key with
          | Some cfg => set_goal (Z.max (cfg ÷ f_peerCount f') 1) inst
          | None => inst
          end) ∧
  (∀ l, (∀ k, f_sharedDynsamplers f !! k ≠ Some l) → f_heap f' !! l = f_heap f !! l).
Proof.
  intros Hwf Hk Hi. cbv zeta. assert (Hwf' := factory_wf_update peers f Hwf).
  split_and!; [done|by apply factory_wf_clear|intros; by apply factory_wf_shared| |];
    unfold updatePeerCounts; simpl.
  - pose proof Hwf as (_ & _ & Hinj). rewrite update_goals_lookup.
    + destruct (list_find _ _) as [[i e]|] eqn:F.
      * apply list_find_Some in F as (He & El & _). destruct e as [k l]. simpl in *. subst l.
        apply list_elem_of_lookup_2, elem_of_map_to_list in He.
        rewrite (Hinj k key loc He Hk). destruct (f_goalThroughputConfigs f !! key); by rewrite Hi.
      * exfalso. apply list_find_None in F. rewrite Forall_forall in F.
        refine (F (key, loc) _ eq_refl). by apply elem_of_map_to_list.
    + by apply shared_locs_nodup.
  - intros l Hl. rewrite update_goals_lookup.
    + destruct (list_find _ _) as [[i e]|] eqn:F; [|done].
      apply list_find_Some in F as (He & El & _). destruct e as [k l']. simpl in *. subst.
      apply list_elem_of_lookup_2, elem_of_map_to_list in He. by apply Hl in He.
    + by apply shared_locs_nodup.
Qed.

Lemma assertable_refl k : assertable k k = true.
Proof. unfold assertable. by rewrite (bool_decide_true (k = k)), orb_true_r. Qed.

Lemma createDyn_loc peers f c p s f' ops :
  createDyn peers f c p = Some (s, f', ops) →
  ∃ d, s = SDyn d ∧ d_kind d = cf_kind c ∧
    d_dynsampler d = (getSharedDynsampler f (dynsampler_key p c) (cf_kind c) (cf_params c)).1 ∧
    f_sharedDynsamplers f' =
      f_sharedDynsamplers (getSharedDynsampler f (dynsampler_key p c) (cf_kind c) (cf_params c)).2 ∧
    (∀ l, (∃ inst, f_heap f' !! l = Some inst ∧ inst.1 = cf_kind c) ↔
          (∃ inst, f_heap (getSharedDynsampler f (dynsampler_key p c) (cf_kind c) (cf_params c)).2 !! l
             = Some inst ∧ inst.1 = cf_kind c)).
Proof.
  unfold createDyn. destruct (getSharedDynsampler _ _ _ _) as [loc f1] eqn:E. simpl.
  set (f2 := if cf_UseClusterSize c then _ else f1).
  unfold dyn_Start. destruct (newTraceKey _ _) as [key sorted].
  destruct (GetKeyFields _) as [[kf nf]|]; [|done].
  destruct (RegisterMetrics _ _ _) as [rec ops']. intros [= <- <- <-].
  eexists. split; [done|]. simpl.
  assert (Es : f_sharedDynsamplers f2 = f_sharedDynsamplers f1) by (unfold f2; by destruct (cf_UseClusterSize c)).
  assert (Eh : f_heap f2 = f_heap f1) by (unfold f2; by destruct (cf_UseClusterSize c)).
  rewrite Es, Eh. split_and!; [done..|]. intros l.
  generalize (map_to_list (f_sharedDynsamplers f1)) as es.
  generalize (f_heap f1) as heap. intros heap es. revert heap.
  induction es as [|e es IH]; intros heap; [done|]. simpl. rewrite IH. clear IH.
  unfold update_goal. destruct (_ !! e.1) as [g|]; [|done].
  destruct (decide (l = e.2)) as [->|]; [|by rewrite list_lookup_alter_ne].
  rewrite list_lookup_alter_eq. unfold set_goal. destruct (heap !! e.2) as [[k d]|]; simpl; [|naive_solver].
  destruct (dyn_SetGoal k); naive_solver.
Qed.

Lemma factory_wf_createDyn peers f c p s f' ops :
  factory_wf f → createDyn peers f c p = Some (s, f', ops) → factory_wf f'.
Proof.
  intros Hwf. unfold createDyn.
  pose proof (factory_wf_shared f (dynsampler_key p c) (cf_kind c) (cf_params c) Hwf) as Hs.
  destruct (getSharedDynsampler _ _ _ _) as [loc f1]. destruct (dyn_Start _ _ _) as [[d o]|]; [|done].
  intros [= _ <- _]. apply factory_wf_update. by destruct (cf_UseClusterSize c).
Qed.

(** The configuration a first creation leaves for the next worker. *)
Definition sorted_conf (c : dynConf) : dynConf :=
  mkDynConf (cf_kind c) (cf_goal c) (sort_strings (cf_FieldList c)) (cf_UseTraceLength c)
    (cf_params c) (cf_UseClusterSize c).

(** Two workers building the sampler of one destination from a clean factory share its
    dynsampler exactly when the field list renders the same before and after sorting, in
    particular when it is written in sorted order: the key is taken from the list before the
    first worker's sampler sorts it in place, so an unsorted list gives the second worker an
    instance of its own. *)
Theorem workers_share_dynsampler peers f (c : dynConf) p s1 f1 ops1 s2 f2 ops2 :
  f_sharedDynsamplers f = ∅ →
  createDyn peers f c p = Some (SDyn s1, f1, ops1) →
  createDyn peers f1 (sorted_conf c) p = Some (SDyn s2, f2, ops2) →
  (d_dynsampler s1 = d_dynsampler s2 ↔ dynsampler_key p c = dynsampler_key p (sorted_conf c)) ∧
  (StronglySorted str_le (cf_FieldList c) → d_dynsampler s1 = d_dynsampler s2).
Proof.
  intros He E1 E2.
  destruct (createDyn_loc _ _ _ _ _ _ _ E1) as (d1 & [= <-] & _ & L1 & S1 & Hp1).
  destruct (createDyn_loc _ _ _ _ _ _ _ E2) as (d2 & [= <-] & _ & L2 & S2 & _).
  unfold getSharedDynsampler in L1, S1, Hp1. rewrite He, lookup_empty in L1, S1, Hp1. simpl in L1, S1, Hp1.
  assert (Hh : ∃ inst, f_heap f1 !! length (f_heap f) = Some inst ∧ inst.1 = cf_kind c).
  { apply Hp1. rewrite lookup_app_r, Nat.sub_diag by done. simpl. eauto. }
  destruct Hh as (inst & Hinst & Hk).
  assert (Hiff : d_dynsampler s1 = d_dynsampler s2 ↔ dynsampler_key p c = dynsampler_key p (sorted_conf c)).
  { rewrite L1, L2. unfold getSharedDynsampler. rewrite S1. split; intros E.
    - destruct (decide (dynsampler_key p c = dynsampler_key p (sorted_conf c))) as [|Hne]; [done|].
      rewrite lookup_insert_ne, lookup_empty in E by done. simpl in E.
      apply lookup_lt_Some in Hinst. lia.
    - rewrite <-E, lookup_insert_eq, Hinst. simpl. rewrite Hk. by rewrite assertable_refl. }
  split; [done|]. intros Hs. apply Hiff. unfold dynsampler_key, sorted_conf. simpl.
  assert (cf_FieldList c = sort_strings (cf_FieldList c)) as <-; [|done].
  apply (StronglySorted_unique str_le); [done|apply sort_strings_sorted|by rewrite sort_strings_perm].
Qed.
End Shared.

(** ** Internal metrics of a shared instance *)

Section Recording.
(** What a recorder adds to the counter [name] in a list of calls. *)
Definition counted (name : string) (ops : list metric_op) : Z :=
  MultiMetrics.total (MultiMetrics.count_of name) ops.

(** One recorder reading the counter [name] at the successive values [vals]. *)
Fixpoint read_all (name : string) (last : gmap string (MetricType * Z)) (vals : list Z) : Z :=
  match vals with
  | [] => 0
  | v :: vals =>
      let '(last, ops) := record_internal last [(name, v)] in counted name ops + read_all name last vals
  end.

(** Each sampler reports the growth of its dynsampler's counter since the sampler itself was
    started: whatever the readings in between, the amounts it adds sum to the last reading less
    the value at registration. So [k] samplers sharing one instance together report its growth
    [k] times. *)
Theorem recorder_telescopes (name : string) (last : gmap string (MetricType * Z)) (v0 : Z) (vals : list Z) :
  last !! name = Some (Counter, v0) → Forall (λ v, 0 ≤ v < 2 ^ 62) (v0 :: vals) →
  read_all name last vals = default v0 (list.last vals) - v0.
Proof.
  revert last v0. induction vals as [|v vals IH]; intros last v0 Hl Hv; simpl; [lia|].
  rewrite Hl. simpl. apply Forall_cons in Hv as [H0 Hv]. pose proof Hv as Hv'.
  apply Forall_cons in Hv as [H1 _]. rewrite (IH _ v); [|by rewrite lookup_insert_eq|done].
  unfold counted, MultiMetrics.total. simpl. rewrite String.eqb_refl, s64_id by (unfold in_s64; lia).
  change (list.last (v :: vals)) with (list.last ([v] ++ vals)). rewrite last_app.
  destruct (list.last vals); simpl; lia.
Qed.
End Recording.

(** ** Concrete instances *)

Module SamplerExamples.
#[local] Existing Instances example_float EventExamples.map_payload TraceKeyExamples.encode_hash
  RulesExamples.no_gjson.
#[local] Instance id_sha1 : GoSha1 := {| sha1_Sum := λ s, s |}.
#[local] Instance no_regexp : GoRegexp := {| regexp_compile := λ _, None |}.
(** An instance whose rate is its goal, counting its requests. *)
#[local] Instance example_dyn : GoDynsampler (Z * Z) := {|
  dyn_start := λ p, match p with AvgSampleRate g _ _ | TotalThroughput g _ _ => (g, 0) | _ => (1, 0) end;
  dyn_GetSampleRateMulti := λ d _ _, (d.1, (d.1, d.2 + 1));
  dyn_GetMetrics := λ d prefix, [(prefix +:+ "request_count", d.2)];
  dyn_SetGoal := λ k, match k with KDynamic | KEMADynamic => None | _ => Some (λ d g, (g, d.2)) end |}.

Lemma deterministic_sampling_witness :
  2 ≤ det_SampleRate {| det_SampleRate := 10 |} < 2 ^ 32 ∧
  ∃ s ops K, det_Start {| det_SampleRate := 10 |} = Some (s, ops) ∧ 2 ^ 32 ≤ 10 * K < 2 ^ 32 + 10.
Proof.
  assert (Hr : 2 ≤ det_SampleRate {| det_SampleRate := 10 |} < 2 ^ 32) by (simpl; lia).
  split; [exact Hr|].
  destruct (deterministic_sampling (P := gmap string value) {| det_SampleRate := 10 |} Hr)
    as (s & ops & K & E & HK & _).
  exists s, ops, K. split; [exact E|exact HK].
Defined.

Definition names : samplerMetricNames := (newSamplerMetricNames "rulesbased").1.
Definition drop_rule : RulesBasedSamplerRule :=
  mkRule "drop health checks" 0 true "trace" (Some [RulesExamples.a_gt_1]) None.
Definition rules_sampler : RulesBasedSampler :=
  mkRules (mkRulesConfig [drop_rule] false) ∅ [] [] names.
Definition factory : SamplerFactory (Z * Z) :=
  Factory_Start (mkFactory 0 [] ∅ ∅).

Lemma rules_first_match_witness :
  (∀ n, 0 < n → 0 ≤ (λ _, 0) n < n) ∧
  ∃ keep ops, rules_GetSampleRate factory rules_sampler EventExamples.three (λ _, 0) =
    Some (mkDecision 0 keep ("rules/trace/" +:+ "drop health checks") "", rules_sampler, factory, ops).
Proof.
  assert (Hi : ∀ n, 0 < n → 0 ≤ (λ _ : Z, 0) n < n) by (intros n Hn; simpl; lia).
  split; [exact Hi|].
  destruct (proj2 (rules_first_match factory rules_sampler EventExamples.three (λ _, 0) Hi)
              [] drop_rule [] "rules/trace/" eq_refl ltac:(constructor) ltac:(by vm_compute))
    as [Hplain _].
  destruct (Hplain eq_refl) as (keep & ops & E & _). exists keep, ops. exact E.
Defined.

Definition total_conf : dynConf := conf_TotalThroughput
  {| tot_GoalThroughputPerSec := 100; tot_UseClusterSize := true; tot_ClearFrequency := 0;
     tot_FieldList := ["b"; "a"]; tot_MaxKeys := 0; tot_UseTraceLength := false |}.
Definition created := createDyn (Some (Ok ["p1"; "p2"; "p3"])) factory total_conf "env".
Definition created_factory : SamplerFactory (Z * Z) := match created with Some (_, f, _) => f | None => factory end.
Definition created_sampler : option dynSampler :=
  match created with Some (SDyn d, _, _) => Some d | _ => None end.

Lemma created_factory_wf : factory_wf created_factory.
Proof.
  unfold created_factory. destruct created as [[[s f] ops]|] eqn:E; [|apply factory_wf_start].
  apply (factory_wf_createDyn _ _ _ _ _ _ _ (factory_wf_start _) E).
Qed.

Lemma goal_throughput_per_peer_witness :
  let f := updatePeerCounts (Some (Ok ["p1"])) created_factory in
  f_heap created_factory !! 0%nat = Some (KTotalThroughput, (33, 0)) ∧
  f_heap f !! 0%nat = Some (KTotalThroughput, (100, 0)).
Proof.
  split; [by vm_compute|].
  destruct (goal_throughput_per_peer (Some (Ok ["p1"])) created_factory
              (dynsampler_key "env" total_conf) 0%nat (KTotalThroughput, (33, 0)) created_factory_wf
              ltac:(by vm_compute) ltac:(by vm_compute)) as (_ & _ & _ & E & _).
  rewrite E. by vm_compute.
Defined.

Lemma workers_share_dynsampler_witness :
  ∃ s1 f1 ops1 s2 f2 ops2,
    createDyn None factory total_conf "env" = Some (SDyn s1, f1, ops1) ∧
    createDyn None f1 (sorted_conf total_conf) "env" = Some (SDyn s2, f2, ops2) ∧
    d_dynsampler s1 ≠ d_dynsampler s2.
Proof.
  destruct (createDyn None factory total_conf "env") as [[[[s|s1] f1] ops1]|] eqn:E1;
    [vm_compute in E1; discriminate| |vm_compute in E1; discriminate].
  destruct (createDyn None f1 (sorted_conf total_conf) "env") as [[[[s|s2] f2] ops2]|] eqn:E2.
  - vm_compute in E1. injection E1 as <- <- <-. vm_compute in E2. discriminate.
  - exists s1, f1, ops1, s2, f2, ops2. split; [done|]. split; [done|].
    rewrite (proj1 (workers_share_dynsampler None factory total_conf "env" s1 f1 ops1 s2 f2 ops2
      eq_refl E1 E2)). vm_compute. discriminate.
  - vm_compute in E1. injection E1 as <- <- <-. vm_compute in E2. discriminate.
Defined.

Lemma dynamic_sampling_witness :
  match created_sampler with
  | Some s => ∃ s' f' ops, dyn_GetSampleRate created_factory s EventExamples.three (λ _, 0) =
      Some (mkDecision 33 true "totalthroughput" "1•2•,", s', f', ops)
  | None => False
  end.
Proof.
  destruct created_sampler as [s|] eqn:E; [|vm_compute in E; discriminate].
  destruct (dynamic_sampling created_factory s EventExamples.three (λ _, 0) KTotalThroughput (33, 0) 33 (33, 1))
    as (s' & f' & ops & Es & _).
  - vm_compute in E. injection E as <-. by vm_compute.
  - by vm_compute.
  - lia.
  - exists s', f', ops. vm_compute in E. injection E as <-.
    etransitivity; [exact Es|]. by vm_compute.
Defined.

Lemma recorder_telescopes_witness :
  Forall (λ v, 0 ≤ v < 2 ^ 62) [5; 7; 12] ∧
  read_all "dynamic_request_count" {["dynamic_request_count" := (Counter, 5)]} [7; 12] = 7.
Proof.
  assert (Hv : Forall (λ v, 0 ≤ v < 2 ^ 62) [5; 7; 12]) by (repeat constructor; lia).
  split; [exact Hv|].
  exact (recorder_telescopes "dynamic_request_count" {["dynamic_request_count" := (Counter, 5)]} 5 [7; 12] eq_refl Hv).
Defined.
End SamplerExamples.
