(* ===== verification/StressRelief.v ===== *)
(** collect/stressRelief.go: how a node measures its stress, hears of its peers' and decides to
    sample deterministically.

    math.Atan is the operation of the class [GoMath]; the other float operations are those of
    binary64, without fused multiply-add.  An operation reads the clock once ([now]).  The
    metrics read back are those of a [MultiMetrics]. *)
From Stdlib Require Import SpecFloat Ascii.
From S2P Require Import Prelude GoValue Metrics Config TraceKey.

Class GoMath := { math_Atan : float64 → float64 }.

Definition stressReliefTopic : string := "refinery-stress-relief".
Definition hashSeed : Z := 34527861234.
(** internal/peer: [PeerEntryTimeout]. *)
Definition PeerEntryTimeout : Z := 10 * 1000000000.

Inductive StressReliefMode := Never | Monitor | Always.
#[export] Instance mode_eq_dec : EqDecision StressReliefMode.
Proof. solve_decision. Defined.

Record StressReliefCalculation := mkCalc {
  sc_Numerator : string; sc_Denominator : string; sc_Algorithm : string; sc_Reason : string }.

Definition stressReliefCalculations : list StressReliefCalculation :=
  [mkCalc "collector_peer_queue_length" "PEER_CAP" "sqrt" "PeerQueueSize";
   mkCalc "collector_incoming_queue_length" "INCOMING_CAP" "sqrt" "IncomingQueueSize";
   mkCalc "memory_heap_allocation" "MEMORY_MAX_ALLOC" "sigmoid" "MaxAlloc"].

(** A peer's report: its level and when it was received. *)
Record stressReport := mkReport { rp_level : Z; rp_timestamp : Z }.

Record StressRelief := mkStress {
  s_mode : StressReliefMode;
  s_hostID : string;
  s_activateLevel : Z;
  s_deactivateLevel : Z;
  s_sampleRate : Z;
  s_upperBound : Z;
  s_overallStressLevel : Z;
  s_reason : string;
  s_formula : string;
  s_stressed : bool;
  s_stayOnUntil : Z;
  s_minDuration : Z;
  s_stressLevels : gmap string stressReport }.

(** ** Messages *)

Definition stressReliefMessage_String (peerID : string) (level : Z) : string :=
  peerID +:+ "|" +:+ format_int level.

(** The peer and its level; a negative number wraps around. *)
Definition unmarshalStressReliefMessage (msg : string) : res (string * Z) :=
  if (String.length msg <? 2)%nat then Err "empty message"
  else
    match index_char "|"%char msg with
    | None => Err "invalid stress relief message"
    | Some i =>
        match Atoi (str_drop (S i) msg) with
        | None => Err "strconv.Atoi"
        | Some level => Ok (str_take i msg, u64 level)
        end
    end.

Definition set_levels (s : StressRelief) (levels : gmap string stressReport) : StressRelief :=
  mkStress (s_mode s) (s_hostID s) (s_activateLevel s) (s_deactivateLevel s) (s_sampleRate s)
    (s_upperBound s) (s_overallStressLevel s) (s_reason s) (s_formula s) (s_stressed s)
    (s_stayOnUntil s) (s_minDuration s) levels.

Definition onStressLevelUpdate (now : Z) (s : StressRelief) (msg : string) : StressRelief :=
  match unmarshalStressReliefMessage msg with
  | Err _ => s
  | Ok (peerID, level) => set_levels s (<[peerID := mkReport level now]> (s_stressLevels s))
  end.

(** ** Configuration *)

Definition UpdateFromConfig (s : StressRelief) (cfg : StressReliefConfig) : StressRelief :=
  let mode :=
    if String.eqb (sr_Mode cfg) "never" || String.eqb (sr_Mode cfg) "" then Never
    else if String.eqb (sr_Mode cfg) "monitor" then Monitor
    else if String.eqb (sr_Mode cfg) "always" then Always
    else Never in
  let rate := if sr_SamplingRate cfg =? 0 then 1 else sr_SamplingRate cfg in
  mkStress mode (s_hostID s) (sr_ActivationLevel cfg) (sr_DeactivationLevel cfg) rate
    (MaxUint64 / rate) (s_overallStressLevel s) (s_reason s) (s_formula s) (s_stressed s)
    (s_stayOnUntil s) (sr_MinimumActivationDuration cfg) (s_stressLevels s).

(** ** The stress formulas *)

Definition f64_zero : float64 := f64_of_Z 0.
Definition f64_one : float64 := f64_of_Z 1.
Definition f64_half : float64 := S754_finite false 4503599627370496 (-53).
(** 0.400305589 *)
Definition sigmoid_scale : float64 := S754_finite false 7211264405818908 (-54).

Definition clamp (f min max : float64) : float64 :=
  if f64_ltb f min then min else if f64_ltb max f then max else f.

Section Formulas.
Context `{GoMath}.
Implicit Types (m : MultiMetrics.t).

Definition ratio m (num denom : string) : float64 :=
  match MultiMetrics.Get m num with
  | None => f64_zero
  | Some numerator =>
      match MultiMetrics.Get m denom with
      | None => f64_zero
      | Some denominator =>
          if negb (f64_eqb denominator f64_zero) then clamp (f64_div numerator denominator) f64_zero f64_one
          else f64_zero
      end
  end.

Definition linear m num denom : float64 := ratio m num denom.
Definition sqrt m num denom : float64 := f64_sqrt (ratio m num denom).
Definition square m num denom : float64 := let r := ratio m num denom in f64_mul r r.
Definition sigmoid m num denom : float64 :=
  let r := ratio m num denom in
  f64_add (f64_mul sigmoid_scale (math_Atan (f64_mul (f64_of_Z 6) (f64_sub r f64_half)))) f64_half.

(** The map of algorithms; every calculation names one of them. *)
Definition algorithm (name : string) : MultiMetrics.t → string → string → float64 :=
  if String.eqb name "linear" then linear
  else if String.eqb name "sqrt" then sqrt
  else if String.eqb name "square" then square
  else sigmoid.
End Formulas.

(** math.Max. *)
Definition f64_is_inf (f : float64) : bool := match f with S754_infinity false => true | _ => false end.
Definition f64_signbit (f : float64) : bool :=
  match f with S754_zero s | S754_infinity s | S754_finite s _ _ => s | S754_nan => false end.
Definition f64_max (x y : float64) : float64 :=
  if f64_is_inf x || f64_is_inf y then S754_infinity false
  else if is_nan x || is_nan y then S754_nan
  else if f64_eqb x f64_zero && f64_eqb x y then (if f64_signbit x then y else x)
  else if f64_ltb y x then x else y.

(** ** Recalc *)

Section Recalc.
Context `{GoFloat, GoMath}.
Implicit Types (s : StressRelief).

(** The loop's variables: the maximum, its reason and its formula. *)
Definition calc_step (m : MultiMetrics.t) (acc : float64 * string * string) (c : StressReliefCalculation)
    : float64 * string * string :=
  let '(maximumLevel, reason, formula) := acc in
  let stress := f64_mul (f64_of_Z 100) (algorithm (sc_Algorithm c) m (sc_Numerator c) (sc_Denominator c)) in
  if f64_ltb maximumLevel stress
  then (stress, sc_Reason c,
        sc_Algorithm c +:+ "(" +:+ sc_Numerator c +:+ "/" +:+ sc_Denominator c +:+ ")=" +:+ fmt_float_v stress)
  else acc.

Definition expired (now : Z) (r : stressReport) : bool := PeerEntryTimeout <? now - rp_timestamp r.

(** The sum of the squares and the number of the levels that count. *)
Definition sum_levels (reports : list stressReport) : float64 * Z :=
  foldl (λ '(total, n) r,
           if rp_level r =? 0 then (total, n)
           else (f64_add total (f64_of_Z (u64 (rp_level r * rp_level r))), n + 1))
        (f64_zero, 0) reports.

Definition clusterStressLevel (now : Z) s (localLevel : Z) : StressRelief * Z :=
  let levels := <[s_hostID s := mkReport localLevel now]> (s_stressLevels s) in
  let levels := filter (λ kv, expired now kv.2 = false) levels in
  let '(total, availablePeers) := sum_levels (map_to_list levels).*2 in
  let availablePeers := if availablePeers =? 0 then 1 else availablePeers in
  (set_levels s levels, f64_to_uint (f64_sqrt (f64_div total (f64_of_Z availablePeers)))).

(** The switch on the mode: the new [stressed] and [stayOnUntil]. *)
Definition activation (now : Z) s (level : Z) : bool * Z :=
  match s_mode s with
  | Never => (false, s_stayOnUntil s)
  | Always => (true, s_stayOnUntil s)
  | Monitor =>
      let stressed := s_stressed s || (s_activateLevel s <=? level) in
      let stay := if stressed && (s_deactivateLevel s <=? level) then now + s_minDuration s else s_stayOnUntil s in
      (if stressed && (level <? s_deactivateLevel s) && (stay <? now) then false else stressed, stay)
  end.

(** The part of [Recalc] under the lock, with the node's and the cluster's level. *)
Definition recalc_decide (now : Z) s (localLevel cluster : Z) (reason formula : string)
    : StressRelief * list metric_op :=
  let overall := f64_to_uint (f64_max (f64_of_Z cluster) (f64_of_Z localLevel)) in
  let '(stressed, stay) := activation now s overall in
  (mkStress (s_mode s) (s_hostID s) (s_activateLevel s) (s_deactivateLevel s) (s_sampleRate s)
     (s_upperBound s) overall reason formula stressed stay (s_minDuration s) (s_stressLevels s),
   [MGauge "stress_level" (f64_of_Z overall);
    MGauge "stress_relief_activated" (if stressed then f64_one else f64_zero)]).

Definition Recalc (now : Z) (m : MultiMetrics.t) s : StressRelief * Z * list metric_op :=
  let '(maximumLevel, reason, formula) := foldl (calc_step m) (f64_zero, "", "") stressReliefCalculations in
  let localLevel := f64_to_uint maximumLevel in
  let '(s, cluster) := clusterStressLevel now s localLevel in
  let '(s, ops) := recalc_decide now s localLevel cluster reason formula in
  (s, localLevel,
   [MGauge "individual_stress_level" maximumLevel; MGauge "cluster_stress_level" (f64_of_Z cluster)] ++ ops).

(** ** Publishing: the ticker's local variables [lastLevel] and [tickCounter] *)

Definition maxTicksBetweenReports : Z := 30.

Definition publish_tick (st : Z * Z) (currentLevel : Z) : (Z * Z) * bool :=
  let '(lastLevel, tickCounter) := st in
  let publish := negb (lastLevel =? currentLevel) || (tickCounter =? maxTicksBetweenReports) in
  let '(lastLevel, tickCounter) := if publish then (currentLevel, 0) else (lastLevel, tickCounter) in
  ((lastLevel, tickCounter + 1), publish).

(** Which ticks publish. *)
Fixpoint publishes (st : Z * Z) (levels : list Z) : list bool :=
  match levels with
  | [] => []
  | l :: levels => let '(st, p) := publish_tick st l in p :: publishes st levels
  end.
End Recalc.

Definition Stressed (s : StressRelief) : bool := s_stressed s.

(** (rate, keep, reason) *)
Definition Stress_GetSampleRate `{GoWyhash} (s : StressRelief) (traceID : string) : Z * bool * string :=
  if s_sampleRate s <=? 1 then (1, true, "stress_relief/always")
  else (s_sampleRate s, wyhash traceID hashSeed <=? s_upperBound s,
        "stress_relief/deterministic/" +:+ s_reason s).

(** ** What the node decides *)

Section Decisions.
Context `{GoFloat, GoMath}.
Implicit Types (s : StressRelief) (m : MultiMetrics.t).

(** One tick of the monitor, and a run of them. *)
Definition recalc_state s (tick : Z * MultiMetrics.t) : StressRelief := (Recalc tick.1 tick.2 s).1.1.
Definition recalc_run s (ticks : list (Z * MultiMetrics.t)) : StressRelief := foldl recalc_state s ticks.

(** What a recalculation does to the switch. *)
Lemma recalc_state_spec s now m :
  let s' := recalc_state s (now, m) in
  s_mode s' = s_mode s ∧ s_activateLevel s' = s_activateLevel s ∧
  s_deactivateLevel s' = s_deactivateLevel s ∧ s_minDuration s' = s_minDuration s ∧
  (s_stressed s', s_stayOnUntil s') = activation now s (s_overallStressLevel s').
Proof.
  unfold recalc_state, Recalc. cbn [fst snd].
  destruct (foldl (calc_step m) (f64_zero, "", "") stressReliefCalculations) as [[lvl reason] formula].
  unfold clusterStressLevel. destruct (sum_levels _) as [total n]. unfold recalc_decide.
  match goal with |- context [activation now ?s1 ?l] =>
    change (activation now s l) with (activation now s1 l);
    destruct (activation now s1 l) as [st stay] eqn:E end.
  simpl. unfold activation in *. simpl in *. by rewrite E.
Qed.

Lemma activation_monitor now s level :
  s_mode s = Monitor →
  (activation now s level).1 = true ↔
    (s_stressed s = true ∨ s_activateLevel s ≤ level) ∧ (s_deactivateLevel s ≤ level ∨ now ≤ s_stayOnUntil s).
Proof.
  intros Hm. unfold activation. rewrite Hm. simpl.
  destruct (Z.leb_spec (s_activateLevel s) level), (Z.leb_spec (s_deactivateLevel s) level),
    (s_stressed s); simpl; rewrite ?andb_true_r, ?andb_false_r;
    repeat match goal with |- context [?a <? ?b] => destruct (Z.ltb_spec a b) end; simpl;
    split; intros; try done; try lia; destruct_and?; destruct_or?; try done; lia.
Qed.

Lemma recalc_run_stays t s1 ticks :
  s_mode s1 = Monitor → s_stressed s1 = true → t + s_minDuration s1 ≤ s_stayOnUntil s1 →
  Forall (λ tick, t ≤ tick.1 ≤ t + s_minDuration s1) ticks →
  s_stressed (recalc_run s1 ticks) = true.
Proof.
  revert s1. induction ticks as [|[now m] ticks IH]; intros s1 Hm Hs Hstay Ht; [done|].
  apply Forall_cons in Ht as [Hnow Ht]. simpl in Hnow. cbn [recalc_run foldl].
  destruct (recalc_state_spec s1 now m) as (E1 & E2 & E3 & E4 & E5).
  set (s2 := recalc_state s1 (now, m)) in *. apply IH; [congruence| | |by rewrite E4].
  - change (s_stressed s2) with (s_stressed s2, s_stayOnUntil s2).1. rewrite E5.
    apply activation_monitor; [done|]. split; [by left|right; lia].
  - change (s_stayOnUntil s2) with (s_stressed s2, s_stayOnUntil s2).2. rewrite E5, E4.
    unfold activation. rewrite Hm, Hs. simpl. destruct (_ <=? _); simpl; lia.
Qed.

Definition overall_level (cluster localLevel : Z) : Z :=
  f64_to_uint (f64_max (f64_of_Z cluster) (f64_of_Z localLevel)).

(** On the percentages the formulas produce, the float maximum is the integer one. *)
Lemma overall_level_max cluster localLevel :
  0 ≤ cluster ≤ 100 → 0 ≤ localLevel ≤ 100 → overall_level cluster localLevel = Z.max cluster localLevel.
Proof.
  intros Hc Hl.
  assert (Hall : forallb (λ a, forallb (λ b, (overall_level a b =? Z.max a b)) (seqZ 0 101)) (seqZ 0 101) = true)
    by (vm_compute; reflexivity).
  rewrite forallb_forall in Hall. specialize (Hall cluster). rewrite forallb_forall in Hall.
  apply Z.eqb_eq, Hall; apply list_elem_of_In, elem_of_seqZ; lia.
Qed.

(** C28: in monitor mode stress relief is a switch with hysteresis on the overall level (the larger
    of the node's and the cluster's): it goes on at the activation level, and may go off only
    below the deactivation level and after the last tick at or above it is more than the minimum
    duration in the past; so once a tick leaves it on at or above the deactivation level it is on
    at every tick of the next [minDuration].  The other modes force it off or on. *)
Theorem stress_hysteresis s t m :
  let s1 := recalc_state s (t, m) in
  (s_mode s = Never → Stressed s1 = false) ∧
  (s_mode s = Always → Stressed s1 = true) ∧
  (s_mode s = Monitor →
     (Stressed s1 = true ↔
        (Stressed s = true ∨ s_activateLevel s ≤ s_overallStressLevel s1) ∧
        (s_deactivateLevel s ≤ s_overallStressLevel s1 ∨ t ≤ s_stayOnUntil s)) ∧
     (∀ ticks, Stressed s1 = true → s_deactivateLevel s ≤ s_overallStressLevel s1 →
        Forall (λ tick, t ≤ tick.1 ≤ t + s_minDuration s) ticks → Stressed (recalc_run s1 ticks) = true)) ∧
  (∀ cluster localLevel, 0 ≤ cluster ≤ 100 → 0 ≤ localLevel ≤ 100 →
     s_overallStressLevel (recalc_decide t s localLevel cluster "" "").1 = Z.max cluster localLevel).
Proof.
  cbv zeta. unfold Stressed. destruct (recalc_state_spec s t m) as (E1 & E2 & E3 & E4 & E5).
  set (s1 := recalc_state s (t, m)) in *. split_and!.
  - intros Hm. unfold activation in E5. rewrite Hm in E5. congruence.
  - intros Hm. unfold activation in E5. rewrite Hm in E5. congruence.
  - intros Hm. split.
    + rewrite <-(activation_monitor t s _ Hm). by rewrite <-E5.
    + intros ticks Hs Hd Ht. apply (recalc_run_stays t); [congruence|done| |by rewrite E4].
      unfold activation in E5. rewrite Hm in E5. injection E5 as E5 E6. rewrite E6, E4.
      rewrite Hs in E5. symmetry in E5.
      destruct (s_stressed s || (s_activateLevel s <=? s_overallStressLevel s1)); [|by destruct (_ && _)].
      rewrite (proj2 (Z.leb_le _ _) Hd). simpl. lia.
  - intros c l Hc Hl. unfold recalc_decide.
    change (f64_to_uint (f64_max (f64_of_Z c) (f64_of_Z l))) with (overall_level c l).
    rewrite overall_level_max by done. destruct (activation t s (Z.max c l)). reflexivity.
Qed.

(** A level published by a node is the level its peers record: the message parses back to the
    node's ID and level (IDs have no separator; levels fit an int), the report is stored under
    that ID with the time of its arrival, and it takes part in the cluster's level exactly until
    it is older than [PeerEntryTimeout]; the node's own fresh level is always there. *)
Theorem stress_reports s (peerID : string) (level now later : Z) (localLevel : Z) :
  str_forallb (λ c, negb (Ascii.eqb "|" c)) peerID = true → 0 ≤ level < 2 ^ 63 →
  unmarshalStressReliefMessage (stressReliefMessage_String peerID level) = Ok (peerID, level) ∧
  let heard := onStressLevelUpdate now s (stressReliefMessage_String peerID level) in
  s_stressLevels heard !! peerID = Some (mkReport level now) ∧
  (peerID ≠ s_hostID s →
     s_stressLevels (clusterStressLevel later heard localLevel).1 !! peerID =
       (if later - now <=? PeerEntryTimeout then Some (mkReport level now) else None)) ∧
  s_stressLevels (clusterStressLevel later heard localLevel).1 !! s_hostID s = Some (mkReport localLevel later).
Proof.
  intros Hid Hl.
  assert (E : unmarshalStressReliefMessage (stressReliefMessage_String peerID level) = Ok (peerID, level)).
  { unfold unmarshalStressReliefMessage, stressReliefMessage_String.
    change ("|" +:+ format_int level) with (String "|" (format_int level)).
    assert (Hlen : (String.length (peerID +:+ String "|" (format_int level)) <? 2)%nat = false).
    { apply Nat.ltb_ge. rewrite str_length_app. simpl.
      destruct (format_int level) eqn:Ef; [|simpl; lia].
      pose proof (Atoi_format_int level ltac:(unfold in_s64; lia)) as A. rewrite Ef in A.
      by vm_compute in A. }
    rewrite Hlen, index_char_app by done.
    replace (str_drop (S (String.length peerID)) (peerID +:+ String "|" (format_int level)))
      with (format_int level) by (clear; by induction peerID).
    rewrite Atoi_format_int by (unfold in_s64; lia).
    rewrite str_take_app, u64_id by (unfold in_u64; lia). done. }
  split; [done|]. cbv zeta. unfold onStressLevelUpdate. rewrite E. unfold set_levels. simpl.
  split_and!; [by rewrite lookup_insert_eq| |].
  - intros Hne. unfold clusterStressLevel. simpl. destruct (sum_levels _). simpl.
    rewrite map_lookup_filter, lookup_insert_ne, lookup_insert_eq by done. simpl.
    unfold expired. simpl. rewrite Z.ltb_antisym.
    destruct (later - now <=? PeerEntryTimeout); simpl; by try case_guard.
  - unfold clusterStressLevel. simpl. destruct (sum_levels _). simpl.
    rewrite map_lookup_filter, lookup_insert_eq. simpl.
    unfold expired. simpl. rewrite Z.sub_diag. by try case_guard.
Qed.

(** The ticker keeps the peers informed: after every tick the last level published is the
    current one, and from a tick counter [c] on at most [30 - c] ticks go by without a message. *)
Theorem publish_period (lastLevel c : Z) (levels : list Z) :
  0 ≤ c ≤ maxTicksBetweenReports →
  (∀ l, (publish_tick (lastLevel, c) l).1.1 = l ∧
        1 ≤ (publish_tick (lastLevel, c) l).1.2 ≤ maxTicksBetweenReports) ∧
  (maxTicksBetweenReports - c < Z.of_nat (length levels) →
     true ∈ take (Z.to_nat (maxTicksBetweenReports - c + 1)) (publishes (lastLevel, c) levels)).
Proof.
  intros Hc. split.
  - intros l. unfold publish_tick, maxTicksBetweenReports in *.
    destruct (Z.eqb_spec lastLevel l) as [->|], (Z.eqb_spec c 30); simpl; split; (done || lia).
  - revert lastLevel c Hc. induction levels as [|l levels IH]; intros last c Hc Hlen;
      [simpl in Hlen; lia|].
    cbn [publishes publish_tick]. unfold maxTicksBetweenReports in *.
    replace (Z.to_nat (30 - c + 1)) with (S (Z.to_nat (30 - c))) by lia.
    destruct (Z.eqb_spec last l) as [->|], (Z.eqb_spec c 30) as [->|]; simpl; try set_solver.
    apply elem_of_cons. right. simpl in Hlen.
    replace (30 - c) with (30 - (c + 1) + 1) by lia. apply IH; lia.
Qed.
End Decisions.

Section Sampling.
Context `{GoWyhash}.

(** Under stress the decision is a function of the trace ID and the sampling rate: with rate
    [r] a trace is kept exactly when its 64-bit hash is below [K], with
    [2^64 <= r * K < 2^64 + r]; nodes configured alike agree whatever their state, a node with a
    lower rate keeps a superset, and a rate of 0 or 1 keeps every trace. *)
Theorem stress_sampling (s s' : StressRelief) (cfg cfg' : StressReliefConfig) (traceID : string) :
  0 ≤ sr_SamplingRate cfg < 2 ^ 64 → 0 ≤ sr_SamplingRate cfg' ≤ sr_SamplingRate cfg →
  let decide s cfg := Stress_GetSampleRate (UpdateFromConfig s cfg) traceID in
  (sr_SamplingRate cfg ≤ 1 → (decide s cfg).1 = (1, true)) ∧
  (2 ≤ sr_SamplingRate cfg → (decide s cfg).1.1 = sr_SamplingRate cfg ∧
     ((decide s cfg).1.2 = true ↔ wyhash traceID hashSeed < hashes_kept MaxUint64 (sr_SamplingRate cfg)) ∧
     2 ^ 64 ≤ sr_SamplingRate cfg * hashes_kept MaxUint64 (sr_SamplingRate cfg) < 2 ^ 64 + sr_SamplingRate cfg) ∧
  (decide s cfg).1 = (decide s' cfg).1 ∧
  ((decide s cfg).1.2 = true → (decide s' cfg').1.2 = true).
Proof.
  intros Hr Hr'. cbv zeta. unfold Stress_GetSampleRate. simpl.
  assert (Hrate : ∀ r, (if r =? 0 then 1 else r) <=? 1 = (r <=? 1) || (r =? 0)).
  { intros r. destruct (Z.eqb_spec r 0) as [->|]; [done|]. by rewrite orb_false_r. }
  rewrite !Hrate. split_and!.
  - intros Hle. by rewrite (proj2 (Z.leb_le _ _) Hle).
  - intros Hge. rewrite (proj2 (Z.leb_gt _ _)), (proj2 (Z.eqb_neq _ _)) by lia. simpl. split_and!.
    + done.
    + rewrite Z.leb_le. unfold hashes_kept. lia.
    + apply (hashes_kept_bounds MaxUint64); unfold MaxUint64; lia.
    + apply (hashes_kept_bounds MaxUint64); unfold MaxUint64; lia.
  - by destruct (_ || _).
  - destruct (Z.leb_spec (sr_SamplingRate cfg') 1); simpl; [done|].
    rewrite (proj2 (Z.leb_gt (sr_SamplingRate cfg) 1)) by lia.
    rewrite !(proj2 (Z.eqb_neq _ 0)) by lia. simpl. rewrite !Z.leb_le.
    pose proof (hashes_kept_mono MaxUint64 (sr_SamplingRate cfg') (sr_SamplingRate cfg)
      ltac:(unfold MaxUint64; lia) ltac:(lia)) as Hm.
    unfold hashes_kept in Hm. lia.
Qed.
End Sampling.

Module StressExamples.
#[local] Existing Instances example_float TraceKeyExamples.encode_hash.
#[local] Instance id_atan : GoMath := {| math_Atan := λ f, f |}.

Definition idle : StressRelief :=
  mkStress Monitor "node1" 90 75 100 0 0 "" "" false 0 10 ∅.
Definition relief (rate : Z) : StressReliefConfig :=
  {| sr_Mode := "monitor"; sr_ActivationLevel := 90; sr_DeactivationLevel := 75;
     sr_SamplingRate := rate; sr_MinimumActivationDuration := 10 |}.

Lemma stress_reports_witness :
  unmarshalStressReliefMessage (stressReliefMessage_String "node2" 42) = Ok ("node2", 42).
Proof. apply (stress_reports idle "node2" 42 0 0 0); [by vm_compute|lia]. Defined.

Lemma publish_period_witness :
  publishes (0, 0) (replicate 31 0) = replicate 30 false ++ [true] ∧
  true ∈ take 31 (publishes (0, 0) (replicate 31 0)).
Proof.
  split; [by vm_compute|].
  apply (proj2 (publish_period 0 0 (replicate 31 0) ltac:(split; discriminate))).
  vm_compute. reflexivity.
Defined.

Lemma stress_sampling_witness :
  (Stress_GetSampleRate (UpdateFromConfig idle (relief 100)) "t1").1
    = (Stress_GetSampleRate (UpdateFromConfig (set_levels idle ∅) (relief 100)) "t1").1.
Proof.
  refine (proj1 (proj2 (proj2 (stress_sampling idle (set_levels idle ∅) (relief 100) (relief 10) "t1" _ _))));
    simpl; lia.
Defined.
End StressExamples.
