(* ===== verification/TraceCache.v ===== *)
(** collect/cache/cache.go: the cache of the traces being collected.

    The priority queue (github.com/rdleal/go-priorityq/kpq) is third-party: the class [KPQ] has
    the methods used, [KPQLaws] their documented behaviour over the queue's contents, a finite
    map from trace IDs to times.  The code's [d.cache] holds pointers; a trace changed through
    the pointer [Get] returned is changed in the map without the queue knowing: [Update]. *)
From S2P Require Import Prelude GoValue Metrics Generics Event.

Class KPQ (Q : Type) := {
  q_New : Q;
  q_Len : Q → nat;
  q_Set : Q → string → Z → Q;
  q_Push : Q → string → Z → Q;
  q_Pop : Q → option (string * Z * Q);
  q_Remove : Q → string → Q;
}.

Class KPQLaws Q `{KPQ Q} := {
  q_view : Q → gmap string Z;
  q_new_view : q_view q_New = ∅;
  q_len_view : ∀ q, q_Len q = size (q_view q);
  q_set_view : ∀ q k v, q_view (q_Set q k v) = <[k := v]> (q_view q);
  (** [Push] of a key already in the queue is an error and changes nothing *)
  q_push_view : ∀ q k v, q_view (q_Push q k v) =
    match q_view q !! k with Some _ => q_view q | None => <[k := v]> (q_view q) end;
  q_remove_view : ∀ q k, q_view (q_Remove q k) = delete k (q_view q);
  q_pop_none : ∀ q, q_Pop q = None ↔ q_view q = ∅;
  q_pop_some : ∀ q k v q', q_Pop q = Some (k, v, q') →
    q_view q !! k = Some v ∧ q_view q' = delete k (q_view q) ∧
    ∀ k' v', q_view q !! k' = Some v' → v ≤ v';
}.

Record DefaultInMemCache (Q P : Type) := mkCache { ca_pq : Q; ca_cache : gmap string (Trace P) }.
Arguments mkCache {Q P}. Arguments ca_pq {Q P}. Arguments ca_cache {Q P}.

Section Cache.
Context {Q P : Type} `{KPQ Q}.
Implicit Types (d : DefaultInMemCache Q P) (t : Trace P) (now max : Z).

Definition NewInMemCache : DefaultInMemCache Q P * list metric_op :=
  (mkCache q_New ∅, [MRegister "worker_cache_entries" Histogram]).

Definition GetCacheEntryCount d : nat := size (ca_cache d).

Definition Cache_Set d t : DefaultInMemCache Q P :=
  mkCache (q_Set (ca_pq d) (tr_TraceID t) (tr_SendBy t)) (<[tr_TraceID t := t]> (ca_cache d)).

Definition Cache_Get d (traceID : string) : option (Trace P) := ca_cache d !! traceID.

(** A write through a pointer [Cache_Get] returned. *)
Definition Update d t : DefaultInMemCache Q P :=
  mkCache (ca_pq d) (<[tr_TraceID t := t]> (ca_cache d)).

(** The order of a map's values is unspecified. *)
Definition GetAll d : list (Trace P) := (map_to_list (ca_cache d)).*2.

Definition GetCacheCapacity d : Z := MaxInt32.

Definition observe_size d : list metric_op :=
  [MHistogram "worker_cache_entries" (f64_of_Z (Z.of_nat (size (ca_cache d))))].

(** The loop of [TakeExpiredTraces]: the traces expired and skipped so far, newest first.
    Every iteration but the last pops one entry, so the queue's length is fuel enough. *)
Fixpoint take_loop (fuel : nat) now max (keep : Trace P → bool) d (expired skipped : list (Trace P))
    : DefaultInMemCache Q P * list (Trace P) * list (Trace P) :=
  match fuel with
  | O => (d, expired, skipped)
  | S fuel =>
      if negb ((max <=? 0) || (Z.of_nat (length expired) <? max)) then (d, expired, skipped)
      else
        match q_Pop (ca_pq d) with
        | None => (d, expired, skipped)
        | Some (traceID, sendBy, pq) =>
            match ca_cache d !! traceID with
            | None => take_loop fuel now max keep (mkCache pq (ca_cache d)) expired skipped
            | Some trace =>
                if now <? sendBy then (mkCache (q_Push pq traceID sendBy) (ca_cache d), expired, skipped)
                else if negb (keep trace)
                then take_loop fuel now max keep (mkCache pq (ca_cache d)) expired (trace :: skipped)
                else take_loop fuel now max keep (mkCache pq (delete traceID (ca_cache d)))
                       (trace :: expired) skipped
            end
        end
  end.

Definition TakeExpiredTraces now max (filter : Trace P → bool) d
    : DefaultInMemCache Q P * list (Trace P) * list metric_op :=
  let '(d', expired, skipped) := take_loop (S (q_Len (ca_pq d))) now max filter d [] [] in
  (mkCache (foldl (λ pq t, q_Push pq (tr_TraceID t) (tr_SendBy t)) (ca_pq d') (reverse skipped)) (ca_cache d'),
   reverse expired, observe_size d).

(** The members of a set are visited in an unspecified order. *)
Definition RemoveTraces d (toDelete : gset string) : DefaultInMemCache Q P * list metric_op :=
  (foldl (λ d id, mkCache (q_Remove (ca_pq d) id) (delete id (ca_cache d))) d (GSet.Members toDelete),
   observe_size d).
End Cache.

(** ** The cache as a map of traces ordered by [SendBy] *)

Section CacheCorrect.
Context {Q P : Type} `{KPQLaws Q}.
Implicit Types (d : DefaultInMemCache Q P) (t : Trace P) (now max : Z).

(** Every trace is stored under its ID and queued for its [SendBy]. *)
Definition cache_wf d : Prop :=
  ∀ id t, ca_cache d !! id = Some t → tr_TraceID t = id ∧ q_view (ca_pq d) !! id = Some (tr_SendBy t).

Lemma cache_wf_new : cache_wf (NewInMemCache (Q := Q) (P := P)).1.
Proof. by intros id t. Qed.

Lemma cache_wf_set d t : cache_wf d → cache_wf (Cache_Set d t).
Proof.
  intros Hd id u. simpl. rewrite q_set_view. destruct (decide (id = tr_TraceID t)) as [->|Hne].
  - rewrite !lookup_insert_eq. by intros [= <-].
  - rewrite !lookup_insert_ne by done. apply Hd.
Qed.

Lemma cache_wf_update d t u :
  cache_wf d → ca_cache d !! tr_TraceID u = Some t → tr_SendBy u = tr_SendBy t → cache_wf (Update d u).
Proof.
  intros Hd Ht Hs id v. simpl. destruct (decide (id = tr_TraceID u)) as [->|Hne].
  - rewrite lookup_insert_eq. intros [= <-]. split; [done|]. rewrite Hs. by apply Hd.
  - rewrite lookup_insert_ne by done. apply Hd.
Qed.

Lemma remove_all_spec (ids : list string) d :
  let d' := foldl (λ d id, mkCache (q_Remove (ca_pq d) id) (delete id (ca_cache d))) d ids in
  (∀ id, ca_cache d' !! id = if decide (id ∈ ids) then None else ca_cache d !! id) ∧
  (∀ id, q_view (ca_pq d') !! id = if decide (id ∈ ids) then None else q_view (ca_pq d) !! id).
Proof.
  cbv zeta. revert d. induction ids as [|i ids IH]; intros d; cbn [foldl].
  { split; intros k; by rewrite decide_False by set_solver. }
  destruct (IH (mkCache (q_Remove (ca_pq d) i) (delete i (ca_cache d)))) as [IH1 IH2]. simpl in *.
  rewrite q_remove_view in IH2. split; intros k; [rewrite IH1|rewrite IH2];
    (destruct (decide (k ∈ ids)); [by rewrite decide_True by set_solver|];
     destruct (decide (k = i)) as [->|];
     [rewrite decide_True by set_solver; by rewrite lookup_delete_eq
     |rewrite decide_False by set_solver; by rewrite lookup_delete_ne]).
Qed.

Lemma RemoveTraces_lookup d toDelete id :
  ca_cache (RemoveTraces d toDelete).1 !! id =
    if decide (id ∈ toDelete) then None else ca_cache d !! id.
Proof.
  simpl. destruct (remove_all_spec (GSet.Members toDelete) d) as [E _]. rewrite E.
  unfold GSet.Members. destruct (decide (id ∈ toDelete)).
  - by rewrite decide_True by set_solver.
  - by rewrite decide_False by set_solver.
Qed.

Lemma cache_wf_remove d toDelete : cache_wf d → cache_wf (RemoveTraces d toDelete).1.
Proof.
  intros Hd id t. simpl. destruct (remove_all_spec (GSet.Members toDelete) d) as [E1 E2].
  rewrite E1, E2. case_decide; [done|]. apply Hd.
Qed.

(** ** TakeExpiredTraces *)

(** The state of the loop, [d0] the cache it began with: what has been taken and skipped, in
    the order of [SendBy], and what the queue still holds. *)
Record loop_inv now max (keep : Trace P → bool) d0 d (expired skipped : list (Trace P)) : Prop := {
  li_cache : ∀ id, ca_cache d !! id =
    if decide (id ∈ tr_TraceID <$> expired) then None else ca_cache d0 !! id;
  li_expired : ∀ t, t ∈ expired →
    ca_cache d0 !! tr_TraceID t = Some t ∧ tr_SendBy t ≤ now ∧ keep t = true;
  li_skipped : ∀ t, t ∈ skipped →
    ca_cache d0 !! tr_TraceID t = Some t ∧ tr_SendBy t ≤ now ∧ keep t = false;
  li_queue : ∀ id t, ca_cache d0 !! id = Some t →
    id ∈ tr_TraceID <$> expired ∨ t ∈ skipped ∨ q_view (ca_pq d) !! id = Some (tr_SendBy t);
  li_fresh : ∀ t, t ∈ expired ∨ t ∈ skipped → q_view (ca_pq d) !! tr_TraceID t = None;
  li_nodup : NoDup (tr_TraceID <$> expired);
  li_before : ∀ t id v, t ∈ expired → q_view (ca_pq d) !! id = Some v → tr_SendBy t ≤ v;
  li_sorted : StronglySorted (λ t u, tr_SendBy u ≤ tr_SendBy t) expired;
  li_max : 0 < max → Z.of_nat (length expired) ≤ max;
}.

Lemma loop_inv_init now max keep d : cache_wf d → loop_inv now max keep d d [] [].
Proof.
  intros Hd. split; simpl.
  - done.
  - set_solver.
  - set_solver.
  - intros k t Hid. do 2 right. by apply Hd.
  - set_solver.
  - constructor.
  - set_solver.
  - constructor.
  - lia.
Qed.

(** A queue entry of a trace no longer cached is dropped. *)
Lemma loop_inv_stale now max keep d0 d expired skipped k v pq :
  loop_inv now max keep d0 d expired skipped →
  q_view pq = delete k (q_view (ca_pq d)) → ca_cache d !! k = None →
  q_view (ca_pq d) !! k = Some v →
  loop_inv now max keep d0 (mkCache pq (ca_cache d)) expired skipped.
Proof.
  intros [I1 I2 I3 I4 I5 I6 I7 I8 I9] Eq Hc Hv. split; simpl; try done.
  - intros id t Hid. destruct (I4 id t Hid) as [?|[?|Hq]]; [tauto..|].
    destruct (decide (id = k)) as [->|]; [|rewrite Eq, lookup_delete_ne by done; tauto].
    left. rewrite I1 in Hc. case_decide; [done|congruence].
  - intros t Ht. rewrite Eq. apply lookup_delete_None. right. by apply I5.
  - intros t id v' Ht Hid. rewrite Eq in Hid. apply lookup_delete_Some in Hid as [_ Hid]. by eapply I7.
Qed.

(** An expired trace that does not pass the filter is set aside. *)
Lemma loop_inv_skip now max keep d0 d expired skipped t pq :
  cache_wf d0 → loop_inv now max keep d0 d expired skipped →
  q_view pq = delete (tr_TraceID t) (q_view (ca_pq d)) → ca_cache d0 !! tr_TraceID t = Some t →
  tr_SendBy t ≤ now → keep t = false →
  loop_inv now max keep d0 (mkCache pq (ca_cache d)) expired (t :: skipped).
Proof.
  intros Hwf [I1 I2 I3 I4 I5 I6 I7 I8 I9] Eq Hc Hle Hk. split; simpl; try done.
  - intros u [->|Hu]%elem_of_cons; [done|by apply I3].
  - intros id u Hid. destruct (I4 id u Hid) as [?|[?|Hq]]; [tauto|right; left; set_solver|].
    destruct (decide (id = tr_TraceID t)) as [->|]; [|rewrite Eq, lookup_delete_ne by done; tauto].
    right. left. rewrite Hc in Hid. injection Hid as ->. set_solver.
  - intros u Hu. rewrite Eq. destruct (decide (tr_TraceID u = tr_TraceID t)) as [->|];
      [by rewrite lookup_delete_eq|]. rewrite lookup_delete_ne by done. apply I5. set_solver.
  - intros u id v' Hu Hid. rewrite Eq in Hid. apply lookup_delete_Some in Hid as [_ Hid]. by eapply I7.
Qed.

(** An expired trace that passes it is taken. *)
Lemma loop_inv_take now max keep d0 d expired skipped t pq :
  cache_wf d0 → loop_inv now max keep d0 d expired skipped →
  q_view (ca_pq d) !! tr_TraceID t = Some (tr_SendBy t) →
  (∀ k' v', q_view (ca_pq d) !! k' = Some v' → tr_SendBy t ≤ v') →
  q_view pq = delete (tr_TraceID t) (q_view (ca_pq d)) → ca_cache d0 !! tr_TraceID t = Some t →
  tr_SendBy t ≤ now → keep t = true → (max ≤ 0 ∨ Z.of_nat (length expired) < max) →
  loop_inv now max keep d0 (mkCache pq (delete (tr_TraceID t) (ca_cache d))) (t :: expired) skipped.
Proof.
  intros Hwf [I1 I2 I3 I4 I5 I6 I7 I8 I9] Hq Hmin Eq Hc Hle Hk Hm.
  assert (Hnew : tr_TraceID t ∉ tr_TraceID <$> expired).
  { intros (u & Eu & Hu)%list_elem_of_fmap. rewrite Eu, (I5 u) in Hq by tauto. done. }
  split; simpl.
  - intros id. destruct (decide (id = tr_TraceID t)) as [->|Hne].
    + rewrite lookup_delete_eq. by rewrite decide_True by set_solver.
    + rewrite lookup_delete_ne, I1 by done.
      destruct (decide (id ∈ tr_TraceID <$> expired)); [by rewrite decide_True by set_solver|].
      by rewrite decide_False by set_solver.
  - intros u [->|Hu]%elem_of_cons; [done|by apply I2].
  - done.
  - intros id u Hid. destruct (I4 id u Hid) as [?|[?|Hq']]; [set_solver|tauto|].
    destruct (decide (id = tr_TraceID t)) as [->|]; [set_solver|].
    rewrite Eq, lookup_delete_ne by done. tauto.
  - intros u Hu. rewrite Eq. destruct (decide (tr_TraceID u = tr_TraceID t)) as [->|];
      [by rewrite lookup_delete_eq|]. rewrite lookup_delete_ne by done. apply I5. set_solver.
  - by constructor.
  - intros u id v' Hu Hid. rewrite Eq in Hid. apply lookup_delete_Some in Hid as [_ Hid].
    apply elem_of_cons in Hu as [->|Hu]; [by eapply Hmin|by eapply I7].
  - constructor; [done|]. apply Forall_forall. intros u Hu. by eapply I7.
  - lia.
Qed.

(** Nothing that should have been taken is left. *)
Definition nothing_left now (keep : Trace P → bool) d0 (expired : list (Trace P)) : Prop :=
  ∀ id t, ca_cache d0 !! id = Some t → keep t = true → id ∉ tr_TraceID <$> expired → now < tr_SendBy t.

Lemma take_loop_spec fuel now max keep d0 d expired skipped :
  cache_wf d0 → loop_inv now max keep d0 d expired skipped → (size (q_view (ca_pq d)) < fuel)%nat →
  ∃ d' expired' skipped', take_loop fuel now max keep d expired skipped = (d', expired', skipped') ∧
  loop_inv now max keep d0 d' expired' skipped' ∧
  ((0 < max ∧ Z.of_nat (length expired') = max) ∨ nothing_left now keep d0 expired').
Proof.
  intros Hwf. revert d expired skipped. induction fuel as [|fuel IH]; intros d expired skipped Hinv Hfuel; [lia|].
  cbn [take_loop]. destruct (_ || _) eqn:Emax; cbn [negb].
  2: { exists d, expired, skipped. split; [done|]. split; [done|]. left.
       apply orb_false_elim in Emax as [Em1%Z.leb_gt Em2%Z.ltb_ge].
       pose proof (li_max _ _ _ _ _ _ _ Hinv Em1) as Hm. split; [done|]. clear -Hm Em2. lia. }
  destruct (q_Pop (ca_pq d)) as [[[k v] pq]|] eqn:Epop.
  2: { exists d, expired, skipped. split; [done|]. split; [done|]. right. intros id t Hid Hk Hn.
       apply q_pop_none in Epop. destruct (li_queue _ _ _ _ _ _ _ Hinv id t Hid) as [?|[Hs|Hq]]; [done| |].
       - apply (li_skipped _ _ _ _ _ _ _ Hinv) in Hs as (_ & _ & ?). congruence.
       - by rewrite Epop in Hq. }
  apply q_pop_some in Epop as (Hv & Eq & Hmin).
  assert (Hsize : (size (q_view pq) < fuel)%nat).
  { assert (size (q_view (ca_pq d)) ≠ 0%nat).
    { intros E%map_size_empty_inv. by rewrite E in Hv. }
    rewrite Eq, map_size_delete_Some by done. lia. }
  destruct (ca_cache d !! k) as [t|] eqn:Ec; [|apply IH; [by eapply loop_inv_stale|done]].
  rewrite (li_cache _ _ _ _ _ _ _ Hinv) in Ec. case_decide as Hexp; [done|].
  destruct (Hwf k t Ec) as [<- _].
  assert (v = tr_SendBy t) as ->.
  { destruct (li_queue _ _ _ _ _ _ _ Hinv _ t Ec) as [?|[Hs|Hq]]; [done| |congruence].
    rewrite (li_fresh _ _ _ _ _ _ _ Hinv t) in Hv by tauto. done. }
  destruct (Z.ltb_spec now (tr_SendBy t)) as [Hlt|Hle].
  - eexists _, expired, skipped. split; [reflexivity|].
    assert (Epush : q_view (q_Push pq (tr_TraceID t) (tr_SendBy t)) = q_view (ca_pq d)).
    { rewrite q_push_view, Eq, lookup_delete_eq. by rewrite insert_delete_id. }
    split.
    + destruct Hinv as [I1 I2 I3 I4 I5 I6 I7 I8 I9]. split; simpl; rewrite ?Epush; done.
    + right. intros id u Hid Hk Hn. destruct (li_queue _ _ _ _ _ _ _ Hinv id u Hid) as [?|[Hs|Hq]]; [done| |].
      * apply (li_skipped _ _ _ _ _ _ _ Hinv) in Hs as (_ & _ & ?). congruence.
      * apply Hmin in Hq. lia.
  - destruct (keep t) eqn:Ek; cbn [negb]; apply IH; try done.
    + eapply loop_inv_take; try done. reflect_bools.
      apply orb_prop in Emax as [?|?]; [left|right]; lia.
    + by eapply loop_inv_skip.
Qed.

Lemma push_all_view (l : list (Trace P)) (pq : Q) id :
  q_view (foldl (λ pq t, q_Push pq (tr_TraceID t) (tr_SendBy t)) pq l) !! id =
    match q_view pq !! id with
    | Some v => Some v
    | None => tr_SendBy <$> head (filter (λ t, tr_TraceID t = id) l)
    end.
Proof.
  revert pq. induction l as [|t l IH]; intros pq; cbn [foldl]; [by destruct (_ !! id)|].
  rewrite IH, q_push_view, filter_cons.
  destruct (decide (tr_TraceID t = id)) as [<-|Hne].
  - destruct (q_view pq !! tr_TraceID t) eqn:E; rewrite ?E, ?lookup_insert_eq; done.
  - destruct (q_view pq !! tr_TraceID t) eqn:E; [done|]. by rewrite lookup_insert_ne.
Qed.

Lemma TakeExpiredTraces_facts now max (keep : Trace P → bool) d :
  cache_wf d →
  let '(d', expired, _) := TakeExpiredTraces now max keep d in
  cache_wf d' ∧
  NoDup (tr_TraceID <$> expired) ∧ StronglySorted (λ t u, tr_SendBy t ≤ tr_SendBy u) expired ∧
  (∀ t, t ∈ expired → ca_cache d !! tr_TraceID t = Some t ∧ tr_SendBy t ≤ now ∧ keep t = true) ∧
  (∀ id, ca_cache d' !! id = if decide (id ∈ tr_TraceID <$> expired) then None else ca_cache d !! id) ∧
  (0 < max → Z.of_nat (length expired) ≤ max) ∧
  (Z.of_nat (length expired) = max ∧ 0 < max ∨
   ∀ id t, ca_cache d' !! id = Some t → keep t = true → now < tr_SendBy t).
Proof.
  intros Hwf. unfold TakeExpiredTraces.
  destruct (take_loop_spec (S (q_Len (ca_pq d))) now max keep d d [] []) as (d' & exp & sk & E & Hinv & Hend);
    [done|by apply loop_inv_init|rewrite q_len_view; lia|].
  rewrite E. destruct Hinv as [I1 I2 I3 I4 I5 I6 I7 I8 I9]. simpl.
  assert (Hrev : ∀ id, id ∈ tr_TraceID <$> reverse exp ↔ id ∈ tr_TraceID <$> exp).
  { intros id. by rewrite fmap_reverse, elem_of_reverse. }
  split_and!.
  - intros id t Hid. simpl in *. rewrite I1 in Hid. case_decide as Hn; [done|].
    destruct (Hwf id t Hid) as [Ht _]. split; [done|]. rewrite push_all_view.
    destruct (I4 id t Hid) as [?|[Hs|Hq]]; [done| |by rewrite Hq].
    rewrite <-Ht, (I5 t) by tauto.
    assert (Hin : t ∈ filter (λ u, tr_TraceID u = tr_TraceID t) (reverse sk)).
    { apply list_elem_of_filter. split; [done|]. by apply elem_of_reverse. }
    destruct (filter _ (reverse sk)) as [|u us] eqn:Ef; [set_solver|]. simpl.
    assert (Hu : u ∈ filter (λ u, tr_TraceID u = tr_TraceID t) (reverse sk)) by (rewrite Ef; set_solver).
    apply list_elem_of_filter in Hu as [Eu Hu]. rewrite elem_of_reverse in Hu.
    apply I3 in Hu as (Hu & _). apply I3 in Hs as (Hs & _). congruence.
  - rewrite fmap_reverse. by rewrite reverse_Permutation.
  - clear -I8. induction I8 as [|t l _ IH Ht]; [constructor|]. rewrite reverse_cons.
    apply StronglySorted_app_2; [|done|repeat constructor].
    intros u v Hu Hv%list_elem_of_singleton. rewrite elem_of_reverse in Hu. subst.
    rewrite Forall_forall in Ht. by apply Ht.
  - intros t Ht. rewrite elem_of_reverse in Ht. by apply I2.
  - intros id. rewrite I1. destruct (decide (id ∈ tr_TraceID <$> exp)).
    + by rewrite decide_True by by apply Hrev.
    + by rewrite decide_False by by rewrite Hrev.
  - by rewrite length_reverse.
  - rewrite length_reverse. destruct Hend as [[? ?]|Hleft]; [by left|right].
    intros id t Hid Hk. rewrite I1 in Hid. case_decide as Hn; [done|]. by eapply Hleft.
Qed.
(** C24: [TakeExpiredTraces] removes and returns, in the order of [SendBy], traces that are due and
    pass the filter: when fewer than [max] are returned ([max <= 0] is no limit) nothing due that
    passes is left; every other trace stays in the cache, still queued for its [SendBy], those
    the filter refused included. *)
Theorem take_expired_correct now max (keep : Trace P → bool) d :
  cache_wf d →
  let '(d', expired, _) := TakeExpiredTraces now max keep d in
  cache_wf d' ∧
  NoDup (tr_TraceID <$> expired) ∧ StronglySorted (λ t u, tr_SendBy t ≤ tr_SendBy u) expired ∧
  (∀ t, t ∈ expired → ca_cache d !! tr_TraceID t = Some t ∧ tr_SendBy t ≤ now ∧ keep t = true) ∧
  (∀ id, ca_cache d' !! id = if decide (id ∈ tr_TraceID <$> expired) then None else ca_cache d !! id) ∧
  (0 < max → Z.of_nat (length expired) ≤ max) ∧
  (Z.of_nat (length expired) = max ∧ 0 < max ∨
   ∀ id t, ca_cache d' !! id = Some t → keep t = true → now < tr_SendBy t).
Proof. apply TakeExpiredTraces_facts. Qed.
End CacheCorrect.

(** ** A concrete queue, for evaluating examples: a finite map, popped by its least value *)

Module TraceCacheExamples.
Definition value_le (a b : string * Z) : Prop := a.2 ≤ b.2.
#[local] Instance value_le_dec : RelDecision value_le.
Proof. intros a b. unfold value_le. apply _. Defined.
#[local] Instance value_le_total : Total value_le.
Proof. intros a b. unfold value_le. lia. Qed.
#[local] Instance value_le_trans : Transitive value_le.
Proof. intros a b c. unfold value_le. lia. Qed.

#[export] Instance map_kpq : KPQ (gmap string Z) := {|
  q_New := ∅;
  q_Len := size;
  q_Set := λ q k v, <[k := v]> q;
  q_Push := λ q k v, match q !! k with Some _ => q | None => <[k := v]> q end;
  q_Pop := λ q, match merge_sort value_le (map_to_list q) with
                | [] => None
                | (k, v) :: _ => Some (k, v, delete k q)
                end;
  q_Remove := λ q k, delete k q |}.

#[export] Instance map_kpq_laws : KPQLaws (gmap string Z).
Proof.
  refine {| q_view := λ q, q |}; simpl; try done.
  - intros q. assert (Hp := merge_sort_Permutation value_le (map_to_list q)).
    destruct (merge_sort value_le (map_to_list q)) as [|[k v] l] eqn:E; split; intros Hq; try done.
    + apply Permutation_nil, map_to_list_empty_iff in Hp. done.
    + subst. rewrite map_to_list_empty in E. done.
  - intros q k v q'. assert (Hp := merge_sort_Permutation value_le (map_to_list q)).
    assert (Hs := StronglySorted_merge_sort value_le (map_to_list q)).
    destruct (merge_sort value_le (map_to_list q)) as [|[k0 v0] l]; [done|]. intros [= -> -> <-].
    split_and!; [|done|].
    + apply elem_of_map_to_list. rewrite <-Hp. set_solver.
    + intros k' v' Hk. apply elem_of_map_to_list in Hk. rewrite <-Hp in Hk.
      apply elem_of_cons in Hk as [[= -> ->]|Hk]; [done|].
      apply StronglySorted_inv in Hs as [_ Hf]. rewrite Forall_forall in Hf.
      exact (Hf (k', v') Hk).
Defined.

Definition at_time (id : string) (sendBy : Z) : Trace (gmap string value) :=
  mkTrace "" "key" "dataset" id "env" 0 false false 0 "" sendBy 100 None 0 [] 0 0 0 0.
Definition three_traces : DefaultInMemCache (gmap string Z) (gmap string value) :=
  Cache_Set (Cache_Set (Cache_Set (NewInMemCache).1 (at_time "t1" 300)) (at_time "t2" 200)) (at_time "t3" 100).

Lemma three_traces_wf : cache_wf three_traces.
Proof. repeat apply cache_wf_set. apply cache_wf_new. Qed.

Lemma take_expired_correct_witness :
  (TakeExpiredTraces 250 0 (λ _, true) three_traces).1.2 = [at_time "t3" 100; at_time "t2" 200] ∧
  cache_wf (TakeExpiredTraces 250 0 (λ _, true) three_traces).1.1.
Proof.
  split; [by vm_compute|].
  pose proof (take_expired_correct 250 0 (λ _, true) three_traces three_traces_wf) as E.
  destruct (TakeExpiredTraces 250 0 (λ _, true) three_traces) as [[d' l] ops].
  exact (proj1 E).
Defined.
End TraceCacheExamples.
