(* ===== verification/SentCache.v ===== *)
(** collect/cache/: what a node remembers of the traces it has decided.

    kept_reasons_cache.go is [KeptReasons], cuckoo.go [Checker], cuckooSentCache.go [SentCache].
    Third-party: the LRU cache (hashicorp/golang-lru), a class over its entries from the oldest
    to the newest; the cuckoo filter (panmari/cuckoofilter), a class whose law is that a
    successful insertion is found and loses nothing.  The LRU's values are pointers, counted
    through after they are stored: locations in the heap [sn_entries].
    How much of its queue [drain] gets through in its millisecond is an argument. *)
From S2P Require Import Prelude GoValue Metrics Generics Event Config TraceKey.

(** ** KeptReasonsCache *)

Module KeptReasons.
Record t := mk { data : list string; keys : gmap Z Z; hashSeed : Z }.

Section ops.
Context `{GoWyhash}.
Implicit Types (c : t).

Definition NewKeptReasonsCache (seed : Z) : t := mk [] ∅ seed.

Definition Set_ c (key : string) : t * Z * list metric_op :=
  let hash := wyhash key (hashSeed c) in
  match keys c !! hash with
  | Some val => (c, val, [])
  | None =>
      let data := data c ++ [key] in
      let val := u32 (Z.of_nat (length data)) in
      (mk data (<[hash := val]> (keys c)) (hashSeed c), val, [MIncrement "collect_sent_reasons_cache_entries"])
  end.

Definition Get c (key : Z) : option string :=
  if key =? 0 then None
  else if Z.of_nat (length (data c)) <? s64 key then None
  else data c !! Z.to_nat (key - 1).

(** Every hash is that of the reason its value names. *)
Definition wf c : Prop :=
  Z.of_nat (length (data c)) < 2 ^ 32 - 1 ∧
  ∀ h v, keys c !! h = Some v → ∃ r, Get c v = Some r ∧ wyhash r (hashSeed c) = h.

Lemma wf_new seed : wf (NewKeptReasonsCache seed).
Proof. split; [done|]. intros h v. simpl. by rewrite lookup_empty. Qed.

Lemma Get_app c v r s k h :
  0 ≤ v < 2 ^ 32 → Get c v = Some r → Get (mk (data c ++ [s]) k h) v = Some r.
Proof.
  intros Hv. unfold Get. simpl. rewrite s64_id by (unfold in_s64; lia). rewrite length_app. simpl.
  destruct (Z.eqb_spec v 0); [done|]. destruct (Z.ltb_spec (Z.of_nat (length (data c))) v); [done|].
  rewrite (proj2 (Z.ltb_ge _ _)) by lia. intros E. by apply lookup_app_l_Some.
Qed.

Lemma Get_last c s k h :
  Z.of_nat (length (data c)) < 2 ^ 32 - 1 →
  Get (mk (data c ++ [s]) k h) (Z.of_nat (length (data c)) + 1) = Some s.
Proof.
  intros Hl. unfold Get. simpl. rewrite s64_id by (unfold in_s64; lia). rewrite length_app. simpl.
  rewrite (proj2 (Z.eqb_neq _ _)), (proj2 (Z.ltb_ge _ _)) by lia.
  replace (Z.to_nat _) with (length (data c)) by lia.
  by rewrite lookup_app_r, Nat.sub_diag by done.
Qed.

(** What is read under a key stays, and so does well-formedness, while the keys fit. *)
Lemma Set_keeps c key :
  (∀ v r, 0 ≤ v < 2 ^ 32 → Get c v = Some r → Get (Set_ c key).1.1 v = Some r) ∧
  (wf c → Z.of_nat (length (data c)) < 2 ^ 32 - 2 → (∀ h v, keys c !! h = Some v → 0 ≤ v < 2 ^ 32) →
   wf (Set_ c key).1.1 ∧ (∀ h v, keys (Set_ c key).1.1 !! h = Some v → 0 ≤ v < 2 ^ 32)) ∧
  (length (data (Set_ c key).1.1) <= S (length (data c)))%nat ∧
  (∀ r, r ∈ data (Set_ c key).1.1 → r ∈ data c ∨ r = key) ∧ hashSeed (Set_ c key).1.1 = hashSeed c.
Proof.
  unfold Set_. destruct (keys c !! wyhash key (hashSeed c)) as [val|] eqn:E; cbn [fst].
  { split_and!; try done; [lia|by left]. }
  split_and!; try done.
  - intros v r Hv. by apply Get_app.
  - intros [Hlen Hkeys] Hl Hr. rewrite length_app. simpl. rewrite u32_id by (unfold in_u32; lia).
    replace (Z.of_nat (length (data c) + 1)) with (Z.of_nat (length (data c)) + 1) by lia.
    split; [split; simpl; [rewrite length_app; simpl; lia|]|]; intros h v; simpl;
      (destruct (decide (h = wyhash key (hashSeed c))) as [->|]; [rewrite lookup_insert_eq|rewrite lookup_insert_ne by done]).
    + intros [= <-]. exists key. split; [by apply Get_last|done].
    + intros Hv. destruct (Hkeys _ _ Hv) as (r & Er & Eh). exists r. split; [|done]. apply Get_app; [by eapply Hr|done].
    + intros [= <-]. lia.
    + apply Hr.
  - simpl. rewrite length_app. simpl. lia.
  - simpl. intros r. set_solver.
Qed.

(** What [Set_] returns reads back as the reason, unless another reason has its hash. *)
Lemma Set_get c key :
  wf c → Z.of_nat (length (data c)) < 2 ^ 32 - 2 →
  (∀ r v, Get c v = Some r → wyhash r (hashSeed c) = wyhash key (hashSeed c) → r = key) →
  (∀ h v, keys c !! h = Some v → 0 ≤ v < 2 ^ 32) →
  let '(c', v, _) := Set_ c key in
  Get c' v = Some key ∧ wf c' ∧ 0 ≤ v < 2 ^ 32 ∧ (∀ h v, keys c' !! h = Some v → 0 ≤ v < 2 ^ 32) ∧
  (∀ v r, 0 ≤ v < 2 ^ 32 → Get c v = Some r → Get c' v = Some r).
Proof.
  intros [Hlen Hkeys] Hl Hcol Hr. unfold Set_. destruct (keys c !! wyhash key (hashSeed c)) as [v|] eqn:E.
  - destruct (Hkeys _ _ E) as (r & Er & Eh). rewrite (Hcol r v Er Eh) in Er.
    split_and!; try done; by eapply Hr.
  - rewrite length_app. simpl. rewrite u32_id by (unfold in_u32; lia).
    replace (Z.of_nat (length (data c) + 1)) with (Z.of_nat (length (data c)) + 1) by lia.
    split_and!; [by apply Get_last| |lia|lia| |].
    + split; simpl; [rewrite length_app; simpl; lia|]. intros h v.
      destruct (decide (h = wyhash key (hashSeed c))) as [->|].
      * rewrite lookup_insert_eq. intros [= <-]. exists key. split; [by apply Get_last|done].
      * rewrite lookup_insert_ne by done. intros Hv. destruct (Hkeys _ _ Hv) as (r & Er & Eh).
        exists r. split; [|done]. apply Get_app; [by eapply Hr|done].
    + simpl. intros h v. destruct (decide (h = wyhash key (hashSeed c))) as [->|].
      * rewrite lookup_insert_eq. intros [= <-]. lia.
      * rewrite lookup_insert_ne by done. apply Hr.
    + intros v r Hv. by apply Get_app.
Qed.
End ops.
End KeptReasons.

(** ** CuckooTraceChecker *)

Class GoCuckoo (F : Type) := {
  ck_NewFilter : Z → F;
  ck_Insert : F → string → bool * F;
  ck_Lookup : F → string → bool;
  ck_LoadFactor : F → float64;
}.

Class GoCuckooLaws F `{GoCuckoo F} := {
  ck_insert_lookup : ∀ f s f', ck_Insert f s = (true, f') →
    ck_Lookup f' s = true ∧ ∀ s', ck_Lookup f s' = true → ck_Lookup f' s' = true;
}.

Module Checker.
Definition AddQueueDepth : nat := 1000.

Record t (F : Type) := mk {
  current : F; future : option F; capacity : Z; addch : list string }.
Arguments mk {F}. Arguments current {F}. Arguments future {F}. Arguments capacity {F}. Arguments addch {F}.

Section ops.
Context {F : Type} `{GoCuckoo F}.
Implicit Types (c : t F).

Definition NewCuckooTraceChecker (cap : Z) : t F * list metric_op :=
  (mk (ck_NewFilter cap) None cap [],
   [MRegister "cuckoo_current_capacity" Gauge; MRegister "cuckoo_future_load_factor" Gauge;
    MRegister "cuckoo_current_load_factor" Gauge; MRegister "cuckoo_addqueue_full" Counter;
    MRegister "cuckoo_addqueue_locktime_uS" Histogram]).

Definition insert_one c (id : string) : t F :=
  mk (ck_Insert (current c) id).2 ((λ f, (ck_Insert f id).2) <$> future c) (capacity c) (addch c).

(** [k]: how many are handled before the timer fires. *)
Definition drain (k : nat) (lockTime : Z) c : t F * list metric_op :=
  match addch c with
  | [] => (c, [])
  | _ =>
      let c' := foldl insert_one c (take k (addch c)) in
      (mk (current c') (future c') (capacity c') (drop k (addch c)),
       [MHistogram "cuckoo_addqueue_locktime_uS" (f64_of_Z lockTime)])
  end.

Definition Add c (traceID : string) : t F * list metric_op :=
  if (length (addch c) <? AddQueueDepth)%nat
  then (mk (current c) (future c) (capacity c) (addch c ++ [traceID]), [])
  else (c, [MUp "cuckoo_addqueue_full"]).

Definition Check_ c (traceID : string) : bool := ck_Lookup (current c) traceID.

Definition half : float64 := SpecFloat.S754_finite false 4503599627370496 (-53).
(** 0.99 *)
Definition almost_full : float64 := SpecFloat.S754_finite false 8917127262193582 (-53).

Definition Maintain (k : nat) (lockTime : Z) c : t F * list metric_op :=
  let '(c, ops) := drain k lockTime c in
  let load := ck_LoadFactor (current c) in
  let ops := ops ++ [MGauge "cuckoo_current_load_factor" load] ++
    match future c with Some f => [MGauge "cuckoo_future_load_factor" (ck_LoadFactor f)] | None => [] end ++
    [MGauge "cuckoo_current_capacity" (f64_of_Z (capacity c))] in
  let c := match future c with
           | None => if f64_ltb half load
                     then mk (current c) (Some (ck_NewFilter (capacity c))) (capacity c) (addch c) else c
           | Some _ => c
           end in
  match future c with
  | Some f =>
      if f64_ltb almost_full load
      then (mk f (Some (ck_NewFilter (capacity c))) (capacity c) (addch c), ops)
      else (c, ops)
  | None => (c, ops)
  end.

Definition SetNextCapacity c (cap : Z) : t F := mk (current c) (future c) cap (addch c).

(** The worker goroutine is stopped, then the queue is drained until it is empty. *)
Definition Stop c : t F :=
  let c' := foldl insert_one c (addch c) in mk (current c') (future c') (capacity c') [].
End ops.

(** ** An ID survives one rotation of the filters *)

Section rotation.
Context {F : Type} `{GoCuckooLaws F}.
Implicit Types (c : t F).

(** Every insertion of the list is accepted by both filters. *)
Fixpoint accepted c (ids : list string) : Prop :=
  match ids with
  | [] => True
  | id :: ids =>
      (ck_Insert (current c) id).1 = true ∧ (∀ f, future c = Some f → (ck_Insert f id).1 = true) ∧
      accepted (insert_one c id) ids
  end.

Definition in_both c (id : string) : Prop :=
  ck_Lookup (current c) id = true ∧ ∃ f, future c = Some f ∧ ck_Lookup f id = true.

Lemma insert_keeps (f : F) id s : (ck_Insert f id).1 = true →
  ck_Lookup (ck_Insert f id).2 id = true ∧ (ck_Lookup f s = true → ck_Lookup (ck_Insert f id).2 s = true).
Proof.
  destruct (ck_Insert f id) as [b f'] eqn:E. simpl. intros ->.
  destruct (ck_insert_lookup _ _ _ E) as [H1 H2]. auto.
Qed.

Lemma insert_all_spec ids c id :
  accepted c ids →
  let c' := foldl insert_one c ids in
  capacity c' = capacity c ∧ (is_Some (future c) ↔ is_Some (future c')) ∧
  (ck_Lookup (current c) id = true ∨ id ∈ ids → ck_Lookup (current c') id = true) ∧
  (in_both c id ∨ (id ∈ ids ∧ is_Some (future c)) → in_both c' id).
Proof.
  cbv zeta. revert c. induction ids as [|i ids IH]; intros c Hacc; cbn [foldl].
  { split_and!; [done|done|set_solver|set_solver]. }
  destruct Hacc as (H1 & H2 & H3). destruct (IH (insert_one c i) H3) as (I1 & I2 & I3 & I4). clear IH.
  destruct (insert_keeps (current c) i id H1) as [K1 K2]. split_and!; [done| | |].
  - rewrite <-I2. simpl. by destruct (future c).
  - intros [Hc|[->|Hin]%elem_of_cons]; apply I3; [left; by apply K2|by left|by right].
  - intros [(Hc & f & Hf & Hl)|[[->|Hin]%elem_of_cons Hf]]; apply I4.
    + left. split; [by apply K2|]. exists (ck_Insert f i).2. simpl. rewrite Hf.
      split; [done|]. by apply (insert_keeps f i id (H2 f Hf)).
    + left. destruct Hf as [f Hf]. split; [exact K1|]. exists (ck_Insert f i).2. simpl. rewrite Hf.
      split; [done|]. exact (proj1 (insert_keeps f i i (H2 f Hf))).
    + right. split; [done|]. destruct Hf as [f Hf]. simpl. by rewrite Hf.
Qed.

(** The pair of filters forgets a dropped trace no earlier than the second rotation after it
    was recorded: an ID drained while a future filter exists is in both filters, a maintenance
    keeps it findable whether or not it rotates the filters, and only a rotation takes it out
    of one of them (as long as the filters accept the insertions). *)
Theorem checker_rotation c id k lockTime :
  accepted c (take k (addch c)) →
  let drained := (drain k lockTime c).1 in
  let maintained := (Maintain k lockTime c).1 in
  (id ∈ take k (addch c) → Check_ drained id = true) ∧
  (id ∈ take k (addch c) → is_Some (future c) → in_both drained id) ∧
  (Check_ c id = true → Check_ drained id = true) ∧
  (in_both c id ∨ (id ∈ take k (addch c) ∧ is_Some (future c)) → Check_ maintained id = true) ∧
  (Check_ drained id = true → f64_ltb almost_full (ck_LoadFactor (current drained)) = false →
     Check_ maintained id = true) ∧
  (∀ id', in_both c id' → in_both (Add c id).1 id').
Proof.
  intros Hacc. cbv zeta.
  destruct (insert_all_spec (take k (addch c)) c id Hacc) as (I1 & I2 & I3 & I4).
  assert (Hd : current (drain k lockTime c).1 = current (foldl insert_one c (take k (addch c))) ∧
               future (drain k lockTime c).1 = future (foldl insert_one c (take k (addch c)))).
  { unfold drain. destruct (addch c); [by rewrite take_nil|done]. }
  destruct Hd as [Hcur Hfut]. unfold Check_, in_both in *. rewrite Hcur, Hfut.
  split_and!; [tauto|tauto|tauto| | |].
  - intros Hin. destruct (I4 Hin) as (Hc & f & Hf & Hl). unfold Maintain.
    destruct (drain k lockTime c) as [d ops]. simpl in *.
    assert (Ef : future d = Some f) by congruence. rewrite !Ef.
    destruct (f64_ltb almost_full _); simpl; congruence.
  - intros Hc Hl. unfold Maintain. destruct (drain k lockTime c) as [d ops]. simpl in *.
    rewrite <-Hcur in Hl, Hc. destruct (future d) as [f|] eqn:Ef; simpl.
    + rewrite Ef, Hl. done.
    + destruct (f64_ltb half _); simpl; [by rewrite Hl|by rewrite Ef].
  - intros id' Hb. unfold Add. by destruct (_ <? _)%nat.
Qed.
End rotation.
End Checker.

(** ** The LRU cache *)

Class GoLRU (L : Type) := {
  lru_New : Z → option L;
  lru_Add : L → string → nat → L;
  lru_Get : L → string → L * option nat;
  lru_Keys : L → list string;
}.

(** Oldest first: an addition goes to the end, pushing out the first entry of a full cache. *)
Definition lru_drop (l : list (string * nat)) (k : string) : list (string * nat) := filter (λ e, e.1 ≠ k) l.
Definition lru_find (l : list (string * nat)) (k : string) : option nat := (list_to_map l : gmap string nat) !! k.
Definition lru_add_spec (cap : nat) (l : list (string * nat)) (k : string) (v : nat) : list (string * nat) :=
  let rest := lru_drop l k in
  (if (length rest <? cap)%nat then rest else drop 1 rest) ++ [(k, v)].

Class GoLRULaws L `{GoLRU L} := {
  lru_view : L → list (string * nat);
  lru_cap : L → nat;
  lru_nodup : ∀ l, NoDup (lru_view l).*1;
  lru_bounded : ∀ l, (0 < lru_cap l)%nat ∧ (length (lru_view l) <= lru_cap l)%nat;
  lru_new_view : ∀ n, match lru_New n with
    | Some l => 0 < n ∧ lru_view l = [] ∧ lru_cap l = Z.to_nat n
    | None => n ≤ 0 end;
  lru_add_view : ∀ l k v, lru_view (lru_Add l k v) = lru_add_spec (lru_cap l) (lru_view l) k v ∧
                          lru_cap (lru_Add l k v) = lru_cap l;
  lru_get_view : ∀ l k, (lru_Get l k).2 = lru_find (lru_view l) k ∧
    lru_cap (lru_Get l k).1 = lru_cap l ∧
    lru_view (lru_Get l k).1 =
      match lru_find (lru_view l) k with
      | Some v => lru_drop (lru_view l) k ++ [(k, v)]
      | None => lru_view l
      end;
  lru_keys_view : ∀ l, lru_Keys l = (lru_view l).*1;
}.

(** ** cuckooSentCache *)

Record keptTraceCacheEntry := mkEntry {
  en_rate : Z; en_reason : Z; en_eventCount : Z; en_spanEventCount : Z; en_spanLinkCount : Z; en_spanCount : Z }.

(** The interface TraceSentRecord: the one dropped record, or a kept entry. *)
Inductive TraceSentRecord := DroppedRecord | KeptRecord (e : keptTraceCacheEntry).

Definition Kept (r : TraceSentRecord) : bool := match r with DroppedRecord => false | KeptRecord _ => true end.
Definition Rate (r : TraceSentRecord) : Z := match r with DroppedRecord => 0 | KeptRecord e => en_rate e end.
Definition Rec_DescendantCount (r : TraceSentRecord) : Z :=
  match r with DroppedRecord => 0 | KeptRecord e => en_eventCount e end.
Definition Rec_SpanEventCount (r : TraceSentRecord) : Z :=
  match r with DroppedRecord => 0 | KeptRecord e => en_spanEventCount e end.
Definition Rec_SpanLinkCount (r : TraceSentRecord) : Z :=
  match r with DroppedRecord => 0 | KeptRecord e => en_spanLinkCount e end.
Definition Rec_SpanCount (r : TraceSentRecord) : Z :=
  match r with DroppedRecord => 0 | KeptRecord e => en_spanCount e end.

Record cuckooSentCache (F L : Type) := mkSent {
  sn_kept : L;
  sn_entries : list keptTraceCacheEntry;
  sn_dropped : Checker.t F;
  sn_recentDroppedIDs : SetTTL.t (T := string);
  sn_keptReasons : KeptReasons.t }.
Arguments mkSent {F L}. Arguments sn_kept {F L}. Arguments sn_entries {F L}. Arguments sn_dropped {F L}.
Arguments sn_recentDroppedIDs {F L}. Arguments sn_keptReasons {F L}.

Section SentCache.
Context {F L P : Type} `{GoCuckoo F, GoLRU L, GoWyhash} `{!PayloadOps P}.
Implicit Types (c : cuckooSentCache F L) (t : Trace P) (sp : Span P) (now : Z).

(** The counts are asked of the trace, which memoizes them. *)
Definition NewKeptTraceCacheEntry t : keptTraceCacheEntry * Trace P :=
  let events := DescendantCount t in
  let '(spanEvents, t) := SpanEventCount t in
  let '(links, t) := SpanLinkCount t in
  let '(spans, t) := SpanCount t in
  (mkEntry (u32 (tr_sampleRate t)) (u32 (tr_keptReason t)) events spanEvents links spans, t).

(** [Count] through the record's pointer. *)
Definition Entry_Count (e : keptTraceCacheEntry) sp : keptTraceCacheEntry * Span P :=
  let '(a, sp) := AnnotationType sp in
  let '(spans, events, links) := count_one (en_spanCount e, en_spanEventCount e, en_spanLinkCount e) a in
  (mkEntry (en_rate e) (en_reason e) (u32 (en_eventCount e + 1)) events links spans, sp).

Definition recentTTL : Z := 3 * 1000000000.

Definition NewCuckooSentCache (cfg : SampleCacheConfig) (seed : Z) : option (cuckooSentCache F L * list metric_op) :=
  match lru_New (s64 (GetKeptSizePerWorker cfg)) with
  | None => None
  | Some stc =>
      let '(dropped, ops) := Checker.NewCuckooTraceChecker (GetDroppedSizePerWorker cfg) in
      Some (mkSent stc [] dropped (SetTTL.NewSetWithTTL 0 recentTTL []) (KeptReasons.NewKeptReasonsCache seed),
            ops ++ [MRegister "cache_recent_dropped_traces" Gauge;
                    MRegister "collect_sent_reasons_cache_entries" Histogram])
  end.

(** One tick of the monitor goroutine. *)
Definition monitor_tick now (k : nat) (lockTime : Z) c : cuckooSentCache F L * list metric_op :=
  let '(dropped, ops) := Checker.Maintain k lockTime (sn_dropped c) in
  let '(recent, n) := SetTTL.Length now (sn_recentDroppedIDs c) in
  (mkSent (sn_kept c) (sn_entries c) dropped recent (sn_keptReasons c),
   ops ++ [MGauge "cache_recent_dropped_traces" (f64_of_Z n)]).

Definition SentCache_Stop c : cuckooSentCache F L :=
  mkSent (sn_kept c) (sn_entries c) (Checker.Stop (sn_dropped c)) (sn_recentDroppedIDs c) (sn_keptReasons c).

Definition SentCache_Record now c t (keep : bool) (reason : string)
    : cuckooSentCache F L * Trace P * list metric_op :=
  if keep then
    let '(reasons, key, ops) := KeptReasons.Set_ (sn_keptReasons c) reason in
    let '(e, t) := NewKeptTraceCacheEntry (tr_set_keptReason t key) in
    (mkSent (lru_Add (sn_kept c) (tr_TraceID t) (length (sn_entries c))) (sn_entries c ++ [e])
       (sn_dropped c) (sn_recentDroppedIDs c) reasons, t, ops)
  else
    let recent := SetTTL.Add now (sn_recentDroppedIDs c) [tr_TraceID t] in
    let '(dropped, ops) := Checker.Add (sn_dropped c) (tr_TraceID t) in
    (mkSent (sn_kept c) (sn_entries c) dropped recent (sn_keptReasons c), t, ops).

Definition set_recent c recent : cuckooSentCache F L :=
  mkSent (sn_kept c) (sn_entries c) (sn_dropped c) recent (sn_keptReasons c).

Definition kept_reason c (e : keptTraceCacheEntry) : string :=
  default "" (KeptReasons.Get (sn_keptReasons c) (en_reason e)).

Definition CheckSpan now c sp : cuckooSentCache F L * Span P * option (TraceSentRecord * string) :=
  let id := sp_TraceID sp in
  let refreshed := set_recent c (SetTTL.Add now (sn_recentDroppedIDs c) [id]) in
  if SetTTL.Contains now (sn_recentDroppedIDs c) id then (refreshed, sp, Some (DroppedRecord, ""))
  else if Checker.Check_ (sn_dropped c) id then (refreshed, sp, Some (DroppedRecord, ""))
  else
    let '(kept, found) := lru_Get (sn_kept c) id in
    let c := mkSent kept (sn_entries c) (sn_dropped c) (sn_recentDroppedIDs c) (sn_keptReasons c) in
    match found with
    | None => (c, sp, None)
    | Some loc =>
        match sn_entries c !! loc with
        | None => (c, sp, None)
        | Some e =>
            let '(e, sp) := Entry_Count e sp in
            (mkSent kept (<[loc := e]> (sn_entries c)) (sn_dropped c) (sn_recentDroppedIDs c) (sn_keptReasons c),
             sp, Some (KeptRecord e, kept_reason c e))
        end
    end.

Definition CheckTrace c (traceID : string) : cuckooSentCache F L * option (TraceSentRecord * string) :=
  if Checker.Check_ (sn_dropped c) traceID then (c, Some (DroppedRecord, ""))
  else
    let '(kept, found) := lru_Get (sn_kept c) traceID in
    let c := mkSent kept (sn_entries c) (sn_dropped c) (sn_recentDroppedIDs c) (sn_keptReasons c) in
    (c, loc ← found; e ← sn_entries c !! loc; Some (KeptRecord e, kept_reason c e)).

(** Copies the keys given, oldest first, each [Get] making the key the newest of the old cache. *)
Fixpoint copy_keys (keys : list string) (old new : L) : L * L :=
  match keys with
  | [] => (old, new)
  | k :: keys =>
      let '(old, found) := lru_Get old k in
      copy_keys keys old (match found with Some v => lru_Add new k v | None => new end)
  end.

(** [None] is lru.New's error. *)
Definition Resize c (cfg : SampleCacheConfig) : option (cuckooSentCache F L) :=
  let keptSize := s64 (GetKeptSizePerWorker cfg) in
  match lru_New keptSize with
  | None => None
  | Some stc =>
      let keys := lru_Keys (sn_kept c) in
      let keys := if keptSize <? Z.of_nat (length keys) then drop (length keys - Z.to_nat keptSize) keys else keys in
      Some (mkSent (copy_keys keys (sn_kept c) stc).2 (sn_entries c)
              (Checker.SetNextCapacity (sn_dropped c) (GetDroppedSizePerWorker cfg))
              (sn_recentDroppedIDs c) (sn_keptReasons c))
  end.
End SentCache.

(** ** Lists as LRU contents *)

Section LruLists.
Lemma lru_find_cons e l k : lru_find (e :: l) k = if decide (e.1 = k) then Some e.2 else lru_find l k.
Proof.
  unfold lru_find. destruct e as [k' v]. simpl. case_decide as Hk.
  - subst. by rewrite lookup_insert_eq.
  - by rewrite lookup_insert_ne.
Qed.

Lemma lru_find_app l1 l2 k :
  lru_find (l1 ++ l2) k = match lru_find l1 k with Some v => Some v | None => lru_find l2 k end.
Proof.
  induction l1 as [|e l1 IH]; [done|]. cbn [app]. rewrite !lru_find_cons. by case_decide.
Qed.

Lemma lru_find_drop l k k' : lru_find (lru_drop l k) k' = if decide (k' = k) then None else lru_find l k'.
Proof.
  unfold lru_drop. induction l as [|e l IH]; [by case_decide|].
  rewrite filter_cons, (lru_find_cons e l). destruct (decide (e.1 = k)) as [Hk|Hk].
  - rewrite decide_False by tauto. rewrite IH. repeat case_decide; congruence.
  - rewrite decide_True by done. rewrite lru_find_cons, IH. repeat case_decide; congruence.
Qed.

Lemma lru_find_None l k : k ∉ l.*1 → lru_find l k = None.
Proof. intros Hk. by apply not_elem_of_list_to_map_1. Qed.

Lemma lru_drop_fresh l k : k ∉ l.*1 → lru_drop l k = l.
Proof.
  intros Hk. apply filter_all, Forall_forall. intros e He <-. apply Hk, list_elem_of_fmap. eauto.
Qed.

Lemma lru_find_Some l k : k ∈ l.*1 → is_Some (lru_find l k).
Proof.
  induction l as [|e l IH]; simpl; [set_solver|]. rewrite lru_find_cons.
  intros [->|Hk]%elem_of_cons; [by rewrite decide_True|]. case_decide; [done|by apply IH].
Qed.
End LruLists.

Section SentCorrect.
Context {F L P : Type} `{GoCuckooLaws F, GoLRULaws L, GoWyhash} `{!PayloadOps P}.
Implicit Types (c : cuckooSentCache F L) (t : Trace P) (sp : Span P) (now : Z).

(** The record of [id] is [e], and neither cache of dropped traces claims [id]. *)
Definition tracked c (id : string) (loc : nat) (e : keptTraceCacheEntry) : Prop :=
  lru_find (lru_view (sn_kept c)) id = Some loc ∧ sn_entries c !! loc = Some e ∧
  Checker.Check_ (sn_dropped c) id = false ∧ SetTTL.Items (sn_recentDroppedIDs c) !! id = None.

Lemma CheckSpan_tracked c now sp loc e :
  tracked c (sp_TraceID sp) loc e →
  ∃ c', CheckSpan now c sp = (c', (Entry_Count e sp).2, Some (KeptRecord (Entry_Count e sp).1, kept_reason c (Entry_Count e sp).1)) ∧
    tracked c' (sp_TraceID sp) loc (Entry_Count e sp).1 ∧ sn_keptReasons c' = sn_keptReasons c.
Proof.
  intros (Hf & He & Hd & Hr). unfold CheckSpan, SetTTL.Contains. rewrite Hr, Hd.
  destruct (lru_get_view (sn_kept c) (sp_TraceID sp)) as (G1 & G2 & G3).
  destruct (lru_Get (sn_kept c) (sp_TraceID sp)) as [kept found]. simpl in *. rewrite Hf in G1, G3. subst found.
  rewrite He. destruct (Entry_Count e sp) as [e' sp']. eexists. split; [done|].
  split; [|done]. unfold tracked. simpl. rewrite G3, lru_find_app, lru_find_drop, decide_True by done.
  rewrite lru_find_cons, decide_True by done. split_and!; [done| |done|done].
  apply list_lookup_insert_eq. by eapply lookup_lt_Some.
Qed.

Lemma Entry_Count_spec e sp :
  0 ≤ en_eventCount e < 2 ^ 32 - 1 → 0 ≤ en_spanCount e → 0 ≤ en_spanEventCount e → 0 ≤ en_spanLinkCount e →
  en_spanCount e + en_spanEventCount e + en_spanLinkCount e = en_eventCount e →
  let e' := (Entry_Count e sp).1 in
  en_rate e' = en_rate e ∧ en_reason e' = en_reason e ∧ en_eventCount e' = en_eventCount e + 1 ∧
  0 ≤ en_spanCount e' ∧ 0 ≤ en_spanEventCount e' ∧ 0 ≤ en_spanLinkCount e' ∧
  en_spanCount e' + en_spanEventCount e' + en_spanLinkCount e' = en_eventCount e'.
Proof.
  intros Hev Hs He Hl Hsum. unfold Entry_Count. destruct (AnnotationType sp) as [a sp'].
  destruct a; simpl; rewrite !u32_id by (unfold in_u32; lia); split_and!; (done || lia).
Qed.

(** What a record of [events] descendants, kept at [rate] for [reason], answers. *)
Definition answers (rate : Z) (reason : string) (events : Z) (r : option (TraceSentRecord * string)) : Prop :=
  ∃ e, r = Some (KeptRecord e, reason) ∧ en_rate e = rate ∧ en_eventCount e = events ∧
    en_spanCount e + en_spanEventCount e + en_spanLinkCount e = events.

(** The reason can be recorded: the table is well formed and no other reason has its hash. *)
Definition reason_ready c (reason : string) : Prop :=
  let k := sn_keptReasons c in
  KeptReasons.wf k ∧ Z.of_nat (length (KeptReasons.data k)) < 2 ^ 32 - 2 ∧
  (∀ r v, KeptReasons.Get k v = Some r →
     wyhash r (KeptReasons.hashSeed k) = wyhash reason (KeptReasons.hashSeed k) → r = reason) ∧
  (∀ h v, KeptReasons.keys k !! h = Some v → 0 ≤ v < 2 ^ 32).

Lemma record_tracked c now t reason :
  reason_ready c reason → counts_unset t → Z.of_nat (length (tr_spans t)) < 2 ^ 32 →
  Checker.Check_ (sn_dropped c) (tr_TraceID t) = false →
  SetTTL.Items (sn_recentDroppedIDs c) !! tr_TraceID t = None →
  ∃ c' t' ops loc e, SentCache_Record now c t true reason = (c', t', ops) ∧
    tracked c' (tr_TraceID t) loc e ∧ en_rate e = u32 (tr_sampleRate t) ∧
    KeptReasons.Get (sn_keptReasons c') (en_reason e) = Some reason ∧
    en_eventCount e = Z.of_nat (length (tr_spans t)) ∧
    0 ≤ en_spanCount e ∧ 0 ≤ en_spanEventCount e ∧ 0 ≤ en_spanLinkCount e ∧
    en_spanCount e + en_spanEventCount e + en_spanLinkCount e = en_eventCount e.
Proof.
  intros (Hwf & Hl & Hcol & Hrange) Hunset Hlen Hd Hr. unfold SentCache_Record.
  pose proof (KeptReasons.Set_get (sn_keptReasons c) reason Hwf Hl Hcol Hrange) as Hset.
  destruct (KeptReasons.Set_ (sn_keptReasons c) reason) as [[reasons key] ops].
  destruct Hset as (Hget & _ & Hkey & _).
  unfold NewKeptTraceCacheEntry, SpanEventCount, SpanLinkCount, SpanCount.
  set (u := tr_set_keptReason t key).
  assert (Hu : counts_unset u) by done.
  rewrite (ensure_counts_again u), (ensure_counts_again u) by done.
  destruct (ensure_counts_values u Hu Hlen) as (E1 & E2 & E3 & E4 & E5).
  assert (Er : tr_sampleRate (ensure_counts u) = tr_sampleRate t ∧ tr_keptReason (ensure_counts u) = key
    ∧ tr_TraceID (ensure_counts u) = tr_TraceID t).
  { rewrite ensure_counts_unset by done. unfold calculateSpanCounts.
    destruct (foldl count_one _ _) as [[? ?] ?]. done. }
  destruct Er as (Er1 & Er2 & Er3).
  assert (Hcount : DescendantCount u = Z.of_nat (length (tr_spans t))).
  { unfold DescendantCount. rewrite u32_id by (unfold in_u32; simpl; lia). done. }
  simpl. rewrite ?Er1, ?Er2, ?Er3, ?E1, ?E2, ?E3, Hcount.
  eexists _, _, _, (length (sn_entries c)), _. split; [reflexivity|].
  split; [unfold tracked; simpl; split_and!; [|by rewrite lookup_app_r, Nat.sub_diag by done|done|done]|].
  2: simpl; split_and!; try (apply count_kind_nonneg); try done.
  - destruct (lru_add_view (sn_kept c) (tr_TraceID t) (length (sn_entries c))) as [-> _].
    unfold lru_add_spec. rewrite lru_find_app.
    assert (Hn : lru_find (lru_drop (lru_view (sn_kept c)) (tr_TraceID t)) (tr_TraceID t) = None)
      by (by rewrite lru_find_drop, decide_True).
    assert (Hn' : lru_find (drop 1 (lru_drop (lru_view (sn_kept c)) (tr_TraceID t))) (tr_TraceID t) = None).
    { destruct (lru_drop _ _) as [|x l]; [done|]. rewrite lru_find_cons in Hn. simpl. rewrite drop_0. by case_decide. }
    destruct (_ <? _)%nat; rewrite ?Hn, ?Hn', lru_find_cons, decide_True; done.
  - rewrite u32_id by done. done.
  - pose proof (count_kinds_total (kind_of <$> tr_spans u)) as T. rewrite length_fmap in T. simpl in T. lia.
Qed.

(** A trace none of the caches knows. *)
Definition unknown c (id : string) : Prop :=
  lru_find (lru_view (sn_kept c)) id = None ∧ Checker.Check_ (sn_dropped c) id = false ∧
  SetTTL.Items (sn_recentDroppedIDs c) !! id = None.

Lemma CheckSpan_unknown c now sp : unknown c (sp_TraceID sp) →
  ∃ kept, CheckSpan now c sp = (mkSent kept (sn_entries c) (sn_dropped c) (sn_recentDroppedIDs c) (sn_keptReasons c), sp, None).
Proof.
  intros (Hf & Hd & Hr). unfold CheckSpan, SetTTL.Contains. rewrite Hr, Hd.
  destruct (lru_get_view (sn_kept c) (sp_TraceID sp)) as (G1 & _ & _).
  destruct (lru_Get (sn_kept c) (sp_TraceID sp)) as [kept found]. simpl in G1. rewrite Hf in G1. subst found. by eexists.
Qed.

(** A dropped trace is remembered at once: after the decision to drop is recorded, a span of
    the trace arriving within the three seconds of the recent set finds it dropped and renews
    the three seconds; and once the queue is drained (and the filter accepts it) the filter
    finds it whatever the time. *)
Theorem dropped_trace_found c t reason now later sp :
  sp_TraceID sp = tr_TraceID t → SetTTL.TTL (sn_recentDroppedIDs c) = recentTTL →
  now ≤ later < now + recentTTL →
  let c1 := (SentCache_Record now c t false reason).1.1 in
  (CheckSpan later c1 sp).2 = Some (DroppedRecord, "") ∧
  (∀ later', later ≤ later' < later + recentTTL →
     (CheckSpan later' (CheckSpan later c1 sp).1.1 sp).2 = Some (DroppedRecord, "")) ∧
  (∀ c2, Checker.Check_ (sn_dropped c2) (tr_TraceID t) = true → ∀ anytime,
     (CheckSpan anytime c2 sp).2 = Some (DroppedRecord, "") ∧
     (CheckTrace c2 (tr_TraceID t)).2 = Some (DroppedRecord, "")).
Proof.
  intros Hid Httl Htime. cbv zeta. unfold SentCache_Record.
  destruct (Checker.Add (sn_dropped c) (tr_TraceID t)) as [dropped ops]. simpl.
  assert (Hc : ∀ s n0 n1, SetTTL.TTL s = recentTTL → n1 < n0 + recentTTL →
    SetTTL.Contains n1 (SetTTL.Add n0 s [tr_TraceID t]) (tr_TraceID t) = true).
  { intros s n0 n1 Hs Ht. rewrite SetTTL.Contains_Add, decide_True by set_solver. rewrite Hs. by apply Z.ltb_lt. }
  unfold CheckSpan at 1. simpl. rewrite Hid, Hc by (done || lia). split; [done|]. split.
  - intros later' Hl. unfold CheckSpan at 2. simpl. rewrite Hid, Hc by (done || lia). simpl.
    unfold CheckSpan. simpl. rewrite Hid, Hc by (done || lia). done.
  - intros c2 Hf anytime. unfold CheckSpan, CheckTrace. rewrite Hid, Hf. by destruct (SetTTL.Contains _ _ _).
Qed.
End SentCorrect.

Section ResizeCorrect.
Context {F L P : Type} `{GoCuckoo F, GoLRULaws L, GoWyhash} `{!PayloadOps P}.
Implicit Types (c : cuckooSentCache F L).

Lemma lru_get_find (l : L) k k' : lru_find (lru_view (lru_Get l k).1) k' = lru_find (lru_view l) k'.
Proof.
  destruct (lru_get_view l k) as (_ & _ & ->). destruct (lru_find (lru_view l) k) as [v|] eqn:E; [|done].
  rewrite lru_find_app, lru_find_drop, lru_find_cons. simpl.
  destruct (decide (k' = k)) as [->|Hne]; [by rewrite decide_True|].
  rewrite decide_False by done. by destruct (lru_find (lru_view l) k').
Qed.

(** The value of a key known to be there. *)
Definition lru_at (l : list (string * nat)) (k : string) : string * nat := (k, default 0%nat (lru_find l k)).

Lemma lru_find_at old (keys : list string) i :
  i ∈ keys → is_Some (lru_find old i) → lru_find (lru_at old <$> keys) i = lru_find old i.
Proof.
  intros Hi [v Hv]. induction keys as [|j keys IH]; [set_solver|]. simpl. rewrite lru_find_cons. simpl.
  case_decide as Hj; [subst; by rewrite Hv|]. apply IH. set_solver.
Qed.

Lemma copy_keys_spec (keys : list string) (old new : L) :
  NoDup keys → (∀ k, k ∈ keys → is_Some (lru_find (lru_view old) k)) →
  (∀ k, k ∈ keys → k ∉ (lru_view new).*1) →
  (length (lru_view new) + length keys <= lru_cap new)%nat →
  lru_view (copy_keys keys old new).2 = lru_view new ++ (lru_at (lru_view old) <$> keys) ∧
  lru_cap (copy_keys keys old new).2 = lru_cap new.
Proof.
  revert old new. induction keys as [|k keys IH]; intros old new Hnd Hold Hnew Hcap; cbn [copy_keys].
  { by rewrite app_nil_r. }
  apply NoDup_cons in Hnd as [Hk Hnd].
  pose proof (lru_get_view old k) as (G1 & _ & _). pose proof (lru_get_find old k) as Hfind.
  destruct (lru_Get old k) as [old' found]. simpl in *.
  destruct (Hold k) as [v Hv]; [set_solver|]. rewrite Hv in G1. subst found.
  destruct (lru_add_view new k v) as [A1 A2]. unfold lru_add_spec in A1.
  rewrite (lru_drop_fresh (lru_view new) k) in A1 by (apply Hnew; set_solver).
  assert (Hlt : (length (lru_view new) <? lru_cap new)%nat = true) by (apply Nat.ltb_lt; lia).
  rewrite Hlt in A1. destruct (IH old' (lru_Add new k v)) as [I1 I2]; [done| | | |].
  - intros k' Hk'. rewrite Hfind. apply Hold. set_solver.
  - intros k' Hk'. rewrite A1, fmap_app. simpl. intros [Hin|Hin]%elem_of_app.
    + apply (Hnew k'); [set_solver|done].
    + apply list_elem_of_singleton in Hin as ->. done.
  - rewrite A1, A2, length_app. simpl. lia.
  - rewrite I1, I2, A1, A2. split; [|done]. rewrite <-app_assoc. simpl. f_equal. f_equal.
    + unfold lru_at. by rewrite Hv.
    + apply list_fmap_ext. intros i k' _. unfold lru_at. by rewrite Hfind.
Qed.

Lemma NoDup_drop {A} n (l : list A) : NoDup l → NoDup (drop n l).
Proof. intros Hl. rewrite <-(take_drop n l) in Hl. by apply NoDup_app in Hl as (_ & _ & ?). Qed.

(** Resizing keeps the newest decisions: it fails only for a size that is not positive; otherwise
    the new cache has the configured capacity per worker and holds, oldest first and with their
    records, the newest entries of the old one that fit; the dropped traces, the reasons and the
    records themselves are untouched, and the filter's capacity changes from the next rotation. *)
Lemma resize_keeps_newest c cfg :
  match Resize c cfg with
  | None => s64 (GetKeptSizePerWorker cfg) ≤ 0
  | Some c' =>
      let n := Z.to_nat (s64 (GetKeptSizePerWorker cfg)) in
      let old := lru_view (sn_kept c) in
      lru_cap (sn_kept c') = n ∧
      lru_view (sn_kept c') = lru_at old <$> drop (length old - n) old.*1 ∧
      (∀ k, k ∈ drop (length old - n) old.*1 →
         lru_find (lru_view (sn_kept c')) k = lru_find old k) ∧
      sn_entries c' = sn_entries c ∧ sn_keptReasons c' = sn_keptReasons c ∧
      sn_recentDroppedIDs c' = sn_recentDroppedIDs c ∧
      (∀ id, Checker.Check_ (sn_dropped c') id = Checker.Check_ (sn_dropped c) id) ∧
      Checker.capacity (sn_dropped c') = GetDroppedSizePerWorker cfg
  end.
Proof.
  unfold Resize. set (k := s64 (GetKeptSizePerWorker cfg)) in *.
  pose proof (lru_new_view (L := L) k) as Hnew.
  destruct (lru_New k) as [stc|]; [|done]. destruct Hnew as (Hpos & Hview & Hcap). cbn zeta.
  set (old := lru_view (sn_kept c)). set (n := Z.to_nat k). rewrite lru_keys_view. fold old.
  assert (Ekeys : (if k <? Z.of_nat (length old.*1) then drop (length old.*1 - n) old.*1 else old.*1)
                = drop (length old - n) old.*1).
  { rewrite length_fmap. destruct (Z.ltb_spec k (Z.of_nat (length old))); [done|].
    replace (length old - n)%nat with 0%nat by lia. done. }
  rewrite Ekeys. set (keys := drop (length old - n) old.*1).
  assert (Hnd : NoDup old.*1) by apply lru_nodup.
  assert (Hin : ∀ i, i ∈ keys → is_Some (lru_find old i)).
  { intros i Hi. apply lru_find_Some. rewrite <-(take_drop (length old - n) old.*1). apply elem_of_app. by right. }
  assert (Hlen : (length keys <= n)%nat) by (unfold keys; rewrite length_drop, length_fmap; lia).
  destruct (copy_keys_spec keys (sn_kept c) stc) as [E1 E2].
  { by apply NoDup_drop. } { done. } { intros i _. rewrite Hview. set_solver. }
  { rewrite Hview, Hcap. simpl. lia. }
  rewrite Hview in E1. simpl in E1. simpl. rewrite E1, E2, Hcap. split_and!; try done.
  intros i Hi. apply lru_find_at; [done|by apply Hin].
Qed.
End ResizeCorrect.

(** ** Decisions among the others *)

(** An entry of an LRU cache, and what is newer than it: some of the keys of [S]. *)
Section Recency.
Implicit Types (l : list (string * nat)) (S : gset string).

Definition recent_in S l (id : string) (loc : nat) : Prop :=
  ∃ older newer, l = older ++ (id, loc) :: newer ∧ ∀ k, k ∈ newer.*1 → k ∈ S.

Lemma recent_elem S l id loc : recent_in S l id loc → (id, loc) ∈ l.
Proof. intros (older & newer & -> & _). set_solver. Qed.

Lemma recent_find S l id loc : NoDup l.*1 → recent_in S l id loc → lru_find l id = Some loc.
Proof. intros Hnd Hr%recent_elem. by apply elem_of_list_to_map_1. Qed.

Lemma lru_find_elem l id loc : lru_find l id = Some loc → (id, loc) ∈ l.
Proof. apply elem_of_list_to_map_2. Qed.

Lemma lru_drop_elem l k e : e ∈ lru_drop l k ↔ e.1 ≠ k ∧ e ∈ l.
Proof. unfold lru_drop. by rewrite list_elem_of_filter. Qed.

Lemma lru_add_elem cap l k v e : e ∈ lru_add_spec cap l k v → e = (k, v) ∨ e.1 ≠ k ∧ e ∈ l.
Proof.
  unfold lru_add_spec. rewrite elem_of_app, list_elem_of_singleton. intros [Hin | ->]; [|by left]. right. apply lru_drop_elem.
  destruct (_ <? _)%nat; [done|]. rewrite <-(take_drop 1 (lru_drop l k)). apply elem_of_app. by right.
Qed.

Lemma recent_drop S l id loc k : k ≠ id → recent_in S l id loc →
  ∃ older newer, lru_drop l k = older ++ (id, loc) :: newer ∧ ∀ k', k' ∈ newer.*1 → k' ∈ S ∖ {[k]}.
Proof.
  intros Hk (older & newer & -> & Hn). exists (lru_drop older k), (lru_drop newer k). unfold lru_drop.
  rewrite filter_app, filter_cons, decide_True by done. split; [done|].
  intros k' (e & -> & [He1 He]%lru_drop_elem)%list_elem_of_fmap. apply elem_of_difference. split; [|set_solver].
  apply Hn, list_elem_of_fmap. eauto.
Qed.

(** Entries that are used or added come after all; one is pushed out only by as many newer ones as fit. *)
Lemma recent_touch S l id loc k v :
  k = id ∧ v = loc ∨ k ≠ id ∧ k ∈ S → recent_in S l id loc → recent_in S (lru_drop l k ++ [(k, v)]) id loc.
Proof.
  intros [[-> ->]|[Hk HS]] Hr.
  - exists (lru_drop l id), []. split; [done|]. by intros k ?%elem_of_nil.
  - destruct (recent_drop S l id loc k Hk Hr) as (older & newer & -> & Hn). exists older, (newer ++ [(k, v)]).
    rewrite <-(assoc_L (++)). split; [done|]. intros k'. rewrite fmap_app, elem_of_app. change ([(k, v)].*1) with [k]. rewrite list_elem_of_singleton.
    intros [Hin | ->]; [|done]. by apply Hn, elem_of_difference in Hin as [? _].
Qed.

Lemma recent_add S cap l id loc k v :
  NoDup l.*1 → (size S < cap)%nat → k ≠ id → k ∈ S → recent_in S l id loc → recent_in S (lru_add_spec cap l k v) id loc.
Proof.
  intros Hnd Hcap Hk HS Hr. destruct (recent_drop S l id loc k Hk Hr) as (older & newer & El & Hn).
  assert (Hsub : (list_to_set newer.*1 : gset string) ⊆ S ∖ {[k]}) by (intros x; rewrite elem_of_list_to_set; apply Hn).
  assert (Hnd' : NoDup newer.*1).
  { assert (Hd : NoDup (lru_drop l k).*1) by (eapply sublist_NoDup; [exact Hnd|]; apply fmap_sublist, sublist_filter).
    rewrite El, fmap_app in Hd. apply NoDup_app in Hd as (_ & _ & Hd). by apply NoDup_cons in Hd as [_ ?]. }
  apply subseteq_size in Hsub. rewrite size_list_to_set, length_fmap, size_difference, size_singleton in Hsub by (done || set_solver).
  assert (Hpos : (size ({[k]} : gset string) <= size S)%nat) by (apply subseteq_size; set_solver). rewrite size_singleton in Hpos.
  unfold lru_add_spec. rewrite El. exists (if (length (older ++ (id, loc) :: newer) <? cap)%nat then older else drop 1 older), (newer ++ [(k, v)]).
  split.
  - destruct (Nat.ltb_spec (length (older ++ (id, loc) :: newer)) cap) as [|Hge].
    + by rewrite <-(assoc_L (++)).
    + rewrite length_app in Hge. simpl in Hge. destruct older as [|x older]; [simpl in Hge; lia|].
      cbn [app drop]. rewrite !drop_0. by rewrite <-(assoc_L (++)).
  - intros k'. rewrite fmap_app, elem_of_app. change ([(k, v)].*1) with [k]. rewrite list_elem_of_singleton. intros [Hin | ->]; [|done].
    by apply Hn, elem_of_difference in Hin as [? _].
Qed.
End Recency.

Section Runs.
Context {F L P : Type} `{GoCuckooLaws F, GoLRULaws L, GoWyhash} `{!PayloadOps P}.
Implicit Types (c : cuckooSentCache F L) (S : gset string).

(** What is done to a cache: decisions recorded, spans and traces looked up, the monitor's ticks and
    changes of its size (one that fails leaves it). *)
Inductive sent_op :=
| OpRecord (now : Z) (t : Trace P) (keep : bool) (reason : string)
| OpCheckSpan (now : Z) (sp : Span P)
| OpCheckTrace (id : string)
| OpMonitor (now : Z) (k : nat) (lockTime : Z)
| OpResize (cfg : SampleCacheConfig).
Implicit Types (op : sent_op).

Definition sent_step c op : cuckooSentCache F L :=
  match op with
  | OpRecord now t keep reason => (SentCache_Record now c t keep reason).1.1
  | OpCheckSpan now sp => (CheckSpan now c sp).1.1
  | OpCheckTrace id => (CheckTrace c id).1
  | OpMonitor now k lockTime => (monitor_tick now k lockTime c).1
  | OpResize cfg => default c (Resize c cfg)
  end.
Definition sent_run c (ops : list sent_op) : cuckooSentCache F L := foldl sent_step c ops.

(** The decisions recorded. *)
Definition decisions (ops : list sent_op) : nat := length (filter (λ op, match op with OpRecord _ _ _ _ => true | _ => false end = true) ops).

(** A cache of a node that has recorded fewer decisions than a reason's number can count. *)
Definition reached c : Prop := ∃ cfg seed c0 ms past,
  NewCuckooSentCache (F := F) (L := L) cfg seed = Some (c0, ms) ∧ Z.of_nat (decisions past) < 2 ^ 32 - 2 ∧ c = sent_run c0 past.

(** No other reason recorded has the hash of this one. *)
Definition hash_free c (reason : string) : Prop :=
  let k := sn_keptReasons c in
  ∀ r, r ∈ KeptReasons.data k → wyhash r (KeptReasons.hashSeed k) = wyhash reason (KeptReasons.hashSeed k) → r = reason.

(** ** What a cache that is reached is like *)

Record sent_wf (n : nat) c : Prop := {
  wf_reasons : KeptReasons.wf (sn_keptReasons c);
  wf_reasons_length : (length (KeptReasons.data (sn_keptReasons c)) <= n)%nat;
  wf_reasons_range : ∀ h v, KeptReasons.keys (sn_keptReasons c) !! h = Some v → 0 ≤ v < 2 ^ 32;
  wf_locations : ∀ k l, (k, l) ∈ lru_view (sn_kept c) → (l < length (sn_entries c))%nat;
  wf_ttl : SetTTL.TTL (sn_recentDroppedIDs c) = recentTTL }.

(** The entries of the LRU cache after a look-up, whatever was looked up, are those before. *)
Lemma lru_get_elem (l : L) k e : e ∈ lru_view (lru_Get l k).1 → e ∈ lru_view l.
Proof.
  destruct (lru_get_view l k) as (_ & _ & ->). destruct (lru_find (lru_view l) k) as [v|] eqn:E; [|done].
  rewrite elem_of_app, list_elem_of_singleton. intros [[_ Hin]%lru_drop_elem | ->]; [done|]. by apply lru_find_elem.
Qed.

(** The parts of the cache that a look-up leaves alone. *)
Lemma CheckSpan_parts c now sp :
  let c' := (CheckSpan now c sp).1.1 in
  sn_dropped c' = sn_dropped c ∧ sn_keptReasons c' = sn_keptReasons c ∧ length (sn_entries c') = length (sn_entries c) ∧
  (sn_kept c' = sn_kept c ∨ sn_kept c' = (lru_Get (sn_kept c) (sp_TraceID sp)).1) ∧
  SetTTL.TTL (sn_recentDroppedIDs c') = SetTTL.TTL (sn_recentDroppedIDs c) ∧
  (∀ loc, (∀ k, (k, loc) ∈ lru_view (sn_kept c) → k ≠ sp_TraceID sp) → sn_entries c' !! loc = sn_entries c !! loc) ∧
  (sn_recentDroppedIDs c' = sn_recentDroppedIDs c ∨
   sn_recentDroppedIDs c' = SetTTL.Add now (sn_recentDroppedIDs c) [sp_TraceID sp]).
Proof.
  cbv zeta. unfold CheckSpan. destruct (SetTTL.Contains _ _ _); [simpl; split_and!; auto|].
  destruct (Checker.Check_ _ _); [simpl; split_and!; auto|].
  pose proof (lru_get_view (sn_kept c) (sp_TraceID sp)) as (G1 & _ & _).
  destruct (lru_Get (sn_kept c) (sp_TraceID sp)) as [kept found]. simpl in G1. subst found.
  destruct (lru_find (lru_view (sn_kept c)) (sp_TraceID sp)) as [loc|] eqn:Ef; [|simpl; split_and!; auto].
  cbn [sn_entries]. destruct (sn_entries c !! loc) as [e|] eqn:Ee; [|simpl; split_and!; auto].
  destruct (Entry_Count e sp) as [e' sp']. simpl. split_and!; auto.
  - apply length_insert.
  - intros loc' Hl. apply list_lookup_insert_ne. intros ->. apply lru_find_elem in Ef. by apply (Hl _ Ef).
Qed.

Lemma Resize_parts c cfg :
  let c' := default c (Resize c cfg) in
  sn_entries c' = sn_entries c ∧ sn_keptReasons c' = sn_keptReasons c ∧ sn_recentDroppedIDs c' = sn_recentDroppedIDs c ∧
  ∀ e, e ∈ lru_view (sn_kept c') → e ∈ lru_view (sn_kept c).
Proof.
  cbv zeta. pose proof (resize_keeps_newest c cfg) as Hr. destruct (Resize c cfg) as [c'|]; cbn [default]; [|done].
  destruct Hr as (_ & Ev & _ & E1 & E2 & E3 & _). split_and!; [done..|]. intros e. cbn. rewrite Ev.
  intros (k & -> & Hk)%list_elem_of_fmap. assert (Hk' : k ∈ (lru_view (sn_kept c)).*1).
  { rewrite <-(take_drop (length (lru_view (sn_kept c)) - Z.to_nat (s64 (GetKeptSizePerWorker cfg))) (lru_view (sn_kept c)).*1).
    apply elem_of_app. by right. }
  destruct (lru_find_Some _ _ Hk') as [v Hv]. unfold lru_at. rewrite Hv. by apply lru_find_elem.
Qed.
Lemma CheckTrace_parts c id :
  let c' := (CheckTrace c id).1 in
  sn_entries c' = sn_entries c ∧ sn_dropped c' = sn_dropped c ∧ sn_recentDroppedIDs c' = sn_recentDroppedIDs c ∧
  sn_keptReasons c' = sn_keptReasons c ∧ (sn_kept c' = sn_kept c ∨ sn_kept c' = (lru_Get (sn_kept c) id).1).
Proof.
  cbv zeta. unfold CheckTrace. destruct (Checker.Check_ _ _); [simpl; split_and!; auto|].
  destruct (lru_Get (sn_kept c) id) as [kept found]. simpl. split_and!; auto.
Qed.

Lemma monitor_parts c now k lockTime :
  let c' := (monitor_tick now k lockTime c).1 in
  sn_kept c' = sn_kept c ∧ sn_entries c' = sn_entries c ∧ sn_keptReasons c' = sn_keptReasons c ∧
  sn_recentDroppedIDs c' = (SetTTL.cleanup now (sn_recentDroppedIDs c)).1.
Proof. cbv zeta. unfold monitor_tick, SetTTL.Length. by destruct (Checker.Maintain _ _ _), (SetTTL.cleanup _ _). Qed.

Lemma NewKeptTraceCacheEntry_id (t : Trace P) : tr_TraceID (NewKeptTraceCacheEntry t).2 = tr_TraceID t.
Proof.
  assert (He : ∀ u : Trace P, tr_TraceID (ensure_counts u) = tr_TraceID u).
  { intros u. unfold ensure_counts. case_match; [|done]. unfold calculateSpanCounts. by destruct (foldl _ _ _) as [[? ?] ?]. }
  unfold NewKeptTraceCacheEntry, SpanEventCount, SpanLinkCount, SpanCount. cbn [snd]. by rewrite !He.
Qed.

Lemma Record_parts now c t keep reason :
  let c' := (SentCache_Record now c t keep reason).1.1 in
  if keep then
    sn_kept c' = lru_Add (sn_kept c) (tr_TraceID t) (length (sn_entries c)) ∧ sn_recentDroppedIDs c' = sn_recentDroppedIDs c ∧
    (∃ e, sn_entries c' = sn_entries c ++ [e]) ∧ sn_keptReasons c' = (KeptReasons.Set_ (sn_keptReasons c) reason).1.1
  else
    sn_kept c' = sn_kept c ∧ sn_entries c' = sn_entries c ∧ sn_keptReasons c' = sn_keptReasons c ∧
    sn_recentDroppedIDs c' = SetTTL.Add now (sn_recentDroppedIDs c) [tr_TraceID t].
Proof.
  cbv zeta. unfold SentCache_Record. destruct keep; [|by destruct (Checker.Add _ _)].
  destruct (KeptReasons.Set_ _ _) as [[r k] o]. pose proof (NewKeptTraceCacheEntry_id (tr_set_keptReason t k)) as Hid.
  destruct (NewKeptTraceCacheEntry _) as [e u]. simpl in *. rewrite Hid. eauto.
Qed.

Lemma decisions_cons op ops : decisions (op :: ops) = (decisions [op] + decisions ops)%nat.
Proof. unfold decisions. rewrite !filter_cons. by case_decide. Qed.

Lemma sent_step_wf n c op : sent_wf n c → Z.of_nat n < 2 ^ 32 - 2 → sent_wf (n + decisions [op]) (sent_step c op).
Proof.
  intros [W1 W2 W3 W4 W5] Hn.
  assert (Hd : decisions [op] = match op with OpRecord _ _ _ _ => 1%nat | _ => 0%nat end) by by destruct op.
  rewrite Hd. clear Hd. destruct op as [now t keep reason|now sp|id|now k lt|cfg]; cbn [sent_step].
  - pose proof (Record_parts now c t keep reason) as Hp. destruct keep; cbv zeta in Hp.
    + destruct Hp as (E1 & E2 & (e & E3) & E4). pose proof (KeptReasons.Set_keeps (sn_keptReasons c) reason) as (_ & K2 & K3 & _).
      destruct (K2 W1 ltac:(lia) W3) as [K4 K5]. split; rewrite ?E1, ?E2, ?E3, ?E4; [done|lia|done| |done].
      intros k l. rewrite (proj1 (lru_add_view _ _ _)), length_app. intros [[= -> ->]|[_ Hin]]%lru_add_elem; simpl; [lia|].
      apply W4 in Hin. lia.
    + destruct Hp as (E1 & E2 & E3 & E4). split; rewrite ?E1, ?E2, ?E3, ?E4; done || lia.
  - destruct (CheckSpan_parts c now sp) as (_ & E2 & E3 & E4 & E5 & _). split; rewrite ?E2, ?E3, ?E5; [done|lia|done| |done].
    intros k l. destruct E4 as [-> | ->]; [apply W4|]. intros Hin%lru_get_elem. by eapply W4.
  - destruct (CheckTrace_parts c id) as (E1 & _ & E2 & E3 & E4). split; rewrite ?E1, ?E2, ?E3; [done|lia|done| |done].
    intros k l. destruct E4 as [-> | ->]; [apply W4|]. intros Hin%lru_get_elem. by eapply W4.
  - destruct (monitor_parts c now k lt) as (E1 & E2 & E3 & E4). split; rewrite ?E1, ?E2, ?E3, ?E4; done || lia.
  - destruct (Resize_parts c cfg) as (E1 & E2 & E3 & E4). split; rewrite ?E1, ?E2, ?E3; [done|lia|done| |done].
    intros k l Hin%E4. by eapply W4.
Qed.

Lemma reached_wf c : reached c → ∃ n, sent_wf n c ∧ Z.of_nat n < 2 ^ 32 - 2.
Proof.
  intros (cfg & seed & c0 & ms & past & Hnew & Hlen & ->). exists (decisions past). split; [|done].
  assert (H0' : sent_wf 0 c0).
  { unfold NewCuckooSentCache in Hnew. pose proof (lru_new_view (s64 (GetKeptSizePerWorker cfg)) (L := L)) as Hl.
    destruct (lru_New _) as [stc|]; [|done]. destruct Hl as (_ & Hv & _). destruct (Checker.NewCuckooTraceChecker _) as [d o].
    injection Hnew as <- <-. split; simpl; [apply KeptReasons.wf_new|done|by intros ??; rewrite lookup_empty| |done].
    rewrite Hv. by intros ?? ?%elem_of_nil. }
  clear Hnew. enough (Hg : ∀ n, Z.of_nat (n + decisions past) < 2 ^ 32 - 2 → sent_wf n c0 → sent_wf (n + decisions past) (sent_run c0 past))
    by by apply (Hg 0%nat). clear H0' Hlen. revert c0.
  induction past as [|op past IH]; intros c0 n Hn Hwf; cbn [sent_run foldl] in *; [by rewrite Nat.add_0_r|].
  rewrite (decisions_cons op past), Nat.add_assoc in *. apply IH; [done|apply sent_step_wf; [done|lia]].
Qed.

(** A look-up more. *)
Lemma reached_look c now sp : reached c → reached (CheckSpan now c sp).1.1.
Proof.
  intros (cfg & seed & c0 & ms & past & Hnew & Hlen & ->). exists cfg, seed, c0, ms, (past ++ [OpCheckSpan now sp]).
  split; [done|]. split; [|unfold sent_run; by rewrite foldl_app]. unfold decisions in *. by rewrite filter_app, app_nil_r.
Qed.

(** ** A trace kept *)

(** The kept trace [id] is remembered: its record is at [loc], which no other trace has, only traces of
    [S] have been used since, and they do not fill the cache; and its reason can be read. *)
Record remembered S c (id : string) (loc : nat) (e : keptTraceCacheEntry) (reason : string) : Prop := {
  re_recent : recent_in S (lru_view (sn_kept c)) id loc;
  re_room : (size S < lru_cap (sn_kept c))%nat;
  re_entry : sn_entries c !! loc = Some e;
  re_own : ∀ k, (k, loc) ∈ lru_view (sn_kept c) → k = id;
  re_not_dropped : SetTTL.Items (sn_recentDroppedIDs c) !! id = None;
  re_range : 0 ≤ en_reason e < 2 ^ 32;
  re_reason : KeptReasons.Get (sn_keptReasons c) (en_reason e) = Some reason }.

Lemma remembered_tracked S c id loc e reason :
  remembered S c id loc e reason → Checker.Check_ (sn_dropped c) id = false → tracked c id loc e.
Proof. intros [R1 R2 R3 R4 R5 R6 R7] Hd. split_and!; try done. apply (recent_find S); [apply lru_nodup|done]. Qed.

(** The traces whose entries an operation uses. *)
Definition used op : option string :=
  match op with
  | OpRecord _ t true _ => Some (tr_TraceID t)
  | OpCheckSpan _ sp => Some (sp_TraceID sp)
  | OpCheckTrace id => Some id
  | _ => None
  end.

(** An operation that decides nothing about the trace [id], and leaves room for more than [n] traces. *)
Definition leaves (id : string) (n : nat) op : Prop :=
  match op with
  | OpRecord _ t _ _ => tr_TraceID t ≠ id
  | OpResize cfg => Z.of_nat n < s64 (GetKeptSizePerWorker cfg)
  | _ => True
  end.

(** What an operation makes of the record: a span of the trace is counted. *)
Definition counted (id : string) op (e : keptTraceCacheEntry) : keptTraceCacheEntry :=
  match op with
  | OpCheckSpan _ sp => if decide (sp_TraceID sp = id) then (Entry_Count e sp).1 else e
  | _ => e
  end.

Lemma counted_reason id op e : en_reason (counted id op e) = en_reason e ∧ en_rate (counted id op e) = en_rate e.
Proof.
  destruct op as [? ? ? ?|now sp|?|? ? ?|?]; try done. cbn. case_decide; [|done]. unfold Entry_Count.
  destruct (AnnotationType sp) as [[] ?]; done.
Qed.

Lemma get_recent S (l : L) id loc k :
  (k ≠ id → k ∈ S) → recent_in S (lru_view l) id loc →
  recent_in S (lru_view (lru_Get l k).1) id loc ∧ lru_cap (lru_Get l k).1 = lru_cap l.
Proof.
  intros Hk Hr. destruct (lru_get_view l k) as (_ & G2 & G3). split; [|done]. rewrite G3.
  destruct (lru_find (lru_view l) k) as [v|] eqn:E; [|done]. apply recent_touch; [|done].
  destruct (decide (k = id)) as [->|]; [|by right; auto]. left. rewrite (recent_find S _ _ loc) in E by (done || apply lru_nodup).
  by injection E as ->.
Qed.

(** The entry keeps its place when the cache is resized to a size it fits in. *)
Lemma Resize_recent S c cfg id loc :
  recent_in S (lru_view (sn_kept c)) id loc → Z.of_nat (size S) < s64 (GetKeptSizePerWorker cfg) →
  let c' := default c (Resize c cfg) in
  recent_in S (lru_view (sn_kept c')) id loc ∧ ((size S < lru_cap (sn_kept c))%nat → (size S < lru_cap (sn_kept c'))%nat).
Proof.
  intros Hr Hsize. cbv zeta. pose proof (resize_keeps_newest c cfg) as Hk. pose proof (lru_nodup (sn_kept c)) as Hnd.
  destruct (Resize c cfg) as [c'|]; [|done]. change (default c (Some c')) with c'. destruct Hk as (Ecap & Ev & _). cbv zeta in Ecap, Ev.
  set (n := Z.to_nat (s64 (GetKeptSizePerWorker cfg))) in *. split; [|intros _; rewrite Ecap; lia].
  pose proof (recent_find S _ _ _ Hnd Hr) as Hf. destruct Hr as (older & newer & El & Hn).
  assert (Hlen : (length newer <= size S)%nat).
  { rewrite <-(length_fmap fst newer), <-(size_list_to_set (C := gset string) newer.*1); [apply subseteq_size; set_solver|].
    rewrite El, fmap_app in Hnd. apply NoDup_app in Hnd as (_ & _ & Hnd). by apply NoDup_cons in Hnd as [_ ?]. }
  set (m := (length (lru_view (sn_kept c)) - n)%nat) in *.
  assert (Hm : (m <= length older)%nat) by (unfold m; rewrite El, length_app; simpl; lia).
  exists (lru_at (lru_view (sn_kept c)) <$> drop m older.*1), (lru_at (lru_view (sn_kept c)) <$> newer.*1). split.
  - rewrite Ev. rewrite El at 2. rewrite fmap_app, drop_app_le by (by rewrite length_fmap).
    rewrite fmap_app. f_equal. cbn. f_equal. unfold lru_at at 1. by rewrite Hf.
  - intros k (e & -> & (k' & -> & Hk)%list_elem_of_fmap)%list_elem_of_fmap. by apply Hn.
Qed.

Lemma Add_other now (s : SetTTL.t (T := string)) k id : k ≠ id → SetTTL.Items (SetTTL.Add now s [k]) !! id = SetTTL.Items s !! id.
Proof. intros Hk. unfold SetTTL.Add. simpl. by rewrite lookup_insert_ne. Qed.

Lemma remembered_CheckSpan S c id loc e reason now sp :
  remembered S c id loc e reason → Checker.Check_ (sn_dropped c) id = false →
  (sp_TraceID sp ≠ id → sp_TraceID sp ∈ S) →
  remembered S (CheckSpan now c sp).1.1 id loc (counted id (OpCheckSpan now sp) e) reason.
Proof.
  intros Hr Hd HS. pose proof (remembered_tracked _ _ _ _ _ _ Hr Hd) as Ht. destruct Hr as [R1 R2 R3 R4 R5 R6 R7].
  destruct (CheckSpan_parts c now sp) as (_ & E2 & E3 & E4 & _ & E6 & E7).
  destruct (get_recent S (sn_kept c) id loc (sp_TraceID sp) HS R1) as [G1 G2].
  destruct (counted_reason id (OpCheckSpan now sp) e) as [Er _]. split; rewrite ?Er, ?E2; try done.
  - by destruct E4 as [-> | ->].
  - destruct E4 as [-> | ->]; [done|by rewrite G2].
  - cbn [counted]. case_decide as Hid.
    + subst id. destruct (CheckSpan_tracked c now sp loc e Ht) as (c' & -> & (_ & He & _) & _). done.
    + rewrite E6; [done|]. intros k Hk. apply R4 in Hk as ->. done.
  - intros k. destruct E4 as [-> | ->]; [apply R4|]. intros Hk%lru_get_elem. by apply R4.
  - destruct (decide (sp_TraceID sp = id)) as [<-|Hid].
    + destruct (CheckSpan_tracked c now sp loc e Ht) as (c' & -> & (_ & _ & _ & Hn) & _). done.
    + destruct E7 as [-> | ->]; [done|by rewrite Add_other].
Qed.

Lemma remembered_step S c id loc e reason op :
  remembered S c id loc e reason → Checker.Check_ (sn_dropped c) id = false →
  (∀ k, used op = Some k → k ≠ id → k ∈ S) → leaves id (size S) op →
  remembered S (sent_step c op) id loc (counted id op e) reason.
Proof.
  intros Hr Hd HS Hl. destruct op as [now t keep rs|now sp|k|now k lt|cfg]; cbn [sent_step].
  2: by apply remembered_CheckSpan; auto.
  all: destruct Hr as [R1 R2 R3 R4 R5 R6 R7]; cbn [counted leaves used] in *.
  - pose proof (Record_parts now c t keep rs) as Hp. destruct keep; cbv zeta in Hp.
    + destruct Hp as (E1 & E2 & (e' & E3) & E4). pose proof (KeptReasons.Set_keeps (sn_keptReasons c) rs) as (K1 & _).
      destruct (lru_add_view (sn_kept c) (tr_TraceID t) (length (sn_entries c))) as [V1 V2].
      split; rewrite ?E1, ?E2, ?E3, ?E4, ?V1, ?V2; auto.
      * apply recent_add; [apply lru_nodup|done..|by apply HS|done].
      * apply lookup_app_l_Some, R3.
      * intros k [[= -> ->]|[_ Hin]]%lru_add_elem; [|by apply R4]. apply lookup_lt_Some in R3. lia.
    + destruct Hp as (E1 & E2 & E3 & E4). split; rewrite ?E1, ?E2, ?E3, ?E4, ?Add_other; done.
  - destruct (CheckTrace_parts c k) as (E1 & _ & E2 & E3 & E4).
    destruct (get_recent S (sn_kept c) id loc k (HS k eq_refl) R1) as [G1 G2].
    split; rewrite ?E1, ?E2, ?E3; try done; destruct E4 as [-> | ->]; try done; [by rewrite G2|].
    intros k' Hk%lru_get_elem. by apply R4.
  - destruct (monitor_parts c now k lt) as (E1 & E2 & E3 & E4). split; rewrite ?E1, ?E2, ?E3, ?E4; try done.
    cbn. apply map_lookup_filter_None. by left.
  - destruct (Resize_parts c cfg) as (E1 & E2 & E3 & E4). destruct (Resize_recent S c cfg id loc R1 Hl) as [G1 G2].
    split; rewrite ?E1, ?E2, ?E3; auto.
Qed.

(** The spans of the trace [id] looked up in a sequence of operations. *)
Definition asks (id : string) op : bool := match op with OpCheckSpan _ sp => String.eqb (sp_TraceID sp) id | _ => false end.
Definition asked (id : string) (ops : list sent_op) : Z := Z.of_nat (length (filter (λ op, asks id op = true) ops)).

(** The counters of a record, which add up. *)
Definition adds_up (e : keptTraceCacheEntry) : Prop :=
  0 ≤ en_spanCount e ∧ 0 ≤ en_spanEventCount e ∧ 0 ≤ en_spanLinkCount e ∧
  en_spanCount e + en_spanEventCount e + en_spanLinkCount e = en_eventCount e.

Lemma counted_adds_up id op e :
  adds_up e → en_eventCount e < 2 ^ 32 - 1 →
  adds_up (counted id op e) ∧ en_eventCount (counted id op e) = en_eventCount e + asked id [op].
Proof.
  intros (A1 & A2 & A3 & A4) Hb. unfold asked. rewrite filter_cons.
  destruct (decide (asks id op = true)) as [Hask|Hask].
  - destruct op as [? ? ? ?|now sp|?|? ? ?|?]; try done. cbn in Hask |- *. apply String.eqb_eq in Hask. rewrite decide_True by done.
    destruct (Entry_Count_spec e sp) as (_ & _ & E1 & E2 & E3 & E4 & E5); [lia|done..|]. done.
  - replace (counted id op e) with e; [cbn; split; [done|lia]|].
    destruct op as [? ? ? ?|now sp|?|? ? ?|?]; try done. cbn in Hask |- *. rewrite String.eqb_eq in Hask. by rewrite decide_False.
Qed.

Lemma asked_cons id op ops : asked id (op :: ops) = asked id [op] + asked id ops.
Proof. unfold asked. rewrite !filter_cons. case_decide; cbn [length filter]; simpl; lia. Qed.

Lemma asked_length id ops : asked id ops ≤ Z.of_nat (length ops).
Proof. unfold asked. pose proof (length_filter (λ op, asks id op = true) ops). lia. Qed.

(** The filter of dropped traces does not claim the trace [id] at any point of a run. *)
Definition never_claimed c (id : string) (ops : list sent_op) : Prop :=
  ∀ k, Checker.Check_ (sn_dropped (sent_run c (take k ops))) id = false.

Lemma remembered_run S id loc reason ops : ∀ c e,
  remembered S c id loc e reason → adds_up e → en_eventCount e + Z.of_nat (length ops) < 2 ^ 32 →
  never_claimed c id ops → Forall (λ op, ∀ k, used op = Some k → k ≠ id → k ∈ S) ops → Forall (leaves id (size S)) ops →
  ∃ e', remembered S (sent_run c ops) id loc e' reason ∧ adds_up e' ∧ en_rate e' = en_rate e ∧
    en_eventCount e' = en_eventCount e + asked id ops.
Proof.
  induction ops as [|op ops IH]; intros c e Hr Ha Hb Hn HS Hl.
  { exists e. split_and!; [done..|]. unfold asked. cbn. lia. }
  apply Forall_cons in HS as [HS1 HS]. apply Forall_cons in Hl as [Hl1 Hl]. cbn [length] in Hb.
  destruct (counted_adds_up id op e Ha) as [A1 A2]; [lia|]. destruct (counted_reason id op e) as [_ Er].
  pose proof (asked_length id [op]) as Hone. cbn [length] in Hone.
  destruct (IH (sent_step c op) (counted id op e)) as (e' & I1 & I2 & I3 & I4); try done.
  - apply remembered_step; [done|apply (Hn 0%nat)|done..].
  - lia.
  - intros k. apply (Hn (Datatypes.S k)).
  - exists e'. split_and!; [done|done|by rewrite I3|]. rewrite (asked_cons id op ops). lia.
Qed.

(** Recording the decision to keep a trace, in a cache that is reached. *)
Lemma record_remembered S c now t reason :
  reached c → hash_free c reason → counts_unset t → Z.of_nat (length (tr_spans t)) < 2 ^ 32 →
  Checker.Check_ (sn_dropped c) (tr_TraceID t) = false → SetTTL.Items (sn_recentDroppedIDs c) !! tr_TraceID t = None →
  (size S < lru_cap (sn_kept c))%nat →
  ∃ loc e, remembered S (SentCache_Record now c t true reason).1.1 (tr_TraceID t) loc e reason ∧ adds_up e ∧
    en_rate e = u32 (tr_sampleRate t) ∧ en_eventCount e = Z.of_nat (length (tr_spans t)).
Proof.
  intros Hreach Hfree Hu Hlen Hd Hr Hroom. destruct (reached_wf c Hreach) as (n & [W1 W2 W3 W4 W5] & Hn).
  assert (Hready : reason_ready c reason).
  { split_and!; [done|lia| |done]. intros r v Hv. apply Hfree. unfold KeptReasons.Get in Hv. repeat case_match; try done.
    by eapply list_elem_of_lookup_2. }
  destruct (record_tracked c now t reason Hready Hu Hlen Hd Hr) as (c' & t' & ops & loc & e & E & Ht & Erate & Ereason & Ecount & C1 & C2 & C3 & C4).
  pose proof (Record_parts now c t true reason) as (P1 & P2 & (e' & P3) & P4). cbv zeta in *. rewrite E in *. cbn [fst] in *.
  destruct Ht as (Hf & He & _ & Hrec). destruct (lru_add_view (sn_kept c) (tr_TraceID t) (length (sn_entries c))) as [V1 V2].
  assert (loc = length (sn_entries c)) as ->.
  { rewrite P1, V1 in Hf. unfold lru_add_spec in Hf. rewrite lru_find_app in Hf.
    destruct (lru_find _ _) as [v|] eqn:Ev in Hf; [|rewrite lru_find_cons, decide_True in Hf by done; by injection Hf].
    exfalso. apply lru_find_elem in Ev. assert (Hin : (tr_TraceID t, v) ∈ lru_drop (lru_view (sn_kept c)) (tr_TraceID t)).
    { destruct (_ <? _)%nat; [done|]. rewrite <-(take_drop 1 (lru_drop _ _)). apply elem_of_app. by right. }
    by apply lru_drop_elem in Hin as [? _]. }
  exists (length (sn_entries c)), e. split; [|done]. split; rewrite ?P1, ?V1, ?V2; try done.
  - eexists _, []. split; [reflexivity|]. by intros k ?%elem_of_nil.
  - intros k [[= ->]|[_ Hin]]%lru_add_elem; [done|]. apply W4 in Hin. lia.
  - assert (Hget : is_Some (KeptReasons.Get (sn_keptReasons c') (en_reason e))) by by eexists.
    unfold KeptReasons.Get in Hget. destruct (Z.eqb_spec (en_reason e) 0); [by destruct Hget|].
    unfold SentCache_Record in E. destruct (KeptReasons.Set_ _ _) as [[rs key] o]. destruct (NewKeptTraceCacheEntry _) as [e2 t2] eqn:En.
    injection E as <- _ _. cbn in He, P3. apply app_inj_tail in P3 as [_ ->].
    rewrite lookup_app_r, Nat.sub_diag in He by done. injection He as ->. unfold NewKeptTraceCacheEntry in En.
    destruct (SpanEventCount _) as [? ?], (SpanLinkCount _) as [? ?], (SpanCount _) as [? ?]. injection En as <- _. apply u32_range.
Qed.

(** What a look-up of a remembered trace answers. *)
Lemma remembered_answer S c id loc e reason now sp :
  remembered S c id loc e reason → Checker.Check_ (sn_dropped c) id = false → sp_TraceID sp = id →
  adds_up e → en_eventCount e < 2 ^ 32 - 1 →
  answers (en_rate e) reason (en_eventCount e + 1) (CheckSpan now c sp).2.
Proof.
  intros Hr Hd Hid (A1 & A2 & A3 & A4) Hb. pose proof (remembered_tracked _ _ _ _ _ _ Hr Hd) as Ht. destruct Hr as [_ _ _ _ _ _ Hreason].
  rewrite <-Hid in Ht. destruct (CheckSpan_tracked c now sp loc e Ht) as (c' & -> & _). cbn [snd].
  destruct (Entry_Count_spec e sp) as (E1 & E2 & E3 & _ & _ & _ & E4); [lia|done..|].
  exists (Entry_Count e sp).1. unfold kept_reason. rewrite E2, Hreason. by rewrite E1, E3 in *.
Qed.

(** ** A trace dropped *)

(** The trace is in the set of those recently dropped, for some time after [until]. *)
Definition known_dropped c (id : string) (until : Z) : Prop :=
  SetTTL.TTL (sn_recentDroppedIDs c) = recentTTL ∧
  ∃ exp, SetTTL.Items (sn_recentDroppedIDs c) !! id = Some exp ∧ until < exp.

Definition op_time op : option Z :=
  match op with OpRecord now _ _ _ | OpCheckSpan now _ | OpMonitor now _ _ => Some now | _ => None end.

Lemma Add_known now (s : SetTTL.t (T := string)) k id exp until :
  SetTTL.TTL s = recentTTL → SetTTL.Items s !! id = Some exp → until < exp → until < now + recentTTL →
  ∃ exp', SetTTL.Items (SetTTL.Add now s [k]) !! id = Some exp' ∧ until < exp'.
Proof.
  intros Ht Hi H1' H2'. destruct (decide (k = id)) as [->|Hk].
  - exists (now + recentTTL). unfold SetTTL.Add. simpl. by rewrite lookup_insert_eq, Ht.
  - exists exp. by rewrite Add_other.
Qed.

Lemma known_dropped_step c id until op :
  known_dropped c id until → (∀ now, op_time op = Some now → until - recentTTL < now ≤ until) →
  known_dropped (sent_step c op) id until.
Proof.
  intros (Ht & exp & Hi & Hu) Htime. unfold known_dropped.
  destruct op as [now t keep rs|now sp|k|now k lt|cfg]; cbn [sent_step op_time] in *.
  - pose proof (Record_parts now c t keep rs) as Hp. specialize (Htime now eq_refl). destruct keep; cbv zeta in Hp.
    + destruct Hp as (_ & -> & _). eauto.
    + destruct Hp as (_ & _ & _ & ->). split; [done|]. eapply Add_known; [done..|lia].
  - destruct (CheckSpan_parts c now sp) as (_ & _ & _ & _ & -> & _ & E7). specialize (Htime now eq_refl). split; [done|].
    destruct E7 as [-> | ->]; [eauto|]. eapply Add_known; [done..|lia].
  - destruct (CheckTrace_parts c k) as (_ & _ & -> & _). eauto.
  - destruct (monitor_parts c now k lt) as (_ & _ & _ & ->). specialize (Htime now eq_refl). split; [done|].
    exists exp. split; [|done]. cbn. apply map_lookup_filter_Some. split; [done|]. simpl. lia.
  - destruct (Resize_parts c cfg) as (_ & _ & -> & _). eauto.
Qed.

Lemma known_dropped_run id until ops : ∀ c,
  known_dropped c id until → Forall (λ op, ∀ now, op_time op = Some now → until - recentTTL < now ≤ until) ops →
  known_dropped (sent_run c ops) id until.
Proof.
  induction ops as [|op ops IH]; intros c Hk Ht; [done|]. apply Forall_cons in Ht as [Ht1 Ht].
  apply IH; [|done]. by apply known_dropped_step.
Qed.

Lemma known_dropped_answer c id until now sp :
  known_dropped c id until → sp_TraceID sp = id → now ≤ until → (CheckSpan now c sp).2 = Some (DroppedRecord, "").
Proof.
  intros (_ & exp & Hi & Hu) Hid Hn. unfold CheckSpan, SetTTL.Contains. rewrite Hid, Hi. by rewrite (proj2 (Z.ltb_lt now exp)) by lia.
Qed.

(** ** Late spans *)

(** The traces of some operations other than [id]. *)
Definition others (id : string) (ops : list sent_op) : gset string := list_to_set (omap used ops) ∖ {[id]}.

Lemma others_used id ops : Forall (λ op, ∀ k, used op = Some k → k ≠ id → k ∈ others id ops) ops.
Proof.
  apply Forall_forall. intros op Hop k Hk Hne. unfold others. apply elem_of_difference. split; [|set_solver].
  apply elem_of_list_to_set, list_elem_of_omap. eauto.
Qed.

(** The kept trace [id] is left alone and not pushed out by some operations: none decides about it again,
    fewer other traces are used than the cache has room for, then and after each change of its size, and
    the filter of dropped traces does not claim it. *)
Definition left_alone c (id : string) (ops : list sent_op) : Prop :=
  (size (others id ops) < lru_cap (sn_kept c))%nat ∧ Forall (leaves id (size (others id ops))) ops ∧ never_claimed c id ops.

Lemma left_alone_take c id ops i : left_alone c id ops → left_alone c id (take i ops).
Proof.
  intros (L1 & L2 & L3). assert (Hsub : others id (take i ops) ⊆ others id ops).
  { unfold others. intros k. rewrite !elem_of_difference, !elem_of_list_to_set, !list_elem_of_omap.
    intros [(op & Hop & Hk) Hne]. split; [|done]. exists op. split; [|done].
    rewrite <-(take_drop i ops). apply elem_of_app. by left. }
  apply subseteq_size in Hsub. split_and!.
  - lia.
  - apply Forall_take. eapply Forall_impl; [exact L2|]. intros [] Hl; cbn in *; try done. lia.
  - intros k. rewrite take_take. apply L3.
Qed.

(** A trace whose decision to keep has been recorded, after some operations that leave it alone. *)
Lemma kept_run c now t reason ops :
  reached c → hash_free c reason → counts_unset t →
  Z.of_nat (length (tr_spans t)) + Z.of_nat (length ops) < 2 ^ 32 →
  SetTTL.Items (sn_recentDroppedIDs c) !! tr_TraceID t = None → Checker.Check_ (sn_dropped c) (tr_TraceID t) = false →
  let c1 := (SentCache_Record now c t true reason).1.1 in
  left_alone c1 (tr_TraceID t) ops →
  ∃ loc e, remembered (others (tr_TraceID t) ops) (sent_run c1 ops) (tr_TraceID t) loc e reason ∧ adds_up e ∧
    en_rate e = u32 (tr_sampleRate t) ∧ en_eventCount e = Z.of_nat (length (tr_spans t)) + asked (tr_TraceID t) ops.
Proof.
  intros Hreach Hfree Hu Hlen Hr Hd c1 (L1 & L2 & L3).
  assert (Ecap : lru_cap (sn_kept c1) = lru_cap (sn_kept c)).
  { pose proof (Record_parts now c t true reason) as (P1 & _). cbv zeta in P1. unfold c1. rewrite P1. apply lru_add_view. }
  destruct (record_remembered (others (tr_TraceID t) ops) c now t reason) as (loc & e & Hrem & Ha & Erate & Ecount); try done; [lia|lia|].
  destruct (remembered_run _ _ _ _ ops c1 e Hrem Ha) as (e' & R1 & R2 & R3 & R4); try done; [lia|apply others_used|].
  exists loc, e'. by rewrite R3, R4, Erate, Ecount.
Qed.

(** C25: a kept trace is remembered and its late spans counted.  In the cache of a node, whatever it
    has been through, once the decision to keep a trace that it does not hold for dropped is recorded
    (its spans not counted before, and under a reason whose hash no other has), any number of look-ups, decisions on other traces, ticks
    of the monitor and changes of size may follow, as long as fewer other traces are used than the
    cache has room for and the filter does not wrongly claim the trace.  Then each span of it that is
    looked up finds the record, with the trace's sample rate and the reason recorded, its descendant
    count being the spans sent with the decision, those looked up since, and this one, which the three
    counters partition. *)
Theorem late_spans_counted c now t reason (later : list sent_op) i at_time sp :
  reached c → hash_free c reason → counts_unset t →
  Z.of_nat (length (tr_spans t)) + Z.of_nat (length later) < 2 ^ 32 →
  SetTTL.Items (sn_recentDroppedIDs c) !! tr_TraceID t = None → Checker.Check_ (sn_dropped c) (tr_TraceID t) = false →
  let c1 := (SentCache_Record now c t true reason).1.1 in
  left_alone c1 (tr_TraceID t) later →
  later !! i = Some (OpCheckSpan at_time sp) → sp_TraceID sp = tr_TraceID t →
  answers (u32 (tr_sampleRate t)) reason (Z.of_nat (length (tr_spans t)) + asked (tr_TraceID t) (take i later) + 1)
    (CheckSpan at_time (sent_run c1 (take i later)) sp).2.
Proof.
  intros Hreach Hfree Hu Hlen Hr Hd c1 Hleft Hi Hid.
  destruct (kept_run c now t reason (take i later)) as (loc & e & Hrem & Ha & <- & Hev); try done.
  - rewrite length_take. lia.
  - by apply left_alone_take.
  - rewrite <-Hev. destruct Hleft as (_ & _ & Hn). pose proof (asked_length (tr_TraceID t) (take i later)) as Hal.
    rewrite length_take in Hal. apply lookup_lt_Some in Hi.
    eapply remembered_answer; [exact Hrem|apply (Hn i)|done|done|lia].
Qed.
End Runs.

(** ** Concrete libraries, for evaluating examples *)

Module SentExamples.
(** An exact filter. *)
#[export] Instance set_cuckoo : GoCuckoo (gset string) := {|
  ck_NewFilter := λ _, ∅;
  ck_Insert := λ f s, (true, {[s]} ∪ f);
  ck_Lookup := λ f s, bool_decide (s ∈ f);
  ck_LoadFactor := λ f, f64_of_Z (Z.of_nat (size f)) |}.
#[export] Instance set_cuckoo_laws : GoCuckooLaws (gset string).
Proof.
  constructor. intros f s f'. simpl. intros [= <-]. rewrite bool_decide_eq_true. split; [set_solver|].
  intros s'. rewrite !bool_decide_eq_true. set_solver.
Defined.

(** An LRU cache as the list of its entries. *)
Record list_lru := mkLru {
  ll_cap : nat; ll_view : list (string * nat);
  ll_ok : (0 < ll_cap)%nat ∧ (length ll_view <= ll_cap)%nat ∧ NoDup ll_view.*1 }.

Lemma drop_length l k : (length (lru_drop l k) <= length l)%nat.
Proof. apply length_filter. Qed.
Lemma drop_nodup l k : NoDup l.*1 → NoDup (lru_drop l k).*1.
Proof. intros Hl. eapply sublist_NoDup; [exact Hl|]. apply fmap_sublist, sublist_filter. Qed.
Lemma drop_not_in l k : k ∉ (lru_drop l k).*1.
Proof. intros (e & -> & He)%list_elem_of_fmap. by apply list_elem_of_filter in He as [? _]. Qed.

Lemma snoc_nodup (l : list (string * nat)) k v : NoDup l.*1 → k ∉ l.*1 → NoDup (l ++ [(k, v)]).*1.
Proof.
  intros Hl Hk. rewrite fmap_app. apply NoDup_app. split_and!; [done| |repeat constructor; set_solver].
  intros x Hx Hk'. apply list_elem_of_singleton in Hk' as ->. done.
Qed.

Lemma add_ok (l : list_lru) k v :
  let w := lru_add_spec (ll_cap l) (ll_view l) k v in
  (0 < ll_cap l)%nat ∧ (length w <= ll_cap l)%nat ∧ NoDup w.*1.
Proof.
  cbv zeta. destruct l as [cap l (H1 & H2 & H3)]. simpl. unfold lru_add_spec.
  pose proof (drop_length l k). pose proof (drop_nodup l k H3). pose proof (drop_not_in l k).
  destruct (Nat.ltb_spec (length (lru_drop l k)) cap); split_and!; try done; rewrite ?length_app, ?length_drop; simpl; try lia.
  - by apply snoc_nodup.
  - apply snoc_nodup.
    + rewrite fmap_drop. by apply NoDup_drop.
    + rewrite fmap_drop. intros Hin. apply (drop_not_in l k).
      rewrite <-(take_drop 1 (lru_drop l k).*1). apply elem_of_app. by right.
Qed.

Lemma touch_ok (l : list_lru) k v :
  lru_find (ll_view l) k = Some v →
  let w := lru_drop (ll_view l) k ++ [(k, v)] in
  (0 < ll_cap l)%nat ∧ (length w <= ll_cap l)%nat ∧ NoDup w.*1.
Proof.
  cbv zeta. destruct l as [cap l (H1 & H2 & H3)]. simpl. intros Hv.
  unfold lru_find in Hv. apply elem_of_list_to_map_2 in Hv. split_and!; [done| |].
  - rewrite length_app. simpl. pose proof (length_filter_lt (λ e : string * nat, e.1 ≠ k) l (k, v) Hv) as Hl.
    unfold lru_drop. specialize (Hl ltac:(intros Hn; by apply Hn)). lia.
  - apply snoc_nodup; [by apply drop_nodup|apply drop_not_in].
Qed.

Definition touch_view (l : list_lru) (k : string) : list (string * nat) :=
  match lru_find (ll_view l) k with Some v => lru_drop (ll_view l) k ++ [(k, v)] | None => ll_view l end.

Lemma touch_view_ok (l : list_lru) k :
  (0 < ll_cap l)%nat ∧ (length (touch_view l k) <= ll_cap l)%nat ∧ NoDup (touch_view l k).*1.
Proof.
  unfold touch_view. destruct (lru_find (ll_view l) k) as [v|] eqn:E; [by apply touch_ok|by apply ll_ok].
Qed.

Definition ll_touch (l : list_lru) (k : string) : list_lru * option nat :=
  (mkLru (ll_cap l) (touch_view l k) (touch_view_ok l k), lru_find (ll_view l) k).

Lemma new_ok n : (0 < n)%nat → (0 < n)%nat ∧ (length (@nil (string * nat)) <= n)%nat ∧ NoDup (@nil (string * nat)).*1.
Proof. intros Hn. split_and!; [done|simpl; lia|constructor]. Qed.

Definition ll_new (n : Z) : option list_lru :=
  match decide (0 < Z.to_nat n)%nat with
  | left H => Some (mkLru (Z.to_nat n) [] (new_ok _ H))
  | right _ => None
  end.

#[export] Instance list_lru_ops : GoLRU list_lru := {|
  lru_New := ll_new;
  lru_Add := λ l k v, mkLru (ll_cap l) (lru_add_spec (ll_cap l) (ll_view l) k v) (add_ok l k v);
  lru_Get := ll_touch;
  lru_Keys := λ l, (ll_view l).*1 |}.

#[export] Instance list_lru_laws : GoLRULaws list_lru.
Proof.
  refine {| lru_view := ll_view; lru_cap := ll_cap |}; simpl; try done.
  - intros l. apply (ll_ok l).
  - intros l. destruct (ll_ok l) as (? & ? & _). done.
  - intros n. unfold ll_new. destruct (decide (0 < Z.to_nat n)%nat); [split_and!; simpl; (done || lia)|lia].
Defined.

#[local] Existing Instances example_float EventExamples.map_payload TraceKeyExamples.encode_hash.

Definition stopped : Checker.t (gset string) :=
  Checker.mk ∅ (Some ∅) 10 ["t1"; "t2"].

Lemma checker_rotation_witness :
  Checker.Check_ (Checker.drain 1 0 stopped).1 "t1" = true ∧ Checker.Check_ (Checker.drain 1 0 stopped).1 "t2" = false ∧
  Checker.Check_ (Checker.Maintain 1 0 stopped).1 "t1" = true.
Proof.
  split; [by vm_compute|split; [by vm_compute|]].
  assert (Hacc : Checker.accepted stopped (take 1 (Checker.addch stopped))).
  { split_and!; [done|by intros f [= <-]|done]. }
  refine (proj1 (proj2 (proj2 (proj2 (Checker.checker_rotation stopped "t1" 1 0 Hacc)))) _).
  right. split; [simpl; set_solver|done].
Defined.

Definition cache_cfg (kept : Z) : SampleCacheConfig :=
  {| sc_KeptSize := kept; sc_DroppedSize := 1000; sc_SizeCheckInterval := 0; sc_WorkerCount := 1 |}.
Definition empty_lru : list_lru := mkLru 2 [] (new_ok 2 ltac:(lia)).
Definition empty_cache : cuckooSentCache (gset string) list_lru :=
  mkSent empty_lru [] stopped (SetTTL.NewSetWithTTL 0 recentTTL []) (KeptReasons.NewKeptReasonsCache 7).
Definition new_cache : cuckooSentCache (gset string) list_lru :=
  match NewCuckooSentCache (cache_cfg 2) 7 with Some (c, _) => c | None => empty_cache end.
Definition other : Trace (gmap string value) := mkTrace "" "" "" "other" "" 1 false false 0 "" 0 0 None 0 [] 0 0 0 0.
(** Two late spans, with another trace's, a look-up, a tick and a change of size in between. *)
Definition late : list (sent_op (P := gmap string value)) :=
  [OpCheckSpan 10 (EventExamples.span false []); OpCheckTrace "other"; OpMonitor 12 3 0; OpResize (cache_cfg 3);
   OpRecord 15 other true "rule";
   OpCheckSpan 20 (EventExamples.span false [("meta.annotation_type", VString "link")])].

Lemma new_reached : reached (P := gmap string value) new_cache.
Proof.
  unfold new_cache. destruct (NewCuckooSentCache (cache_cfg 2) 7) as [[c ms]|] eqn:E; [|by vm_compute in E].
  exists (cache_cfg 2), 7, c, ms, []. split; [exact E|]. split; [done|reflexivity].
Qed.

Lemma late_left_alone :
  left_alone (SentCache_Record 5 new_cache EventExamples.three true "deterministic/chance").1.1 (tr_TraceID EventExamples.three) late.
Proof.
  split_and!; [by vm_compute|repeat constructor; by vm_compute|].
  intros k. destruct (decide (k < 6)%nat) as [Hk|Hk].
  - do 6 (destruct k as [|k]; [by vm_compute|]). lia.
  - rewrite firstn_all2 by (cbn; lia). by vm_compute.
Qed.

Lemma late_spans_counted_witness :
  left_alone (SentCache_Record 5 new_cache EventExamples.three true "deterministic/chance").1.1 (tr_TraceID EventExamples.three) late ∧
  answers 0 "deterministic/chance" 5 (CheckSpan 20 (sent_run (SentCache_Record 5 new_cache EventExamples.three true "deterministic/chance").1.1
    (take 5 late)) (EventExamples.span false [("meta.annotation_type", VString "link")])).2.
Proof.
  split; [exact late_left_alone|].
  apply (late_spans_counted new_cache 5 EventExamples.three "deterministic/chance" late 5 20);
    [exact new_reached|intros r Hr; by apply elem_of_nil in Hr|by split_and!|by vm_compute|by vm_compute|by vm_compute
    |exact late_left_alone|reflexivity|reflexivity].
Defined.

Lemma dropped_trace_found_witness :
  (CheckSpan 7 (SentCache_Record 5 empty_cache EventExamples.three false "").1.1 (EventExamples.span false [])).2
    = Some (DroppedRecord, "").
Proof.
  refine (proj1 (dropped_trace_found empty_cache EventExamples.three "" 5 7 (EventExamples.span false []) _ _ _));
    [done|done|unfold recentTTL; lia].
Defined.

Definition four_kept : cuckooSentCache (gset string) list_lru :=
  mkSent (lru_Add (lru_Add empty_lru "a" 0%nat) "b" 1%nat) [] stopped (SetTTL.NewSetWithTTL 0 recentTTL [])
    (KeptReasons.NewKeptReasonsCache 7).

Lemma resize_keeps_newest_witness :
  match Resize four_kept (cache_cfg 1) with
  | Some c' => lru_view (sn_kept c') = [("b", 1%nat)]
  | None => False
  end.
Proof.
  pose proof (resize_keeps_newest four_kept (cache_cfg 1)) as R.
  destruct (Resize four_kept (cache_cfg 1)) as [c'|] eqn:E.
  - destruct R as (_ & R & _). etransitivity; [exact R|]. by vm_compute.
  - vm_compute in R. apply R. reflexivity.
Defined.
End SentExamples.
