(* ===== verification/Collector.v ===== *)
(** collect/collect.go and collect/collector_worker.go: the collector.

    [parent] is what the workers share (configuration, sampler factory, stress relief, the queue of
    traces to send, what has been handed to the transmission, the calls made to the metrics); [worker] is a
    worker's own state.  A handler is a function of both.  A worker is the only one to touch its
    cache, so a handler runs to completion; the order in which spans and control signals reach a
    worker is any sequence of steps ([InMemCollector.step]).  [None] is the end of the process (a sampler that
    cannot be built, a predicate that panics). *)
From Stdlib Require Import SpecFloat.
From S2P Require Import Prelude GoValue Metrics Generics Event SamplerConfig Config TraceKey Rules Samplers StressRelief TraceCache SentCache.

(** ** Names *)

Definition DryRunFieldName := "meta.refinery.dryrun.kept".

Definition TraceSendGotRoot := "trace_send_got_root".
Definition TraceSendExpired := "trace_send_expired".
Definition TraceSendSpanLimit := "trace_send_span_limit".
Definition TraceSendEjectedMemsize := "trace_send_ejected_memsize".
Definition TraceSendLateSpan := "trace_send_late_span".

Record sendableTrace (P : Type) := mkSendable {
  st_Trace : Trace P; st_reason : string; st_sendReason : string; st_sampleKey : string;
  st_shouldSend : bool; st_rate : Z; st_samplerSelector : string }.
Arguments mkSendable {P}. Arguments st_Trace {P}. Arguments st_reason {P}. Arguments st_sendReason {P}.
Arguments st_sampleKey {P}. Arguments st_shouldSend {P}. Arguments st_rate {P}. Arguments st_samplerSelector {P}.

Record parent (D P : Type) := mkParent {
  pa_Config : fileConfig;
  pa_SamplerFactory : SamplerFactory D;
  pa_StressRelief : StressRelief.StressRelief;
  pa_hostname : string;
  pa_tracesToSend : list (sendableTrace P);
  pa_sent : list (Span P);             (** given to the transmission, in order *)
  pa_metrics : list metric_op }.
Arguments mkParent {D P}. Arguments pa_Config {D P}. Arguments pa_SamplerFactory {D P}.
Arguments pa_StressRelief {D P}. Arguments pa_hostname {D P}. Arguments pa_tracesToSend {D P}. Arguments pa_sent {D P}. Arguments pa_metrics {D P}.

Record worker (Q F L P : Type) := mkWorker {
  w_incoming : list (Span P);
  w_incomingSize : Z;
  w_fromPeer : list (Span P);
  w_peerSize : Z;
  w_reload : bool;                     (** a signal in the one-place reload channel *)
  w_cache : DefaultInMemCache Q P;
  w_sampleCache : cuckooSentCache F L;
  w_datasetSamplers : gmap string sampler;
  w_lastCacheSize : Z;
  w_localSpansWaiting : Z;
  w_localSpanReceived : Z;
  w_localSpanProcessed : Z;
  w_healthCheckInAt : Z }.
Arguments mkWorker {Q F L P}. Arguments w_incoming {Q F L P}. Arguments w_incomingSize {Q F L P}. Arguments w_peerSize {Q F L P}.
Arguments w_reload {Q F L P}. Arguments w_fromPeer {Q F L P}.
Arguments w_cache {Q F L P}. Arguments w_sampleCache {Q F L P}. Arguments w_datasetSamplers {Q F L P}.
Arguments w_lastCacheSize {Q F L P}. Arguments w_localSpansWaiting {Q F L P}.
Arguments w_localSpanReceived {Q F L P}. Arguments w_localSpanProcessed {Q F L P}.
Arguments w_healthCheckInAt {Q F L P}.

(** ** Decorating spans *)

Section Decorate.
Context {D P : Type} `{!PayloadOps P}.
Implicit Types (pa : parent D P) (sp : Span P) (t : Trace P).

Definition set_field sp (k : string) (v : value) : Span P := sp_set_Data sp (p_Set (sp_Data sp) k v).

Definition addAdditionalAttributes (cfg : fileConfig) sp : Span P :=
  foldl (λ sp kv, set_field sp kv.1 (VString kv.2)) sp (map_to_list (GetAdditionalAttributes cfg)).

(** In dry run the product is stored as a [uint]. *)
Definition mergeTraceAndSpanSampleRates sp (traceSampleRate : Z) (dryRunMode : bool) : Span P :=
  let tempSampleRate := sp_SampleRate sp in
  let sp := if negb (sp_SampleRate sp =? 0)
            then set_field sp MetaRefineryOriginalSampleRate (VInt64 (s64 (sp_SampleRate sp))) else sp in
  let tempSampleRate := if tempSampleRate <? 1 then 1 else tempSampleRate in
  if dryRunMode then
    sp_set_SampleRate
      (set_field sp "meta.dryrun.sample_rate" (VOther (format_int (u64 (tempSampleRate * traceSampleRate)))))
      tempSampleRate
  else
    let finalSampleRate := u64 (tempSampleRate * traceSampleRate) in
    set_field (sp_set_SampleRate sp finalSampleRate) MetaRefineryFinalSampleRate (VInt64 (s64 finalSampleRate)).

Definition set_hostname (hostname : string) sp : Span P :=
  if negb (String.eqb hostname "") then set_field sp MetaRefineryLocalHostname (VString hostname) else sp.

(** The counts written on a root span. *)
Definition set_counts (cfg : fileConfig) sp (events links spans descendants : Z) : Span P :=
  if GetAddCountsToRoot cfg then
    set_field (set_field (set_field (set_field sp MetaSpanEventCount (VInt64 events))
      MetaSpanLinkCount (VInt64 links)) MetaSpanCount (VInt64 spans)) MetaEventCount (VInt64 descendants)
  else if GetAddSpanCountToRoot cfg then set_field sp MetaSpanCount (VInt64 descendants)
  else sp.

Definition emit pa (sent : list (Span P)) (ops : list metric_op) : parent D P :=
  mkParent (pa_Config pa) (pa_SamplerFactory pa) (pa_StressRelief pa) (pa_hostname pa) (pa_tracesToSend pa)
    (pa_sent pa ++ sent) (pa_metrics pa ++ ops).
Definition set_outgoing pa (l : list (sendableTrace P)) : parent D P :=
  mkParent (pa_Config pa) (pa_SamplerFactory pa) (pa_StressRelief pa) (pa_hostname pa) l (pa_sent pa) (pa_metrics pa).
Definition set_factory pa (cfg : fileConfig) (f : SamplerFactory D) : parent D P :=
  mkParent cfg f (pa_StressRelief pa) (pa_hostname pa) (pa_tracesToSend pa) (pa_sent pa) (pa_metrics pa).

(** ** dealWithSentTrace *)

Definition dealWithSentTrace pa (tr : TraceSentRecord) (keptReason : string) sp : parent D P :=
  let cfg := pa_Config pa in
  let sp :=
    if GetAddRuleReasonToTrace cfg then
      let metaReason := if (0 <? String.length keptReason)%nat
                        then keptReason +:+ " - late arriving span" else "late arriving span" in
      set_field (set_field sp MetaRefineryReason (VString metaReason)) MetaRefinerySendReason (VString TraceSendLateSpan)
    else sp in
  let sp := set_hostname (pa_hostname pa) sp in
  let isDryRun := GetIsDryRun cfg in
  let keep := Kept tr in
  let sp := if isDryRun then set_field sp DryRunFieldName (VBool keep) else sp in
  if isDryRun && negb keep then
    emit pa [addAdditionalAttributes cfg sp] [MIncrement TraceSendLateSpan]
  else if keep then
    let sp := mergeTraceAndSpanSampleRates sp (Rate tr) isDryRun in
    let sp := if sp_IsRoot sp
              then set_counts cfg sp (Rec_SpanEventCount tr) (Rec_SpanLinkCount tr) (Rec_SpanCount tr) (Rec_DescendantCount tr)
              else sp in
    emit pa [addAdditionalAttributes cfg sp] [MIncrement TraceSendLateSpan]
  else pa.

(** ** send and sendTraces *)

Definition update_root t (f : Span P → Span P) : Trace P :=
  match tr_RootSpan t with
  | Some i => tr_set_spans t (alter f i (tr_spans t))
  | None => t
  end.

(** The counts are asked of the trace one after the other, each memoized. *)
Definition trace_counts t : Z * Z * Z * Z * Trace P :=
  let '(events, t) := SpanEventCount t in
  let '(links, t) := SpanLinkCount t in
  let '(spans, t) := SpanCount t in
  (events, links, spans, DescendantCount t, t).

Definition add_counts_to_root (cfg : fileConfig) t : Trace P :=
  if GetAddCountsToRoot cfg then
    let '(events, links, spans, descendants, t) := trace_counts t in
    update_root t (λ rs, set_counts cfg rs events links spans descendants)
  else update_root t (λ rs, set_counts cfg rs 0 0 0 (DescendantCount t)).

Definition send now pa (s : sendableTrace P) : parent D P :=
  let t := st_Trace s in
  if tr_Sent t then pa
  else
    let t := tr_set_Sent t true in
    let pa := emit pa [] [MHistogram "trace_duration_ms" (f64_of_Z (Z.quot (now - tr_ArrivalTime t) millisecond))] in
    if negb (tr_KeepSample t) && negb (GetIsDryRun (pa_Config pa)) then
      emit pa [] [MIncrement "trace_send_dropped"]
    else
      let t := match tr_RootSpan t with
               | Some _ => add_counts_to_root (pa_Config pa) t
               | None => t
               end in
      let pa := emit pa [] [MIncrement (st_sendReason s); MIncrement "trace_send_kept";
                            MHistogram "trace_kept_sample_rate" (f64_of_Z (tr_sampleRate t))] in
      set_outgoing pa (pa_tracesToSend pa ++ [mkSendable t (st_reason s) (st_sendReason s) (st_sampleKey s)
                                                (st_shouldSend s) (st_rate s) (st_samplerSelector s)]).

(** The body of the loop over a trace's spans, for the span at index [i]. *)
Definition send_span pa (s : sendableTrace P) t (i : nat) : parent D P * Trace P :=
  let cfg := pa_Config pa in
  match tr_spans t !! i with
  | None => (pa, t)
  | Some sp =>
      let sp :=
        if GetAddRuleReasonToTrace cfg then
          let sp := set_field (set_field sp MetaRefineryReason (VString (st_reason s)))
                      MetaRefinerySendReason (VString (st_sendReason s)) in
          if negb (String.eqb (st_sampleKey s) "") then set_field sp MetaRefinerySampleKey (VString (st_sampleKey s)) else sp
        else sp in
      let t := tr_set_spans t (<[i := sp]> (tr_spans t)) in
      let '(sp, t) :=
        if sp_IsRoot sp then
          if GetAddCountsToRoot cfg then
            let '(events, links, spans, descendants, t) := trace_counts t in
            (set_counts cfg (default sp (tr_spans t !! i)) events links spans descendants, t)
          else (set_counts cfg sp 0 0 0 (DescendantCount t), t)
        else (sp, t) in
      let isDryRun := GetIsDryRun cfg in
      let sp := if isDryRun then set_field sp DryRunFieldName (VBool (st_shouldSend s)) else sp in
      let sp := set_hostname (pa_hostname pa) sp in
      let sp := mergeTraceAndSpanSampleRates sp (tr_sampleRate t) isDryRun in
      let sp := addAdditionalAttributes cfg sp in
      let sp := sp_set_Event sp (ev_set_APIKey (sp_Event sp) (tr_APIKey t)) in
      (emit pa [sp] [], tr_set_spans t (<[i := sp]> (tr_spans t)))
  end.

Fixpoint send_spans pa (s : sendableTrace P) t (indices : list nat) : parent D P :=
  match indices with
  | [] => pa
  | i :: indices => let '(pa, t) := send_span pa s t i in send_spans pa s t indices
  end.

(** One receipt from [tracesToSend]. *)
Definition sendTraces_step pa : parent D P :=
  match pa_tracesToSend pa with
  | [] => pa
  | s :: rest =>
      let pa := emit (set_outgoing pa rest) []
                  [MHistogram "collector_outgoing_queue" (f64_of_Z (Z.of_nat (length rest)))] in
      send_spans pa s (st_Trace s) (seq 0 (length (tr_spans (st_Trace s))))
  end.
End Decorate.

(** ** Field updates of a worker *)

Section WorkerUpdates.
Context {Q F L P : Type}.
Implicit Types (w : worker Q F L P).

Definition w_set_queues w inc peer : worker Q F L P :=
  mkWorker inc (w_incomingSize w) peer (w_peerSize w) (w_reload w) (w_cache w) (w_sampleCache w) (w_datasetSamplers w)
    (w_lastCacheSize w) (w_localSpansWaiting w) (w_localSpanReceived w) (w_localSpanProcessed w) (w_healthCheckInAt w).
Definition w_set_counters w waiting received processed : worker Q F L P :=
  mkWorker (w_incoming w) (w_incomingSize w) (w_fromPeer w) (w_peerSize w) (w_reload w) (w_cache w) (w_sampleCache w)
    (w_datasetSamplers w) (w_lastCacheSize w) waiting received processed (w_healthCheckInAt w).
Definition w_set_cache w c : worker Q F L P :=
  mkWorker (w_incoming w) (w_incomingSize w) (w_fromPeer w) (w_peerSize w) (w_reload w) c (w_sampleCache w)
    (w_datasetSamplers w) (w_lastCacheSize w) (w_localSpansWaiting w) (w_localSpanReceived w) (w_localSpanProcessed w)
    (w_healthCheckInAt w).
Definition w_set_sampleCache w c : worker Q F L P :=
  mkWorker (w_incoming w) (w_incomingSize w) (w_fromPeer w) (w_peerSize w) (w_reload w) (w_cache w) c
    (w_datasetSamplers w) (w_lastCacheSize w) (w_localSpansWaiting w) (w_localSpanReceived w) (w_localSpanProcessed w)
    (w_healthCheckInAt w).
Definition w_set_samplers w s : worker Q F L P :=
  mkWorker (w_incoming w) (w_incomingSize w) (w_fromPeer w) (w_peerSize w) (w_reload w) (w_cache w) (w_sampleCache w)
    s (w_lastCacheSize w) (w_localSpansWaiting w) (w_localSpanReceived w) (w_localSpanProcessed w)
    (w_healthCheckInAt w).
Definition w_set_lastCacheSize w n : worker Q F L P :=
  mkWorker (w_incoming w) (w_incomingSize w) (w_fromPeer w) (w_peerSize w) (w_reload w) (w_cache w) (w_sampleCache w)
    (w_datasetSamplers w) n (w_localSpansWaiting w) (w_localSpanReceived w) (w_localSpanProcessed w)
    (w_healthCheckInAt w).
Definition w_set_health w n : worker Q F L P :=
  mkWorker (w_incoming w) (w_incomingSize w) (w_fromPeer w) (w_peerSize w) (w_reload w) (w_cache w) (w_sampleCache w)
    (w_datasetSamplers w) (w_lastCacheSize w) (w_localSpansWaiting w) (w_localSpanReceived w) (w_localSpanProcessed w) n.
Definition w_set_reload w b : worker Q F L P :=
  mkWorker (w_incoming w) (w_incomingSize w) (w_fromPeer w) (w_peerSize w) b (w_cache w) (w_sampleCache w)
    (w_datasetSamplers w) (w_lastCacheSize w) (w_localSpansWaiting w) (w_localSpanReceived w) (w_localSpanProcessed w)
    (w_healthCheckInAt w).
End WorkerUpdates.
