(* ===== verification/Worker.v ===== *)
(** collect/collector_worker.go: a worker.

    A handler is a function of what the workers share and of the worker's own state.  It reads
    the clock once; the durations it reports to the histograms are the argument [elapsed].
    [rnd i] is what rand.Intn answers for the [i]th trace of a batch, [peers] what GetPeers
    answers the sampler factory. *)
From S2P Require Import Prelude GoValue Metrics Generics Event SamplerConfig Config TraceKey Rules Samplers StressRelief TraceCache SentCache Collector.

Definition second : Z := 1000000000.

Section Worker.
Context {D Q F L P : Type}.
Context `{GoDynsampler D, GoFloat, GoRegexp, GoWyhash, GoGjson, GoSha1, KPQ Q, GoCuckoo F, GoLRU L} `{!PayloadOps P}.
Implicit Types (pa : parent D P) (w : worker Q F L P) (sp : Span P) (t : Trace P) (now : Z).
Variable elapsed : Z.
Variable peers : option (res (list string)).

Definition NewCollectorWorker pa (seed incomingSize peerSize : Z) : option (worker Q F L P * list metric_op) :=
  match NewCuckooSentCache (GetSampleCacheConfig (pa_Config pa)) seed with
  | None => None
  | Some (sampleCache, ops) =>
      let '(cache, ops') := NewInMemCache in
      Some (mkWorker [] incomingSize [] peerSize false cache sampleCache ∅ 0 0 0 0 0, ops ++ ops')
  end.

(** ** The queues *)

Inductive added := Added w | WouldBlock | Blocks.

Definition addSpan (BlockOnAddSpan : bool) w sp : added :=
  if Z.of_nat (length (w_incoming w)) <? w_incomingSize w then
    Added (w_set_counters (w_set_queues w (w_incoming w ++ [sp]) (w_fromPeer w))
             (w_localSpansWaiting w + 1) (w_localSpanReceived w + 1) (w_localSpanProcessed w))
  else if BlockOnAddSpan then Blocks else WouldBlock.

Definition addSpanFromPeer (BlockOnAddSpan : bool) w sp : added :=
  if Z.of_nat (length (w_fromPeer w)) <? w_peerSize w then
    Added (w_set_counters (w_set_queues w (w_incoming w) (w_fromPeer w ++ [sp]))
             (w_localSpansWaiting w + 1) (w_localSpanReceived w + 1) (w_localSpanProcessed w))
  else if BlockOnAddSpan then Blocks else WouldBlock.

(** ** processSpan *)

Definition trace_timeout (tcfg : TracesConfig) : Z :=
  if tc_TraceTimeout tcfg =? 0 then 60 * second else tc_TraceTimeout tcfg.
Definition send_delay (tcfg : TracesConfig) : Z :=
  if tc_SendDelay tcfg =? 0 then 2 * second else tc_SendDelay tcfg.

Definition new_trace now sp (sendBy : Z) (rate : Z) : Trace P :=
  let e := sp_Event sp in
  mkTrace (ev_APIHost e) (ev_APIKey e) (ev_Dataset e) (sp_TraceID sp) (ev_Environment e) rate false false 0 ""
    sendBy now None 0 [] 0 0 0 0.

Definition span_limit_exceeded (tcfg : TracesConfig) t : bool :=
  (0 <? tc_SpanLimit tcfg) && (tc_SpanLimit tcfg <? DescendantCount t).

(** From "great! trace is live" on. *)
Definition add_live now (tcfg : TracesConfig) w t sp : worker Q F L P :=
  let t := AddSpan now t sp in
  let t := if sp_IsRoot sp then tr_set_RootSpan t (Some (length (tr_spans t) - 1)%nat) else t in
  let w := w_set_cache w (Update (w_cache w) t) in
  let exceeded := span_limit_exceeded tcfg t in
  let timeout := if exceeded then 0 else send_delay tcfg in
  if sp_IsRoot sp || exceeded then
    let updatedSendBy := now + timeout in
    if updatedSendBy <? tr_SendBy t
    then w_set_cache w (Cache_Set (w_cache w) (tr_set_SendBy t updatedSendBy))
    else w
  else w.

(** From the test of [trace.Sent] on. *)
Definition process_known now pa w t sp : parent D P * worker Q F L P :=
  if tr_Sent t then
    let '(sc, sp, found) := CheckSpan now (w_sampleCache w) sp in
    let w := w_set_sampleCache w sc in
    match found with
    | Some (sr, reason) => (dealWithSentTrace (emit pa [] [MIncrement "trace_sent_cache_hit"]) sr reason sp, w)
    | None =>
        let '(e, t) := NewKeptTraceCacheEntry t in
        (dealWithSentTrace pa (KeptRecord e) "" sp, w_set_cache w (Update (w_cache w) t))
    end
  else (pa, add_live now (GetTracesConfig (pa_Config pa)) w t sp).

Definition processSpan now pa w sp : parent D P * worker Q F L P :=
  let tcfg := GetTracesConfig (pa_Config pa) in
  let w := w_set_counters w (w_localSpansWaiting w - 1) (w_localSpanReceived w) (w_localSpanProcessed w + 1) in
  match Cache_Get (w_cache w) (sp_TraceID sp) with
  | Some t => process_known now pa w t sp
  | None =>
      let '(sc, sp, found) := CheckSpan now (w_sampleCache w) sp in
      let w := w_set_sampleCache w sc in
      match found with
      | Some (sr, keptReason) => (dealWithSentTrace (emit pa [] [MIncrement "trace_sent_cache_hit"]) sr keptReason sp, w)
      | None =>
          let t := new_trace now sp (now + trace_timeout tcfg) (sp_SampleRate sp) in
          process_known now (emit pa [] [MIncrement "trace_accepted"]) (w_set_cache w (Cache_Set (w_cache w) t)) t sp
      end
  end.

(** ** makeDecision *)

Definition memoize_keys (allFields nonRootFields : list string) sp : Span P :=
  sp_set_Data sp (p_MemoizeFields (sp_Data sp) (if sp_IsRoot sp then allFields else nonRootFields)).

(** The sampler of a key, created and kept when the worker has none. *)
Definition get_sampler pa w (selector : string) : option (sampler * parent D P) :=
  match w_datasetSamplers w !! selector with
  | Some s => Some (s, pa)
  | None =>
      match GetSamplerImplementationForKey peers (pa_SamplerFactory pa) (pa_Config pa) selector with
      | None => None
      | Some (s, c, f, ops) => Some (s, emit (set_factory pa (set_sampler_config (pa_Config pa) selector c) f) [] ops)
      end
  end.

(** [Err] is "trace already sent". *)
Definition makeDecision now (intn : Z → Z) pa w t (sendReason : string)
    : option (res (sendableTrace P) * parent D P * worker Q F L P) :=
  if tr_Sent t then Some (Err "trace already sent", pa, w)
  else
    let pa := emit pa [] [MHistogram "trace_span_count" (f64_of_Z (DescendantCount t))] in
    let samplerSelector := DetermineSamplerKey (pa_Config pa) (tr_APIKey t) (tr_Environment t) (tr_Dataset t) in
    match get_sampler pa w samplerSelector with
    | None => None
    | Some (s, pa) =>
        let '(allFields, nonRootFields) := Sampler_GetKeyFields s in
        let t := tr_set_spans t (memoize_keys allFields nonRootFields <$> tr_spans t) in
        match GetSampleRate (pa_SamplerFactory pa) s t intn with
        | None => None
        | Some (d, s, f, ops) =>
            let w := w_set_samplers w (<[samplerSelector := s]> (w_datasetSamplers w)) in
            let t := tr_set_decision t (dc_rate d) (dc_keep d) in
            let '(sc, t, ops') := SentCache_Record now (w_sampleCache w) t (dc_keep d) (dc_reason d) in
            let pa := emit (set_factory pa (pa_Config pa) f) []
              (ops ++ [MHistogram "get_sample_rate_duration_ms" (f64_of_Z elapsed);
                       MHistogram "trace_aggregate_sample_rate" (f64_of_Z (dc_rate d))] ++ ops' ++
               [MIncrement (match tr_RootSpan t with Some _ => "trace_send_has_root" | None => "trace_send_no_root" end)]) in
            Some (Ok (mkSendable t (dc_reason d) sendReason (dc_key d) (dc_keep d) (dc_rate d) samplerSelector),
                  pa, w_set_sampleCache w sc)
        end
    end.

(** ** sendExpiredTracesInCache *)

Definition expiry_reason (spanLimit : Z) t : string :=
  match tr_RootSpan t with
  | Some _ => TraceSendGotRoot
  | None => if (0 <? spanLimit) && (spanLimit <? DescendantCount t) then TraceSendSpanLimit else TraceSendExpired
  end.

Fixpoint send_expired now (rnd : nat → Z → Z) (i : nat) (spanLimit : Z) pa w (traces : list (Trace P))
    : option (parent D P * worker Q F L P) :=
  match traces with
  | [] => Some (pa, w)
  | t :: traces =>
      match makeDecision now (rnd i) pa w t (expiry_reason spanLimit t) with
      | None => None
      | Some (Err _, pa, w) => send_expired now rnd (S i) spanLimit pa w traces
      | Some (Ok tr, pa, w) => send_expired now rnd (S i) spanLimit (send now pa tr) w traces
      end
  end.

Definition sendExpiredTracesInCache now (rnd : nat → Z → Z) pa w : option (parent D P * worker Q F L P) :=
  let tcfg := GetTracesConfig (pa_Config pa) in
  let '(cache, traces, ops) := TakeExpiredTraces now (s64 (tc_MaxExpiredTraces tcfg)) (λ _, true) (w_cache w) in
  match send_expired now rnd 0 (u32 (tc_SpanLimit tcfg)) (emit pa [] ops) (w_set_cache w cache) traces with
  | None => None
  | Some (pa, w) =>
      Some (emit pa [] [MHistogram "collector_send_expired_traces_in_cache_dur_ms" (f64_of_Z elapsed)], w)
  end.

(** ** sendTracesEarly *)

(** The heavier first; the order of traces of equal impact is unspecified. *)
Definition heavier (a b : Z * Trace P) : Prop := b.1 ≤ a.1.
#[export] Instance heavier_dec : RelDecision heavier.
Proof. intros a b. unfold heavier. apply _. Defined.

#[export] Instance heavier_total : Total heavier.
Proof. intros a b. unfold heavier. lia. Qed.
#[export] Instance heavier_trans : Transitive heavier.
Proof. intros a b c. unfold heavier. lia. Qed.

(** The impact of each trace, computed by the comparisons of the sort: not at all when there
    is only one. *)
Definition with_impacts now (traceTimeout : Z) (l : list (Trace P)) : option (list (Z * Trace P)) :=
  match l with
  | [] | [_] => Some ((λ t, (0, t)) <$> l)
  | _ => mapM (λ t, CacheImpact now t traceTimeout) l
  end.

Fixpoint send_early now (rnd : nat → Z → Z) (i : nat) (sendEarlyBytes totalDataSizeSent : Z)
    (tracesSent : gset string) pa w (traces : list (Trace P))
    : option (parent D P * worker Q F L P * gset string) :=
  match traces with
  | [] => Some (pa, w, tracesSent)
  | t :: traces =>
      match makeDecision now (rnd i) pa w t TraceSendEjectedMemsize with
      | None => None
      | Some (Err _, pa, w) => send_early now rnd (S i) sendEarlyBytes totalDataSizeSent tracesSent pa w traces
      | Some (Ok tr, pa, w) =>
          let tracesSent := tracesSent ∪ {[tr_TraceID t]} in
          let total := s64 (totalDataSizeSent + tr_DataSize t) in
          let pa := send now pa tr in
          if sendEarlyBytes <? total then Some (pa, w, tracesSent)
          else send_early now rnd (S i) sendEarlyBytes total tracesSent pa w traces
      end
  end.

(** The impacts are written to the cached traces, which the loop then takes from the heaviest
    on. *)
Definition sendTracesEarly now (rnd : nat → Z → Z) pa w (sendEarlyBytes : Z)
    : option (parent D P * worker Q F L P) :=
  match with_impacts now (trace_timeout (GetTracesConfig (pa_Config pa))) (GetAll (w_cache w)) with
  | None => None
  | Some impacts =>
      let w := w_set_cache w (foldl Update (w_cache w) impacts.*2) in
      match send_early now rnd 0 sendEarlyBytes 0 ∅ pa w (merge_sort heavier impacts).*2 with
      | None => None
      | Some (pa, w, tracesSent) =>
          let '(cache, ops) := RemoveTraces (w_cache w) tracesSent in
          Some (emit pa [] ops, w_set_lastCacheSize (w_set_cache w cache) (Z.of_nat (GetCacheEntryCount cache)))
      end
  end.

(** ** The loop *)

Definition getLastSpanProcessed w : Z * worker Q F L P :=
  (w_localSpanProcessed w, w_set_counters w (w_localSpansWaiting w) (w_localSpanReceived w) 0).

Definition GetCacheSize w : Z := w_lastCacheSize w.

Definition IsHealthy w now (timeout : Z) : bool :=
  if w_healthCheckInAt w =? 0 then false else negb (timeout <? now - w_healthCheckInAt w).

Definition on_tick now (rnd : nat → Z → Z) pa w : option (parent D P * worker Q F L P) :=
  let '(n, w) := getLastSpanProcessed (w_set_health w now) in
  match sendExpiredTracesInCache now rnd (emit pa [] [MCount "span_processed" n]) w with
  | None => None
  | Some (pa, w) => Some (pa, w_set_lastCacheSize w (Z.of_nat (GetCacheEntryCount (w_cache w))))
  end.

Definition on_reload pa w : worker Q F L P :=
  let w := w_set_samplers (w_set_reload w false) ∅ in
  match Resize (w_sampleCache w) (GetSampleCacheConfig (pa_Config pa)) with
  | Some sc => w_set_sampleCache w sc
  | None => w
  end.

(** What the inner select can receive. *)
Inductive input := InPeer | InTick | InIncoming | InSendEarly (bytes : Z) | InReload.

(** An iteration whose outer select finds a peer's span takes it; one that finds none goes on to the inner select, before which another may have arrived. *)
Inductive iteration := Outer | Inner (i : input).

Definition on_input now (rnd : nat → Z → Z) pa w (i : input) : option (parent D P * worker Q F L P) :=
  match i with
  | InPeer =>
      match w_fromPeer w with
      | [] => Some (pa, w)
      | sp :: rest => Some (processSpan now pa (w_set_queues w (w_incoming w) rest) sp)
      end
  | InTick => on_tick now rnd pa w
  | InIncoming =>
      match w_incoming w with
      | [] => Some (pa, w)
      | sp :: rest => Some (processSpan now pa (w_set_queues w rest (w_fromPeer w)) sp)
      end
  | InSendEarly bytes => sendTracesEarly now rnd pa w bytes
  | InReload => Some (pa, if w_reload w then on_reload pa w else w)
  end.

(** One iteration; receiving from an empty channel leaves everything as it is. *)
Definition collect_once now (rnd : nat → Z → Z) pa w (it : iteration) : option (parent D P * worker Q F L P) :=
  match on_input now rnd pa w (match it with Outer => InPeer | Inner i => i end) with
  | None => None
  | Some (pa, w) => Some (emit pa [] [MHistogram "collector_collect_loop_duration_ms" (f64_of_Z elapsed)], w)
  end.
End Worker.
Arguments Added {Q F L P}. Arguments WouldBlock {Q F L P}. Arguments Blocks {Q F L P}.

(** ** What decorating a span leaves alone *)

(** A span's identity: what no operation on the way through a worker changes. *)
Definition span_key {P} (sp : Span P) : string * bool * string * string * string * Z * Z :=
  let e := sp_Event sp in
  (sp_TraceID sp, sp_IsRoot sp, ev_APIHost e, ev_Dataset e, ev_Environment e, ev_Timestamp e, ev_EnqueuedUnixMicro e).

Definition span_keys {P} (l : list (Span P)) := span_key <$> l.
Definition trace_keys {P} (t : Trace P) := span_keys (tr_spans t).

Section Keys.
Context {D P : Type} `{!PayloadOps P}.
Implicit Types (pa : parent D P) (sp : Span P) (t : Trace P).

Lemma key_set_field sp k v : span_key (set_field sp k v) = span_key sp.
Proof. done. Qed.

Lemma key_attributes cfg sp : span_key (addAdditionalAttributes cfg sp) = span_key sp.
Proof.
  unfold addAdditionalAttributes. generalize (map_to_list (GetAdditionalAttributes cfg)). intros l.
  revert sp. induction l as [|[k v] l IH]; intros sp; cbn [foldl]; [done|]. by rewrite IH.
Qed.

Lemma key_set_counts cfg sp e k s d : span_key (set_counts cfg sp e k s d) = span_key sp.
Proof. unfold set_counts. by repeat case_match. Qed.

Lemma key_hostname h sp : span_key (set_hostname h sp) = span_key sp.
Proof. unfold set_hostname. by case_match. Qed.

Lemma key_merge sp rate dry : span_key (mergeTraceAndSpanSampleRates sp rate dry) = span_key sp.
Proof. unfold mergeTraceAndSpanSampleRates. destruct dry, (sp_SampleRate sp =? 0); done. Qed.

Lemma key_AnnotationType sp : span_key (AnnotationType sp).2 = span_key sp.
Proof. unfold AnnotationType. by case_match. Qed.

Lemma key_GetDataSize sp : span_key (Span_GetDataSize sp).2 = span_key sp.
Proof. unfold Span_GetDataSize, GetDataSize. by case_match. Qed.

Lemma key_memoize a b sp : span_key (memoize_keys a b sp) = span_key sp.
Proof. done. Qed.

Lemma keys_alter (f : Span P → Span P) i l :
  (∀ sp, span_key (f sp) = span_key sp) → span_keys (alter f i l) = span_keys l.
Proof.
  intros Hf. revert i. induction l as [|sp l IH]; intros [|i]; cbn; [done..|by rewrite Hf|].
  f_equal. apply IH.
Qed.

Lemma keys_map (f : Span P → Span P) l :
  (∀ sp, span_key (f sp) = span_key sp) → span_keys (f <$> l) = span_keys l.
Proof. intros Hf. unfold span_keys. rewrite <-list_fmap_compose. apply list_fmap_ext. intros i sp _. apply Hf. Qed.

Lemma keys_ensure_counts t : trace_keys (ensure_counts t) = trace_keys t.
Proof.
  unfold ensure_counts. case_match; [|done]. unfold trace_keys, calculateSpanCounts.
  destruct (foldl _ _ _) as [[? ?] ?]. simpl. rewrite <-list_fmap_compose.
  apply keys_map. intros sp. apply key_AnnotationType.
Qed.

(** The fields of a trace its counters do not touch. *)
Lemma ensure_counts_fields t :
  tr_TraceID (ensure_counts t) = tr_TraceID t ∧ tr_SendBy (ensure_counts t) = tr_SendBy t ∧
  tr_Sent (ensure_counts t) = tr_Sent t ∧ tr_RootSpan (ensure_counts t) = tr_RootSpan t ∧
  tr_KeepSample (ensure_counts t) = tr_KeepSample t ∧ tr_sampleRate (ensure_counts t) = tr_sampleRate t ∧
  tr_DataSize (ensure_counts t) = tr_DataSize t.
Proof.
  unfold ensure_counts. case_match; [|done]. unfold calculateSpanCounts.
  by destruct (foldl _ _ _) as [[? ?] ?].
Qed.

Lemma keys_add_counts cfg t : trace_keys (add_counts_to_root cfg t) = trace_keys t.
Proof.
  unfold add_counts_to_root, trace_counts, SpanEventCount, SpanLinkCount, SpanCount, update_root. cbn zeta.
  destruct (GetAddCountsToRoot cfg).
  - destruct (tr_RootSpan (ensure_counts (ensure_counts (ensure_counts t)))); [|by rewrite !keys_ensure_counts].
    unfold trace_keys at 1. simpl. rewrite keys_alter by (intros; apply key_set_counts).
    change (trace_keys (ensure_counts (ensure_counts (ensure_counts t))) = trace_keys t).
    by rewrite !keys_ensure_counts.
  - destruct (tr_RootSpan t); [|done]. unfold trace_keys. simpl. apply keys_alter. intros. apply key_set_counts.
Qed.

Lemma keys_AddSpan now t sp : trace_keys (AddSpan now t sp) = trace_keys t ++ [span_key sp].
Proof.
  unfold AddSpan. destruct (Span_GetDataSize (sp_set_ArrivalTime sp now)) as [n sp'] eqn:E.
  pose proof (key_GetDataSize (sp_set_ArrivalTime sp now)) as K. rewrite E in K. simpl in K.
  unfold trace_keys, span_keys. simpl. rewrite fmap_app. simpl. by rewrite K.
Qed.
End Keys.

(** ** Where a span is *)

(** Spans may be dropped on the way, never duplicated; in dry run none is dropped. *)
Definition flows {A} (dry : bool) (after before : list A) : Prop := after ⊆+ before ∧ (dry = true → after ≡ₚ before).

Section Flow.
Context {A : Type}.
Implicit Types (l : list A).

Lemma flows_perm dry l1 l2 : l1 ≡ₚ l2 → flows dry l1 l2.
Proof. intros E. split; [by rewrite E|done]. Qed.

Lemma flows_trans dry l1 l2 l3 : flows dry l1 l2 → flows dry l2 l3 → flows dry l1 l3.
Proof. intros [S1 E1] [S2 E2]. split; [by etrans|]. intros Hd. by rewrite E1, E2. Qed.

Lemma flows_app dry l1 l2 k1 k2 : flows dry l1 l2 → flows dry k1 k2 → flows dry (l1 ++ k1) (l2 ++ k2).
Proof.
  intros [S1 E1] [S2 E2]. split; [by apply submseteq_app|]. intros Hd. by rewrite E1, E2.
Qed.

#[export] Instance flows_proper dry : Proper ((≡ₚ) ==> (≡ₚ) ==> iff) (flows (A := A) dry).
Proof. intros l1 l1' E1 l2 l2' E2. unfold flows. by rewrite E1, E2. Qed.
End Flow.

Section Conservation.
Context {D Q F L P : Type}.
Context `{GoDynsampler D, GoFloat, GoRegexp, GoWyhash, GoGjson, GoSha1, KPQLaws Q, GoCuckoo F, GoLRU L} `{!PayloadOps P}.
Implicit Types (pa : parent D P) (w : worker Q F L P) (sp : Span P) (t : Trace P) (now : Z) (d : DefaultInMemCache Q P).
Variable elapsed : Z.
Variable peers : option (res (list string)).

Definition cached_keys d := concat (trace_keys <$> GetAll d).
(** What a worker holds, and what has left the workers. *)
Definition held w := span_keys (w_incoming w) ++ span_keys (w_fromPeer w) ++ cached_keys (w_cache w).
Definition out pa := concat ((λ s, trace_keys (st_Trace s)) <$> pa_tracesToSend pa) ++ span_keys (pa_sent pa).

Lemma cached_keys_delete (m : gmap string (Trace P)) id t :
  m !! id = Some t →
  concat (trace_keys <$> (map_to_list m).*2) ≡ₚ trace_keys t ++ concat (trace_keys <$> (map_to_list (delete id m)).*2).
Proof. intros Hm. by rewrite <-(map_to_list_delete m id t Hm). Qed.

Lemma cached_keys_insert (m : gmap string (Trace P)) t :
  concat (trace_keys <$> (map_to_list (<[tr_TraceID t := t]> m)).*2) ≡ₚ
    trace_keys t ++ concat (trace_keys <$> (map_to_list (delete (tr_TraceID t) m)).*2).
Proof.
  rewrite (cached_keys_delete (<[tr_TraceID t := t]> m) (tr_TraceID t) t) by by rewrite lookup_insert_eq.
  by rewrite delete_insert_eq.
Qed.

Lemma cached_keys_new d pq t :
  ca_cache d !! tr_TraceID t = None →
  cached_keys (mkCache pq (<[tr_TraceID t := t]> (ca_cache d))) ≡ₚ trace_keys t ++ cached_keys d.
Proof.
  intros Hn. unfold cached_keys, GetAll. simpl. rewrite cached_keys_insert. by rewrite delete_id.
Qed.

Lemma cached_keys_replace d pq t t0 :
  ca_cache d !! tr_TraceID t = Some t0 →
  trace_keys t0 ++ cached_keys (mkCache pq (<[tr_TraceID t := t]> (ca_cache d))) ≡ₚ trace_keys t ++ cached_keys d.
Proof.
  intros Ht. unfold cached_keys, GetAll. simpl. rewrite cached_keys_insert, (cached_keys_delete _ _ _ Ht).
  solve_Permutation.
Qed.

(** *** Late spans and traces sent *)

Lemma dealWithSentTrace_flow pa tr reason sp :
  let pa' := dealWithSentTrace pa tr reason sp in
  pa_Config pa' = pa_Config pa ∧ pa_tracesToSend pa' = pa_tracesToSend pa ∧
  ∃ l, span_keys (pa_sent pa') = span_keys (pa_sent pa) ++ l ∧
    l = if Kept tr || GetIsDryRun (pa_Config pa) then [span_key sp] else [].
Proof.
  cbn zeta. unfold dealWithSentTrace. set (sp1 := if GetAddRuleReasonToTrace _ then _ else sp).
  assert (E1 : span_key sp1 = span_key sp) by (unfold sp1; by case_match).
  set (sp2 := if GetIsDryRun _ then _ else set_hostname _ sp1).
  assert (E2 : span_key sp2 = span_key sp) by (unfold sp2; case_match; by rewrite ?key_set_field, key_hostname).
  clearbody sp1 sp2.
  destruct (Kept tr) eqn:Ek, (GetIsDryRun (pa_Config pa)) eqn:Ed; cbn -[addAdditionalAttributes mergeTraceAndSpanSampleRates];
    (split; [done|]; split; [done|]); eexists; (split; [|reflexivity]);
    unfold span_keys; rewrite ?fmap_app, ?app_nil_r; try done;
    cbn [fmap list_fmap]; rewrite key_attributes; f_equal; f_equal; try done;
    case_match; by rewrite ?key_set_counts, ?key_merge.
Qed.
Lemma send_flow now pa s :
  let pa' := send now pa s in
  pa_Config pa' = pa_Config pa ∧ pa_sent pa' = pa_sent pa ∧
  (tr_Sent (st_Trace s) = false →
   ∃ l, concat ((λ s, trace_keys (st_Trace s)) <$> pa_tracesToSend pa') =
          concat ((λ s, trace_keys (st_Trace s)) <$> pa_tracesToSend pa) ++ l ∧
     l = if tr_KeepSample (st_Trace s) || GetIsDryRun (pa_Config pa) then trace_keys (st_Trace s) else []).
Proof.
  cbn zeta. unfold send. destruct (tr_Sent (st_Trace s)); [done|].
  change (tr_KeepSample (tr_set_Sent (st_Trace s) true)) with (tr_KeepSample (st_Trace s)).
  change (pa_Config (emit pa [] _)) with (pa_Config pa). set (t1 := match tr_RootSpan _ with Some _ => _ | None => _ end).
  assert (Ek : trace_keys t1 = trace_keys (st_Trace s)).
  { unfold t1. by destruct (tr_RootSpan _); rewrite ?keys_add_counts. }
  clearbody t1. destruct (negb (tr_KeepSample (st_Trace s)) && negb (GetIsDryRun (pa_Config pa))) eqn:E; cbn;
    rewrite ?app_nil_r; (split; [done|]); (split; [done|]); intros _; eexists; (split; [|reflexivity]).
  - destruct (tr_KeepSample (st_Trace s)), (GetIsDryRun (pa_Config pa)); try done. by rewrite app_nil_r.
  - rewrite fmap_app, concat_app. cbn. rewrite app_nil_r, Ek.
    by destruct (tr_KeepSample (st_Trace s)), (GetIsDryRun (pa_Config pa)).
Qed.

(** *** Decisions *)

(** The sampler's creation and the decision leave the queues and the cache alone. *)
Lemma get_sampler_flow pa w selector s pa' :
  get_sampler peers pa w selector = Some (s, pa') →
  out pa' = out pa ∧ mainConfig (pa_Config pa') = mainConfig (pa_Config pa).
Proof.
  unfold get_sampler. destruct (w_datasetSamplers w !! selector); [by intros [= <- <-]|].
  destruct (GetSamplerImplementationForKey _ _ _ _) as [[[[s' c] f] ops]|]; [|done].
  intros [= <- <-]. unfold out. simpl. by rewrite app_nil_r.
Qed.

Lemma SentCache_Record_trace now (sc : cuckooSentCache F L) t keep reason sc' t' ops :
  SentCache_Record now sc t keep reason = (sc', t', ops) →
  trace_keys t' = trace_keys t ∧ tr_Sent t' = tr_Sent t ∧ tr_TraceID t' = tr_TraceID t ∧
  tr_RootSpan t' = tr_RootSpan t ∧ tr_KeepSample t' = tr_KeepSample t ∧ tr_sampleRate t' = tr_sampleRate t.
Proof.
  unfold SentCache_Record. destruct keep.
  - destruct (KeptReasons.Set_ _ _) as [[r k] o]. unfold NewKeptTraceCacheEntry, SpanEventCount, SpanLinkCount, SpanCount.
    cbn zeta. intros [= <- <- <-].
    set (u := tr_set_keptReason t k). rewrite !keys_ensure_counts.
    repeat rewrite (proj1 (proj2 (proj2 (ensure_counts_fields _)))).
    repeat rewrite (proj1 (ensure_counts_fields _)).
    repeat rewrite (proj1 (proj2 (proj2 (proj2 (ensure_counts_fields _))))).
    repeat rewrite (proj1 (proj2 (proj2 (proj2 (proj2 (ensure_counts_fields _)))))).
    repeat rewrite (proj1 (proj2 (proj2 (proj2 (proj2 (proj2 (ensure_counts_fields _))))))). done.
  - destruct (Checker.Add _ _) as [dr o]. by intros [= <- <- <-].
Qed.

Lemma makeDecision_flow now intn pa w t reason r pa' w' :
  tr_Sent t = false →
  makeDecision elapsed peers now intn pa w t reason = Some (r, pa', w') →
  ∃ s, r = Ok s ∧ tr_Sent (st_Trace s) = false ∧ trace_keys (st_Trace s) = trace_keys t ∧
    tr_TraceID (st_Trace s) = tr_TraceID t ∧ st_sendReason s = reason ∧
    tr_KeepSample (st_Trace s) = st_shouldSend s ∧ tr_sampleRate (st_Trace s) = st_rate s ∧
    out pa' = out pa ∧ mainConfig (pa_Config pa') = mainConfig (pa_Config pa) ∧
    w_incoming w' = w_incoming w ∧ w_fromPeer w' = w_fromPeer w ∧ w_cache w' = w_cache w.
Proof.
  intros Hs. unfold makeDecision. rewrite Hs.
  set (pa0 := emit pa [] _). assert (E0 : out pa0 = out pa) by (unfold out; simpl; by rewrite app_nil_r).
  change (pa_Config pa0) with (pa_Config pa). destruct (get_sampler peers pa0 w _) as [[s pa1]|] eqn:Eg; [|done].
  apply get_sampler_flow in Eg as [E1 E2]. destruct (Sampler_GetKeyFields s) as [af nf].
  destruct (GetSampleRate _ _ _ _) as [[[[d s'] f] ops]|]; [|done].
  destruct (SentCache_Record _ _ _ _ _) as [[sc t'] ops'] eqn:Er. intros [= <- <- <-].
  apply SentCache_Record_trace in Er as (K1 & K2 & K3 & K4 & K5 & K6). eexists. split; [reflexivity|].
  cbn [st_Trace st_sendReason st_shouldSend st_rate]. split_and!; try done.
  - by rewrite K2.
  - rewrite K1. unfold trace_keys. simpl. by apply keys_map.
  - rewrite <-E0, <-E1. unfold out. simpl. by rewrite app_nil_r.
Qed.
Definition dry pa : bool := GetIsDryRun (pa_Config pa).

Lemma dry_main pa pa' : mainConfig (pa_Config pa') = mainConfig (pa_Config pa) → dry pa' = dry pa.
Proof. unfold dry, GetIsDryRun. by intros ->. Qed.

Lemma out_emit pa ops : out (emit pa [] ops) = out pa.
Proof. unfold out. simpl. by rewrite app_nil_r. Qed.

Lemma flows_optional b (l k : list (string * bool * string * string * string * Z * Z)) (c : bool) :
  (b = true → c = true) → flows b ((if c then l else []) ++ k) (l ++ k).
Proof.
  intros Hc. destruct c; [by apply flows_perm|]. split; [|intros Hb; by apply Hc in Hb].
  by apply submseteq_inserts_l.
Qed.

Lemma add_counts_id cfg t : tr_TraceID (add_counts_to_root cfg t) = tr_TraceID t.
Proof.
  unfold add_counts_to_root, trace_counts, SpanEventCount, SpanLinkCount, SpanCount, update_root. cbn zeta.
  destruct (GetAddCountsToRoot cfg); case_match; simpl; rewrite ?(proj1 (ensure_counts_fields _)); try done;
    by rewrite ?(proj1 (ensure_counts_fields _)).
Qed.

Lemma send_out now pa s :
  tr_Sent (st_Trace s) = false →
  flows (dry pa) (out (send now pa s)) (trace_keys (st_Trace s) ++ out pa) ∧
  mainConfig (pa_Config (send now pa s)) = mainConfig (pa_Config pa).
Proof.
  intros Hs. destruct (send_flow now pa s) as (E1 & E2 & E3). destruct (E3 Hs) as (l & El & ->).
  split; [|by rewrite E1]. unfold out. rewrite El, E2.
  assert (Ep : ∀ x y z : list (string * bool * string * string * string * Z * Z), (x ++ y) ++ z ≡ₚ y ++ x ++ z)
    by (intros; solve_Permutation).
  rewrite Ep. apply flows_optional. unfold dry. intros ->. apply orb_true_r.
Qed.

Lemma send_expired_flow now rnd limit traces i pa w pa' w' :
  Forall (λ t, tr_Sent t = false) traces →
  send_expired elapsed peers now rnd i limit pa w traces = Some (pa', w') →
  flows (dry pa) (out pa') (concat (trace_keys <$> traces) ++ out pa) ∧
  mainConfig (pa_Config pa') = mainConfig (pa_Config pa) ∧
  w_incoming w' = w_incoming w ∧ w_fromPeer w' = w_fromPeer w ∧ w_cache w' = w_cache w.
Proof.
  intros Ht. revert i pa w. induction Ht as [|t traces Hs Ht IH]; intros i pa w; cbn [send_expired].
  { intros [= <- <-]. split; [by apply flows_perm|done]. }
  destruct (makeDecision _ _ _ _ _ _ _ _) as [[[r pa1] w1]|] eqn:Em; [|done].
  apply makeDecision_flow in Em as (s & -> & S1 & S2 & _ & _ & _ & _ & S3 & S4 & S5 & S6 & S7); [|done].
  intros E. apply IH in E as (F1 & F2 & F3 & F4 & F5).
  destruct (send_out now pa1 s S1) as [G1 G2]. rewrite (dry_main _ _ S4), S2, S3 in G1.
  rewrite (dry_main pa (send now pa1 s)) in F1 by congruence.
  split; [|repeat split; congruence].
  eapply flows_trans; [exact F1|]. cbn [fmap list_fmap concat].
  assert (Ep : (trace_keys t ++ concat (trace_keys <$> traces)) ++ out pa ≡ₚ
               concat (trace_keys <$> traces) ++ trace_keys t ++ out pa) by solve_Permutation.
  rewrite Ep. by apply flows_app; [apply flows_perm|].
Qed.

(** *** The invariant of a worker *)

(** A cached trace is unsent and holds the spans of its ID; [RootSpan] points to a root, and
    is set if there is one. *)
Definition trace_ok (id : string) t : Prop :=
  tr_Sent t = false ∧ trace_keys t ≠ [] ∧ Forall (λ k, k.1.1.1.1.1.1 = id) (trace_keys t) ∧
  match tr_RootSpan t with
  | Some i => ∃ k, trace_keys t !! i = Some k ∧ k.1.1.1.1.1.2 = true
  | None => Forall (λ k, k.1.1.1.1.1.2 = false) (trace_keys t)
  end.

Definition cache_ok d : Prop := cache_wf d ∧ ∀ id t, ca_cache d !! id = Some t → trace_ok id t.

Lemma cache_ok_unsent d : cache_ok d → Forall (λ t, tr_Sent t = false) (GetAll d).
Proof.
  intros [_ Hok]. apply Forall_forall. intros t Ht. unfold GetAll in Ht.
  apply list_elem_of_fmap in Ht as ([id t'] & -> & Ht). apply elem_of_map_to_list in Ht.
  by apply Hok in Ht as (? & _).
Qed.

Lemma trace_ok_same id t u :
  trace_ok id t → tr_Sent u = tr_Sent t → trace_keys u = trace_keys t → tr_RootSpan u = tr_RootSpan t → trace_ok id u.
Proof. unfold trace_ok. intros Ht E1 E2 E3. by rewrite E1, E2, E3. Qed.

Lemma trace_keys_cached (m : gmap string (Trace P)) (l : list (Trace P)) :
  NoDup (tr_TraceID <$> l) → (∀ t, t ∈ l → trace_keys <$> m !! tr_TraceID t = Some (trace_keys t)) →
  ∀ m' : gmap string (Trace P), (∀ id, m' !! id = if decide (id ∈ tr_TraceID <$> l) then None else m !! id) →
  concat (trace_keys <$> (map_to_list m).*2) ≡ₚ
    concat (trace_keys <$> l) ++ concat (trace_keys <$> (map_to_list m').*2).
Proof.
  revert m. induction l as [|t l IH]; intros m Hnd Hin m' Hm.
  - simpl. replace m' with m; [done|]. apply map_eq. intros id. by rewrite Hm, decide_False by set_solver.
  - cbn [fmap list_fmap] in Hnd. apply NoDup_cons in Hnd as [Hnew Hnd].
    assert (Ht : trace_keys <$> m !! tr_TraceID t = Some (trace_keys t)) by (apply Hin; set_solver).
    apply fmap_Some in Ht as (t0 & Ht & Ek). rewrite (cached_keys_delete m (tr_TraceID t) t0), <-Ek by done.
    rewrite (IH (delete (tr_TraceID t) m)) with (m' := m'); [cbn; rewrite Ek; solve_Permutation|done| |].
    + intros u Hu. rewrite lookup_delete_ne; [apply Hin; set_solver|].
      intros E. apply Hnew. rewrite E. by apply list_elem_of_fmap_2.
    + intros id. rewrite Hm. cbn [fmap list_fmap]. destruct (decide (id = tr_TraceID t)) as [->|Hne].
      * rewrite decide_True by set_solver. rewrite lookup_delete_eq. by case_decide.
      * rewrite lookup_delete_ne by done. destruct (decide (id ∈ tr_TraceID <$> l)).
        -- by rewrite decide_True by set_solver.
        -- by rewrite decide_False by set_solver.
Qed.

Lemma sendExpiredTracesInCache_flow now rnd pa w pa' w' :
  cache_ok (w_cache w) →
  sendExpiredTracesInCache elapsed peers now rnd pa w = Some (pa', w') →
  flows (dry pa) (held w' ++ out pa') (held w ++ out pa) ∧
  mainConfig (pa_Config pa') = mainConfig (pa_Config pa) ∧ cache_ok (w_cache w') ∧ held w' ⊆+ held w.
Proof.
  intros [Hwf Hok]. unfold sendExpiredTracesInCache.
  pose proof (TakeExpiredTraces_facts now (s64 (tc_MaxExpiredTraces (GetTracesConfig (pa_Config pa)))) (λ _, true)
                (w_cache w) Hwf) as Ht.
  destruct (TakeExpiredTraces _ _ _ _) as [[d traces] ops]. destruct Ht as (T1 & T2 & _ & T4 & T5 & _).
  destruct (send_expired _ _ _ _ _ _ _ _ _) as [[pa1 w1]|] eqn:Es; [|done]. intros [= <- <-].
  apply send_expired_flow in Es as (F1 & F2 & F3 & F4 & F5).
  2: { apply Forall_forall. intros t Hin. apply T4 in Hin as (Hc & _). by apply Hok in Hc as (? & _). }
  rewrite out_emit in *. rewrite (dry_main pa (emit pa [] ops)) in F1 by done. cbn in F2, F3, F4, F5.
  assert (E : cached_keys (w_cache w) ≡ₚ concat (trace_keys <$> traces) ++ cached_keys d)
    by (apply trace_keys_cached; [done|intros t Hin; apply T4 in Hin as (-> & _); done|done]).
  split_and!; [|done| |].
  3: { unfold held. rewrite F3, F4, F5, E. repeat apply submseteq_app; try done. by apply submseteq_inserts_l. }
  - unfold held. rewrite F3, F4, F5, E. eapply flows_trans; [apply flows_app; [by apply flows_perm|exact F1]|].
    apply flows_perm. solve_Permutation.
  - rewrite F5. split; [done|]. intros id t Hid. rewrite T5 in Hid. case_decide; [done|]. by apply Hok.
Qed.
(** *** Ejecting *)

Definition same_trace (t u : Trace P) : Prop :=
  tr_TraceID u = tr_TraceID t ∧ tr_SendBy u = tr_SendBy t ∧ tr_Sent u = tr_Sent t ∧ tr_RootSpan u = tr_RootSpan t ∧
  trace_keys u = trace_keys t ∧ tr_DataSize u = tr_DataSize t.

Lemma same_trace_ok id t u : same_trace t u → trace_ok id t → trace_ok id u.
Proof. intros (_ & _ & E1 & E2 & E3 & _) Ht. by apply (trace_ok_same id t). Qed.

Lemma sum_impacts_keys now timeout l acc acc' l' :
  sum_impacts now timeout l acc = Some (acc', l') → span_keys l' = span_keys l.
Proof.
  revert acc acc' l'. induction l as [|sp l IH]; intros acc acc' l'; cbn [sum_impacts]; [by intros [= _ <-]|].
  unfold Span_CacheImpact. destruct (timeout =? 0); [done|].
  destruct (Span_GetDataSize sp) as [n sp'] eqn:E. pose proof (key_GetDataSize sp) as K. rewrite E in K.
  destruct (sum_impacts _ _ _ _) as [[a l2]|] eqn:Es; [|done]. intros [= _ <-].
  unfold span_keys. cbn. cbn in K. rewrite K. f_equal. by eapply IH.
Qed.

Lemma CacheImpact_same now t timeout n u : CacheImpact now t timeout = Some (n, u) → same_trace t u.
Proof.
  unfold CacheImpact. destruct (tr_totalImpact t =? 0); [|by intros [= _ <-]].
  destruct (sum_impacts _ _ _ _) as [[a l]|] eqn:E; [|done]. intros [= _ <-].
  apply sum_impacts_keys in E. by repeat split.
Qed.

Lemma with_impacts_same now timeout l impacts :
  with_impacts now timeout l = Some impacts → Forall2 same_trace l impacts.*2.
Proof.
  intros E. assert (Hdone : ∀ t, same_trace t t) by (intros; by repeat split).
  assert (Hall : mapM (λ t, CacheImpact now t timeout) l = Some impacts → Forall2 same_trace l impacts.*2).
  { intros Em. apply mapM_Some in Em. clear E. induction Em as [|t [n u] l impacts Ht Em IH]; cbn; [constructor|].
    constructor; [by eapply CacheImpact_same|done]. }
  unfold with_impacts in E. destruct l as [|t [|u l]].
  - injection E as <-. constructor.
  - injection E as <-. by repeat constructor.
  - by apply Hall.
Qed.

(** Writing the impacts back to the cached traces. *)
Lemma update_all_same d l :
  Forall (λ u, ∃ t, ca_cache d !! tr_TraceID u = Some t ∧ same_trace t u) l →
  cache_ok d →
  let d' := foldl Update d l in
  cache_ok d' ∧ cached_keys d' ≡ₚ cached_keys d ∧
  ∀ id, trace_keys <$> ca_cache d' !! id = trace_keys <$> ca_cache d !! id.
Proof.
  cbn zeta. revert d. induction l as [|u l IH]; intros d Hl Hok; cbn [foldl]; [done|].
  inversion Hl as [|? ? (t & Ht & Hs) Hl']; subst. clear Hl.
  assert (Hlook : ∀ id, ca_cache (Update d u) !! id = if decide (id = tr_TraceID u) then Some u else ca_cache d !! id).
  { intros id. simpl. case_decide as E; [subst; by rewrite lookup_insert_eq|by rewrite lookup_insert_ne]. }
  assert (Hkeys : ∀ id, trace_keys <$> ca_cache (Update d u) !! id = trace_keys <$> ca_cache d !! id).
  { intros id. rewrite Hlook. case_decide as E; [|done]. subst. rewrite Ht. cbn. f_equal. apply Hs. }
  destruct (IH (Update d u)) as (I1 & I2 & I3).
  - apply Forall_forall. intros v Hv. rewrite Forall_forall in Hl'. destruct (Hl' v Hv) as (t' & Ht' & Hs').
    rewrite Hlook. case_decide as E; [|by exists t']. exists u. split; [done|]. rewrite E in Ht'.
    assert (t' = t) as -> by congruence.
    destruct Hs as (? & ? & ? & ? & ? & ?), Hs' as (? & ? & ? & ? & ? & ?). repeat split; congruence.
  - destruct Hok as [Hwf Hok]. split.
    + apply (cache_wf_update d t u); [done|done|apply Hs].
    + intros id v. rewrite Hlook. case_decide as E; [|apply Hok]. intros [= <-]. subst.
      apply (same_trace_ok _ t); [done|by apply Hok].
  - split_and!; [done| |intros id; by rewrite I3].
    rewrite I2. apply (Permutation_app_inv_l (trace_keys u)).
    rewrite <-(cached_keys_replace d (ca_pq d) u t Ht). unfold Update.
    apply Permutation_app_tail. symmetry. by destruct Hs as (_ & _ & _ & _ & -> & _).
Qed.

Definition total_size (acc : Z) (l : list (Trace P)) : Z := foldl (λ a t, s64 (a + tr_DataSize t)) acc l.

(** The loop decides and sends a prefix: up to the first trace that takes the total past the
    bound, or everything. *)
Lemma send_early_spec now rnd i bytes total ids pa w traces pa' w' ids' :
  Forall (λ t, tr_Sent t = false) traces →
  send_early elapsed peers now rnd i bytes total ids pa w traces = Some (pa', w', ids') →
  ∃ k, ids' = ids ∪ list_to_set (tr_TraceID <$> take k traces) ∧
    flows (dry pa) (out pa') (concat (trace_keys <$> take k traces) ++ out pa) ∧
    mainConfig (pa_Config pa') = mainConfig (pa_Config pa) ∧
    w_incoming w' = w_incoming w ∧ w_fromPeer w' = w_fromPeer w ∧ w_cache w' = w_cache w ∧
    (k = length traces ∨ bytes < total_size total (take k traces)) ∧
    (∀ j, (0 < j < k)%nat → total_size total (take j traces) ≤ bytes) ∧ (k <= length traces)%nat ∧ (traces ≠ [] → (0 < k)%nat).
Proof.
  intros Ht. revert i total ids pa w. induction Ht as [|t traces Hs Ht IH]; intros i total ids pa w; cbn [send_early].
  { intros [= <- <- <-]. exists 0%nat. split_and!; try done; try lia; first [by left|by apply flows_perm|set_solver]. }
  destruct (makeDecision _ _ _ _ _ _ _ _) as [[[r pa1] w1]|] eqn:Em; [|done].
  apply makeDecision_flow in Em as (s & -> & S1 & S2 & _ & _ & _ & _ & S3 & S4 & S5 & S6 & S7); [|done].
  destruct (send_out now pa1 s S1) as [G1 G2]. rewrite (dry_main _ _ S4), S2, S3 in G1.
  destruct (Z.ltb_spec bytes (s64 (total + tr_DataSize t))) as [Hlt|Hge].
  - intros [= <- <- <-]. exists 1%nat. cbn [take fmap list_fmap concat]. rewrite app_nil_r.
    split_and!; try done; try congruence; try (simpl; lia); first [by right|set_solver].
  - intros E. apply IH in E as (k & -> & F1 & F2 & F3 & F4 & F5 & F6 & F7 & F8 & F9).
    rewrite (dry_main pa (send now pa1 s)) in F1 by congruence.
    exists (S k). cbn [take fmap list_fmap concat]. split_and!; try congruence.
    + set_solver.
    + eapply flows_trans; [exact F1|].
      assert (Ep : (trace_keys t ++ concat (trace_keys <$> take k traces)) ++ out pa ≡ₚ
                   concat (trace_keys <$> take k traces) ++ trace_keys t ++ out pa) by solve_Permutation.
      rewrite Ep. by apply flows_app; [apply flows_perm|].
    + simpl. destruct F6 as [->|?]; [by left|by right].
    + intros [|[|j]] Hj; [lia|done|]. simpl. apply (F7 (S j)). lia.
    + simpl. lia.
    + lia.
Qed.
(** Every cached trace is listed once, under its own ID. *)
Lemma GetAll_facts d : cache_wf d →
  NoDup (tr_TraceID <$> GetAll d) ∧ ∀ t, t ∈ GetAll d → ca_cache d !! tr_TraceID t = Some t.
Proof.
  intros Hwf. assert (Hin : ∀ t, t ∈ GetAll d → ca_cache d !! tr_TraceID t = Some t).
  { intros t ([id t'] & -> & Ht)%list_elem_of_fmap. apply elem_of_map_to_list in Ht.
    destruct (Hwf id t' Ht) as [E _]. simpl. by rewrite E. }
  split; [|done]. unfold GetAll. rewrite <-list_fmap_compose.
  assert (E : (tr_TraceID ∘ snd) <$> map_to_list (ca_cache d) = (map_to_list (ca_cache d)).*1).
  { apply list_fmap_ext. intros i [id t] Hi. apply list_elem_of_lookup_2, elem_of_map_to_list in Hi.
    by destruct (Hwf id t Hi). }
  rewrite E. apply NoDup_fst_map_to_list.
Qed.

Lemma Forall2_same_ids l l' : Forall2 same_trace l l' → tr_TraceID <$> l' = tr_TraceID <$> l.
Proof. induction 1 as [|t u l l' Hs _ IH]; [done|]. cbn. rewrite IH. f_equal. apply Hs. Qed.

Lemma impacts_cached d l' : cache_ok d → Forall2 same_trace (GetAll d) l' →
  Forall (λ u, ∃ t, ca_cache d !! tr_TraceID u = Some t ∧ same_trace t u) l'.
Proof.
  intros Hok Hs. apply Forall_forall. intros u Hu. apply list_elem_of_lookup in Hu as [i Hu].
  destruct (Forall2_lookup_r _ _ _ _ _ Hs Hu) as (t & Ht & Hst). exists t. split; [|done].
  rewrite (proj1 Hst). apply (GetAll_facts d (proj1 Hok)). by eapply list_elem_of_lookup_2.
Qed.

(** The traces in the order in which they are ejected. *)
Lemma impacts_facts now timeout d impacts :
  cache_ok d → with_impacts now timeout (GetAll d) = Some impacts →
  let order := (merge_sort heavier impacts).*2 in
  let d' := foldl Update d impacts.*2 in
  cache_ok d' ∧ cached_keys d' ≡ₚ cached_keys d ∧ NoDup (tr_TraceID <$> order) ∧
  Forall (λ t, tr_Sent t = false) order ∧
  (∀ t, t ∈ order → trace_keys <$> ca_cache d' !! tr_TraceID t = Some (trace_keys t)) ∧
  (∀ id, is_Some (ca_cache d !! id) ↔ id ∈ tr_TraceID <$> order).
Proof.
  intros Hok E. cbn zeta. destruct (GetAll_facts d (proj1 Hok)) as [Hnd Hin].
  apply with_impacts_same in E as Hs. pose proof (Forall2_same_ids _ _ Hs) as Eids.
  assert (Hp : (merge_sort heavier impacts).*2 ≡ₚ impacts.*2) by by rewrite merge_sort_Permutation.
  assert (Hfrom : ∀ u, u ∈ impacts.*2 → ∃ t, ca_cache d !! tr_TraceID u = Some t ∧ same_trace t u).
  { apply Forall_forall. by apply impacts_cached. }
  destruct (update_all_same d impacts.*2) as (U1 & U2 & U3); [by apply Forall_forall|done|].
  split_and!; [done|done| | | |].
  - by rewrite Hp, Eids.
  - rewrite Hp. apply Forall_forall. intros u Hu. destruct (Hfrom u Hu) as (t & Ht & Hst).
    destruct Hst as (_ & _ & -> & _). by apply (proj2 Hok) in Ht as (? & _).
  - intros u Hu. rewrite Hp in Hu. rewrite U3. destruct (Hfrom u Hu) as (t & -> & Hst). cbn. f_equal.
    destruct Hst as (_ & _ & _ & _ & -> & _). done.
  - intros id. rewrite Hp, Eids. split.
    + intros [t Ht]. apply list_elem_of_fmap. exists t. destruct (proj1 Hok id t Ht) as [Ei _]. split; [done|].
      apply list_elem_of_fmap. exists (id, t). split; [done|]. by apply elem_of_map_to_list.
    + intros (t & -> & Ht)%list_elem_of_fmap. exists t. by apply Hin.
Qed.

Lemma sendTracesEarly_flow now rnd bytes pa w pa' w' :
  cache_ok (w_cache w) →
  sendTracesEarly elapsed peers now rnd pa w bytes = Some (pa', w') →
  flows (dry pa) (held w' ++ out pa') (held w ++ out pa) ∧
  mainConfig (pa_Config pa') = mainConfig (pa_Config pa) ∧ cache_ok (w_cache w') ∧ held w' ⊆+ held w.
Proof.
  intros Hok. unfold sendTracesEarly. destruct (with_impacts _ _ _) as [impacts|] eqn:Ei; [|done].
  apply impacts_facts in Ei as (I1 & I2 & I3 & I4 & I5 & _); [|done].
  set (d := foldl Update (w_cache w) impacts.*2) in *.
  destruct (send_early _ _ _ _ _ _ _ _ _ _ _) as [[[pa1 w1] ids]|] eqn:Es; [|done].
  apply send_early_spec in Es as (k & -> & F1 & F2 & F3 & F4 & F5 & _); [|done].
  destruct (RemoveTraces _ _) as [d' ops] eqn:Er. intros [= <- <-]. rewrite out_emit. cbn in F3, F4, F5.
  set (sentIDs := ∅ ∪ list_to_set (tr_TraceID <$> take k (merge_sort heavier impacts).*2)) in *.
  assert (Hd' : d' = (RemoveTraces d sentIDs).1) by (rewrite F5 in Er; by rewrite Er).
  assert (E : cached_keys (w_cache w) ≡ₚ concat (trace_keys <$> take k (merge_sort heavier impacts).*2) ++ cached_keys d').
  { rewrite <-I2. apply trace_keys_cached.
    - eapply sublist_NoDup; [exact I3|]. apply fmap_sublist, sublist_take.
    - intros t Ht. apply I5. apply elem_of_take in Ht as (j & Hj & _). by eapply list_elem_of_lookup_2.
    - intros id. rewrite Hd', RemoveTraces_lookup. unfold sentIDs. repeat case_decide; set_solver. }
  split_and!; [|done| |].
  3: { unfold held. simpl. rewrite F3, F4, E. repeat apply submseteq_app; try done. by apply submseteq_inserts_l. }
  - unfold held. simpl. rewrite F3, F4, E. eapply flows_trans; [apply flows_app; [by apply flows_perm|exact F1]|].
    apply flows_perm. solve_Permutation.
  - simpl. rewrite Hd'. split; [by apply cache_wf_remove; apply I1|]. intros id t.
    rewrite RemoveTraces_lookup. case_decide; [done|]. apply (proj2 I1).
Qed.
(** *** Processing a span *)

(** When a trace with one more span is to be sent. *)
Definition next_send_by now (tcfg : TracesConfig) (root : bool) (n : nat) (sendBy : Z) : Z :=
  let exceeded := (0 <? tc_SpanLimit tcfg) && (tc_SpanLimit tcfg <? u32 (Z.of_nat (S n))) in
  if root || exceeded then Z.min sendBy (now + if exceeded then 0 else send_delay tcfg) else sendBy.

Lemma add_live_spec now tcfg w t sp :
  ∃ c t', add_live now tcfg w t sp = w_set_cache w c ∧
    ca_cache c = <[tr_TraceID t := t']> (ca_cache (w_cache w)) ∧
    trace_keys t' = trace_keys t ++ [span_key sp] ∧ tr_Sent t' = tr_Sent t ∧ tr_TraceID t' = tr_TraceID t ∧
    tr_RootSpan t' = (if sp_IsRoot sp then Some (length (tr_spans t)) else tr_RootSpan t) ∧
    tr_SendBy t' = next_send_by now tcfg (sp_IsRoot sp) (length (tr_spans t)) (tr_SendBy t) ∧
    tr_ArrivalTime t' = tr_ArrivalTime t ∧ tr_sampleRate t' = tr_sampleRate t ∧
    take (length (tr_spans t)) (tr_spans t') = tr_spans t ∧
    (cache_wf (w_cache w) → ca_cache (w_cache w) !! tr_TraceID t = Some t → cache_wf c).
Proof.
  assert (Efields : let u := AddSpan now t sp in
    tr_Sent u = tr_Sent t ∧ tr_TraceID u = tr_TraceID t ∧ tr_RootSpan u = tr_RootSpan t ∧ tr_SendBy u = tr_SendBy t ∧
    tr_ArrivalTime u = tr_ArrivalTime t ∧ tr_sampleRate u = tr_sampleRate t ∧
    take (length (tr_spans t)) (tr_spans u) = tr_spans t).
  { unfold AddSpan. destruct (Span_GetDataSize _). simpl. split_and!; try done. by rewrite take_app_length. }
  pose proof (keys_AddSpan now t sp) as Ekeys. pose proof (length_AddSpan now t sp) as Elen.
  unfold add_live. cbn zeta in *. set (u := AddSpan now t sp) in *. clearbody u.
  destruct Efields as (E1 & E2 & E3 & E4 & E5 & E6 & E7).
  set (v := if sp_IsRoot sp then tr_set_RootSpan u _ else u).
  assert (Ev : tr_Sent v = tr_Sent t ∧ tr_TraceID v = tr_TraceID t ∧ tr_SendBy v = tr_SendBy t ∧ tr_spans v = tr_spans u ∧
               tr_ArrivalTime v = tr_ArrivalTime t ∧ tr_sampleRate v = tr_sampleRate t ∧
               tr_RootSpan v = (if sp_IsRoot sp then Some (length (tr_spans t)) else tr_RootSpan t)).
  { unfold v. rewrite Elen. case_match; simpl; split_and!; try done. f_equal. lia. }
  clearbody v. destruct Ev as (V1 & V2 & V3 & V4 & V5 & V6 & V7).
  assert (Ex : span_limit_exceeded tcfg v = (0 <? tc_SpanLimit tcfg) && (tc_SpanLimit tcfg <? u32 (Z.of_nat (S (length (tr_spans t)))))).
  { unfold span_limit_exceeded, DescendantCount. by rewrite V4, Elen. }
  assert (Ekv : trace_keys v = trace_keys t ++ [span_key sp]) by (unfold trace_keys in *; by rewrite V4).
  assert (Hwf : cache_wf (w_cache w) → ca_cache (w_cache w) !! tr_TraceID t = Some t → cache_wf (Update (w_cache w) v)).
  { intros Hw Hc. apply (cache_wf_update _ t v); [done|by rewrite V2|done]. }
  rewrite Ex. unfold next_send_by. set (exceeded := _ && _). destruct (sp_IsRoot sp || exceeded).
  - destruct (Z.ltb_spec (now + if exceeded then 0 else send_delay tcfg) (tr_SendBy v)) as [Hlt|Hge].
    + eexists _, (tr_set_SendBy v (now + if exceeded then 0 else send_delay tcfg)). split; [reflexivity|]. simpl.
      split_and!; try done; [by rewrite V2, insert_insert_eq|lia|by rewrite V4|]. intros Hw Hc. apply cache_wf_set. by apply Hwf.
    + eexists _, v. split; [reflexivity|]. simpl. split_and!; try done; [by rewrite V2|lia|by rewrite V4].
  - eexists _, v. split; [reflexivity|]. simpl. split_and!; try done; [by rewrite V2|by rewrite V4].
Qed.

(** The trace a span is added to, new (and still empty) or not. *)
Definition trace_pre (id : string) t : Prop := tr_Sent t = false ∧ (trace_keys t = [] ∧ tr_RootSpan t = None ∨ trace_ok id t).

Lemma trace_ok_added id t t' sp :
  trace_pre id t → sp_TraceID sp = id →
  trace_keys t' = trace_keys t ++ [span_key sp] → tr_Sent t' = tr_Sent t →
  tr_RootSpan t' = (if sp_IsRoot sp then Some (length (tr_spans t)) else tr_RootSpan t) → trace_ok id t'.
Proof.
  intros [Hs Hor] Hid Ek Es Er. unfold trace_ok. rewrite Ek, Es, Er.
  assert (Hlen : length (trace_keys t) = length (tr_spans t)) by apply length_fmap.
  split_and!; [done|by destruct (trace_keys t)| |].
  - apply Forall_app. split; [|by repeat constructor].
    destruct Hor as [[-> _]|(_ & _ & Hf & _)]; [constructor|done].
  - destruct (sp_IsRoot sp) eqn:Eroot.
    + exists (span_key sp). split; [|done]. by rewrite <-Hlen, lookup_app_r, Nat.sub_diag by lia.
    + assert (Hlast : Forall (λ k : string * bool * string * string * string * Z * Z, k.1.1.1.1.1.2 = false) [span_key sp])
        by by repeat constructor.
      destruct Hor as [[-> ->]|(_ & _ & _ & Hr)]; [done|]. destruct (tr_RootSpan t) as [i|].
      * destruct Hr as (k & Hk & Hb). exists k. split; [by apply lookup_app_l_Some|done].
      * by apply Forall_app.
Qed.

Lemma add_live_flow now tcfg w t sp :
  cache_wf (w_cache w) → ca_cache (w_cache w) !! sp_TraceID sp = Some t → trace_pre (sp_TraceID sp) t →
  (∀ id u, ca_cache (w_cache w) !! id = Some u → id ≠ sp_TraceID sp → trace_ok id u) →
  let w' := add_live now tcfg w t sp in
  cache_ok (w_cache w') ∧ held w' ≡ₚ span_key sp :: held w.
Proof.
  intros Hwf Ht Hpre Hok. destruct (Hwf _ _ Ht) as [Eid _].
  destruct (add_live_spec now tcfg w t sp) as (c & t' & -> & Ec & Ek & Es & Ei & Er & _ & _ & _ & _ & Hwf').
  cbn zeta. rewrite Eid in *. split.
  - split; [by apply Hwf'|]. cbn [w_cache w_set_cache]. intros id u. rewrite Ec.
    destruct (decide (id = sp_TraceID sp)) as [->|Hne].
    + rewrite lookup_insert_eq. intros [= <-]. by apply (trace_ok_added _ t t' sp).
    + rewrite lookup_insert_ne by done. intros Hu. by apply Hok.
  - unfold held. cbn [w_incoming w_fromPeer w_cache w_set_cache].
    assert (E : cached_keys c ≡ₚ span_key sp :: cached_keys (w_cache w)).
    { apply (Permutation_app_inv_l (trace_keys t)). destruct c as [pq m]. simpl in Ec. subst m.
      rewrite <-Ei. rewrite cached_keys_replace; [rewrite Ek; solve_Permutation|by rewrite Ei]. }
    rewrite E. solve_Permutation.
Qed.
Lemma CheckSpan_key now (sc : cuckooSentCache F L) sp sc' sp' r :
  CheckSpan now sc sp = (sc', sp', r) → span_key sp' = span_key sp.
Proof.
  unfold CheckSpan. case_match; [by intros [= _ <- _]|]. case_match; [by intros [= _ <- _]|].
  destruct (lru_Get _ _) as [k [loc|]]; [|by intros [= _ <- _]].
  cbn -[Entry_Count]. destruct (sn_entries sc !! loc) as [e|]; [|by intros [= _ <- _]].
  unfold Entry_Count. pose proof (key_AnnotationType sp) as K. destruct (AnnotationType sp) as [a sp2].
  destruct (count_one _ _) as [[x y] z]. by intros [= _ <- _].
Qed.

Lemma CheckSpan_rate now (sc : cuckooSentCache F L) sp sc' sp' r :
  CheckSpan now sc sp = (sc', sp', r) → sp_SampleRate sp' = sp_SampleRate sp.
Proof.
  unfold CheckSpan. case_match; [by intros [= _ <- _]|]. case_match; [by intros [= _ <- _]|].
  destruct (lru_Get _ _) as [k [loc|]]; [|by intros [= _ <- _]].
  cbn -[Entry_Count]. destruct (sn_entries sc !! loc) as [e|]; [|by intros [= _ <- _]].
  unfold Entry_Count. assert (K : sp_SampleRate (AnnotationType sp).2 = sp_SampleRate sp)
    by (unfold AnnotationType; by case_match).
  destruct (AnnotationType sp) as [a sp2]. destruct (count_one _ _) as [[x y] z]. by intros [= _ <- _].
Qed.

Lemma key_id sp sp' : span_key sp' = span_key sp → sp_TraceID sp' = sp_TraceID sp.
Proof. unfold span_key. congruence. Qed.

Lemma deal_flow pa tr reason sp l w :
  out pa = l → let pa' := dealWithSentTrace pa tr reason sp in
  flows (dry pa) (held w ++ out pa') (span_key sp :: held w ++ l) ∧ mainConfig (pa_Config pa') = mainConfig (pa_Config pa).
Proof.
  intros <-. destruct (dealWithSentTrace_flow pa tr reason sp) as (E1 & E2 & k & E3 & ->). cbn zeta.
  split; [|by rewrite E1]. unfold out. rewrite E2, E3. unfold dry.
  set (x := held w). set (y := concat _). set (z := span_keys (pa_sent pa)).
  set (b := Kept tr || GetIsDryRun (pa_Config pa)).
  assert (Ep : x ++ y ++ z ++ (if b then [span_key sp] else []) ≡ₚ (if b then [span_key sp] else []) ++ x ++ y ++ z)
    by solve_Permutation.
  rewrite Ep. apply (flows_optional _ [span_key sp]). unfold b. intros ->. apply orb_true_r.
Qed.

Lemma processSpan_flow now pa w sp pa' w' :
  cache_ok (w_cache w) → processSpan now pa w sp = (pa', w') →
  flows (dry pa) (held w' ++ out pa') (span_key sp :: held w ++ out pa) ∧
  mainConfig (pa_Config pa') = mainConfig (pa_Config pa) ∧ cache_ok (w_cache w') ∧ held w' ⊆+ span_key sp :: held w.
Proof.
  intros [Hwf Hok] E. unfold processSpan in E. set (w1 := w_set_counters w _ _ _) in E.
  change (held w) with (held w1). change (w_cache w) with (w_cache w1) in *. clearbody w1. clear w.
  unfold Cache_Get in E. destruct (ca_cache (w_cache w1) !! sp_TraceID sp) as [t|] eqn:Ec.
  - unfold process_known in E. pose proof (Hok _ _ Ec) as Ht. rewrite (proj1 Ht) in E. injection E as <- <-.
    destruct (add_live_flow now (GetTracesConfig (pa_Config pa)) w1 t sp) as [A1 A2]; try done; [by split; [apply Ht|right]|by eauto|].
    split_and!; [|done|done|by rewrite A2]. rewrite A2. by apply flows_perm.
  - destruct (CheckSpan now (w_sampleCache w1) sp) as [[sc sp'] r] eqn:Er. pose proof (CheckSpan_key _ _ _ _ _ _ Er) as Ek.
    change (held w1) with (held (w_set_sampleCache w1 sc)). rewrite <-Ek.
    destruct r as [[sr reason]|].
    + injection E as <- <-. destruct (deal_flow (emit pa [] [MIncrement "trace_sent_cache_hit"]) sr reason sp' (out pa)
        (w_set_sampleCache w1 sc)) as [A1 A2]; [apply out_emit|].
      split; [exact A1|]. split; [exact A2|]. split; [by split|]. by apply submseteq_cons.
    + set (t := new_trace _ _ _ _) in E. unfold process_known in E. change (tr_Sent t) with false in E. injection E as <- <-.
      set (w2 := w_set_sampleCache w1 sc) in *.
      set (w3 := w_set_cache w2 (Cache_Set (w_cache w2) t)).
      assert (Eid : tr_TraceID t = sp_TraceID sp') by done.
      pose proof (key_id _ _ Ek) as Eid'.
      destruct (add_live_flow now (GetTracesConfig (pa_Config pa)) w3 t sp') as [A1 A2].
      * by apply cache_wf_set.
      * simpl. by rewrite lookup_insert_eq.
      * split; [done|by left].
      * intros id u. simpl. intros Hu Hne. rewrite lookup_insert_ne in Hu by done. by apply Hok.
      * assert (A3 : held w3 ≡ₚ held w2).
        { unfold held. simpl. do 2 f_equiv. unfold Cache_Set. rewrite cached_keys_new; [done|by rewrite Eid, Eid']. }
        change (add_live _ _ _ _ _) with (add_live now (GetTracesConfig (pa_Config pa)) w3 t sp').
        split_and!; [|done|done|by rewrite A2, A3]. rewrite out_emit, A2, A3. by apply flows_perm.
Qed.

(** *** One iteration *)

Lemma idle_flow pa w w' :
  w_incoming w' = w_incoming w → w_fromPeer w' = w_fromPeer w → w_cache w' = w_cache w → cache_ok (w_cache w) →
  flows (dry pa) (held w' ++ out pa) (held w ++ out pa) ∧
  mainConfig (pa_Config pa) = mainConfig (pa_Config pa) ∧ cache_ok (w_cache w') ∧ held w' ⊆+ held w.
Proof.
  intros E1 E2 E3 Hok. assert (E : held w' = held w) by (unfold held; by rewrite E1, E2, E3).
  rewrite E, E3. split; [by apply flows_perm|]. split; [done|]. by split.
Qed.

Lemma collect_once_flow now rnd pa w it pa' w' :
  cache_ok (w_cache w) → collect_once elapsed peers now rnd pa w it = Some (pa', w') →
  flows (dry pa) (held w' ++ out pa') (held w ++ out pa) ∧
  mainConfig (pa_Config pa') = mainConfig (pa_Config pa) ∧ cache_ok (w_cache w') ∧ held w' ⊆+ held w.
Proof.
  intros Hok. unfold collect_once. set (i := match it with Outer => InPeer | Inner i => i end). clearbody i.
  destruct (on_input _ _ _ _ _ _ _) as [[pa1 w1]|] eqn:E; [|done]. intros [= <- <-]. rewrite out_emit.
  change (mainConfig (pa_Config (emit pa1 [] _))) with (mainConfig (pa_Config pa1)).
  destruct i; cbn [on_input] in E.
  - destruct (w_fromPeer w) as [|sp rest] eqn:Eq; [injection E as <- <-; by apply idle_flow|].
    injection E as E. apply processSpan_flow in E as (F1 & F2 & F3 & F4); [|done].
    assert (Eh : span_key sp :: held (w_set_queues w (w_incoming w) rest) ≡ₚ held w)
      by (unfold held; simpl; rewrite Eq; simpl; solve_Permutation).
    split_and!; [|done|done|by rewrite F4, Eh].
    eapply flows_trans; [exact F1|]. apply flows_perm. by rewrite app_comm_cons, Eh.
  - unfold on_tick in E. cbn [getLastSpanProcessed] in E.
    destruct (sendExpiredTracesInCache _ _ _ _ _ _) as [[pa2 w2]|] eqn:Es; [|done]. injection E as <- <-.
    apply sendExpiredTracesInCache_flow in Es as (F1 & F2 & F3 & F4); [|done]. rewrite out_emit in F1.
    by split; [|split; [|split]].
  - destruct (w_incoming w) as [|sp rest] eqn:Eq; [injection E as <- <-; by apply idle_flow|].
    injection E as E. apply processSpan_flow in E as (F1 & F2 & F3 & F4); [|done].
    assert (Eh : span_key sp :: held (w_set_queues w rest (w_fromPeer w)) ≡ₚ held w)
      by (unfold held; simpl; rewrite Eq; simpl; solve_Permutation).
    split_and!; [|done|done|by rewrite F4, Eh].
    eapply flows_trans; [exact F1|]. apply flows_perm. by rewrite app_comm_cons, Eh.
  - by apply sendTracesEarly_flow in E.
  - injection E as <- <-. unfold on_reload.
    destruct (w_reload w); [destruct (Resize _ _)|]; by apply idle_flow.
Qed.
(** *** Decisions on expired traces *)

(** What is queued for sending of a trace: its ID and spans, what it was marked with, why it was
    taken, what the sampler said and which it was. *)
Definition summary (s : sendableTrace P) :=
  (tr_TraceID (st_Trace s), trace_keys (st_Trace s), (tr_KeepSample (st_Trace s), tr_sampleRate (st_Trace s)),
   st_sendReason s, (st_shouldSend s, st_rate s, st_reason s, st_sampleKey s), st_samplerSelector s).

(** The samplers a worker decides with: the configuration and the factory it shares, and its own. *)
Definition samplers_of pa w : fileConfig * SamplerFactory D * gmap string sampler :=
  (pa_Config pa, pa_SamplerFactory pa, w_datasetSamplers w).

Record verdict := mkVerdict { vd_taken : Trace P; vd_asked : Trace P; vd_selector : string; vd_decision : decision }.

(** The sampler of a key: the one kept, else one made for it. *)
Definition sampler_for (st : fileConfig * SamplerFactory D * gmap string sampler) (selector : string)
    : option (sampler * fileConfig * SamplerFactory D) :=
  let '(cfg, f, m) := st in
  match m !! selector with
  | Some s => Some (s, cfg, f)
  | None => '(s, c, f, _) ← GetSamplerImplementationForKey peers f cfg selector; Some (s, set_sampler_config cfg selector c, f)
  end.

(** What the sampler of a trace's key says of it, asked about the trace with its key fields memoized. *)
Definition consult (st : fileConfig * SamplerFactory D * gmap string sampler) (intn : Z → Z) t
    : option (verdict * (fileConfig * SamplerFactory D * gmap string sampler)) :=
  let selector := DetermineSamplerKey st.1.1 (tr_APIKey t) (tr_Environment t) (tr_Dataset t) in
  '(s, cfg, f) ← sampler_for st selector;
  let '(allFields, nonRootFields) := Sampler_GetKeyFields s in
  let asked := tr_set_spans t (memoize_keys allFields nonRootFields <$> tr_spans t) in
  '(d, s, f, _) ← GetSampleRate f s asked intn;
  Some (mkVerdict t asked selector d, (cfg, f, <[selector := s]> st.2)).

Fixpoint consult_all (rnd : nat → Z → Z) (i : nat) (st : fileConfig * SamplerFactory D * gmap string sampler) (traces : list (Trace P)) :=
  match traces with
  | [] => Some ([], st)
  | t :: traces =>
      '(v, st) ← consult st (rnd i) t;
      '(vs, st) ← consult_all rnd (S i) st traces;
      Some (v :: vs, st)
  end.

(** What has to be queued after a verdict. *)
Definition ticket (limit : Z) (v : verdict) :=
  let t := vd_taken v in let d := vd_decision v in
  (tr_TraceID t, trace_keys t, (dc_keep d, dc_rate d), expiry_reason limit t, (dc_keep d, dc_rate d, dc_reason d, dc_key d), vd_selector v).
Definition goes_out (dryRun : bool) (v : verdict) : Prop := dc_keep (vd_decision v) || dryRun = true.
#[export] Instance goes_out_dec dryRun v : Decision (goes_out dryRun v).
Proof. unfold goes_out. apply _. Defined.

(** The decision is remembered. *)
Definition remember now (sc : cuckooSentCache F L) (v : verdict) : cuckooSentCache F L :=
  let d := vd_decision v in (SentCache_Record now sc (tr_set_decision (vd_asked v) (dc_rate d) (dc_keep d)) (dc_keep d) (dc_reason d)).1.1.

Lemma get_sampler_for pa w selector :
  match get_sampler peers pa w selector with
  | None => sampler_for (samplers_of pa w) selector = None
  | Some (s, pa') => sampler_for (samplers_of pa w) selector = Some (s, pa_Config pa', pa_SamplerFactory pa') ∧
      pa_tracesToSend pa' = pa_tracesToSend pa ∧ pa_sent pa' = pa_sent pa ∧ dry pa' = dry pa
  end.
Proof.
  unfold get_sampler, sampler_for, samplers_of. destruct (w_datasetSamplers w !! selector) as [s|]; [done|].
  destruct (GetSamplerImplementationForKey _ _ _ _) as [[[[s c] f] ops]|]; [|done]. cbn. by rewrite app_nil_r.
Qed.

Lemma add_counts_marks cfg t :
  tr_KeepSample (add_counts_to_root cfg t) = tr_KeepSample t ∧ tr_sampleRate (add_counts_to_root cfg t) = tr_sampleRate t.
Proof.
  pose proof (ensure_counts_fields t) as (_ & _ & _ & _ & E1 & E2 & _).
  pose proof (ensure_counts_fields (ensure_counts t)) as (_ & _ & _ & _ & E3 & E4 & _).
  pose proof (ensure_counts_fields (ensure_counts (ensure_counts t))) as (_ & _ & _ & _ & E5 & E6 & _).
  unfold add_counts_to_root, trace_counts, SpanEventCount, SpanLinkCount, SpanCount, update_root. cbn zeta.
  destruct (GetAddCountsToRoot cfg); case_match; simpl; split; congruence.
Qed.

(** [makeDecision] is the sampler's verdict, remembered. *)
Lemma makeDecision_consults now intn pa w t reason :
  tr_Sent t = false →
  match makeDecision elapsed peers now intn pa w t reason with
  | None => consult (samplers_of pa w) intn t = None
  | Some (r, pa', w') => ∃ s v, r = Ok s ∧ consult (samplers_of pa w) intn t = Some (v, samplers_of pa' w') ∧
      vd_taken v = t ∧ tr_Sent (st_Trace s) = false ∧ st_sendReason s = reason ∧
      summary s = (tr_TraceID t, trace_keys t, (dc_keep (vd_decision v), dc_rate (vd_decision v)), reason,
        (dc_keep (vd_decision v), dc_rate (vd_decision v), dc_reason (vd_decision v), dc_key (vd_decision v)), vd_selector v) ∧
      w_sampleCache w' = remember now (w_sampleCache w) v ∧
      pa_tracesToSend pa' = pa_tracesToSend pa ∧ pa_sent pa' = pa_sent pa ∧ dry pa' = dry pa ∧ w_cache w' = w_cache w
  end.
Proof.
  intros Hs. unfold makeDecision, consult. rewrite Hs. set (pa0 := emit pa [] _). cbv zeta.
  change (pa_Config pa0) with (pa_Config pa). change (samplers_of pa w).1.1 with (pa_Config pa).
  set (selector := DetermineSamplerKey _ _ _ _). pose proof (get_sampler_for pa0 w selector) as Hg.
  change (samplers_of pa0 w) with (samplers_of pa w) in Hg. destruct (get_sampler peers pa0 w selector) as [[s pa1]|]; [|by rewrite Hg].
  destruct Hg as (-> & E1 & E2 & E3). cbn [mbind option_bind]. destruct (Sampler_GetKeyFields s) as [af nf].
  destruct (GetSampleRate _ _ _ _) as [[[[d s'] f] ops]|]; [|done]. cbn [mbind option_bind].
  destruct (SentCache_Record _ _ _ _ _) as [[sc t'] ops'] eqn:Er. eexists _, _. split; [reflexivity|]. split; [reflexivity|].
  pose proof Er as Er'. apply SentCache_Record_trace in Er as (K1 & K2 & K3 & K4 & K5 & K6).
  cbn [vd_taken vd_decision vd_selector st_Trace st_sendReason w_sampleCache w_set_sampleCache]. split_and!; try done.
  - by rewrite K2.
  - unfold summary. cbn. rewrite K1, K3, K5, K6. unfold trace_keys. cbn [tr_spans tr_set_decision tr_set_spans tr_TraceID tr_KeepSample tr_sampleRate].
    assert (span_keys (memoize_keys af nf <$> tr_spans t) = span_keys (tr_spans t)) as -> by by apply keys_map. done.
  - unfold remember. cbn [vd_asked vd_decision]. change (w_sampleCache (w_set_samplers w _)) with (w_sampleCache w) in Er'. by rewrite Er'.
  - cbn. rewrite E2. cbn. by rewrite !app_nil_r.
Qed.

Lemma send_same now pa s : pa_Config (send now pa s) = pa_Config pa ∧ pa_SamplerFactory (send now pa s) = pa_SamplerFactory pa.
Proof. unfold send. destruct (tr_Sent _); [done|]. by destruct (_ && _). Qed.

Lemma send_summary now pa s :
  tr_Sent (st_Trace s) = false →
  summary <$> pa_tracesToSend (send now pa s) =
    (summary <$> pa_tracesToSend pa) ++ (if tr_KeepSample (st_Trace s) || dry pa then [summary s] else []).
Proof.
  intros Hs. unfold send. rewrite Hs.
  change (tr_KeepSample (tr_set_Sent (st_Trace s) true)) with (tr_KeepSample (st_Trace s)).
  change (pa_Config (emit pa [] _)) with (pa_Config pa). fold (dry pa).
  destruct (tr_KeepSample (st_Trace s)) eqn:Es, (dry pa) eqn:Ed; cbn -[add_counts_to_root]; rewrite ?app_nil_r; try done;
    rewrite fmap_app; f_equal; cbn -[add_counts_to_root]; f_equal; unfold summary; cbn -[add_counts_to_root];
    destruct (tr_RootSpan (st_Trace s)); try done;
    by rewrite keys_add_counts, add_counts_id, (proj1 (add_counts_marks _ _)), (proj2 (add_counts_marks _ _)).
Qed.

Lemma send_expired_decisions now rnd limit traces i pa w :
  Forall (λ t, tr_Sent t = false) traces →
  match send_expired elapsed peers now rnd i limit pa w traces with
  | None => consult_all rnd i (samplers_of pa w) traces = None
  | Some (pa', w') => ∃ verdicts, consult_all rnd i (samplers_of pa w) traces = Some (verdicts, samplers_of pa' w') ∧
      summary <$> pa_tracesToSend pa' = (summary <$> pa_tracesToSend pa) ++ (ticket limit <$> filter (goes_out (dry pa)) verdicts) ∧
      w_sampleCache w' = foldl (remember now) (w_sampleCache w) verdicts ∧
      vd_taken <$> verdicts = traces ∧ pa_sent pa' = pa_sent pa ∧ w_cache w' = w_cache w
  end.
Proof.
  intros Ht. revert i pa w. induction Ht as [|t traces Hs Ht IH]; intros i pa w; cbn [send_expired consult_all].
  { exists []. by rewrite app_nil_r. }
  pose proof (makeDecision_consults now (rnd i) pa w t (expiry_reason limit t) Hs) as Hm.
  destruct (makeDecision _ _ _ _ _ _ _ _) as [[[r pa1] w1]|]; [|by rewrite Hm].
  destruct Hm as (s & v & -> & -> & Ev & S1 & S2 & S3 & S4 & Q1 & Q2 & Q3 & Q4). cbn [mbind option_bind].
  destruct (send_same now pa1 s) as [C1 C2]. specialize (IH (S i) (send now pa1 s) w1).
  assert (Est : samplers_of (send now pa1 s) w1 = samplers_of pa1 w1) by (unfold samplers_of; by rewrite C1, C2).
  rewrite Est in IH. destruct (send_expired _ _ _ _ _ _ _ _ _) as [[pa' w']|]; [|by rewrite IH].
  destruct IH as (vs & -> & D1 & D2 & D3 & D4 & D5). cbn [mbind option_bind]. exists (v :: vs). split; [done|]. split; [|split_and!].
  - rewrite D1, send_summary by done. rewrite (dry_main pa1 (send now pa1 s)) by by rewrite C1. rewrite Q1, Q3, <-(assoc_L (++)).
    f_equal. assert (Ek : tr_KeepSample (st_Trace s) = dc_keep (vd_decision v)) by (unfold summary in S3; congruence).
    rewrite Ek, filter_cons. unfold goes_out at 2. case_decide as Eg.
    + rewrite Eg. cbn. f_equal. rewrite S3. unfold ticket. by rewrite Ev.
    + by apply not_true_is_false in Eg as ->.
  - cbn [foldl]. by rewrite D2, S4.
  - cbn. by rewrite Ev, D3.
  - destruct (send_flow now pa1 s) as (_ & G2 & _). by rewrite D4, G2, Q2.
  - by rewrite D5.
Qed.
(** C2: what becomes of a span a worker takes.  When its trace is cached the span is appended to
    it, and the trace's send time can only move forward: to [SendDelay] from now when the span
    is a root, to now when the span limit is exceeded.  Otherwise a recorded decision is obeyed:
    the span goes out exactly when the trace was kept or in dry run, and nothing is cached.  A
    span of an unknown trace starts one that keeps the span's sample rate and times out after
    [TraceTimeout]. *)
Theorem span_disposition now pa w sp pa' w' :
  cache_ok (w_cache w) → processSpan now pa w sp = (pa', w') →
  let id := sp_TraceID sp in
  let tcfg := GetTracesConfig (pa_Config pa) in
  let send_by n := next_send_by now tcfg (sp_IsRoot sp) n in
  pa_tracesToSend pa' = pa_tracesToSend pa ∧
  match ca_cache (w_cache w) !! id with
  | Some t =>
      pa' = pa ∧ ∃ t', ca_cache (w_cache w') = <[id := t']> (ca_cache (w_cache w)) ∧
        trace_keys t' = trace_keys t ++ [span_key sp] ∧
        tr_SendBy t' = send_by (length (tr_spans t)) (tr_SendBy t) ∧ tr_SendBy t' ≤ tr_SendBy t ∧
        tr_RootSpan t' = (if sp_IsRoot sp then Some (length (tr_spans t)) else tr_RootSpan t)
  | None =>
      match (CheckSpan now (w_sampleCache w) sp).2 with
      | Some (sr, _) =>
          w_cache w' = w_cache w ∧
          span_keys (pa_sent pa') = span_keys (pa_sent pa) ++ (if Kept sr || dry pa then [span_key sp] else [])
      | None =>
          pa_sent pa' = pa_sent pa ∧
          ∃ t', ca_cache (w_cache w') = <[id := t']> (ca_cache (w_cache w)) ∧
            trace_keys t' = [span_key sp] ∧ tr_sampleRate t' = sp_SampleRate sp ∧ tr_ArrivalTime t' = now ∧
            tr_SendBy t' = send_by 0%nat (now + trace_timeout tcfg)
      end
  end.
Proof.
  intros [Hwf Hok] E. unfold processSpan in E. set (w1 := w_set_counters w _ _ _) in E.
  change (w_cache w) with (w_cache w1) in *. change (w_sampleCache w) with (w_sampleCache w1). clearbody w1. clear w.
  cbn zeta. unfold Cache_Get in E. destruct (ca_cache (w_cache w1) !! sp_TraceID sp) as [t|] eqn:Ec.
  - unfold process_known in E. rewrite (proj1 (Hok _ _ Ec)) in E. injection E as <- <-.
    destruct (add_live_spec now (GetTracesConfig (pa_Config pa)) w1 t sp) as (c & t' & -> & E1 & E2 & _ & _ & E3 & E4 & _).
    rewrite (proj1 (Hwf _ _ Ec)) in E1. split_and!; [done|done|]. exists t'. split_and!; try done.
    rewrite E4. unfold next_send_by. destruct (sp_IsRoot sp || _); [apply Z.le_min_l|done].
  - destruct (CheckSpan now (w_sampleCache w1) sp) as [[sc sp'] r] eqn:Er. pose proof (CheckSpan_key _ _ _ _ _ _ Er) as Ek.
    cbn [snd]. destruct r as [[sr reason]|].
    + injection E as <- <-.
      destruct (dealWithSentTrace_flow (emit pa [] [MIncrement "trace_sent_cache_hit"]) sr reason sp') as (_ & E2 & k & E3 & ->).
      split_and!; [done|done|]. rewrite E3. simpl. by rewrite app_nil_r, Ek.
    + set (t := new_trace _ _ _ _) in E. unfold process_known in E. change (tr_Sent t) with false in E. injection E as <- <-.
      set (w3 := w_set_cache _ _).
      change (add_live _ _ _ _ _) with (add_live now (GetTracesConfig (pa_Config pa)) w3 t sp').
      destruct (add_live_spec now (GetTracesConfig (pa_Config pa)) w3 t sp')
        as (c & t' & -> & E1 & E2 & _ & _ & _ & E4 & E5 & E6 & _).
      assert (Eroot : sp_IsRoot sp' = sp_IsRoot sp) by (unfold span_key in Ek; congruence).
      assert (Erate : sp_SampleRate sp' = sp_SampleRate sp) by (by eapply CheckSpan_rate).
      split_and!; [done|simpl; by rewrite app_nil_r|]. exists t'. rewrite Eroot in E4. split_and!; [|by rewrite E2, Ek|by rewrite E6|done|done].
      cbn [w_cache w_set_cache]. rewrite E1. subst w3. simpl. by rewrite (key_id _ _ Ek), insert_insert_eq.
Qed.

(** C16: a tick takes every expired trace (up to [MaxExpiredTraces]) out of the cache, nothing else
    leaves it, and has each of them decided once, in order, by the sampler of its key.  What the
    sampler answers is remembered in the cache of decisions.  Those it keeps (in dry run all of them)
    are queued for sending, once each, with all their spans, marked with the sampler's answer and
    rate, and with the reason that the trace's state calls for: its root has come, it is over the span
    limit, or it has timed out; the others are not queued.  The tick ends with no answer only where a
    sampler asked gives none. *)
Theorem expired_traces_decided now rnd pa w :
  cache_ok (w_cache w) →
  let tcfg := GetTracesConfig (pa_Config pa) in
  let max := s64 (tc_MaxExpiredTraces tcfg) in
  ∃ traces,
    (∀ t, t ∈ traces → ca_cache (w_cache w) !! tr_TraceID t = Some t ∧ tr_SendBy t ≤ now) ∧
    NoDup (tr_TraceID <$> traces) ∧
    (0 < max → Z.of_nat (length traces) ≤ max) ∧
    (Z.of_nat (length traces) = max ∧ 0 < max ∨
     ∀ id t, ca_cache (w_cache w) !! id = Some t → tr_SendBy t ≤ now → id ∈ tr_TraceID <$> traces) ∧
    match sendExpiredTracesInCache elapsed peers now rnd pa w with
    | None => consult_all rnd 0 (samplers_of pa w) traces = None
    | Some (pa', w') => ∃ verdicts,
        consult_all rnd 0 (samplers_of pa w) traces = Some (verdicts, samplers_of pa' w') ∧ vd_taken <$> verdicts = traces ∧
        summary <$> pa_tracesToSend pa' =
          (summary <$> pa_tracesToSend pa) ++ (ticket (u32 (tc_SpanLimit tcfg)) <$> filter (goes_out (dry pa)) verdicts) ∧
        w_sampleCache w' = foldl (remember now) (w_sampleCache w) verdicts ∧ pa_sent pa' = pa_sent pa ∧
        ∀ id, ca_cache (w_cache w') !! id = if decide (id ∈ tr_TraceID <$> traces) then None else ca_cache (w_cache w) !! id
    end.
Proof.
  intros [Hwf Hok]. cbn zeta. unfold sendExpiredTracesInCache.
  pose proof (TakeExpiredTraces_facts now (s64 (tc_MaxExpiredTraces (GetTracesConfig (pa_Config pa)))) (λ _, true)
                (w_cache w) Hwf) as Ht.
  destruct (TakeExpiredTraces _ _ _ _) as [[d traces] ops]. destruct Ht as (T1 & T2 & _ & T4 & T5 & T6 & T7).
  exists traces. split; [intros t Hin; by apply T4 in Hin as (? & ? & _)|]. split; [exact T2|]. split; [exact T6|]. split.
  { destruct T7 as [?|T7]; [by left|right]. intros id t Hid Hdue. apply dec_stable. intros Hnot.
    assert (Hd : ca_cache d !! id = Some t) by (rewrite T5; by rewrite decide_False).
    specialize (T7 id t Hd eq_refl). lia. }
  assert (Hun : Forall (λ t, tr_Sent t = false) traces).
  { apply Forall_forall. intros t Hin. apply T4 in Hin as (Hc & _). by apply Hok in Hc as (? & _). }
  pose proof (send_expired_decisions now rnd (u32 (tc_SpanLimit (GetTracesConfig (pa_Config pa)))) traces 0
    (emit pa [] ops) (w_set_cache w d) Hun) as Hs.
  change (samplers_of (emit pa [] ops) (w_set_cache w d)) with (samplers_of pa w) in Hs.
  destruct (send_expired _ _ _ _ _ _ _ _ _) as [[pa1 w1]|]; [|done]. destruct Hs as (vs & V1 & V2 & V3 & V4 & V5 & V6).
  exists vs. split; [done|]. split; [done|]. split_and!; [exact V2|exact V3| |].
  - simpl. rewrite V5. simpl. by rewrite !app_nil_r.
  - intros id. rewrite V6. apply T5.
Qed.

(** Asked to free [bytes], a worker ejects a prefix of its traces in the order of their cache
    impact, the heaviest first: the shortest prefix whose data size exceeds [bytes], or every
    trace.  The ejected traces leave the cache, the others stay, each with its spans; in dry run
    every span of an ejected trace is queued for sending. *)
Theorem ejects_heaviest now rnd bytes pa w pa' w' :
  cache_ok (w_cache w) →
  sendTracesEarly elapsed peers now rnd pa w bytes = Some (pa', w') →
  ∃ order k,
    with_impacts now (trace_timeout (GetTracesConfig (pa_Config pa))) (GetAll (w_cache w)) = Some order ∧
    let sorted := merge_sort heavier order in
    let ejected := take k sorted.*2 in
    StronglySorted heavier sorted ∧
    (∀ id, is_Some (ca_cache (w_cache w) !! id) ↔ id ∈ tr_TraceID <$> sorted.*2) ∧
    (∀ id, trace_keys <$> ca_cache (w_cache w') !! id =
       if decide (id ∈ tr_TraceID <$> ejected) then None else trace_keys <$> ca_cache (w_cache w) !! id) ∧
    (ejected = sorted.*2 ∨ bytes < total_size 0 ejected) ∧
    (∀ j, (0 < j < k)%nat → total_size 0 (take j ejected) ≤ bytes) ∧
    (sorted ≠ [] → ejected ≠ []) ∧
    flows (dry pa) (out pa') (concat (trace_keys <$> ejected) ++ out pa).
Proof.
  intros Hok. unfold sendTracesEarly. destruct (with_impacts _ _ _) as [impacts|] eqn:Ei; [|done].
  pose proof (with_impacts_same _ _ _ _ Ei) as Hsame.
  apply impacts_facts in Ei as (I1 & I2 & I3 & I4 & I5 & I6); [|done].
  destruct (send_early _ _ _ _ _ _ _ _ _ _ _) as [[[pa1 w1] ids]|] eqn:Es; [|done].
  apply send_early_spec in Es as (k & -> & F1 & F2 & F3 & F4 & F5 & F6 & F7 & F8 & F9); [|done].
  destruct (RemoveTraces _ _) as [d' ops] eqn:Er. intros [= <- <-]. cbn in F5. exists impacts, k. cbn zeta.
  split; [done|]. split_and!.
  - apply (StronglySorted_merge_sort heavier).
  - done.
  - intros id. cbn [w_cache w_set_cache w_set_lastCacheSize].
    replace d' with (RemoveTraces (w_cache w1) (∅ ∪ list_to_set (tr_TraceID <$> take k (merge_sort heavier impacts).*2))).1
      by by rewrite Er.
    rewrite RemoveTraces_lookup, F5.
    assert (Hiff : id ∈ ∅ ∪ list_to_set (C := gset string) (tr_TraceID <$> take k (merge_sort heavier impacts).*2) ↔
                   id ∈ tr_TraceID <$> take k (merge_sort heavier impacts).*2) by set_solver.
    destruct (decide (id ∈ tr_TraceID <$> take k (merge_sort heavier impacts).*2)) as [Hin|Hin].
    + by rewrite decide_True by tauto.
    + rewrite decide_False by tauto. apply (update_all_same _ _ (impacts_cached _ _ Hok Hsame) Hok).
  - destruct F6 as [->|?]; [left; by rewrite firstn_all|by right].
  - intros j Hj. rewrite take_take, Nat.min_l by lia. by apply F7.
  - intros Hne. assert (Hne' : (merge_sort heavier impacts).*2 ≠ []) by by destruct (merge_sort heavier impacts).
    specialize (F9 Hne'). destruct (merge_sort heavier impacts).*2, k; [done..|lia|done].
  - by rewrite out_emit.
Qed.
End Conservation.

(** ** A worker on concrete spans *)

Module WorkerExamples.
#[export] Existing Instances example_float EventExamples.map_payload EventExamples.map_payload_laws
  TraceKeyExamples.encode_hash RulesExamples.no_gjson SamplerExamples.id_sha1 SamplerExamples.no_regexp
  SamplerExamples.example_dyn TraceCacheExamples.map_kpq TraceCacheExamples.map_kpq_laws SentExamples.set_cuckoo
  SentExamples.set_cuckoo_laws SentExamples.list_lru_ops SentExamples.list_lru_laws.

Definition nanos (s : Z) : Z := s * second.
Definition contents (dryRun : bool) : configContents := {|
  General := {| gen_ConfigurationVersion := 2; gen_MinRefineryVersion := "v2.0"; gen_DatasetPrefix := "";
                gen_ConfigReloadInterval := 0 |};
  Network := {| net_ListenAddr := ""; net_PeerListenAddr := ""; net_HoneycombAPI := "";
                net_HTTPIdleTimeout := 0; net_AdditionalHeaders := ∅ |};
  AccessKeys := {| ak_ReceiveKeys := []; ak_SendKey := ""; ak_SendKeyMode := "none"; ak_AcceptOnlyListedKeys := false |};
  Telemetry := {| tel_AddRuleReasonToTrace := true; tel_AddSpanCountToRoot := None; tel_AddCountsToRoot := false;
                  tel_AddHostMetadataToTrace := None |};
  Traces := {| tc_SendDelay := nanos 2; tc_BatchTimeout := 0; tc_TraceTimeout := nanos 60; tc_MaxBatchSize := 500;
               tc_SendTicker := 0; tc_SpanLimit := 0; tc_MaxExpiredTraces := 0 |};
  Debugging := {| dbg_DebugServiceAddr := ""; dbg_QueryAuthToken := ""; dbg_AdditionalErrorFields := [];
                  dbg_DryRun := dryRun |};
  Collection := ConfigExamples.coll;
  Specialized := {| spc_EnvironmentCacheTTL := 0; spc_CompressPeerCommunication := None;
                    spc_AdditionalAttributes := ∅ |};
  IDFieldNames := {| id_TraceNames := ["trace.trace_id"]; id_ParentNames := ["trace.parent_id"] |};
  SampleCache := ConfigExamples.cache;
  Config.StressRelief := StressExamples.relief 100 |}.

(** One deterministic sampler: rate 2 keeps "t1" and "t2", rate 4 drops them. *)
Definition choice (rate : Z) : V2SamplerChoice := {|
  ch_DeterministicSampler := Some {| det_SampleRate := rate |}; ch_RulesBasedSampler := None;
  ch_DynamicSampler := None; ch_EMADynamicSampler := None; ch_EMAThroughputSampler := None;
  ch_WindowedThroughputSampler := None; ch_TotalThroughputSampler := None |}.
Definition config (dryRun : bool) (rate : Z) : fileConfig :=
  mkFileConfig (contents dryRun) "" {| v2_RulesVersion := 2; v2_Samplers := {["__default__" := choice rate]} |} "" [].

Definition shared (dryRun : bool) (rate : Z) : parent (Z * Z) (gmap string value) :=
  mkParent (config dryRun rate) SamplerExamples.factory StressExamples.idle "host" [] [] [].
Definition fresh : worker (gmap string Z) (gset string) SentExamples.list_lru (gmap string value) :=
  mkWorker [] 10 [] 10 false (NewInMemCache).1 SentExamples.empty_cache ∅ 0 0 0 0 0.

Lemma fresh_ok : cache_ok (w_cache fresh).
Proof. split; [apply cache_wf_new|]. intros id t. simpl. by rewrite lookup_empty. Qed.

Definition a_span (id : string) (root : bool) : Span (gmap string value) :=
  mkSpan (EventExamples.event []) id 0 root SpanAnnotationTypeUnSet.

(** A worker that has taken a child and the root of "t1" and a child of "t2". *)
Definition take_all (pa : parent (Z * Z) (gmap string value)) (l : list (Z * Span (gmap string value))) :=
  foldl (λ s e, processSpan e.1 s.1 s.2 e.2) (pa, fresh) l.
Definition spans : list (Z * Span (gmap string value)) :=
  [(nanos 1, a_span "t1" false); (nanos 2, a_span "t1" true); (nanos 3, a_span "t2" false)].

Lemma span_disposition_witness :
  let '(_, w') := processSpan (nanos 1) (shared false 2) fresh (a_span "t1" true) in
  ∃ t', ca_cache (w_cache w') = <["t1" := t']> ∅ ∧ tr_SendBy t' = nanos 3.
Proof.
  destruct (processSpan (nanos 1) (shared false 2) fresh (a_span "t1" true)) as [pa' w'] eqn:E.
  destruct (span_disposition (nanos 1) (shared false 2) fresh (a_span "t1" true) pa' w' fresh_ok E)
    as (_ & _ & t' & Ec & _ & _ & _ & Es).
  exists t'. split; [exact Ec|]. rewrite Es. by vm_compute.
Defined.

Lemma taken_ok dryRun rate : cache_ok (w_cache (take_all (shared dryRun rate) spans).2).
Proof.
  assert (Hall : ∀ l (pa : parent (Z * Z) (gmap string value))
    (w : worker (gmap string Z) (gset string) SentExamples.list_lru (gmap string value)), cache_ok (w_cache w) →
    cache_ok (w_cache (foldl (λ s e, processSpan e.1 s.1 s.2 e.2) (pa, w) l).2)).
  { induction l as [|[now sp] l IH]; intros pa w Hw; [done|]. cbn [foldl fst snd].
    destruct (processSpan now pa w sp) as [pa' w'] eqn:E. apply processSpan_flow in E as (_ & _ & Hw' & _); [|done].
    by apply IH. }
  apply Hall, fresh_ok.
Qed.

(** What a run queued: ID, send reason, decision, rate. *)
Definition queued (r : option (parent (Z * Z) (gmap string value) *
    worker (gmap string Z) (gset string) SentExamples.list_lru (gmap string value))) :=
  (λ s, (tr_TraceID (st_Trace s), st_sendReason s, st_shouldSend s, st_rate s)) <$>
    match r with Some (pa, _) => pa_tracesToSend pa | None => [] end.

Definition expired_run :=
  sendExpiredTracesInCache 0 None (nanos 5) (λ _ _, 0) (shared false 2) (take_all (shared false 2) spans).2.
Definition eject_run :=
  sendTracesEarly 0 None (nanos 5) (λ _ _, 0) (shared true 4) (take_all (shared true 4) spans).2 0.

(** Five seconds in, "t1" is due and is sent, "t2" waits for its timeout. *)
Lemma expired_run_queued : queued expired_run = [("t1", "trace_send_got_root", true, 2)].
Proof. by vm_compute. Qed.
Lemma eject_run_queued : queued eject_run =
  [("t1", "trace_send_ejected_memsize", false, 4); ("t2", "trace_send_ejected_memsize", false, 4)].
Proof. by vm_compute. Qed.

Lemma expired_traces_decided_witness :
  ∃ pa' w', expired_run = Some (pa', w') ∧
    (tr_TraceID ∘ st_Trace) <$> pa_tracesToSend pa' = ["t1"] ∧
    ∃ (traces : list (Trace (gmap string value))) verdicts,
      (∃ st, consult_all None (λ _ _, 0) 0 (samplers_of (shared false 2) (take_all (shared false 2) spans).2) traces =
         Some (verdicts, st)) ∧
      ∀ id, ca_cache (w_cache w') !! id =
        if decide (id ∈ tr_TraceID <$> traces) then None
        else ca_cache (w_cache (take_all (shared false 2) spans).2) !! id.
Proof.
  pose proof expired_run_queued as Eq. destruct expired_run as [[pa' w']|] eqn:E; [|discriminate].
  exists pa', w'. split; [reflexivity|].
  pose proof (expired_traces_decided 0 None (nanos 5) (λ _ _, 0) (shared false 2) (take_all (shared false 2) spans).2
              (taken_ok _ _)) as Ht. cbn zeta in Ht. fold expired_run in Ht. rewrite E in Ht.
  destruct Ht as (traces & _ & _ & _ & _ & verdicts & Hv & _ & _ & _ & _ & Hc).
  split; [|exists traces, verdicts; split; [by eexists|exact Hc]].
  apply (f_equal (fmap (λ x, x.1.1.1))) in Eq. unfold queued in Eq.
  rewrite <-list_fmap_compose in Eq. exact Eq.
Defined.

Lemma ejects_heaviest_witness :
  ∃ pa' w', eject_run = Some (pa', w') ∧
    (tr_TraceID ∘ st_Trace) <$> pa_tracesToSend pa' = ["t1"; "t2"] ∧
    ∃ order, with_impacts (nanos 5) (trace_timeout (GetTracesConfig (config true 4)))
        (GetAll (w_cache (take_all (shared true 4) spans).2)) = Some order ∧
      StronglySorted heavier (merge_sort heavier order).
Proof.
  pose proof eject_run_queued as Eq. destruct eject_run as [[pa' w']|] eqn:E; [|discriminate].
  exists pa', w'. split; [reflexivity|].
  destruct (ejects_heaviest 0 None (nanos 5) (λ _ _, 0) 0 (shared true 4) (take_all (shared true 4) spans).2
              pa' w' (taken_ok _ _) E) as (order & k & Ho & Hs & _).
  split; [|exists order; split; [exact Ho|exact Hs]]. apply (f_equal (fmap (λ x, x.1.1.1))) in Eq. unfold queued in Eq.
  rewrite <-list_fmap_compose in Eq. exact Eq.
Defined.
End WorkerExamples.
