(* ===== verification/InMemCollector.v ===== *)
(** collect/collect.go: the collector's own operations and the system of its workers.

    [step] is one step of the system: a span handed in, an iteration of one worker, a trace sent,
    a signal from the monitor.  Any interleaving of the goroutines is a sequence of such events,
    as each touches a worker's state alone or an unbounded queue (the 100,000 places of
    [tracesToSend] are not a limit here: a full channel only makes the sender wait). *)
From Stdlib Require Import SpecFloat.
From S2P Require Import Prelude GoValue Metrics Generics Event SamplerConfig Config TraceKey Rules Samplers StressRelief TraceCache SentCache Collector Worker.

Record InMemCollector (D Q F L P : Type) := mkCollector {
  co_parent : parent D P;
  co_workers : list (worker Q F L P);
  co_reload : bool;                    (** a signal in the one-place reload channel *)
  co_BlockOnAddSpan : bool }.
Arguments mkCollector {D Q F L P}. Arguments co_parent {D Q F L P}. Arguments co_workers {D Q F L P}.
Arguments co_reload {D Q F L P}. Arguments co_BlockOnAddSpan {D Q F L P}.

Definition inMemCollectorMetrics : list metric_op :=
  [MRegister "trace_duration_ms" Histogram; MRegister "trace_span_count" Histogram;
   MRegister "collector_incoming_queue" Histogram; MRegister "collector_peer_queue_length" Gauge;
   MRegister "collector_incoming_queue_length" Gauge; MRegister "collector_peer_queue" Histogram;
   MRegister "collector_cache_size" Gauge; MRegister "collect_cache_entries" Histogram;
   MRegister "memory_heap_allocation" Gauge; MRegister "span_received" Counter;
   MRegister "span_processed" Counter; MRegister "spans_waiting" UpDown;
   MRegister "trace_sent_cache_hit" Counter; MRegister "trace_accepted" Counter;
   MRegister "trace_send_kept" Counter; MRegister "trace_send_dropped" Counter;
   MRegister "trace_send_has_root" Counter; MRegister "trace_send_no_root" Counter;
   MRegister TraceSendGotRoot Counter; MRegister TraceSendExpired Counter; MRegister TraceSendSpanLimit Counter;
   MRegister "trace_send_ejected_full" Counter; MRegister TraceSendEjectedMemsize Counter;
   MRegister TraceSendLateSpan Counter; MRegister "dropped_from_stress" Counter; MRegister "kept_from_stress" Counter;
   MRegister "trace_kept_sample_rate" Histogram; MRegister "trace_aggregate_sample_rate" Histogram;
   MRegister "collector_collect_loop_duration_ms" Histogram;
   MRegister "collector_send_expired_traces_in_cache_dur_ms" Histogram;
   MRegister "collector_outgoing_queue" Histogram; MRegister "collector_cache_eviction" Counter;
   MRegister "collector_num_workers" Gauge].

Section Collector.
Context {D Q F L P : Type}.
Context `{GoDynsampler D, GoFloat, GoRegexp, GoWyhash, GoGjson, GoSha1, KPQ Q, GoCuckoo F, GoLRU L} `{!PayloadOps P}.
Implicit Types (c : InMemCollector D Q F L P) (pa : parent D P) (w : worker Q F L P) (sp : Span P) (now : Z).
Variable elapsed : Z.
Variable peers : option (res (list string)).

Definition set_parent c pa : InMemCollector D Q F L P :=
  mkCollector pa (co_workers c) (co_reload c) (co_BlockOnAddSpan c).
Definition set_workers c ws : InMemCollector D Q F L P :=
  mkCollector (co_parent c) ws (co_reload c) (co_BlockOnAddSpan c).

Definition set_stress pa (s : StressRelief.StressRelief) : parent D P :=
  mkParent (pa_Config pa) (pa_SamplerFactory pa) s (pa_hostname pa) (pa_tracesToSend pa) (pa_sent pa) (pa_metrics pa).

(** [hostname]: what os.Hostname answers; [procs]: runtime.GOMAXPROCS; [seeds]: the random seed
    of each worker's cache.  [None] is the error of a worker that cannot be created. *)
Definition Start (procs : Z) (hostname : res string) (seeds : nat → Z) (cfg : fileConfig) (factory : SamplerFactory D)
    (stress : StressRelief.StressRelief) (block : bool) : option (InMemCollector D Q F L P) :=
  let imcConfig := GetCollectionConfig cfg in
  let ops := [MStore "INCOMING_CAP" (f64_of_Z (col_IncomingQueueSize imcConfig));
              MStore "PEER_CAP" (f64_of_Z (col_PeerQueueSize imcConfig))] ++ inMemCollectorMetrics in
  let hostname := if GetAddHostMetadataToTrace cfg then match hostname with Ok h => h | Err _ => "" end else "" in
  let pa := mkParent cfg factory (UpdateFromConfig stress (GetStressReliefConfig cfg)) hostname [] [] ops in
  match mapM (λ i, NewCollectorWorker pa (seeds i) (GetIncomingQueueSizePerWorker procs imcConfig)
                     (GetPeerQueueSizePerWorker procs imcConfig))
          (seq 0 (Z.to_nat (GetWorkerCount procs imcConfig))) with
  | None => None
  | Some created => Some (mkCollector (emit pa [] (concat created.*2)) created.*1 false block)
  end.

(** ** Routing *)

(** No workers: division by zero. *)
Definition getWorkerIDForTrace (workers : nat) (traceID : string) : option nat :=
  if (workers =? 0)%nat then None
  else Some (Z.to_nat (u64 (wyhash traceID 7215963184435617557) mod Z.of_nat workers)).

(** The error: "would block"; [None]: the call panics or waits. *)
Definition add_to (add : worker Q F L P → Span P → @added Q F L P) c sp : option (res (InMemCollector D Q F L P)) :=
  match getWorkerIDForTrace (length (co_workers c)) (sp_TraceID sp) with
  | None => None
  | Some i =>
      match co_workers c !! i with
      | None => None
      | Some w =>
          match add w sp with
          | Added w => Some (Ok (set_workers c (<[i := w]> (co_workers c))))
          | WouldBlock => Some (Err "would block")
          | Blocks => None
          end
      end
  end.
Definition AddSpan c sp := add_to (addSpan (co_BlockOnAddSpan c)) c sp.
Definition AddSpanFromPeer c sp := add_to (addSpanFromPeer (co_BlockOnAddSpan c)) c sp.

Definition Stressed c : bool := StressRelief.Stressed (pa_StressRelief (co_parent c)).
Definition GetStressedSampleRate c (traceID : string) := Stress_GetSampleRate (pa_StressRelief (co_parent c)) traceID.

(** ** ProcessSpanImmediately: the span as it is left, (processed, keep) *)

(** The record made of a trace not seen before: it holds no span. *)
Definition immediate_trace now sp (rate : Z) : Trace P :=
  let e := sp_Event sp in
  mkTrace (ev_APIHost e) (ev_APIKey e) (ev_Dataset e) (sp_TraceID sp) "" rate false false 0 "" now now None 0 [] 0 0 0 0.

Definition immediate_decision now pa w sp : worker Q F L P * Span P * Z * bool * string * list metric_op :=
  let '(sc, sp, found) := CheckSpan now (w_sampleCache w) sp in
  match found with
  | Some (record, reason) => (w_set_sampleCache w sc, sp, Rate record, Kept record, reason, [])
  | None =>
      let '(rate, keep, reason) := Stress_GetSampleRate (pa_StressRelief pa) (sp_TraceID sp) in
      let '(sc, _, ops) := SentCache_Record now sc (immediate_trace now sp rate) keep reason in
      (w_set_sampleCache w sc, sp, rate, keep, reason, ops)
  end.

Definition decorate_stressed pa sp (rate : Z) (reason : string) : Span P :=
  let sp := set_field sp MetaStressed (VBool true) in
  let sp := if GetAddRuleReasonToTrace (pa_Config pa) then set_field sp MetaRefineryReason (VString reason) else sp in
  let sp := set_hostname (pa_hostname pa) sp in
  let sp := addAdditionalAttributes (pa_Config pa) sp in
  mergeTraceAndSpanSampleRates sp rate (GetIsDryRun (pa_Config pa)).

Definition ProcessSpanImmediately now c sp : option (InMemCollector D Q F L P * Span P * bool * bool) :=
  match getWorkerIDForTrace (length (co_workers c)) (sp_TraceID sp) with
  | None => None
  | Some i =>
      match co_workers c !! i with
      | None => None
      | Some w =>
          let pa := co_parent c in
          let '(w, sp, rate, keep, reason, ops) := immediate_decision now pa w sp in
          let c := set_workers c (<[i := w]> (co_workers c)) in
          if keep then
            let sp := decorate_stressed pa sp rate reason in
            Some (set_parent c (emit pa [sp] (ops ++ [MIncrement "kept_from_stress"])), sp, true, true)
          else Some (set_parent c (emit pa [] (ops ++ [MIncrement "dropped_from_stress"])), sp, true, false)
      end
  end.

(** ** The monitor *)

Definition sendReloadSignal c : InMemCollector D Q F L P :=
  mkCollector (co_parent c) (co_workers c) true (co_BlockOnAddSpan c).

Definition reloadConfigs c : InMemCollector D Q F L P :=
  let pa := co_parent c in
  let pa := set_factory pa (pa_Config pa) (ClearDynsamplers (pa_SamplerFactory pa)) in
  let pa := set_stress pa (UpdateFromConfig (pa_StressRelief pa) (GetStressReliefConfig (pa_Config pa))) in
  mkCollector pa ((λ w, w_set_reload w true) <$> co_workers c) (co_reload c) (co_BlockOnAddSpan c).

(** What each worker is told to free, when the heap is over the budget; the workers free it in
    their own loops ([InSendEarly]). *)
Definition checkAlloc c (currentAlloc : Z) : option (InMemCollector D Q F L P * option Z) :=
  let maxAlloc := GetMaxAlloc (GetCollectionConfig (pa_Config (co_parent c))) in
  let ops := [MStore "MEMORY_MAX_ALLOC" (f64_of_Z maxAlloc); MGauge "memory_heap_allocation" (f64_of_Z currentAlloc)] in
  if (maxAlloc =? 0) || (currentAlloc <? u64 maxAlloc) then Some (set_parent c (emit (co_parent c) [] ops), None)
  else
    let c := set_parent c (emit (co_parent c) [] (ops ++ [MIncrement "collector_cache_eviction"])) in
    let totalToRemove := u64 (currentAlloc - u64 maxAlloc) in
    match co_workers c with
    | [] => None
    | _ => Some (c, Some (Z.quot (s64 totalToRemove) (Z.of_nat (length (co_workers c)))))
    end.

Definition isReady c now : bool :=
  forallb (λ w, IsHealthy w now (GetHealthCheckTimeout (pa_Config (co_parent c)))) (co_workers c).

Definition sum_workers (f : worker Q F L P → Z) (ws : list (worker Q F L P)) : Z := foldr (λ w n, f w + n) 0 ws.

(** The ticker's case, up to [checkAlloc]: the health reported and the metrics, the workers'
    counters read and reset. *)
Definition monitor_tick c now : InMemCollector D Q F L P * bool :=
  let ws := co_workers c in
  let totalIncoming := sum_workers (λ w, Z.of_nat (length (w_incoming w))) ws in
  let totalPeer := sum_workers (λ w, Z.of_nat (length (w_fromPeer w))) ws in
  let totalCacheSize := sum_workers GetCacheSize ws in
  let ops :=
    [MHistogram "collector_incoming_queue" (f64_of_Z totalIncoming);
     MHistogram "collector_peer_queue" (f64_of_Z totalPeer);
     MHistogram "collect_cache_entries" (f64_of_Z totalCacheSize);
     MGauge "collector_incoming_queue_length" (f64_of_Z totalIncoming);
     MGauge "collector_peer_queue_length" (f64_of_Z totalPeer);
     MGauge "collector_cache_size" (f64_of_Z totalCacheSize);
     MGauge "collector_num_workers" (f64_of_Z (Z.of_nat (length ws)));
     MCount "span_received" (sum_workers w_localSpanReceived ws);
     MCount "spans_waiting" (sum_workers w_localSpansWaiting ws)] in
  (mkCollector (emit (co_parent c) [] ops) ((λ w, w_set_counters w 0 0 (w_localSpanProcessed w)) <$> ws)
     (co_reload c) (co_BlockOnAddSpan c), isReady c now).

(** ** The system *)

Inductive event :=
| EvAdd (sp : Span P) (fromPeer : bool)
| EvImmediate (now : Z) (sp : Span P)
| EvWorker (i : nat) (now : Z) (rnd : nat → Z → Z) (it : iteration)
| EvSendTrace
| EvMonitor (now : Z)
| EvAlloc (currentAlloc : Z)
| EvConfig (cfg : fileConfig)
| EvReload.

Definition set_config pa (cfg : fileConfig) : parent D P := set_factory pa cfg (pa_SamplerFactory pa).

Definition step c (e : event) : option (InMemCollector D Q F L P) :=
  match e with
  | EvAdd sp fromPeer =>
      match (if fromPeer then AddSpanFromPeer c sp else AddSpan c sp) with
      | Some (Ok c) => Some c
      | _ => Some c
      end
  | EvImmediate now sp =>
      match ProcessSpanImmediately now c sp with Some (c, _, _, _) => Some c | None => None end
  | EvWorker i now rnd it =>
      match co_workers c !! i with
      | None => Some c
      | Some w =>
          match collect_once elapsed peers now rnd (co_parent c) w it with
          | None => None
          | Some (pa, w) => Some (set_parent (set_workers c (<[i := w]> (co_workers c))) pa)
          end
      end
  | EvSendTrace => Some (set_parent c (sendTraces_step (co_parent c)))
  | EvMonitor now => Some (monitor_tick c now).1
  | EvAlloc currentAlloc => fst <$> checkAlloc c currentAlloc
  | EvConfig cfg => Some (sendReloadSignal (set_parent c (set_config (co_parent c) cfg)))
  | EvReload =>
      Some (if co_reload c
            then reloadConfigs (mkCollector (co_parent c) (co_workers c) false (co_BlockOnAddSpan c)) else c)
  end.

(** The span an event brings in, if it is accepted. *)
Definition accepted c (e : event) : option (Span P) :=
  match e with
  | EvAdd sp fromPeer =>
      match (if fromPeer then AddSpanFromPeer c sp else AddSpan c sp) with
      | Some (Ok _) => Some sp
      | _ => None
      end
  | EvImmediate _ sp => Some sp
  | _ => None
  end.

(** A run, with the spans it accepted, the last first. *)
Fixpoint run c (events : list event) (acc : list (Span P)) : option (InMemCollector D Q F L P * list (Span P)) :=
  match events with
  | [] => Some (c, acc)
  | e :: events =>
      match step c e with
      | None => None
      | Some c' => run c' events (match accepted c e with Some sp => sp :: acc | None => acc end)
      end
  end.
End Collector.

(** ** sendTraces *)

Section SendTraces.
Context {D P : Type} `{!PayloadOps P}.
Implicit Types (pa : parent D P) (sp : Span P) (t : Trace P) (s : sendableTrace P).

Definition key_rate sp := (span_key sp, sp_SampleRate sp).

Lemma key_rate_inv sp k r : key_rate sp = (k, r) → span_key sp = k ∧ sp_SampleRate sp = r.
Proof. intros E. split; [apply (f_equal fst E)|apply (f_equal snd E)]. Qed.

Lemma key_rate_set_counts cfg sp e k n d : key_rate (set_counts cfg sp e k n d) = key_rate sp.
Proof. unfold set_counts. by repeat case_match. Qed.

Lemma key_rate_hostname h sp : key_rate (set_hostname h sp) = key_rate sp.
Proof. unfold set_hostname. by case_match. Qed.

Lemma key_rate_attributes cfg sp : key_rate (addAdditionalAttributes cfg sp) = key_rate sp.
Proof.
  unfold addAdditionalAttributes. generalize (map_to_list (GetAdditionalAttributes cfg)). intros l.
  revert sp. induction l as [|[k v] l IH]; intros sp; cbn [foldl]; [done|]. by rewrite IH.
Qed.

(** The rate a span is sent with. *)
Definition final_rate (dryRun : bool) (rate traceRate : Z) : Z :=
  let rate := if rate <? 1 then 1 else rate in if dryRun then rate else u64 (rate * traceRate).

Lemma key_rate_merge sp rate dryRun :
  key_rate (mergeTraceAndSpanSampleRates sp rate dryRun) = (span_key sp, final_rate dryRun (sp_SampleRate sp) rate).
Proof. unfold mergeTraceAndSpanSampleRates. destruct dryRun, (sp_SampleRate sp =? 0); done. Qed.

Lemma ensure_counts_more t :
  tr_APIKey (ensure_counts t) = tr_APIKey t ∧ tr_sampleRate (ensure_counts t) = tr_sampleRate t ∧
  key_rate <$> tr_spans (ensure_counts t) = key_rate <$> tr_spans t.
Proof.
  unfold ensure_counts. case_match; [|done]. unfold calculateSpanCounts. destruct (foldl _ _ _) as [[? ?] ?].
  simpl. split_and!; [done|done|]. rewrite <-!list_fmap_compose. apply list_fmap_ext. intros i sp _. simpl.
  unfold AnnotationType. by case_match.
Qed.

(** Three requests for counts. *)
Lemma trace_counts_more t e k n d t' :
  trace_counts t = (e, k, n, d, t') →
  tr_APIKey t' = tr_APIKey t ∧ tr_sampleRate t' = tr_sampleRate t ∧ key_rate <$> tr_spans t' = key_rate <$> tr_spans t.
Proof.
  unfold trace_counts, SpanEventCount, SpanLinkCount, SpanCount. cbn zeta. intros [= _ _ _ _ <-].
  destruct (ensure_counts_more (ensure_counts (ensure_counts t))) as (-> & -> & ->).
  destruct (ensure_counts_more (ensure_counts t)) as (-> & -> & ->). apply ensure_counts_more.
Qed.

Lemma send_span_spec pa s t i sp :
  tr_spans t !! i = Some sp →
  ∃ sp' t', send_span pa s t i = (emit pa [sp'] [], t') ∧
    key_rate sp' = (span_key sp, final_rate (GetIsDryRun (pa_Config pa)) (sp_SampleRate sp) (tr_sampleRate t)) ∧
    ev_APIKey (sp_Event sp') = tr_APIKey t ∧
    tr_sampleRate t' = tr_sampleRate t ∧ tr_APIKey t' = tr_APIKey t ∧
    length (tr_spans t') = length (tr_spans t) ∧ ∀ j, j ≠ i → (key_rate <$> tr_spans t') !! j = (key_rate <$> tr_spans t) !! j.
Proof.
  intros Hi. unfold send_span. rewrite Hi.
  set (sp1 := if GetAddRuleReasonToTrace _ then _ else sp).
  assert (E1 : key_rate sp1 = key_rate sp) by (unfold sp1; repeat case_match; done). clearbody sp1.
  set (t1 := tr_set_spans t (<[i := sp1]> (tr_spans t))).
  assert (Et1 : tr_APIKey t1 = tr_APIKey t ∧ tr_sampleRate t1 = tr_sampleRate t ∧
                key_rate <$> tr_spans t1 = key_rate <$> tr_spans t).
  { unfold t1. simpl. split_and!; [done|done|]. rewrite list_fmap_insert, E1.
    apply list_insert_id. by rewrite list_lookup_fmap, Hi. }
  assert (Hi1 : tr_spans t1 !! i = Some sp1) by (unfold t1; simpl; apply list_lookup_insert_eq; by eapply lookup_lt_Some).
  clearbody t1.
  set (counted := if sp_IsRoot sp1 then _ else (sp1, t1)).
  assert (E2 : key_rate counted.1 = key_rate sp ∧ tr_APIKey counted.2 = tr_APIKey t ∧
               tr_sampleRate counted.2 = tr_sampleRate t ∧ key_rate <$> tr_spans counted.2 = key_rate <$> tr_spans t).
  { destruct Et1 as (T1 & T2 & T3). unfold counted. destruct (sp_IsRoot sp1); [|cbn [fst snd]; by rewrite T1, T2, T3].
    destruct (GetAddCountsToRoot _).
    - destruct (trace_counts t1) as [[[[e k] n] d] t2] eqn:Ec. apply trace_counts_more in Ec as (C1 & C2 & C3).
      cbn [fst snd]. rewrite C1, C2, C3, key_rate_set_counts. split_and!; try done.
      apply (f_equal (lookup i)) in C3. rewrite !list_lookup_fmap, Hi1 in C3.
      destruct (tr_spans t2 !! i) as [sp2|]; [|done]. simpl in *. congruence.
    - cbn [fst snd]. by rewrite T1, T2, T3, key_rate_set_counts. }
  clearbody counted. destruct counted as [sp2 t2]. cbn [fst snd] in E2. destruct E2 as (C1 & C2 & C3 & C4).
  eexists _, _. split; [reflexivity|]. rewrite C2, C3.
  set (sp3 := if GetIsDryRun _ then _ else sp2).
  assert (E3 : key_rate sp3 = key_rate sp) by (unfold sp3; by case_match). clearbody sp3.
  set (sp4 := addAdditionalAttributes _ _).
  assert (E4 : key_rate sp4 = (span_key sp, final_rate (GetIsDryRun (pa_Config pa)) (sp_SampleRate sp) (tr_sampleRate t))).
  { unfold sp4. rewrite key_rate_attributes, key_rate_merge.
    assert (E5 : key_rate (set_hostname (pa_hostname pa) sp3) = key_rate sp) by by rewrite key_rate_hostname.
    apply key_rate_inv in E5 as [-> ->]. done. }
  split_and!; [done|done|done|done| |].
  { simpl. rewrite length_insert. apply (f_equal length) in C4. by rewrite !length_fmap in C4. }
  intros j Hj. simpl. rewrite list_fmap_insert, list_lookup_insert_ne by done. by rewrite C4.
Qed.

(** The span as it is sent. *)
Definition sent_as (dryRun : bool) (apiKey : string) (traceRate : Z) sp (sp' : Span P) : Prop :=
  span_key sp' = span_key sp ∧ sp_SampleRate sp' = final_rate dryRun (sp_SampleRate sp) traceRate ∧
  ev_APIKey (sp_Event sp') = apiKey.

Lemma send_spans_spec n pa s t i :
  length (tr_spans t) = (i + n)%nat →
  ∃ l, pa_sent (send_spans pa s t (seq i n)) = pa_sent pa ++ l ∧
    pa_tracesToSend (send_spans pa s t (seq i n)) = pa_tracesToSend pa ∧
    pa_Config (send_spans pa s t (seq i n)) = pa_Config pa ∧
    Forall2 (λ k sp', span_key sp' = k.1 ∧ sp_SampleRate sp' = final_rate (GetIsDryRun (pa_Config pa)) k.2 (tr_sampleRate t) ∧
                      ev_APIKey (sp_Event sp') = tr_APIKey t) (drop i (key_rate <$> tr_spans t)) l.
Proof.
  revert pa t i. induction n as [|n IH]; intros pa t i Hlen; cbn [seq send_spans].
  { exists []. rewrite app_nil_r. split_and!; [done..|]. rewrite drop_ge by (rewrite length_fmap; lia). constructor. }
  destruct (lookup_lt_is_Some_2 (tr_spans t) i) as [sp Hi]; [lia|].
  destruct (send_span_spec pa s t i sp Hi) as (sp' & t' & -> & K1 & K2 & K3 & K4 & Kl & K5).
  assert (Hdrop : drop (S i) (key_rate <$> tr_spans t') = drop (S i) (key_rate <$> tr_spans t)).
  { apply list_eq. intros j. rewrite !lookup_drop. apply K5. lia. }
  destruct (IH (emit pa [sp'] []) t' (S i) ltac:(lia)) as (l & L1 & L2 & L3 & L4).
  exists (sp' :: l). rewrite L1, L2, L3. simpl. rewrite <-(assoc_L (++)). split_and!; [done..|].
  rewrite (drop_S _ (key_rate sp)) by by rewrite list_lookup_fmap, Hi.
  apply key_rate_inv in K1 as [K1a K1b].
  constructor; [by split_and!|]. rewrite <-Hdrop, <-K3, <-K4. exact L4.
Qed.
Lemma sendTraces_step_spec pa s rest :
  pa_tracesToSend pa = s :: rest →
  let t := st_Trace s in
  ∃ l, pa_sent (sendTraces_step pa) = pa_sent pa ++ l ∧ pa_tracesToSend (sendTraces_step pa) = rest ∧
    pa_Config (sendTraces_step pa) = pa_Config pa ∧
    Forall2 (sent_as (GetIsDryRun (pa_Config pa)) (tr_APIKey t) (tr_sampleRate t)) (tr_spans t) l.
Proof.
  intros Hq. cbn zeta. unfold sendTraces_step. rewrite Hq. set (pa0 := emit _ _ _).
  destruct (send_spans_spec (length (tr_spans (st_Trace s))) pa0 s (st_Trace s) 0 eq_refl) as (l & L1 & L2 & L3 & L4).
  exists l. rewrite L1, L2, L3. simpl. rewrite app_nil_r. split_and!; [done..|].
  rewrite drop_0 in L4. apply Forall2_fmap_l in L4. eapply Forall2_impl; [exact L4|]. done.
Qed.

(** A trace taken from the queue is sent whole: every span once, in order, under the trace's
    API key, at the product of the span's own rate (0 counting as 1) and the trace's, modulo
    [2^64]; in dry run at its own rate.  What identifies a span is untouched. *)
Theorem sends_every_span pa s rest :
  pa_tracesToSend pa = s :: rest →
  let t := st_Trace s in
  ∃ l, pa_sent (sendTraces_step pa) = pa_sent pa ++ l ∧ pa_tracesToSend (sendTraces_step pa) = rest ∧
    Forall2 (sent_as (GetIsDryRun (pa_Config pa)) (tr_APIKey t) (tr_sampleRate t)) (tr_spans t) l.
Proof.
  intros Hq. destruct (sendTraces_step_spec pa s rest Hq) as (l & L1 & L2 & _ & L4). by exists l.
Qed.
End SendTraces.

(** ** The system's invariant *)

Section System.
Context {D Q F L P : Type}.
Context `{GoDynsampler D, GoFloat, GoRegexp, GoWyhash, GoGjson, GoSha1, KPQLaws Q, GoCuckoo F, GoLRU L} `{!PayloadOps P}.
Implicit Types (c : InMemCollector D Q F L P) (pa : parent D P) (w : worker Q F L P) (sp : Span P) (now : Z)
  (e : @event P).
Variable elapsed : Z.
Variable peers : option (res (list string)).

(** Every span in the system: queued, cached, decided and waiting to be sent, or sent. *)
Definition everywhere c := concat (held <$> co_workers c) ++ out (co_parent c).

Definition workers_ok c : Prop := Forall (λ w, cache_ok (w_cache w)) (co_workers c).

(** Every span a worker holds is one of a trace that is routed to it. *)
Definition routed c : Prop :=
  ∀ i w, co_workers c !! i = Some w →
    Forall (λ k, getWorkerIDForTrace (length (co_workers c)) k.1.1.1.1.1.1 = Some i) (held w).

Lemma everywhere_update c pa i w w' :
  co_workers c !! i = Some w →
  concat (held <$> <[i := w']> (co_workers c)) ++ out pa ++ held w ≡ₚ concat (held <$> co_workers c) ++ out pa ++ held w'.
Proof.
  intros Hi. rewrite <-(take_drop_middle _ _ _ Hi) at 2. rewrite insert_take_drop by by eapply lookup_lt_Some.
  rewrite !fmap_app, !concat_app. cbn [fmap list_fmap concat]. solve_Permutation.
Qed.

(** One worker's part of a flow is the system's. *)
Lemma worker_flow d c pa i w w' l :
  co_workers c !! i = Some w →
  flows d (held w' ++ out pa) (l ++ held w ++ out (co_parent c)) →
  flows d (concat (held <$> <[i := w']> (co_workers c)) ++ out pa) (l ++ everywhere c).
Proof.
  intros Hi Hf. unfold everywhere. rewrite insert_take_drop by by eapply lookup_lt_Some.
  rewrite <-(take_drop_middle _ _ _ Hi) at 3. rewrite !fmap_app, !concat_app. cbn [fmap list_fmap concat].
  set (a := concat (held <$> take i (co_workers c))). set (b := concat (held <$> drop (S i) (co_workers c))).
  assert (E1 : (a ++ held w' ++ b) ++ out pa ≡ₚ (a ++ b) ++ held w' ++ out pa) by solve_Permutation.
  assert (E2 : l ++ (a ++ held w ++ b) ++ out (co_parent c) ≡ₚ (a ++ b) ++ l ++ held w ++ out (co_parent c)) by solve_Permutation.
  rewrite E1, E2. by apply flows_app; [apply flows_perm|].
Qed.

Lemma workers_ok_insert c i w' : workers_ok c → cache_ok (w_cache w') → Forall (λ w, cache_ok (w_cache w)) (<[i := w']> (co_workers c)).
Proof. intros Hok Hw. by apply Forall_insert. Qed.

Lemma routed_insert c pa i w w' r b :
  routed c → co_workers c !! i = Some w →
  Forall (λ k, getWorkerIDForTrace (length (co_workers c)) k.1.1.1.1.1.1 = Some i) (held w') →
  routed (mkCollector pa (<[i := w']> (co_workers c)) r b).
Proof.
  intros Hr Hi Hw j u. cbn [co_workers]. rewrite length_insert. destruct (decide (i = j)) as [<-|Hne].
  - rewrite list_lookup_insert_eq by by eapply lookup_lt_Some. by intros [= <-].
  - rewrite list_lookup_insert_ne by done. apply Hr.
Qed.

Lemma Forall_submseteq {A} (Φ : A → Prop) l k : l ⊆+ k → Forall Φ k → Forall Φ l.
Proof. intros Hs. rewrite !Forall_forall. intros Hk x Hx. apply Hk. by apply (elem_of_submseteq l). Qed.

(** What an event must keep: the workers' invariant, the routing, and every span. *)
Definition safe_step (d : bool) c c' (l : list (Span P)) : Prop :=
  workers_ok c' ∧ routed c' ∧ length (co_workers c') = length (co_workers c) ∧
  flows d (everywhere c') (span_keys l ++ everywhere c).

Lemma safe_same d c c' :
  workers_ok c → routed c → (λ w, (w_incoming w, w_fromPeer w, w_cache w)) <$> co_workers c' =
    (λ w, (w_incoming w, w_fromPeer w, w_cache w)) <$> co_workers c →
  out (co_parent c') ≡ₚ out (co_parent c) → safe_step d c c' [].
Proof.
  intros Hok Hr Hw Ho.
  assert (Hlen : length (co_workers c') = length (co_workers c)) by (apply (f_equal length) in Hw; by rewrite !length_fmap in Hw).
  assert (Hi : ∀ i w', co_workers c' !! i = Some w' → ∃ w, co_workers c !! i = Some w ∧ held w' = held w ∧ w_cache w' = w_cache w).
  { intros i w' Hi. apply (f_equal (lookup i)) in Hw. rewrite !list_lookup_fmap, Hi in Hw. simpl in Hw.
    destruct (co_workers c !! i) as [w|]; [|done]. injection Hw as E1 E2 E3. exists w. unfold held. by rewrite E1, E2, E3. }
  split; [|split; [|split]].
  - apply Forall_lookup. intros i w' Hw'. destruct (Hi i w' Hw') as (w & Hw1 & _ & ->).
    unfold workers_ok in Hok. rewrite Forall_lookup in Hok. by eapply Hok.
  - intros i w' Hw'. destruct (Hi i w' Hw') as (w & Hw1 & -> & _). rewrite Hlen. by apply Hr.
  - done.
  - apply flows_perm. unfold everywhere. simpl. rewrite Ho. apply Permutation_app_tail.
    replace (held <$> co_workers c') with (held <$> co_workers c); [done|].
    transitivity ((λ x, span_keys x.1.1 ++ span_keys x.1.2 ++ cached_keys x.2) <$>
      ((λ w, (w_incoming w, w_fromPeer w, w_cache w)) <$> co_workers c)).
    + by rewrite <-list_fmap_compose.
    + rewrite <-Hw, <-list_fmap_compose. done.
Qed.
(** An event that touches one worker. *)
Lemma safe_one d c pa i w w' l :
  workers_ok c → routed c → co_workers c !! i = Some w → cache_ok (w_cache w') →
  held w' ⊆+ span_keys l ++ held w →
  Forall (λ sp, getWorkerIDForTrace (length (co_workers c)) (sp_TraceID sp) = Some i) l →
  flows d (held w' ++ out pa) (span_keys l ++ held w ++ out (co_parent c)) →
  safe_step d c (set_parent (set_workers c (<[i := w']> (co_workers c))) pa) l.
Proof.
  intros Hok Hr Hi Hw' Hh Hl Hf. split; [by apply workers_ok_insert|]. split; [|split].
  - apply (routed_insert c pa i w w'); [done|done|]. eapply Forall_submseteq; [exact Hh|].
    apply Forall_app. split; [|by apply Hr]. unfold span_keys. by apply Forall_fmap.
  - simpl. by rewrite length_insert.
  - by apply (worker_flow d c pa i w w').
Qed.

Lemma worker_of_length c id i : getWorkerIDForTrace (length (co_workers c)) id = Some i → (i < length (co_workers c))%nat.
Proof.
  unfold getWorkerIDForTrace. destruct (Nat.eqb_spec (length (co_workers c)) 0); [done|]. intros [= <-].
  pose proof (Z.mod_pos_bound (u64 (wyhash id 7215963184435617557)) (Z.of_nat (length (co_workers c)))). lia.
Qed.

Lemma add_to_safe d add c sp c' :
  workers_ok c → routed c →
  (∀ w w', add w sp = Added w' → held w' ≡ₚ span_key sp :: held w ∧ w_cache w' = w_cache w) →
  add_to add c sp = Some (Ok c') → safe_step d c c' [sp] ∧ co_parent c' = co_parent c.
Proof.
  intros Hok Hr Hadd. unfold add_to.
  destruct (getWorkerIDForTrace _ _) as [i|] eqn:Ei; [|done]. destruct (co_workers c !! i) as [w|] eqn:Ew; [|done].
  destruct (add w sp) as [w'| |] eqn:Ea; [|done..]. intros [= <-]. destruct (Hadd _ _ Ea) as [Hh Hc].
  split; [|done]. change (set_workers c _) with (set_parent (set_workers c (<[i := w']> (co_workers c))) (co_parent c)).
  apply (safe_one d c (co_parent c) i w w' [sp]); try done.
  - rewrite Hc. unfold workers_ok in Hok. rewrite Forall_lookup in Hok. by eapply Hok.
  - by rewrite Hh.
  - by repeat constructor.
  - apply flows_perm. rewrite Hh. simpl. solve_Permutation.
Qed.

Lemma addSpan_held b w sp w' : addSpan b w sp = Added w' → held w' ≡ₚ span_key sp :: held w ∧ w_cache w' = w_cache w.
Proof.
  unfold addSpan. destruct (_ <? _); [|by destruct b]. intros [= <-]. split; [|done].
  unfold held, span_keys. simpl. rewrite fmap_app. simpl. solve_Permutation.
Qed.
Lemma addSpanFromPeer_held b w sp w' :
  addSpanFromPeer b w sp = Added w' → held w' ≡ₚ span_key sp :: held w ∧ w_cache w' = w_cache w.
Proof.
  unfold addSpanFromPeer. destruct (_ <? _); [|by destruct b]. intros [= <-]. split; [|done].
  unfold held, span_keys. simpl. rewrite fmap_app. simpl. solve_Permutation.
Qed.

Lemma immediate_decision_worker now pa w sp w' sp' rate keep reason ops :
  immediate_decision now pa w sp = (w', sp', rate, keep, reason, ops) →
  w_incoming w' = w_incoming w ∧ w_fromPeer w' = w_fromPeer w ∧ w_cache w' = w_cache w ∧ span_key sp' = span_key sp.
Proof.
  unfold immediate_decision. destruct (CheckSpan now (w_sampleCache w) sp) as [[sc sp2] r] eqn:Er.
  apply CheckSpan_key in Er. destruct r as [[record rs]|]; [by intros [= <- <- _ _ _ _]|].
  destruct (Stress_GetSampleRate _ _) as [[rt k] rs]. destruct (SentCache_Record _ _ _ _ _) as [[sc' t'] o].
  by intros [= <- <- _ _ _ _].
Qed.

Lemma key_decorate pa sp rate reason : span_key (decorate_stressed pa sp rate reason) = span_key sp.
Proof.
  unfold decorate_stressed. rewrite key_merge, key_attributes, key_hostname. by case_match.
Qed.

Lemma immediate_safe now c sp c' sp' b keep :
  workers_ok c → routed c → ProcessSpanImmediately now c sp = Some (c', sp', b, keep) →
  safe_step false c c' [sp] ∧ b = true ∧ pa_Config (co_parent c') = pa_Config (co_parent c).
Proof.
  intros Hok Hr. unfold ProcessSpanImmediately.
  destruct (getWorkerIDForTrace _ _) as [i|] eqn:Ei; [|done]. destruct (co_workers c !! i) as [w|] eqn:Ew; [|done].
  destruct (immediate_decision now (co_parent c) w sp) as [[[[[w' sp2] rate] k] reason] ops] eqn:Ed.
  apply immediate_decision_worker in Ed as (E1 & E2 & E3 & E4).
  assert (Eh : held w' = held w) by (unfold held; by rewrite E1, E2, E3).
  assert (Hc : cache_ok (w_cache w')).
  { rewrite E3. unfold workers_ok in Hok. rewrite Forall_lookup in Hok. by eapply Hok. }
  assert (Hstep : ∀ pa, flows false (out pa) (span_key sp :: out (co_parent c)) →
    safe_step false c (set_parent (set_workers c (<[i := w']> (co_workers c))) pa) [sp]).
  { intros pa Hf. apply (safe_one false c pa i w w' [sp]); try done.
    - rewrite Eh. by apply submseteq_cons.
    - by repeat constructor.
    - rewrite Eh. simpl. rewrite Permutation_middle. apply flows_app; [by apply flows_perm|done]. }
  destruct k; intros [= <- <- <- <-]; (split; [|done]); apply Hstep; unfold out; simpl; rewrite ?app_nil_r.
  - apply flows_perm. unfold span_keys. rewrite fmap_app. simpl. rewrite key_decorate, E4. solve_Permutation.
  - split; [|done]. by apply submseteq_cons.
Qed.

Lemma collect_safe now rnd c i w it pa w' :
  workers_ok c → routed c → co_workers c !! i = Some w →
  collect_once elapsed peers now rnd (co_parent c) w it = Some (pa, w') →
  safe_step (dry (co_parent c)) c (set_parent (set_workers c (<[i := w']> (co_workers c))) pa) [] ∧
  dry pa = dry (co_parent c).
Proof.
  intros Hok Hr Hi E. assert (Hc : cache_ok (w_cache w)).
  { unfold workers_ok in Hok. rewrite Forall_lookup in Hok. by eapply Hok. }
  apply collect_once_flow in E as (F1 & F2 & F3 & F4); [|done]. split; [|by apply dry_main].
  by apply (safe_one (dry (co_parent c)) c pa i w w' []).
Qed.
(** The events that lose no span in dry run. *)
Definition keeps e : bool :=
  match e with EvImmediate _ _ => false | EvConfig cfg => GetIsDryRun cfg | _ => true end.

Lemma safe_weaken d c c' l : safe_step d c c' l → safe_step false c c' l.
Proof. intros (S1 & S2 & S3 & S4 & _). by split_and!. Qed.

Lemma sendTraces_out pa : out (sendTraces_step pa) ≡ₚ out pa ∧ pa_Config (sendTraces_step pa) = pa_Config pa.
Proof.
  destruct (pa_tracesToSend pa) as [|s rest] eqn:Eq; [unfold sendTraces_step; by rewrite Eq|].
  destruct (sendTraces_step_spec pa s rest Eq) as (l & L1 & L2 & L3 & L4). split; [|done].
  unfold out. rewrite L1, L2, Eq. cbn [fmap list_fmap concat].
  assert (El : span_keys l = trace_keys (st_Trace s)).
  { clear -L4. unfold trace_keys, span_keys. induction L4 as [|sp sp' l1 l2 (K & _) _ IH]; [done|]. cbn. by rewrite K, IH. }
  unfold span_keys at 1. rewrite fmap_app. fold (span_keys (pa_sent pa)). fold (span_keys l). rewrite El. solve_Permutation.
Qed.

Lemma step_safe c e c' :
  workers_ok c → routed c → step elapsed peers c e = Some c' →
  safe_step (dry (co_parent c) && keeps e) c c' (match accepted c e with Some sp => [sp] | None => [] end) ∧
  dry (co_parent c') = match e with EvConfig cfg => GetIsDryRun cfg | _ => dry (co_parent c) end.
Proof.
  intros Hok Hr. assert (Hidle : ∀ d, safe_step d c c []) by (intros d; by apply safe_same).
  destruct e as [sp fromPeer|now sp|i now rnd it| |now|alloc|cfg|]; cbn [step accepted keeps].
  - destruct (if fromPeer then AddSpanFromPeer c sp else AddSpan c sp) as [[c1|]|] eqn:E; intros [= <-]; [|done..].
    destruct fromPeer.
    + destruct (add_to_safe (dry (co_parent c) && true) _ c sp c1 Hok Hr (λ w w', addSpanFromPeer_held _ w sp w') E)
        as [E1 E2]. split; [exact E1|by rewrite E2].
    + destruct (add_to_safe (dry (co_parent c) && true) _ c sp c1 Hok Hr (λ w w', addSpan_held _ w sp w') E)
        as [E1 E2]. split; [exact E1|by rewrite E2].
  - destruct (ProcessSpanImmediately now c sp) as [[[[c1 sp'] b] k]|] eqn:E; [|done]. intros [= <-].
    apply immediate_safe in E as (E1 & _ & E2); [|done..]. rewrite andb_false_r. split; [done|]. unfold dry. by rewrite E2.
  - destruct (co_workers c !! i) as [w|] eqn:Ei; [|by intros [= <-]].
    destruct (collect_once _ _ _ _ _ _ _) as [[pa w']|] eqn:E; [|done]. intros [= <-].
    rewrite andb_true_r. by apply (collect_safe now rnd c i w it).
  - intros [= <-]. destruct (sendTraces_out (co_parent c)) as [E1 E2]. split; [by apply safe_same|]. unfold dry. simpl. by rewrite E2.
  - intros [= <-]. split; [|done]. apply safe_same; [done..| |].
    + cbn [monitor_tick fst co_workers]. by rewrite <-list_fmap_compose.
    + cbn [monitor_tick fst co_parent]. by rewrite out_emit.
  - unfold checkAlloc. destruct (_ || _).
    + intros [= <-]. split; [|done]. apply safe_same; try done. cbn [co_parent set_parent]. by rewrite out_emit.
    + destruct (co_workers _) eqn:Ew; [done|]. cbn [fmap option_fmap option_map fst]. intros [= <-]. split; [|done].
      apply safe_same; try done. cbn [co_parent set_parent]. by rewrite out_emit.
  - intros [= <-]. split; [|done]. by apply safe_same.
  - intros [= <-]. destruct (co_reload c); [|done]. split; [|done]. apply safe_same; [done..| |done].
    cbn [reloadConfigs co_workers]. by rewrite <-list_fmap_compose.
Qed.

Lemma run_safe events c acc c' acc' :
  workers_ok c → routed c → run elapsed peers c events acc = Some (c', acc') →
  ∃ l, acc' = l ++ acc ∧ safe_step (dry (co_parent c) && forallb keeps events) c c' l.
Proof.
  revert c acc. induction events as [|e events IH]; intros c acc Hok Hr; cbn [run forallb].
  { intros [= <- <-]. exists []. split; [done|]. by apply safe_same. }
  destruct (step _ _ c e) as [c1|] eqn:Es; [|done]. intros Hrun.
  apply step_safe in Es as ((S1 & S2 & S3 & S4) & Sd); [|done..].
  destruct (IH c1 _ S1 S2 Hrun) as (l & -> & R1 & R2 & R3 & R4).
  set (first := match accepted c e with Some sp => [sp] | None => [] end) in *.
  exists (l ++ first). split; [unfold first; destruct (accepted c e); by rewrite <-(assoc_L (++))|].
  split; [done|]. split; [done|]. split; [congruence|].
  assert (Hd : ∀ d, (d = true → dry (co_parent c) = true ∧ keeps e = true ∧ forallb keeps events = true) →
    flows d (everywhere c') (span_keys (l ++ first) ++ everywhere c)).
  { intros d Hd. assert (F1 : flows d (everywhere c1) (span_keys first ++ everywhere c)).
    { split; [apply S4|]. intros ->. apply S4. by destruct (Hd eq_refl) as (-> & -> & _). }
    assert (F2 : flows d (everywhere c') (span_keys l ++ everywhere c1)).
    { split; [apply R4|]. intros ->. apply R4. rewrite Sd. destruct (Hd eq_refl) as (Hdry & Hk & Hev).
      rewrite Hev, andb_true_r. destruct e; try done. }
    eapply flows_trans; [exact F2|]. unfold span_keys. rewrite fmap_app, <-(assoc_L (++)).
    by apply flows_app; [apply flows_perm|]. }
  apply Hd. intros Hb. apply andb_true_iff in Hb as [? Hb]. by apply andb_true_iff in Hb as [? ?].
Qed.

(** C1: no span is duplicated, and in dry run none is lost: however the goroutines interleave, the
    spans queued, cached, waiting to be sent and sent are among those that were there and those
    accepted since, each at most once; and they are exactly those as long as the configuration
    stays in dry run and no span is disposed of immediately under stress. *)
Theorem spans_conserved c events c' acc :
  workers_ok c → routed c → run elapsed peers c events [] = Some (c', acc) →
  everywhere c' ⊆+ span_keys acc ++ everywhere c ∧
  (GetIsDryRun (pa_Config (co_parent c)) = true → Forall (λ e, keeps e = true) events →
   everywhere c' ≡ₚ span_keys acc ++ everywhere c).
Proof.
  intros Hok Hr E. apply run_safe in E as (l & -> & _ & _ & _ & S1 & S2); [|done..]. rewrite app_nil_r.
  split; [done|]. intros Hd Hk. apply S2. unfold dry. rewrite Hd. apply forallb_forall. rewrite Forall_forall in Hk.
  intros e He. apply Hk. by apply list_elem_of_In.
Qed.

(** C17: the workers divide the traces between them: the assignment of IDs to workers is a total
    function of the ID, into the workers there are; and after any run, the spans of a trace held
    by the collector are all with the worker of its ID, each cached trace being unsent, holding
    spans of its own ID only, and pointing to a root span if it has one. *)
Theorem workers_divide_traces c events c' acc :
  workers_ok c → routed c → co_workers c ≠ [] → run elapsed peers c events [] = Some (c', acc) →
  (∀ id, ∃ i w, getWorkerIDForTrace (length (co_workers c')) id = Some i ∧ co_workers c' !! i = Some w) ∧
  (∀ i w k, co_workers c' !! i = Some w → k ∈ held w →
     getWorkerIDForTrace (length (co_workers c)) k.1.1.1.1.1.1 = Some i) ∧
  (∀ i w id t, co_workers c' !! i = Some w → ca_cache (w_cache w) !! id = Some t → trace_ok id t).
Proof.
  intros Hok Hr Hne E. apply run_safe in E as (l & -> & S1 & S2 & S3 & _); [|done..]. split_and!.
  - intros id. assert (Hlen : length (co_workers c') ≠ 0%nat) by (rewrite S3; by destruct (co_workers c)).
    destruct (getWorkerIDForTrace (length (co_workers c')) id) as [i|] eqn:Ei.
    + destruct (lookup_lt_is_Some_2 _ _ (worker_of_length c' id i Ei)) as [w Hw]. by exists i, w.
    + unfold getWorkerIDForTrace in Ei. destruct (Nat.eqb_spec (length (co_workers c')) 0); done.
  - intros i w k Hi Hk. specialize (S2 i w Hi). rewrite Forall_forall in S2. rewrite <-S3. by apply S2.
  - intros i w id t Hi Ht. unfold workers_ok in S1. rewrite Forall_lookup in S1. by apply (S1 i w Hi).
Qed.
End System.

(** ** Spans disposed of under stress *)

Section Immediate.
Context {D Q F L P : Type}.
Context `{GoWyhash, KPQ Q, GoCuckooLaws F, GoLRULaws L} `{!PayloadOps P}.
Implicit Types (pa : parent D P) (w : worker Q F L P) (sp : Span P) (now : Z).

(** What the worker finds of a trace decided immediately, after some operations on its cache. *)
Lemma immediate_found now pa w sp w' sp' rate keep reason ops between later sp2 :
  reached (P := P) (w_sampleCache w) → unknown (w_sampleCache w) (sp_TraceID sp) → hash_free (w_sampleCache w) reason →
  immediate_decision now pa w sp = (w', sp', rate, keep, reason, ops) →
  sp_TraceID sp2 = sp_TraceID sp → now ≤ later < now + recentTTL → Z.of_nat (length between) < 2 ^ 32 - 1 →
  Forall (λ op : sent_op, ∀ t, op_time op = Some t → now ≤ t ≤ later) between →
  (keep = true → left_alone (w_sampleCache w') (sp_TraceID sp) between) →
  (rate, keep, reason) = Stress_GetSampleRate (pa_StressRelief pa) (sp_TraceID sp) ∧
  ∃ record why, (CheckSpan later (sent_run (w_sampleCache w') between) sp2).2 = Some (record, why) ∧ Kept record = keep ∧
    (keep = true → Rate record = u32 rate ∧ why = reason ∧ Rec_DescendantCount record = asked (sp_TraceID sp) between + 1).
Proof.
  intros Hreach Hun Hfree Hi Hid Ht Hlen Htimes Hleft. unfold immediate_decision in Hi.
  destruct (CheckSpan_unknown (w_sampleCache w) now sp Hun) as [kept Hc].
  assert (Hreach' : reached (P := P) (CheckSpan now (w_sampleCache w) sp).1.1) by by apply (reached_look _ now sp).
  rewrite Hc in Hi, Hreach'. cbn [fst] in Hreach'. set (c := mkSent kept _ _ _ _) in *.
  destruct (Stress_GetSampleRate (pa_StressRelief pa) (sp_TraceID sp)) as [[rt k] rs].
  set (t := immediate_trace now sp rt) in *. destruct (SentCache_Record now c t k rs) as [[sc t'] o] eqn:Er.
  injection Hi as <- <- <- <- <- <-. split; [done|]. cbn [w_sampleCache w_set_sampleCache] in *.
  assert (Esc : sc = (SentCache_Record now c t k rs).1.1) by by rewrite Er. rewrite Esc in *. clear Er Esc.
  destruct Hun as (_ & Hd & Hr). destruct k.
  - specialize (Hleft eq_refl). destruct (kept_run c now t rs between) as (loc & e & Hrem & Ha & Erate & Ecount); try done.
    { change (length (tr_spans t)) with 0%nat. lia. }
    pose proof (asked_length (tr_TraceID t) between) as Hal. change (length (tr_spans t)) with 0%nat in Ecount.
    destruct (remembered_answer _ _ _ _ _ _ later sp2 Hrem) as (e' & -> & E1 & E2 & _); [|done|done|lia|].
    { destruct Hleft as (_ & _ & Hn). specialize (Hn (length between)). by rewrite firstn_all in Hn. }
    eexists _, _. split; [reflexivity|]. split; [done|]. intros _. cbn. rewrite E1, E2, Erate. split_and!; [done..|].
    rewrite Ecount. change (tr_TraceID t) with (sp_TraceID sp). lia.
  - exists DroppedRecord, "". split; [|done]. apply (known_dropped_answer _ (sp_TraceID sp) later); [|done|lia].
    apply known_dropped_run.
    + pose proof (Record_parts now c t false rs) as (_ & _ & _ & P4). destruct (reached_wf c Hreach') as (n & Hwf & _).
      assert (Httl : SetTTL.TTL (sn_recentDroppedIDs (w_sampleCache w)) = recentTTL) by apply (wf_ttl _ _ Hwf).
      unfold known_dropped. rewrite P4. split; [exact Httl|]. exists (now + recentTTL). split; [|lia].
      unfold SetTTL.Add. simpl. by rewrite Httl, lookup_insert_eq.
    + eapply Forall_impl; [exact Htimes|]. intros op Hop t1 Ht1. specialize (Hop t1 Ht1). lia.
Qed.

(** C35: under stress the first span of a trace decides for all of them.  Its disposal is the stress
    relief's, and the worker's cache remembers it: after any operations on that cache in the next
    three seconds (other spans, decisions, ticks of its monitor, changes of its size; which, if the
    trace was kept, decide nothing about it and do not fill the cache with others), a later span of
    the trace is disposed of alike: where it comes under stress again, with the same decision, rate
    and reason; where it is taken by the worker, which has no live trace of its ID, it goes out
    exactly when the trace was kept (or in dry run), and no trace is made of it.  The record counts
    the later spans only, not the span that made it. *)
Theorem immediate_decides_trace now pa w sp w' sp' rate keep reason ops between later pa2 w2 sp2 :
  reached (P := P) (w_sampleCache w) → unknown (w_sampleCache w) (sp_TraceID sp) → hash_free (w_sampleCache w) reason →
  immediate_decision now pa w sp = (w', sp', rate, keep, reason, ops) →
  sp_TraceID sp2 = sp_TraceID sp → now ≤ later < now + recentTTL → Z.of_nat (length between) < 2 ^ 32 - 1 →
  Forall (λ op : sent_op, ∀ t, op_time op = Some t → now ≤ t ≤ later) between →
  (keep = true → left_alone (w_sampleCache w') (sp_TraceID sp) between) →
  w_sampleCache w2 = sent_run (w_sampleCache w') between →
  (rate, keep, reason) = Stress_GetSampleRate (pa_StressRelief pa) (sp_TraceID sp) ∧
  (∃ record why, (CheckSpan later (w_sampleCache w2) sp2).2 = Some (record, why) ∧ Kept record = keep ∧
     (keep = true → Rate record = u32 rate ∧ why = reason ∧ Rec_DescendantCount record = asked (sp_TraceID sp) between + 1)) ∧
  (let '(_, _, rate2, keep2, reason2, _) := immediate_decision later pa2 w2 sp2 in
   keep2 = keep ∧ (keep = true → rate2 = u32 rate ∧ reason2 = reason)) ∧
  (ca_cache (w_cache w2) !! sp_TraceID sp2 = None →
   let '(pa3, w3) := processSpan later pa2 w2 sp2 in
   w_cache w3 = w_cache w2 ∧ pa_tracesToSend pa3 = pa_tracesToSend pa2 ∧
   span_keys (pa_sent pa3) = span_keys (pa_sent pa2) ++ (if keep || dry pa2 then [span_key sp2] else [])).
Proof.
  intros Hreach Hun Hfree Hi Hid Ht Hlen Htimes Hleft E2.
  destruct (immediate_found now pa w sp w' sp' rate keep reason ops between later sp2) as (Hs & record & why & Hf & Hk & Hr); try done.
  rewrite <-E2 in Hf. split; [done|]. split; [by exists record, why|].
  destruct (CheckSpan later (w_sampleCache w2) sp2) as [[sc sp3] r] eqn:Ec. cbn [snd] in Hf. subst r. split.
  - unfold immediate_decision. rewrite Ec. split; [done|]. intros Hkeep. by destruct (Hr Hkeep) as (? & ? & _).
  - intros Hn. unfold processSpan, Cache_Get. cbn [w_cache w_set_counters w_sampleCache]. rewrite Hn, Ec.
    pose proof (CheckSpan_key _ _ _ _ _ _ Ec) as Ek. split; [done|].
    destruct (dealWithSentTrace_flow (emit pa2 [] [MIncrement "trace_sent_cache_hit"]) record why sp3) as (_ & F2 & l & F3 & ->).
    split; [exact F2|]. rewrite F3, Hk, Ek. simpl. by rewrite app_nil_r.
Qed.
End Immediate.

(** ** A system of two workers *)

Module CollectorExamples.
Import WorkerExamples.
#[local] Open Scope nat_scope.

Definition system (dryRun : bool) : InMemCollector (Z * Z) (gmap string Z) (gset string) SentExamples.list_lru
    (gmap string value) := mkCollector (shared dryRun 4) [fresh; fresh] false false.

Lemma system_ok dryRun : workers_ok (system dryRun) ∧ routed (system dryRun).
Proof.
  split; [unfold workers_ok; constructor; [apply fresh_ok|constructor; [apply fresh_ok|constructor]]|]. intros i w Hi.
  assert (held w = []) as ->; [|constructor]. destruct i as [|[|i]]; cbn in Hi; [injection Hi as <-; done..|done].
Qed.

Definition events : list (@event (gmap string value)) :=
  [EvAdd (a_span "t1" true) false; EvAdd (a_span "t2" false) true; EvWorker 0 (nanos 1) (λ _ _, 0%Z) (Inner InIncoming);
   EvWorker 1 (nanos 1) (λ _ _, 0%Z) (Inner InIncoming); EvWorker 0 (nanos 5) (λ _ _, 0%Z) (Inner InTick);
   EvWorker 1 (nanos 5) (λ _ _, 0%Z) (Inner InTick); EvSendTrace].

Definition ran dryRun := run 0 None (system dryRun) events [].

(** One span queued or cached, the other sent: "t1", whose root has come. *)
Lemma ran_sent : (λ r, sp_TraceID <$> pa_sent (co_parent r.1)) <$> ran true = Some ["t1"].
Proof. by vm_compute. Qed.

Lemma spans_conserved_witness :
  ∃ c' acc, ran true = Some (c', acc) ∧ sp_TraceID <$> pa_sent (co_parent c') = ["t1"] ∧
    everywhere c' ≡ₚ span_keys acc ++ everywhere (system true).
Proof.
  pose proof ran_sent as Es. destruct (ran true) as [[c' acc]|] eqn:E; [|discriminate].
  exists c', acc. split; [reflexivity|]. split; [injection Es as Es; exact Es|].
  destruct (system_ok true) as [Hok Hr].
  refine (proj2 (spans_conserved 0 None (system true) events c' acc Hok Hr E) eq_refl _).
  repeat constructor.
Defined.

Lemma workers_divide_traces_witness :
  ∃ c' acc, ran true = Some (c', acc) ∧ sp_TraceID <$> pa_sent (co_parent c') = ["t1"] ∧
    ∀ i w k, co_workers c' !! i = Some w → k ∈ held w → getWorkerIDForTrace 2 k.1.1.1.1.1.1 = Some i.
Proof.
  pose proof ran_sent as Es. destruct (ran true) as [[c' acc]|] eqn:E; [|discriminate].
  exists c', acc. split; [reflexivity|]. split; [injection Es as Es; exact Es|].
  destruct (system_ok true) as [Hok Hr].
  refine (proj1 (proj2 (workers_divide_traces 0 None (system true) events c' acc Hok Hr _ E))). discriminate.
Defined.

Definition decided_t1 : sendableTrace (gmap string value) :=
  mkSendable (mkTrace "" "key" "dataset" "t1" "env" 5 true true 0 "" 0 0 None 0
    [a_span "t1" false; a_span "t1" false] 0 0 0 0) "reason" "trace_send_expired" "" true 5 "env".

Lemma sends_every_span_witness :
  let pa := set_outgoing (shared false 4) [decided_t1] in
  sp_SampleRate <$> pa_sent (sendTraces_step pa) = [5; 5]%Z ∧
  ∃ l, pa_sent (sendTraces_step pa) = l ∧ length l = 2.
Proof.
  split; [by vm_compute|].
  destruct (sends_every_span (set_outgoing (shared false 4) [decided_t1]) decided_t1 [] eq_refl) as (l & E & _ & Hl).
  exists l. split; [exact E|]. by apply Forall2_length in Hl.
Defined.

Definition stressed : parent (Z * Z) (gmap string value) :=
  set_stress (shared false 4) (UpdateFromConfig StressExamples.idle (StressExamples.relief 1)).

Definition new_worker : worker (gmap string Z) (gset string) SentExamples.list_lru (gmap string value) :=
  w_set_sampleCache fresh SentExamples.new_cache.
(** Another trace's span, one of this trace and a tick of the cache's monitor. *)
Definition meanwhile : list (sent_op (P := gmap string value)) :=
  [OpCheckSpan (nanos 2) (a_span "t8" false); OpCheckSpan (nanos 2) (a_span "t9" false); OpMonitor (nanos 3) 1 0].
Definition stress_run := immediate_decision (nanos 1) stressed new_worker (a_span "t9" false).

Lemma stress_run_alone : left_alone (w_sampleCache stress_run.1.1.1.1.1) "t9" meanwhile.
Proof.
  split_and!; [by apply (bool_decide_unpack _); vm_compute|repeat constructor|].
  intros k. do 3 (destruct k as [|k]; [by vm_compute|]). rewrite firstn_all2 by (cbn; lia). by vm_compute.
Qed.

Lemma immediate_decides_trace_witness :
  ∃ record why, (CheckSpan (nanos 3) (sent_run (w_sampleCache stress_run.1.1.1.1.1) meanwhile) (a_span "t9" true)).2 = Some (record, why) ∧
    Rec_DescendantCount record = 2%Z.
Proof.
  pose proof stress_run_alone as Halone. destruct stress_run as [[[[[w' sp'] rate] keep] reason] ops] eqn:E. cbn [fst snd] in Halone |- *.
  assert (Hk : (rate, keep, reason) = Stress_GetSampleRate (pa_StressRelief stressed) "t9").
  { assert (Eq : (λ d, (d.1.1.1.2, d.1.1.2, d.1.2)) stress_run = Stress_GetSampleRate (pa_StressRelief stressed) "t9") by by vm_compute.
    by rewrite E in Eq. }
  destruct (immediate_decides_trace (nanos 1) stressed new_worker (a_span "t9" false) w' sp' rate keep reason ops meanwhile (nanos 3)
    stressed (w_set_sampleCache new_worker (sent_run (w_sampleCache w') meanwhile)) (a_span "t9" true))
    as (_ & (record & why & Ec & _ & Hr) & _).
  - exact SentExamples.new_reached.
  - split; [done|split; [by vm_compute|by vm_compute]].
  - intros r Hin. by apply elem_of_nil in Hin.
  - exact E.
  - reflexivity.
  - vm_compute. by split.
  - by vm_compute.
  - repeat (apply Forall_cons; split; [intros t Ht; injection Ht as <-; by vm_compute|]). by apply Forall_nil.
  - intros _. exact Halone.
  - reflexivity.
  - exists record, why. split; [exact Ec|]. apply Hr. by injection Hk.
Defined.
End CollectorExamples.
