(* ===== verification/Sharder.v ===== *)
(** sharder/: which node of the cluster a trace belongs to.

    deterministic.go is [DeterministicSharder], single.go [SingleServerSharder], the interface of
    sharder.go the class [Sharder].  What GetPeers and GetInstanceID answer is an argument.
    sort.Slice is an insertion-stable sort here: the two sorts run on the same input on every node
    and give the same result on all of them. *)
From S2P Require Import Prelude Generics TraceKey.

(** ** The interface *)

Inductive Shard := DetShard (address : string) | SingleShard.

Definition Shard_Equals (s other : Shard) : bool :=
  match s, other with
  | DetShard a, DetShard b => String.eqb a b
  | DetShard _, SingleShard => false
  | SingleShard, _ => true
  end.

Definition GetAddress (s : Shard) : string := match s with DetShard a => a | SingleShard => "http://self" end.

(** [WhichShard] of a sharder that has no peer yet panics. *)
Class Sharder (T : Type) := { MyShard : T → Shard; WhichShard : T → string → option Shard }.

(** collect.go: the shard of a trace, and whether it is this node's. *)
Definition IsMyTrace `{Sharder T} (s : T) (traceID : string) : option (Shard * bool) :=
  (λ target, (target, Shard_Equals (MyShard s) target)) <$> WhichShard s traceID.

#[export] Instance SingleServerSharder : Sharder unit :=
  {| MyShard := λ _, SingleShard; WhichShard := λ _ _, Some SingleShard |}.

(** ** DeterministicSharder *)

Record hashShard := mkHash { hs_uhash : Z; hs_shardIndex : nat }.

Definition hash_le (a b : hashShard) : Prop := hs_uhash a ≤ hs_uhash b.
#[export] Instance hash_le_dec : RelDecision hash_le.
Proof. intros a b. unfold hash_le. apply _. Defined.

Record DeterministicSharder := mkSharder { d_myShard : string; d_peers : list string; d_hashes : list hashShard }.

Section Det.
Context `{GoWyhash}.
Implicit Types (d : DeterministicSharder) (peers : list string).

Definition peerSeed : Z := 6789531204236.
Definition partitionCount : nat := 50.

(** [n] hashes of the address, each with the next seed. *)
Fixpoint GetHashesFor (addr : string) (index n : nat) (seed : Z) : list hashShard :=
  match n with
  | O => []
  | S n => mkHash (u64 (wyhash addr seed)) index :: GetHashesFor addr index n (u64 (wyhash "anything" seed))
  end.

Definition partitionsPerPeer (n : nat) : nat := (partitionCount / n + 1)%nat.

Definition build_hashes peers : list hashShard :=
  merge_sort hash_le (concat (imap (λ ix p, GetHashesFor p ix (partitionsPerPeer (length peers)) peerSeed) peers)).

(** [GetPeers] answered [peerList]. *)
Definition loadPeerList d (peerList : res (list string)) : res DeterministicSharder :=
  match peerList with
  | Err e => Err ("failed to get peer list config: " +:+ e)
  | Ok [] => Err "refusing to load empty peer list"
  | Ok l =>
      let newPeers := sort_strings l in
      let hashes := build_hashes newPeers in
      if bool_decide (d_peers d = newPeers) then Ok d else Ok (mkSharder (d_myShard d) newPeers hashes)
  end.

(** A failed load is logged and changes nothing. *)
Definition reload d (peerList : res (list string)) : DeterministicSharder :=
  match loadPeerList d peerList with Ok d' => d' | Err _ => d end.

(** The attempts to find oneself, one per answer of GetInstanceID. *)
Fixpoint find_self d (answers : list (res string)) : res DeterministicSharder :=
  match answers with
  | [] => Err "failed to find self in the peer list"
  | Ok self :: answers =>
      if bool_decide (self ∈ d_peers d) then Ok (mkSharder self (d_peers d) (d_hashes d)) else find_self d answers
  | Err _ :: answers => find_self d answers
  end.

Definition Sharder_Start (peerList : res (list string)) (answers : list (res string)) : res DeterministicSharder :=
  find_self (reload (mkSharder "" [] []) peerList) (take 5 answers).

(** One partition of the loop: the highest hash so far and its shard. *)
Definition best_step (traceID : string) (acc : Z * nat) (hash : hashShard) : Z * nat :=
  let h := u64 (wyhash traceID (hs_uhash hash)) in
  if acc.1 <? h then (h, hs_shardIndex hash) else acc.

Definition det_WhichShard d (traceID : string) : option Shard :=
  DetShard <$> d_peers d !! (foldl (best_step traceID) (0, 0%nat) (d_hashes d)).2.

#[export] Instance det_Sharder : Sharder DeterministicSharder :=
  {| MyShard := λ d, DetShard (d_myShard d); WhichShard := det_WhichShard |}.

(** ** Which shard *)


Definition hash_of (traceID : string) (x : hashShard) : Z := u64 (wyhash traceID (hs_uhash x)).

Lemma best_spec traceID (l : list hashShard) m ix :
  0 ≤ m →
  let '(m', ix') := foldl (best_step traceID) (m, ix) l in
  m ≤ m' ∧ Forall (λ x, hash_of traceID x ≤ m') l ∧
  ((m', ix') = (m, ix) ∨ ∃ x, x ∈ l ∧ hash_of traceID x = m' ∧ hs_shardIndex x = ix').
Proof.
  revert m ix. induction l as [|x l IH]; intros m ix Hm; cbn [foldl]; [by split_and!; try constructor|].
  unfold best_step at 2. cbn [fst]. fold (hash_of traceID x).
  destruct (Z.ltb_spec m (hash_of traceID x)) as [Hlt|Hge].
  - specialize (IH (hash_of traceID x) (hs_shardIndex x) ltac:(lia)). destruct (foldl _ _ l) as [m' ix'].
    destruct IH as (I1 & I2 & I3). split; [lia|]. split; [by constructor|]. right.
    destruct I3 as [[= -> ->]|(y & Hy & E)]; [exists x; split_and!; [left|done|done]|exists y; split; [by right|done]].
  - specialize (IH m ix Hm). destruct (foldl _ _ l) as [m' ix']. destruct IH as (I1 & I2 & I3).
    split; [done|]. split; [constructor; [lia|done]|].
    destruct I3 as [?|(y & Hy & E)]; [by left|right; exists y; split; [by right|done]].
Qed.

(** The seeds of a peer's partitions, and what a trace hashes to in the best of them. *)
Definition partition_hashes (n : nat) (p : string) : list Z := hs_uhash <$> GetHashesFor p 0 n peerSeed.
Definition weight (traceID : string) (n : nat) (p : string) : Z :=
  foldr Z.max 0 ((λ h, u64 (wyhash traceID h)) <$> partition_hashes n p).

Lemma GetHashesFor_index p ix n seed x : x ∈ GetHashesFor p ix n seed → hs_shardIndex x = ix.
Proof.
  revert seed. induction n as [|n IH]; intros seed; simpl; [by intros ?%elem_of_nil|].
  intros [->|Hx]%elem_of_cons; [done|by eapply IH].
Qed.

Lemma GetHashesFor_uhash p i j n seed : hs_uhash <$> GetHashesFor p i n seed = hs_uhash <$> GetHashesFor p j n seed.
Proof. revert seed. induction n as [|n IH]; intros seed; [done|]. cbn. f_equal. apply IH. Qed.

Lemma weight_upper traceID n p h : h ∈ partition_hashes n p → u64 (wyhash traceID h) ≤ weight traceID n p.
Proof.
  unfold weight. induction (partition_hashes n p) as [|x l IH]; [by intros ?%elem_of_nil|]. cbn.
  intros [->|Hh]%elem_of_cons; [lia|]. specialize (IH Hh). lia.
Qed.

Lemma weight_attained traceID n p :
  weight traceID n p = 0 ∨ ∃ h, h ∈ partition_hashes n p ∧ u64 (wyhash traceID h) = weight traceID n p.
Proof.
  unfold weight. induction (partition_hashes n p) as [|x l IH]; [by left|]. cbn.
  destruct (Z.max_spec (u64 (wyhash traceID x)) (foldr Z.max 0 ((λ h, u64 (wyhash traceID h)) <$> l))) as [[Hlt ->]|[Hge ->]].
  - destruct IH as [->|(h & Hh & E)]; [by left|right; exists h; split; [by right|done]].
  - right. exists x. split; [by left|done].
Qed.

Lemma weight_nonneg traceID n p : 0 ≤ weight traceID n p.
Proof. unfold weight. induction (_ <$> _) as [|x l IH]; simpl; lia. Qed.

(** The partitions of a list of peers are those of its peers. *)
Lemma build_hashes_elem peers x :
  x ∈ build_hashes peers ↔
  ∃ ix p, peers !! ix = Some p ∧ hs_shardIndex x = ix ∧ hs_uhash x ∈ partition_hashes (partitionsPerPeer (length peers)) p.
Proof.
  unfold build_hashes, partition_hashes. rewrite merge_sort_Permutation. split.
  - intros (l & Hx & Hl)%elem_of_concat. apply elem_of_lookup_imap_1 in Hl as (ix & p & -> & Hp).
    exists ix, p. split; [done|]. split; [by eapply GetHashesFor_index|].
    rewrite (GetHashesFor_uhash p 0 ix). by apply list_elem_of_fmap_2.
  - intros (ix & p & Hp & Hi & Hu). apply elem_of_concat.
    exists (GetHashesFor p ix (partitionsPerPeer (length peers)) peerSeed). split.
    + rewrite (GetHashesFor_uhash p 0 ix) in Hu. apply list_elem_of_fmap in Hu as (y & E & Hy).
      assert (x = y) as ->; [|done]. apply GetHashesFor_index in Hy as Hyi.
      destruct x, y; simpl in *; congruence.
    + apply (elem_of_lookup_imap_2 (λ ix p, GetHashesFor p ix (partitionsPerPeer (length peers)) peerSeed) peers p ix Hp).
Qed.

Lemma WhichShard_max d traceID :
  d_peers d ≠ [] → d_hashes d = build_hashes (d_peers d) →
  let n := partitionsPerPeer (length (d_peers d)) in
  ∃ p, det_WhichShard d traceID = Some (DetShard p) ∧ p ∈ d_peers d ∧
    ∀ q, q ∈ d_peers d → weight traceID n q ≤ weight traceID n p.
Proof.
  intros Hne Hh. cbn zeta. unfold det_WhichShard. rewrite Hh.
  pose proof (best_spec traceID (build_hashes (d_peers d)) 0 0%nat ltac:(lia)) as Hb.
  destruct (foldl _ _ _) as [m ix]. destruct Hb as (Hm & Hall & Hix). cbn [snd]. rewrite Forall_forall in Hall.
  assert (Hup : ∀ q, q ∈ d_peers d → weight traceID (partitionsPerPeer (length (d_peers d))) q ≤ m).
  { intros q (i & Hq)%list_elem_of_lookup.
    destruct (weight_attained traceID (partitionsPerPeer (length (d_peers d))) q) as [->|(h & Hin & <-)]; [done|].
    apply (Hall (mkHash h i)). apply build_hashes_elem. by exists i, q. }
  destruct Hix as [[= -> ->]|(x & Hx & Ex & Ei)].
  - destruct (d_peers d) as [|p l] eqn:Ep; [done|]. exists p. split; [done|]. split; [by left|].
    intros q Hq. transitivity 0; [by apply Hup|apply weight_nonneg].
  - apply build_hashes_elem in Hx as (i & p & Hp & Hi & Hu). rewrite <-Ei, Hi, Hp. exists p. split; [done|].
    split; [by eapply list_elem_of_lookup_2|]. intros q Hq. rewrite (Hup q Hq), <-Ex. by apply weight_upper.
Qed.

(** The hashes are those of the peers: so after any sequence of loads, from the empty sharder on. *)
Definition sharder_wf d : Prop := d_peers d = [] ∧ d_hashes d = [] ∨ d_hashes d = build_hashes (d_peers d).

Lemma reload_wf d peerList : sharder_wf d → sharder_wf (reload d peerList).
Proof.
  intros Hwf. unfold reload, loadPeerList. destruct peerList as [[|p l]|e]; [done| |done].
  case_bool_decide; [done|]. by right.
Qed.

Lemma reload_peers d peerList l :
  sharder_wf d → peerList = Ok l → l ≠ [] →
  d_peers (reload d peerList) = sort_strings l ∧ d_hashes (reload d peerList) = build_hashes (sort_strings l).
Proof.
  intros Hwf -> Hl. unfold reload, loadPeerList. destruct l as [|p l]; [done|]. case_bool_decide as E; [|done].
  split; [done|]. destruct Hwf as [[Hp _]|Hh]; [|by rewrite Hh, E].
  exfalso. rewrite Hp in E. symmetry in E. pose proof (sort_strings_perm (p :: l)) as Hperm. rewrite E in Hperm.
  by apply Permutation_nil_cons in Hperm.
Qed.

(** What is loaded last decides, whatever its order. *)
Lemma reload_agree d1 d2 l1 l2 traceID :
  sharder_wf d1 → sharder_wf d2 → l1 ≡ₚ l2 → l1 ≠ [] →
  WhichShard (reload d1 (Ok l1)) traceID = WhichShard (reload d2 (Ok l2)) traceID.
Proof.
  intros W1 W2 Hperm Hne. assert (Hne2 : l2 ≠ []) by (intros ->; by apply Permutation_sym, Permutation_nil in Hperm).
  cbn [WhichShard det_Sharder]. unfold det_WhichShard.
  destruct (reload_peers d1 (Ok l1) l1 W1 eq_refl Hne) as [-> ->].
  destruct (reload_peers d2 (Ok l2) l2 W2 eq_refl Hne2) as [-> ->]. by rewrite (sort_strings_unique l1 l2).
Qed.

(** And the peer chosen is one of them. *)
Lemma reload_best d l traceID :
  sharder_wf d → l ≠ [] →
  ∃ p, WhichShard (reload d (Ok l)) traceID = Some (DetShard p) ∧ p ∈ l ∧
    ∀ q, q ∈ l → weight traceID (partitionsPerPeer (length l)) q ≤ weight traceID (partitionsPerPeer (length l)) p.
Proof.
  intros Hd Hl. destruct (reload_peers d (Ok l) l Hd eq_refl Hl) as [Ep Eh].
  destruct (WhichShard_max (reload d (Ok l)) traceID) as (p & E & Hin & Hmax).
  - rewrite Ep. intros E. pose proof (sort_strings_perm l) as Hp. rewrite E in Hp. by apply Permutation_nil in Hp.
  - by rewrite Eh, Ep.
  - rewrite Ep, sort_strings_perm in Hin. exists p. split; [done|]. split; [done|].
    intros q Hq. rewrite Ep in Hmax. rewrite (Permutation_length (sort_strings_perm l)) in Hmax.
    apply Hmax. by rewrite sort_strings_perm.
Qed.

(** C9: the nodes of a cluster agree on the shard of every trace: whatever lists each has loaded
    before, once each has last loaded the same peers, in whatever order, all choose the same
    peer; it is one of the peers, the one of the highest hash over its partitions.  When a peer
    leaves (and the number of partitions of a peer stays), a trace whose highest hash is not the
    leaver's stays where it is. *)
Theorem shard_agreement d1 d2 l1 l2 traceID :
  sharder_wf d1 → sharder_wf d2 → l1 ≡ₚ l2 → l1 ≠ [] →
  let n := partitionsPerPeer (length l1) in
  ∃ p, WhichShard (reload d1 (Ok l1)) traceID = Some (DetShard p) ∧
    WhichShard (reload d2 (Ok l2)) traceID = Some (DetShard p) ∧
    p ∈ l1 ∧ (∀ q, q ∈ l1 → weight traceID n q ≤ weight traceID n p) ∧
    (∀ l3 d3, sharder_wf d3 → l3 ⊆ l1 → p ∈ l3 → partitionsPerPeer (length l3) = n →
       (∀ q, q ∈ l1 → weight traceID n q = weight traceID n p → q = p) →
       WhichShard (reload d3 (Ok l3)) traceID = Some (DetShard p)).
Proof.
  intros W1 W2 Hperm Hne. cbn zeta. destruct (reload_best d1 l1 traceID W1 Hne) as (p & E1 & Hin & Hmax).
  exists p. split_and!; try done; [by rewrite <-E1; symmetry; apply reload_agree|].
  intros l3 d3 W3 Hsub Hp Hn Huniq.
  destruct (reload_best d3 l3 traceID W3 ltac:(by intros ->; apply elem_of_nil in Hp)) as (q & E3 & Hq & Hmax3).
  rewrite E3. do 2 f_equal. apply Huniq; [by apply Hsub|].
  rewrite Hn in Hmax3. specialize (Hmax3 p Hp). specialize (Hmax q (Hsub q Hq)). lia.
Qed.
End Det.

Module SharderExamples.
#[local] Existing Instance TraceKeyExamples.encode_hash.

Definition nodes : list string := ["b"; "a"; "c"].

Lemma shard_agreement_witness :
  ∃ p, WhichShard (reload (mkSharder "" [] []) (Ok nodes)) "t1" = Some (DetShard p) ∧
    WhichShard (reload (mkSharder "" ["x"] (build_hashes ["x"])) (Ok ["c"; "b"; "a"])) "t1" = Some (DetShard p).
Proof.
  destruct (shard_agreement (mkSharder "" [] []) (mkSharder "" ["x"] (build_hashes ["x"])) nodes ["c"; "b"; "a"] "t1")
    as (p & E1 & E2 & _).
  - by left.
  - by right.
  - by apply (bool_decide_unpack _); vm_compute.
  - discriminate.
  - exists p. split; [exact E1|exact E2].
Defined.
End SharderExamples.
