(* ===== verification/Peers.v ===== *)
(** internal/peer: who is in the cluster; pubsub/pubsub_local.go: the messages of a node alone;
    internal/configwatcher: news of a change of the configuration.

    A callback is the number it was registered under, and what a function returns includes the
    callbacks it starts.  Time is what the clock of the map reads when a function is called.  The
    host's names and addresses are what [GoNet] gives. *)
From Stdlib Require Import SpecFloat Ascii.
From S2P Require Import Prelude GoValue Generics Metrics TraceKey Sharder.

(** ** pubsub/pubsub_local.go *)

Module LocalPubSub.
Section local.
Context {C : Type}.

(** A subscription is a pointer: its place in [ps_subs]; its callback is nil once it is closed. *)
Record LocalPubSub := mk { ps_topics : gmap string (list nat); ps_subs : list (option C) }.
Implicit Types ps : LocalPubSub.

Definition Start : LocalPubSub := mk ∅ [].

Definition ensureTopic ps (topic : string) : LocalPubSub :=
  match ps_topics ps !! topic with Some _ => ps | None => mk (<[topic := []]> (ps_topics ps)) (ps_subs ps) end.

Definition FormatTopic (topic : string) : string := topic.

Definition Subscribe ps (topic : string) (callback : C) : LocalPubSub * nat :=
  let ps := ensureTopic ps topic in
  let sub := length (ps_subs ps) in
  (mk (<[topic := (default [] (ps_topics ps !! topic) ++ [sub])%list]> (ps_topics ps)) (ps_subs ps ++ [Some callback]), sub).

Definition callback_of ps (sub : nat) : option C := match ps_subs ps !! sub with Some cb => cb | None => None end.

(** The callbacks started, in this order. *)
Definition Publish ps (topic : string) : LocalPubSub * list C * list metric_op :=
  let ps := ensureTopic ps topic in
  let subs := default [] (ps_topics ps !! topic) in
  (ps, omap (callback_of ps) subs,
   [MCount "local_pubsub_published" 1; MCount "local_pubsub_received" (Z.of_nat (length subs))]).

(** [Close] of a subscription of the topic. *)
Definition Subscription_Close ps (topic : string) (sub : nat) : LocalPubSub :=
  if bool_decide (sub ∈ default [] (ps_topics ps !! topic)) then mk (ps_topics ps) (<[sub := None]> (ps_subs ps)) else ps.

Definition Close ps : LocalPubSub :=
  mk ∅ (foldl (λ l sub, <[sub := None]> l) (ps_subs ps) (concat (map_to_list (ps_topics ps)).*2)).

(** Every subscription is under one topic, and is one of [ps_subs]. *)
Definition pubsub_wf ps : Prop := ∀ topic subs sub, ps_topics ps !! topic = Some subs → sub ∈ subs → (sub < length (ps_subs ps))%nat.

(** A message reaches the open subscriptions of its topic, in the order of subscription, and the
    new one from then on. *)
Lemma Subscribe_delivers ps topic cb topic' :
  pubsub_wf ps →
  let '(ps', sub) := Subscribe ps topic cb in
  pubsub_wf ps' ∧ (Publish ps' topic').1.2 = (Publish ps topic').1.2 ++ (if decide (topic' = topic) then [cb] else []).
Proof.
  intros Hwf. unfold Subscribe.
  assert (Hens : ∀ t, default [] (ps_topics (ensureTopic ps t) !! t) = default [] (ps_topics ps !! t) ∧
    ps_subs (ensureTopic ps t) = ps_subs ps ∧
    ∀ t', default [] (ps_topics (ensureTopic ps t) !! t') = default [] (ps_topics ps !! t')).
  { intros t. unfold ensureTopic. destruct (ps_topics ps !! t) as [l|] eqn:E; [by rewrite E|]. cbn [ps_topics ps_subs].
    rewrite lookup_insert_eq. split_and!; [done..|]. intros t'. destruct (decide (t' = t)) as [->|Hne].
    - by rewrite lookup_insert_eq, E.
    - by rewrite lookup_insert_ne. }
  destruct (Hens topic) as (E1 & E2 & E3). rewrite E1, E2. set (ps' := mk _ _).
  assert (Hold : ∀ l, Forall (λ sub, (sub < length (ps_subs ps))%nat) l → omap (callback_of ps') l = omap (callback_of ps) l).
  { intros l Hl. apply list_omap_ext, Forall_Forall2_diag. eapply Forall_impl; [exact Hl|]. intros sub Hlt.
    unfold callback_of, ps'. cbn [ps_subs]. by rewrite lookup_app_l. }
  assert (Hlen : ∀ t, Forall (λ sub, (sub < length (ps_subs ps))%nat) (default [] (ps_topics ps !! t))).
  { intros t. apply Forall_forall. intros sub Hin. destruct (ps_topics ps !! t) as [l|] eqn:E; [|by apply elem_of_nil in Hin].
    by eapply Hwf. }
  assert (Hpub : ∀ q t, (Publish q t).1.2 = omap (callback_of q) (default [] (ps_topics q !! t))).
  { intros q t. unfold Publish, ensureTopic. cbn [fst snd]. destruct (ps_topics q !! t) as [l|] eqn:E; [by rewrite E|].
    cbn [ps_topics]. by rewrite lookup_insert_eq. }
  split.
  - intros t subs sub. unfold ps'. cbn [ps_topics ps_subs]. rewrite length_app. cbn [length].
    destruct (decide (t = topic)) as [->|Hne].
    + rewrite lookup_insert_eq. intros [= <-]. rewrite elem_of_app, list_elem_of_singleton.
      intros [Hin| ->]; [|lia]. specialize (Hlen topic). rewrite Forall_forall in Hlen. specialize (Hlen sub Hin). lia.
    + rewrite lookup_insert_ne by done. intros Ht Hin. specialize (E3 t). rewrite Ht in E3. cbn in E3. subst subs.
      specialize (Hlen t). rewrite Forall_forall in Hlen. specialize (Hlen sub Hin). lia.
  - rewrite !Hpub. unfold ps' at 2. cbn [ps_topics]. destruct (decide (topic' = topic)) as [->|Hne].
    + rewrite lookup_insert_eq. cbn [default id]. rewrite omap_app, Hold by apply Hlen. f_equal.
      cbn [omap list_omap]. unfold callback_of, ps'. cbn [ps_subs]. by rewrite lookup_app_r, Nat.sub_diag by lia.
    + rewrite lookup_insert_ne by done. rewrite E3, Hold by apply Hlen. by rewrite app_nil_r.
Qed.
End local.
End LocalPubSub.

(** ** internal/peer/peers.go: the address of this node *)

(** An address as [net.ParseIP] reads it: whether it is an IPv4 address, and how it prints. *)
Class GoNet := {
  SplitHostPort : string → res (string * string);
  Hostname : string;
  InterfaceAddrs : string → res (list string);
  ParseIP : string → bool * string;
}.

Record peerConfig := mkPeerConfig {
  pc_PeerListenAddr : string; pc_RedisIdentifier : string; pc_IdentifierInterfaceName : string;
  pc_UseIPV6Identifier : bool; pc_Peers : list string }.

Section Addr.
Context `{!GoNet}.

(** strings.Split(addr, "/")[0]. *)
Definition before_slash (s : string) : string :=
  match index_char "/" s with Some i => str_take i s | None => s end.

Fixpoint selectIPFromAddrs (addrs : list string) (useIPV6 : bool) : string :=
  match addrs with
  | [] => ""
  | addr :: addrs =>
      let '(is4, ip) := ParseIP (before_slash addr) in
      if useIPV6 && negb is4 then "[" +:+ ip +:+ "]"
      else if negb useIPV6 && is4 then ip
      else selectIPFromAddrs addrs useIPV6
  end.

Definition getIdentifierFromInterface (c : peerConfig) : res string :=
  if String.eqb (pc_IdentifierInterfaceName c) "" then Ok Hostname
  else
    let! addrs := InterfaceAddrs (pc_IdentifierInterfaceName c) in
    let ipStr := selectIPFromAddrs addrs (pc_UseIPV6Identifier c) in
    if String.eqb ipStr "" then Err "could not find a valid IP to use from interface" else Ok ipStr.

Definition publicAddr (c : peerConfig) : res string :=
  let! (_, port) := SplitHostPort (pc_PeerListenAddr c) in
  let! myIdentifier :=
    if String.eqb (pc_RedisIdentifier c) "" then getIdentifierFromInterface c else Ok (pc_RedisIdentifier c) in
  Ok ("http://" +:+ myIdentifier +:+ ":" +:+ port).

(** ** internal/peer/file.go *)

Definition file_GetPeers (c : peerConfig) : res (list string) :=
  let! addr := publicAddr c in Ok (pc_Peers c ++ [addr])%list.
End Addr.

(** ** internal/peer/pubsub_redis.go *)

Inductive peerAction := Register | Unregister.
#[export] Instance peerAction_eq_dec : EqDecision peerAction.
Proof. solve_decision. Defined.

Record peerCommand := mkCommand { pc_action : peerAction; pc_id : string; pc_address : string }.

Definition action_string (a : peerAction) : string := match a with Register => "R" | Unregister => "U" end.

Definition marshal (p : peerCommand) : string :=
  action_string (pc_action p) +:+ pc_address p +:+ "," +:+ pc_id p.

Definition unmarshal (msg : string) : option peerCommand :=
  match index_char "," msg with
  | None => None
  | Some idx =>
      if (String.length msg <? 2)%nat then None
      else
        let msgData := str_drop 1 msg in
        let command a := mkCommand a (str_drop idx msgData) (str_take (idx - 1) msgData) in
        let action := str_take 1 msg in
        if String.eqb action "R" then Some (command Register)
        else if String.eqb action "U" then Some (command Unregister)
        else None
  end.

Definition PeerEntryTimeout : Z := 10 * 10 ^ 9.

Record RedisPubsubPeers := mkPeers {
  pp_peers : MapTTL.t (K := string) (V := string);
  pp_hash : Z;
  pp_callbacks : list nat }.
Implicit Types p : RedisPubsubPeers.

Section Redis.
Context `{!GoWyhash, !GoNet}.

Definition hashList (l : list string) : Z := foldl (λ h s, u64 (wyhash s h)) 255798297204 l.

(** The peers, the callbacks started, and the calls of the metrics. *)
Definition checkHash (now : Z) p : RedisPubsubPeers * list nat * list metric_op :=
  let '(m, peers) := MapTTL.SortedKeys str_le now (pp_peers p) in
  let newhash := hashList peers in
  (mkPeers m newhash (pp_callbacks p), if newhash =? pp_hash p then [] else pp_callbacks p,
   [MGauge "num_peers" (f64_of_Z (Z.of_nat (length peers))); MGauge "peer_hash" (f64_of_Z newhash)]).

Definition apply_command (now : Z) (cmd : peerCommand) (m : MapTTL.t (K := string) (V := string)) :=
  match pc_action cmd with
  | Unregister => MapTTL.Delete m (pc_id cmd)
  | Register => MapTTL.Set_ now m (pc_id cmd) (pc_address cmd)
  end.

Definition listen (now : Z) p (msg : string) : RedisPubsubPeers * list nat * list metric_op :=
  match unmarshal msg with
  | None => (p, [], [])
  | Some cmd =>
      let '(p, calls, ops) :=
        checkHash now (mkPeers (apply_command now cmd (pp_peers p)) (pp_hash p) (pp_callbacks p)) in
      (p, calls, MCount "peer_messages" 1 :: ops)
  end.

(** The state [Start] leaves: no callbacks, and the node itself. *)
Definition peers_Start (now : Z) (c : peerConfig) (InstanceID : string) : res RedisPubsubPeers :=
  let! myaddr := publicAddr c in
  Ok (mkPeers (MapTTL.Set_ now (MapTTL.NewMapWithTTL now PeerEntryTimeout ∅) InstanceID myaddr) 0 []).

(** What a tick of [Ready] and [stop] publish. *)
Definition register_message (c : peerConfig) (InstanceID : string) : res string :=
  let! myaddr := publicAddr c in Ok (marshal (mkCommand Register InstanceID myaddr)).
Definition stop_message (c : peerConfig) (InstanceID : string) : res string :=
  let! myaddr := publicAddr c in Ok (marshal (mkCommand Unregister InstanceID myaddr)).

Definition GetPeers (now : Z) (c : peerConfig) p : RedisPubsubPeers * res (list string) :=
  let '(m, peers) := MapTTL.SortedValues str_le "" now (pp_peers p) in
  (mkPeers m (pp_hash p) (pp_callbacks p),
   match peers with [] => let! myaddr := publicAddr c in Ok [myaddr] | _ => Ok peers end).

Definition GetInstanceID (c : peerConfig) : res string := publicAddr c.

Definition RegisterUpdatedPeersCallback p (callback : nat) : RedisPubsubPeers :=
  mkPeers (pp_peers p) (pp_hash p) (pp_callbacks p ++ [callback]).
End Redis.

(** ** Commands *)

(** A command crosses the wire.  What a node publishes to register or unregister, the nodes
    that hear of it parse back to the same action, ID and address, if the address has no comma. *)
Theorem peer_command_roundtrip cmd :
  str_forallb (λ c, negb (Ascii.eqb "," c)) (pc_address cmd) = true → unmarshal (marshal cmd) = Some cmd.
Proof.
  destruct cmd as [a id addr]. cbn [pc_address]. intros Hc. unfold unmarshal, marshal. cbn [pc_action pc_id pc_address].
  assert (Hi : index_char "," (action_string a +:+ addr +:+ "," +:+ id) = Some (S (String.length addr))).
  { rewrite <-str_app_assoc. change ("," +:+ id) with (String "," id).
    rewrite (index_char_app "," (action_string a +:+ addr)) by by destruct a. by destruct a. }
  rewrite Hi. assert (Hlen : (String.length (action_string a +:+ addr +:+ "," +:+ id) <? 2)%nat = false).
  { apply Nat.ltb_ge. rewrite !str_length_app. destruct a; simpl; lia. }
  rewrite Hlen. assert (Hd : str_drop 1 (action_string a +:+ addr +:+ "," +:+ id) = addr +:+ "," +:+ id) by by destruct a.
  rewrite Hd. assert (Ht : str_take 1 (action_string a +:+ addr +:+ "," +:+ id) = action_string a) by (destruct a; by destruct addr).
  rewrite Ht. replace (S (String.length addr) - 1)%nat with (String.length addr) by lia. rewrite str_take_app.
  assert (He : str_drop (S (String.length addr)) (addr +:+ "," +:+ id) = id).
  { rewrite <-str_app_assoc. replace (S (String.length addr)) with (String.length (addr +:+ ",")) by (rewrite str_length_app; simpl; lia).
    apply str_drop_app. }
  rewrite He. by destruct a.
Qed.

Lemma peer_command_roundtrip_witness :
  unmarshal (marshal (mkCommand Register "id,1" "http://10.0.0.1:8081")) = Some (mkCommand Register "id,1" "http://10.0.0.1:8081").
Proof. apply (peer_command_roundtrip (mkCommand Register "id,1" "http://10.0.0.1:8081")). by vm_compute. Defined.

(** ** The view of the cluster *)

(** When a peer was last heard of, and the address it gave; an [Unregister] forgets it. *)
Definition note (id : string) (acc : option (Z * string)) (m : Z * string) : option (Z * string) :=
  match unmarshal m.2 with
  | Some cmd =>
      if decide (pc_id cmd = id)
      then match pc_action cmd with Register => Some (m.1, pc_address cmd) | Unregister => None end
      else acc
  | None => acc
  end.
Definition heard (self addr : string) (t0 : Z) (log : list (Z * string)) (id : string) : option (Z * string) :=
  foldl (note id) (if decide (id = self) then Some (t0, addr) else None) log.

(** A peer is there for as long as it was heard of within the timeout. *)
Definition fresh (now : Z) (h : option (Z * string)) : option string :=
  match h with Some (t, addr) => if t + PeerEntryTimeout <? now then None else Some addr | None => None end.

Section View.
Context `{!GoWyhash, !GoNet}.
Implicit Types m : MapTTL.t (K := string) (V := string).

Lemma Get_cleanup t now m id : t ≤ now → MapTTL.Get now (MapTTL.cleanup t m).1 id = MapTTL.Get now m id.
Proof.
  intros Ht. unfold MapTTL.Get. rewrite MapTTL.cleanup_items, map_lookup_filter.
  destruct (MapTTL.Items m !! id) as [i|]; [|done]. cbn. case_guard; cbn; [done|].
  destruct (Z.ltb_spec (MapTTL.Expiration i) now); [done|lia].
Qed.

Lemma cleanup_TTL t m : MapTTL.TTL (MapTTL.cleanup t m).1 = MapTTL.TTL m.
Proof. unfold MapTTL.cleanup. by rewrite MapTTL.cleanup_loop. Qed.

Lemma SortedKeys_map t m : (MapTTL.SortedKeys str_le t m).1 = (MapTTL.cleanup t m).1.
Proof. done. Qed.

Lemma Get_apply t now m cmd id :
  MapTTL.TTL m = PeerEntryTimeout →
  MapTTL.Get now (apply_command t cmd m) id =
    if decide (pc_id cmd = id) then fresh now (match pc_action cmd with Register => Some (t, pc_address cmd) | Unregister => None end)
    else MapTTL.Get now m id.
Proof.
  intros Hm. unfold apply_command, MapTTL.Get, MapTTL.Set_, MapTTL.Delete. destruct (decide (pc_id cmd = id)) as [<-|Hne].
  - destruct (pc_action cmd); cbn [MapTTL.Items].
    + by rewrite lookup_insert_eq, Hm.
    + by rewrite lookup_delete_eq.
  - destruct (pc_action cmd); cbn [MapTTL.Items]; [by rewrite lookup_insert_ne|by rewrite lookup_delete_ne].
Qed.

Lemma apply_TTL t m cmd : MapTTL.TTL (apply_command t cmd m) = MapTTL.TTL m.
Proof. unfold apply_command. by destruct (pc_action cmd). Qed.

(** The map after a message. *)
Lemma listen_view t p msg now id :
  MapTTL.TTL (pp_peers p) = PeerEntryTimeout → t ≤ now →
  let p' := (listen t p msg).1.1 in
  MapTTL.TTL (pp_peers p') = PeerEntryTimeout ∧
  ∀ h, MapTTL.Get now (pp_peers p) id = fresh now h → MapTTL.Get now (pp_peers p') id = fresh now (note id h (t, msg)).
Proof.
  intros Hm Ht. unfold listen, note. cbn [fst snd]. destruct (unmarshal msg) as [cmd|]; [|done]. unfold checkHash.
  pose proof (SortedKeys_map t (apply_command t cmd (pp_peers p))) as Es. cbn [pp_peers].
  destruct (MapTTL.SortedKeys str_le t (apply_command t cmd (pp_peers p))) as [m keys]. cbn [fst] in Es. subst m. cbn [fst pp_peers].
  rewrite cleanup_TTL, apply_TTL. split; [done|]. intros h Hh. rewrite Get_cleanup, Get_apply by done. by case_decide.
Qed.

Definition run_listen p (log : list (Z * string)) : RedisPubsubPeers := foldl (λ p tm, (listen tm.1 p tm.2).1.1) p log.

Lemma run_view p log now id h :
  MapTTL.TTL (pp_peers p) = PeerEntryTimeout → Forall (λ tm, tm.1 ≤ now) log → MapTTL.Get now (pp_peers p) id = fresh now h →
  MapTTL.Get now (pp_peers (run_listen p log)) id = fresh now (foldl (note id) h log).
Proof.
  intros Hm Hl. revert p h Hm. induction Hl as [|[t msg] log Ht _ IH]; intros p h Hm Hh; [done|]. cbn [foldl run_listen].
  destruct (listen_view t p msg now id Hm Ht) as [Hm' Hv]. apply (IH (listen t p msg).1.1); [done|]. by apply Hv.
Qed.

Lemma started_view t0 c self p addr now id :
  peers_Start t0 c self = Ok p → publicAddr c = Ok addr →
  MapTTL.TTL (pp_peers p) = PeerEntryTimeout ∧
  MapTTL.Get now (pp_peers p) id = fresh now (if decide (id = self) then Some (t0, addr) else None).
Proof.
  unfold peers_Start. intros E Ha. rewrite Ha in E. injection E as <-. split; [done|]. cbn [pp_peers].
  unfold MapTTL.Get, MapTTL.Set_, MapTTL.NewMapWithTTL. rewrite map_to_list_empty. cbn [foldl MapTTL.Items MapTTL.TTL].
  destruct (decide (id = self)) as [->|Hne]; [by rewrite lookup_insert_eq|]. by rewrite lookup_insert_ne, lookup_empty.
Qed.

(** The peers listed, by the IDs that are fresh. *)
Lemma GetPeers_view t0 c self p addr log now :
  peers_Start t0 c self = Ok p → publicAddr c = Ok addr → Forall (λ tm, tm.1 ≤ now) log →
  ∃ ids, StronglySorted str_le ids ∧ NoDup ids ∧ (∀ id, id ∈ ids ↔ is_Some (fresh now (heard self addr t0 log id))) ∧
    (GetPeers now c (run_listen p log)).2 = Ok (if decide (ids = []) then [addr] else omap (λ id, fresh now (heard self addr t0 log id)) ids).
Proof.
  intros Es Ha Hl.
  assert (Hv : ∀ id, MapTTL.Get now (pp_peers (run_listen p log)) id = fresh now (heard self addr t0 log id)).
  { intros id. destruct (started_view t0 c self p addr now id Es Ha) as [Hm Hg]. by apply run_view. }
  set (m := pp_peers (run_listen p log)) in *. destruct (mapttl_views str_le "" m now) as (Hs & Hnd & Hin & Hvals & _).
  exists (MapTTL.SortedKeys str_le now m).2. split_and!.
  - apply Sorted_StronglySorted; [apply _|done].
  - done.
  - intros id. by rewrite Hin, Hv.
  - unfold GetPeers. fold m. destruct (MapTTL.SortedValues str_le "" now m) as [m' vals]. cbn [snd fst] in *.
    assert (Hom : omap (λ id, fresh now (heard self addr t0 log id)) (MapTTL.SortedKeys str_le now m).2 = vals).
    { revert Hvals. clear -Hv. generalize (MapTTL.SortedKeys str_le now m).2 vals. intros ids. induction ids as [|id ids IH];
        intros [|v vs] E; try done. rewrite !fmap_cons in E. injection E as E1 E2. cbn [omap list_omap].
      rewrite <-Hv, <-E1. f_equal. by apply IH. }
    rewrite Hom, Ha. apply (f_equal length) in Hvals. rewrite !length_fmap in Hvals. cbn [res_bind].
    destruct vals, (MapTTL.SortedKeys str_le now m).2; by try done.
Qed.

(** C32: a node's view of the cluster is what it has heard.  After any messages, [GetPeers] lists the
    addresses of exactly the nodes, itself included, that were last heard registering and no longer
    than the timeout ago, one for each ID, in the order of the IDs; when there is none it is the
    node alone.  So two nodes that have heard the same of every ID have the same list. *)
Theorem peers_track_messages t0 c self p addr log now :
  peers_Start t0 c self = Ok p → publicAddr c = Ok addr → Forall (λ tm, tm.1 ≤ now) log →
  let view id := fresh now (heard self addr t0 log id) in
  ∃ ids, StronglySorted str_le ids ∧ NoDup ids ∧ (∀ id, id ∈ ids ↔ is_Some (view id)) ∧
    (GetPeers now c (run_listen p log)).2 = Ok (if decide (ids = []) then [addr] else omap view ids) ∧
    ∀ t0' c' self' p' addr' log' now', peers_Start t0' c' self' = Ok p' → publicAddr c' = Ok addr' →
      Forall (λ tm, tm.1 ≤ now') log' →
      (∀ id, fresh now' (heard self' addr' t0' log' id) = view id) → ids ≠ [] →
      (GetPeers now' c' (run_listen p' log')).2 = (GetPeers now c (run_listen p log)).2.
Proof.
  intros Es Ha Hl view.
  destruct (GetPeers_view t0 c self p addr log now Es Ha Hl) as (ids & Hs & Hnd & Hin & Hg). exists ids. split_and!; [done..|].
  intros t0' c' self' p' addr' log' now' Es' Ha' Hl' Hsame Hne.
  destruct (GetPeers_view t0' c' self' p' addr' log' now' Es' Ha' Hl') as (ids' & Hs' & Hnd' & Hin' & Hg'). rewrite Hg, Hg'.
  assert (ids' = ids) as ->.
  { apply (StronglySorted_unique str_le); [done..|]. apply NoDup_Permutation; [done..|]. intros id. by rewrite Hin, Hin', Hsame. }
  rewrite !decide_False by done. f_equal. apply list_omap_ext, Forall_Forall2_diag, Forall_forall. intros id _. apply Hsame.
Qed.
End View.

(** ** internal/configwatcher *)

(** time.RFC3339: a time to the second. *)
Class GoRFC3339 := { Format_RFC3339 : Z → string; Parse_RFC3339 : string → option Z }.
Class GoRFC3339Laws `{!GoRFC3339} := { parse_format t : Parse_RFC3339 (Format_RFC3339 t) = Some (10 ^ 9 * (t / 10 ^ 9)) }.

Section Watcher.
Context `{!GoRFC3339}.

(** The time of the last message, and the reload interval. *)
Record ConfigWatcher := mkWatcher { cw_msgTime : Z; cw_ConfigReloadInterval : Z }.
Implicit Types cw : ConfigWatcher.

(** The message published, if any. *)
Definition ReloadCallback (now : Z) cw : option string :=
  if now - cw_msgTime cw <? cw_ConfigReloadInterval cw then None else Some (Format_RFC3339 now).

(** Whether the configuration is to reload itself; it calls [ReloadCallback] if it has changed. *)
Definition SubscriptionListener cw (msg : string) : ConfigWatcher * bool :=
  match Parse_RFC3339 msg with
  | None => (cw, false)
  | Some t => (mkWatcher t (cw_ConfigReloadInterval cw), true)
  end.

(** News of a change is published by the node that sees it, and not again by a node that reloads
    because of it, within the reload interval. *)
Lemma change_announced_once `{!GoRFC3339Laws} now now' cw cw' msg :
  ReloadCallback now cw = Some msg → now' - 10 ^ 9 * (now / 10 ^ 9) < cw_ConfigReloadInterval cw' →
  (SubscriptionListener cw' msg).2 = true ∧ ReloadCallback now' (SubscriptionListener cw' msg).1 = None.
Proof.
  unfold ReloadCallback. destruct (_ <? _); [done|]. intros [= <-] Hlt. unfold SubscriptionListener.
  rewrite parse_format. cbn [fst snd cw_msgTime cw_ConfigReloadInterval]. split; [done|].
  by rewrite (proj2 (Z.ltb_lt _ _) Hlt).
Qed.

(** What [Start] sets going: nothing when OpAMP brings the configuration; otherwise the topic is
    subscribed to, and the monitor runs when there is an interval.  [None] for the topic: none yet. *)
Record watching := mkWatching { wt_topic : option string; wt_monitor : bool }.
Definition ConfigPubsubTopic := "cfg_update".
Definition watcher_Start (FormatTopic : string → string) (opamp_enabled : bool) cw : watching :=
  if opamp_enabled then mkWatching None false
  else mkWatching (Some (FormatTopic ConfigPubsubTopic)) (negb (cw_ConfigReloadInterval cw =? 0)).
Definition watcher_Stop (w : watching) : watching := mkWatching None false.
End Watcher.

(** ** A concrete instance *)

Module PeersExample.
#[export] Instance net : GoNet := {|
  SplitHostPort s := Ok ("0.0.0.0", "8081");
  Hostname := "node1";
  InterfaceAddrs _ := Err "no such interface";
  ParseIP s := (true, s) |}.
#[export] Instance hash : GoWyhash := {| wyhash s z := Z.of_nat (String.length s) + z |}.
Definition config : peerConfig := mkPeerConfig "0.0.0.0:8081" "" "" false [].
Definition started : RedisPubsubPeers :=
  match peers_Start 0 config "id1" with Ok p => p | Err _ => mkPeers (MapTTL.NewMapWithTTL 0 0 ∅) 0 [] end.
Definition log : list (Z * string) := [(1, "Rhttp://node2:8081,id2"); (2, "Rhttp://node3:8081,id0"); (3, "Uhttp://node3:8081,id0")].
End PeersExample.

Lemma peers_track_messages_witness :
  (GetPeers (H0 := PeersExample.net) 4 PeersExample.config
     (run_listen (H := PeersExample.hash) PeersExample.started PeersExample.log)).2 = Ok ["http://node1:8081"; "http://node2:8081"] ∧
  ∃ ids : list string, NoDup ids ∧ ids ≠ [].
Proof.
  split; [by vm_compute|].
  destruct (peers_track_messages (H := PeersExample.hash) (H0 := PeersExample.net) 0 PeersExample.config "id1"
    PeersExample.started "http://node1:8081" PeersExample.log 4) as (ids & _ & Hnd & Hin & _).
  - by vm_compute.
  - by vm_compute.
  - repeat constructor; by vm_compute.
  - exists ids. split; [done|]. intros ->. assert (Hid : "id1" ∈ @nil string); [|by apply elem_of_nil in Hid].
    apply Hin. exists "http://node1:8081". by vm_compute.
Defined.
