(* ===== verification/Membership.v ===== *)
(** internal/peer over time: how a node keeps itself in the others' lists (the goroutine of Ready in
    pubsub_redis.go), and whom file peers tell of a change (file.go). *)
From Stdlib Require Import Ascii.
From S2P Require Import Prelude GoValue Generics Metrics TraceKey Sharder Peers.

(** ** RedisPubsubPeers.Ready *)

Definition refreshCacheInterval : Z := 3 * 10 ^ 9.
(** The draw of rand.Int63n. *)
Definition refresh_interval (draw : Z) : Z := refreshCacheInterval + draw mod (refreshCacheInterval / 5).

Inductive ready_event := RefreshTick | LogTick | PeersDone.

Section Ready.
Context `{!GoNet}.

(** The goroutine: the address it was started with, and whether it has returned. *)
Record refresher := mkRefresher { rf_myaddr : string; rf_returned : bool }.
Definition Ready (c : peerConfig) : res refresher := let! myaddr := publicAddr c in Ok (mkRefresher myaddr false).

(** A case of its select, and the message published; [None]: it has returned. *)
Definition ready_step (c : peerConfig) (InstanceID : string) (r : refresher) (e : ready_event) : option (refresher * option string) :=
  if rf_returned r then None
  else match e with
       | RefreshTick => Some (r, Some (marshal (mkCommand Register InstanceID (rf_myaddr r))))
       | LogTick => Some (r, None)
       | PeersDone => Some (mkRefresher (rf_myaddr r) true, match stop_message c InstanceID with Ok msg => Some msg | Err _ => None end)
       end.
End Ready.

(** ** FilePeers *)

(** A callback: the detector that [Start] makes, with the hash it keeps, or one registered. *)
Inductive file_callback := Detector | Registered (callback : nat).
Record FilePeers := mkFilePeers { fl_publicAddr : string; fl_hash : Z; fl_callbacks : list file_callback }.

Section File.
Context `{!GoWyhash, !GoNet}.
Implicit Types (c : peerConfig) (p : FilePeers).

Definition file_Start c p : FilePeers * option string :=
  match publicAddr c with
  | Err e => (mkFilePeers "" (fl_hash p) (fl_callbacks p), Some e)
  | Ok addr => (mkFilePeers addr (hashList (pc_Peers c)) (fl_callbacks p ++ [Detector]), None)
  end.
Definition file_GetInstanceID p : res string := Ok (fl_publicAddr p).
(** It is called at once. *)
Definition file_RegisterUpdatedPeersCallback p (callback : nat) : FilePeers * list nat :=
  (mkFilePeers (fl_publicAddr p) (fl_hash p) (fl_callbacks p ++ [Registered callback]), [callback]).
Definition file_Ready : option string := None.

(** The detector, when it is called: all the callbacks, itself among them, are started. *)
Definition detect c p : FilePeers * list file_callback :=
  let currentHash := hashList (pc_Peers c) in
  if currentHash =? fl_hash p then (p, [])
  else (mkFilePeers (fl_publicAddr p) currentHash (fl_callbacks p), fl_callbacks p).

(** All that the rest of the program asks of file peers: a reload of the configuration is no such call. *)
Inductive file_op := FStart | FReady | FGetPeers | FGetInstanceID | FRegister (callback : nat).
Definition file_step c p (o : file_op) : FilePeers * list nat :=
  match o with
  | FStart => ((file_Start c p).1, [])
  | FReady | FGetPeers | FGetInstanceID => (p, [])
  | FRegister callback => file_RegisterUpdatedPeersCallback p callback
  end.
(** Each operation under the configuration of its time. *)
Fixpoint file_run p (l : list (peerConfig * file_op)) : FilePeers * list nat :=
  match l with
  | [] => (p, [])
  | (c, o) :: l =>
      let '(p, called) := file_step c p o in let '(p, called') := file_run p l in (p, (called ++ called')%list)
  end.

Definition registered (o : peerConfig * file_op) : list nat := match o.2 with FRegister callback => [callback] | _ => [] end.

(** Whatever becomes of the list of peers in the configuration, a callback is called when it is
    registered and never again, although the detector would call it. *)
Lemma file_callbacks_once l p : (file_run p l).2 = concat (registered <$> l).
Proof.
  revert p. induction l as [|[c o] l IH]; intros p; [done|]. cbn [file_run]. destruct (file_step c p o) as [p1 called] eqn:E.
  specialize (IH p1). destruct (file_run p1 l) as [p2 called']. cbn [snd] in IH |- *. rewrite fmap_cons, IH. cbn [concat]. f_equal.
  destruct o; cbn [file_step] in E; by injection E.
Qed.
Lemma detector_would_call c p : hashList (pc_Peers c) ≠ fl_hash p → (detect c p).2 = fl_callbacks p ∧ (detect c (detect c p).1).2 = [].
Proof.
  intros Hne. unfold detect. rewrite (proj2 (Z.eqb_neq _ _) Hne). cbn [fst snd fl_hash]. split; [done|]. by rewrite Z.eqb_refl.
Qed.
End File.

(** ** A node that refreshes itself stays in the lists of the others *)

Section Kept.
Context `{!GoWyhash, !GoNet}.

(** What is heard of a node: only registrations, of one address. *)
Definition only_registers (id addr : string) (tm : Z * string) : Prop :=
  match unmarshal tm.2 with
  | Some cmd => pc_id cmd = id → pc_action cmd = Register ∧ pc_address cmd = addr
  | None => True
  end.

(** A node is heard saying it is there, or saying it goes. *)
Definition says (a : peerAction) (id : string) (tm : Z * string) : Prop :=
  ∃ cmd, unmarshal tm.2 = Some cmd ∧ pc_id cmd = id ∧ pc_action cmd = a.

(** A node that has left: each registration of it, wherever from, has run out by now or was followed by
    a goodbye. *)
Definition departed (log : list (Z * string)) (now : Z) (id : string) : Prop :=
  ∀ before tm after, log = before ++ tm :: after → says Register id tm →
    tm.1 + PeerEntryTimeout < now ∨ Exists (says Unregister id) after.

Definition no_comma (c : ascii) : bool := negb (Ascii.eqb "," c).

(** What is heard of a node last is what counts. *)
Lemma note_about id acc tm : note id acc tm = acc ∨ (says Unregister id tm ∧ note id acc tm = None) ∨
  (says Register id tm ∧ ∃ addr, note id acc tm = Some (tm.1, addr)).
Proof.
  unfold note, says. destruct (unmarshal tm.2) as [cmd|]; [|by left]. case_decide as Hid; [|by left].
  right. destruct (pc_action cmd) eqn:Ea; [right|left]; (split; [by exists cmd|]); [by eexists|done].
Qed.

Lemma departed_forgotten log now id : departed log now id → fresh now (foldl (note id) None log) = None.
Proof.
  induction log as [|tm log IH] using rev_ind; intros Hd; [done|]. rewrite foldl_app. cbn [foldl].
  destruct (note_about id (foldl (note id) None log) tm) as [Hn|[[_ ->]|[Hs [addr ->]]]]; [|done|].
  - rewrite Hn. destruct (foldl (note id) None log) as [[t addr]|] eqn:El; [|done]. apply IH. intros before tm' after -> Hs.
    destruct (Hd before tm' (after ++ [tm])) as [?|Hex]; [by rewrite <-(assoc_L (++))|done|by left|right].
    apply Exists_app in Hex as [?|Hex]; [done|]. apply Exists_cons in Hex as [(cmd & E1 & E2 & E3)|Hex%Exists_nil]; [|done].
    unfold note in Hn. rewrite E1, E3, decide_True in Hn by done. done.
  - destruct (Hd log tm [] eq_refl Hs) as [Ht|Hex%Exists_nil]; [|done]. cbn. by rewrite (proj2 (Z.ltb_lt _ _) Ht).
Qed.

Lemma note_later id addr log t : Forall (λ tm, t ≤ tm.1) log → Forall (λ tm, t ≤ tm.1 → only_registers id addr tm) log →
  ∀ t0, t ≤ t0 → ∃ t', t ≤ t' ∧ foldl (note id) (Some (t0, addr)) log = Some (t', addr).
Proof.
  intros Hl Ho. induction Hl as [|tm log Ht _ IH]; intros t0 Ht0; [by exists t0|]. apply Forall_cons in Ho as [Ho Hos].
  cbn [foldl]. unfold note at 2. specialize (Ho Ht). unfold only_registers in Ho. destruct (unmarshal tm.2) as [cmd|]; [|by apply IH].
  case_decide as Hid; [|by apply IH]. destruct (Ho Hid) as [-> ->]. by apply IH.
Qed.

Lemma heard_since id addr log t self0 : (t, marshal (mkCommand Register id addr)) ∈ log →
  str_forallb no_comma addr = true →
  StronglySorted (λ a b : Z * string, a.1 ≤ b.1) log → Forall (λ tm, t ≤ tm.1 → only_registers id addr tm) log →
  ∃ t', t ≤ t' ∧ foldl (note id) self0 log = Some (t', addr).
Proof.
  intros Hin Hc Hs Ho. apply list_elem_of_split in Hin as (l1 & l2 & ->). rewrite foldl_app. cbn [foldl].
  assert (Hn : ∀ acc, note id acc (t, marshal (mkCommand Register id addr)) = Some (t, addr)).
  { intros acc. unfold note. cbn [fst snd]. rewrite peer_command_roundtrip by done. cbn. by rewrite decide_True. }
  rewrite Hn. apply Forall_app in Ho as [_ [_ Ho]%Forall_cons].
  apply StronglySorted_app_1_r in Hs. apply StronglySorted_inv in Hs as [Hs Ht]. by eapply note_later.
Qed.

(** A node goes on refreshing, as another hears it: its goroutine ticks every interval, from [tau], and
    from then on nothing else is heard of the node; of any [losses + 1] messages in a row at least one
    arrives, within [delay]; [losses + 1] intervals and the delay fit into the timeout, and the first of
    the messages must have come by [now]. *)
Record refreshes (log : list (Z * string)) (now : Z) (id addr : string) : Prop := {
  re_draw : Z; re_tau : Z; re_delay : Z; re_losses : nat; re_arrives : Z → option Z;
  re_hears k t : re_arrives k = Some t →
    re_tau + k * refresh_interval re_draw ≤ t ≤ re_tau + k * refresh_interval re_draw + re_delay ∧
    (t ≤ now → ∀ c r msg, ready_step c id (mkRefresher addr false) RefreshTick = Some (r, Some msg) → (t, msg) ∈ log);
  re_only : Forall (λ tm, re_tau ≤ tm.1 → only_registers id addr tm) log;
  re_loses k : 0 ≤ k → re_tau + (k + Z.of_nat re_losses) * refresh_interval re_draw + re_delay ≤ now →
    ∃ j, k ≤ j ≤ k + Z.of_nat re_losses ∧ is_Some (re_arrives j);
  re_fits : (Z.of_nat re_losses + 1) * refresh_interval re_draw + re_delay ≤ PeerEntryTimeout;
  re_since : re_tau + Z.of_nat re_losses * refresh_interval re_draw + re_delay ≤ now }.

Lemma refresh_interval_bounds draw : refreshCacheInterval ≤ refresh_interval draw < refreshCacheInterval + refreshCacheInterval / 5.
Proof. unfold refresh_interval, refreshCacheInterval. pose proof (Z.mod_pos_bound draw (3 * 10 ^ 9 / 5) eq_refl). lia. Qed.

(** A message of it is not older than the timeout, and later ones say the same. *)
Lemma refreshed_recently log now id addr : refreshes log now id addr →
  ∃ t, now ≤ t + PeerEntryTimeout ∧ (t, marshal (mkCommand Register id addr)) ∈ log ∧
    Forall (λ tm, t ≤ tm.1 → only_registers id addr tm) log.
Proof.
  intros [draw tau delay losses arrives Hhears Honly Hloses Hfits Hsince]. pose proof (refresh_interval_bounds draw) as [Hi _].
  unfold refreshCacheInterval in Hi. set (interval := refresh_interval draw) in *. clearbody interval.
  set (q := (now - delay - tau) / interval).
  assert (Hq : q * interval ≤ now - delay - tau < (q + 1) * interval).
  { pose proof (Z.div_mod (now - delay - tau) interval ltac:(lia)) as Hdm. pose proof (Z.mod_pos_bound (now - delay - tau) interval ltac:(lia)).
    fold q in Hdm. lia. }
  assert (Hk : Z.of_nat losses ≤ q) by (unfold q; apply Z.div_le_lower_bound; lia). clearbody q.
  destruct (Hloses (q - Z.of_nat losses) ltac:(lia)) as (j & Hj & [t Ht]); [nia|].
  destruct (Hhears j t Ht) as [Ht1 Hin]. assert (t ≤ now) as Htn by nia.
  exists t. split; [nia|]. split; [exact (Hin Htn (mkPeerConfig "" "" "" false []) _ _ eq_refl)|].
  eapply Forall_impl; [exact Honly|]. intros tm Htm Hle. apply Htm. nia.
Qed.

(** The list of a cluster's nodes, in the order of their IDs. *)
Definition members (nodes : gmap string string) : list string := omap (λ id, nodes !! id) (sort_strings (map_to_list nodes).*1).

Lemma map_keys_elem (nodes : gmap string string) id : id ∈ (map_to_list nodes).*1 ↔ is_Some (nodes !! id).
Proof.
  rewrite list_elem_of_fmap. split.
  - intros ([id' addr] & -> & Hin). apply elem_of_map_to_list in Hin. by eexists.
  - intros [addr Hid]. exists (id, addr). split; [done|]. by apply elem_of_map_to_list.
Qed.

(** C36: a cluster whose nodes go on refreshing converges, and stays so.  Take a node that hears all of
    them, whatever it heard before of them or of others: a node that moved, nodes that have left, with
    a goodbye or without one for longer than the timeout.  At that node the list of peers is the
    addresses of the cluster's nodes, in the order of their IDs, and nothing else; so its sharder,
    whatever it had loaded before, chooses for every trace the owner that any other node's sharder
    chooses, and it is a node of the cluster. *)
Theorem cluster_converges (nodes : gmap string string) tA cA self p addrA log now (d d' : DeterministicSharder) traceID :
  nodes !! self = Some addrA → map_Forall (λ _ addr, str_forallb no_comma addr = true) nodes →
  peers_Start tA cA self = Ok p → publicAddr cA = Ok addrA → Forall (λ tm, tm.1 ≤ now) log →
  StronglySorted (λ a b : Z * string, a.1 ≤ b.1) log →
  map_Forall (refreshes log now) nodes → (∀ id, nodes !! id = None → departed log now id) → sharder_wf d → sharder_wf d' →
  (GetPeers now cA (run_listen p log)).2 = Ok (members nodes) ∧
  ∃ owner, owner ∈ members nodes ∧
    WhichShard (reload d (GetPeers now cA (run_listen p log)).2) traceID = Some (DetShard owner) ∧
    WhichShard (reload d' (Ok (members nodes))) traceID = Some (DetShard owner).
Proof.
  intros Hself Hcomma Es Ha Hl Hs Hr Hgone Hd Hd'.
  assert (Hview : ∀ id, fresh now (heard self addrA tA log id) = nodes !! id).
  { intros id. unfold heard. destruct (nodes !! id) as [addr|] eqn:Hid.
    - destruct (refreshed_recently _ _ _ _ (Hr id addr Hid)) as (t & Ht & Hin & Ho).
      destruct (heard_since id addr log t (if decide (id = self) then Some (tA, addrA) else None) Hin (Hcomma id addr Hid) Hs Ho) as (t' & Ht' & ->).
      cbn [fresh]. destruct (Z.ltb_spec (t' + PeerEntryTimeout) now); [lia|done].
    - rewrite decide_False by congruence. by apply departed_forgotten, Hgone. }
  destruct (GetPeers_view tA cA self p addrA log now Es Ha Hl) as (ids & Hsorted & Hnd & Hids & Hpeers).
  assert (Hperm : ids ≡ₚ (map_to_list nodes).*1).
  { apply NoDup_Permutation; [done|apply NoDup_fst_map_to_list|]. intros id. by rewrite Hids, Hview, map_keys_elem. }
  assert (ids = sort_strings (map_to_list nodes).*1) as ->.
  { apply (StronglySorted_unique str_le); [done|apply sort_strings_sorted|]. by rewrite sort_strings_perm. }
  assert (Hmem : addrA ∈ members nodes).
  { apply list_elem_of_omap. exists self. split; [|done]. rewrite sort_strings_perm, map_keys_elem. by eexists. }
  assert (Hlist : (GetPeers now cA (run_listen p log)).2 = Ok (members nodes)).
  { rewrite Hpeers, decide_False; [|intros E; unfold members in Hmem; rewrite E in Hmem; by apply elem_of_nil in Hmem].
    f_equal. apply list_omap_ext, Forall_Forall2_diag, Forall_forall. intros id _. apply Hview. }
  assert (Hne : members nodes ≠ []) by (intros E; rewrite E in Hmem; by apply elem_of_nil in Hmem).
  split; [done|]. rewrite Hlist. destruct (reload_best d (members nodes) traceID Hd Hne) as (owner & E & Hin & _).
  exists owner. split; [done|]. split; [done|]. by rewrite <- E, (reload_agree d d' (members nodes) (members nodes)).
Qed.
End Kept.

(** ** Two nodes *)

Module MembershipExample.
Export PeersExample.
Definition msg : string := marshal (mkCommand Register "b" "http://b:8081").
Definition ms : Z := 10 ^ 6.
Definition A : RedisPubsubPeers := match peers_Start 0 config "a" with Ok p => p | Err _ => mkPeers (MapTTL.NewMapWithTTL 0 0 ∅) 0 [] end.
Definition every_other (k : Z) : option Z := if Z.even k && (0 <=? k) then Some (k * (3000 * ms) + ms) else None.
Definition own : string := marshal (mkCommand Register "a" "http://node1:8081").
(** Before: an address that "b" had, "d" that left without a word; in between "c" comes and goes. *)
Definition heard_log : list (Z * string) :=
  [(-4000 * ms, marshal (mkCommand Register "d" "http://d:8081")); (-1, marshal (mkCommand Register "b" "http://old:8081"));
   (ms, msg); (ms, own); (2 * ms, marshal (mkCommand Register "c" "http://c:8081"));
   (3 * ms, marshal (mkCommand Unregister "c" "http://c:8081")); (6001 * ms, own); (6001 * ms, msg)].

(** When every other message is lost, the two nodes still have each other seven seconds later. *)
Definition nodes : gmap string string := {["a" := "http://node1:8081"; "b" := "http://b:8081"]}.

Lemma node_cases id addr : nodes !! id = Some addr → (id, addr) = ("a", "http://node1:8081") ∨ (id, addr) = ("b", "http://b:8081").
Proof. unfold nodes. intros [[<- <-]|[_ [<- <-]%lookup_singleton_Some]]%lookup_insert_Some; auto. Qed.

Lemma heard_refreshes id addr : nodes !! id = Some addr → refreshes heard_log (7000 * ms) id addr.
Proof.
  intros Hid%node_cases. refine (Build_refreshes _ _ _ _ 0 0 ms 1 every_other _ _ _ _ _); change (refresh_interval 0) with (3000 * ms).
  - intros k t. unfold every_other. destruct (Z.even k) eqn:Ek; [|done]. destruct (Z.leb_spec 0 k) as [Hk|]; [|done].
    intros [= <-]. unfold ms. split; [lia|]. intros Hnow c r m [= <- <-].
    apply Z.even_spec in Ek as [j ->]. assert (j = 0 ∨ j = 1) as Hj by lia.
    destruct Hid as [[= -> ->]|[= -> ->]]; destruct Hj as [-> | ->]; apply (bool_decide_unpack _); by vm_compute.
  - repeat (apply Forall_cons; split; [unfold only_registers; vm_compute; intros ? ?; destruct Hid as [[= -> ->]|[= -> ->]]; done|]).
    by apply Forall_nil.
  - intros k Hk _. destruct (Z.even k) eqn:Ek; [exists k|exists (k + 1)]; (split; [lia|]); unfold every_other.
    + rewrite Ek, (proj2 (Z.leb_le _ _) Hk). by eexists.
    + rewrite Z.even_add, Ek, (proj2 (Z.leb_le 0 (k + 1)) ltac:(lia)). by eexists.
  - by vm_compute.
  - by vm_compute.
Qed.

Lemma heard_departed id : nodes !! id = None → departed heard_log (7000 * ms) id.
Proof.
  intros Hid before tm after E (cmd & Eu & <- & Ea).
  assert (Hn : ∀ _ : string, pc_id cmd = "a" ∨ pc_id cmd = "b" → nodes !! pc_id cmd = None → False) by (intros _ [-> | ->]; by vm_compute).
  unfold heard_log in E.
  do 8 (destruct before as [|? before]; [injection E as <- <-; vm_compute in Eu; injection Eu as <-; cbn in Hid, Hn, Ea |- *;
    first [left; by vm_compute|by destruct (Hn "" ltac:(auto) Hid)|done
          |right; apply Exists_cons; left; eexists; split; [vm_compute; reflexivity|by split]]|injection E as _ E]).
  by destruct before.
Qed.

Lemma cluster_converges_witness :
  (GetPeers (7000 * ms) config (run_listen A heard_log)).2 = Ok ["http://node1:8081"; "http://b:8081"] ∧
  ∃ owner, owner ∈ members nodes ∧
    WhichShard (reload (mkSharder "" [] []) (GetPeers (7000 * ms) config (run_listen A heard_log)).2) "t1" = Some (DetShard owner).
Proof.
  destruct (cluster_converges nodes 0 config "a" A "http://node1:8081" heard_log (7000 * ms) (mkSharder "" [] []) (mkSharder "" [] []) "t1")
    as (Hp & owner & Hin & Ho & _).
  - by vm_compute.
  - intros id addr Hid. by apply node_cases in Hid as [[= -> ->]|[= -> ->]].
  - by vm_compute.
  - by vm_compute.
  - repeat constructor; by vm_compute.
  - repeat constructor; by vm_compute.
  - intros id addr. apply heard_refreshes.
  - exact heard_departed.
  - by left.
  - by left.
  - split; [rewrite Hp; by vm_compute|]. exists owner. exact (conj Hin Ho).
Defined.

(** With the longest interval the timeout is shorter than three of them: after two losses B is gone
    before its next message is due. *)
Definition longest : Z := refresh_interval 599999999.
Lemma two_losses_drop : 10500 * ms < 3 * longest ∧
  (GetPeers (10500 * ms) config (run_listen A [(0, msg)])).2 = Ok ["http://node1:8081"].
Proof. split; by vm_compute. Qed.
End MembershipExample.
