(* ===== verification/Redimem.v ===== *)
(** internal/redimem/redimem.go: membership of a group in Redis.

    A member is a key that expires; the members are what a few scans of the keys find, together.  The
    pool of connections and the server's commands are the class [RedisPool], whose state is the
    server's; what its documentation says of SCAN is a hypothesis where it is used.  Only the
    demonstration program of cmd/test_redimem uses this. *)
From Stdlib Require Import Ascii.
From S2P Require Import Prelude.

(** Commands: an error, if there is one; of SCAN the next cursor and some keys, or a reply of another
    format. *)
Class RedisPool (R : Type) := {
  GetContext : R → option string;
  SET_EX : R → string → string → Z → R * option string;
  DEL : R → string → R * option string;
  SCAN : R → string → string → string → R * res (option (string * list string)) }.

Definition globalPrefix := "refinery".
Definition defaultRepeatCount : nat := 2.
Definition redisScanBatchSize := "1000".
Definition bullet := "•".

(** strings.Split at a text that is not empty; the fuel is the length of what is split. *)
Fixpoint split_text (fuel : nat) (sep s : string) : list string :=
  match fuel, s with
  | S fuel, String c s' =>
      if HasPrefix s sep then "" :: split_text fuel sep (str_drop (String.length sep) s)
      else match split_text fuel sep s' with [] => [String c ""] | x :: l => String c x :: l end
  | _, _ => [s]
  end.

Record RedisMembership := mkMembership { rm_Prefix : string; rm_hasPool : bool; rm_RepeatCount : nat }.

Definition no_pool := "can't use RedisMembership with an unitialized Redis pool".
Definition validateDefaults (rm : RedisMembership) : RedisMembership * option string :=
  let rm := mkMembership (rm_Prefix rm) (rm_hasPool rm) (if (rm_RepeatCount rm =? 0)%nat then defaultRepeatCount else rm_RepeatCount rm) in
  (rm, if rm_hasPool rm then None else Some no_pool).

Definition member_key (prefix memberName : string) : string := globalPrefix +:+ bullet +:+ prefix +:+ bullet +:+ memberName.

Section Redimem.
Context {R : Type} `{!RedisPool R}.
Implicit Types (rm : RedisMembership) (r : R).

(** [timeout] is in nanoseconds; what is left of a second is cut off. *)
Definition Register rm r (memberName : string) (timeout : Z) : RedisMembership * R * option string :=
  let '(rm, err) := validateDefaults rm in
  match err with
  | Some e => (rm, r, Some e)
  | None =>
      match GetContext r with
      | Some e => (rm, r, Some e)
      | None => let '(r, err) := SET_EX r (member_key (rm_Prefix rm) memberName) "present" (timeout ÷ 10 ^ 9) in (rm, r, err)
      end
  end.

Definition Unregister rm r (memberName : string) : RedisMembership * R * option string :=
  let '(rm, err) := validateDefaults rm in
  match err with
  | Some e => (rm, r, Some e)
  | None =>
      match GetContext r with
      | Some e => (rm, r, Some e)
      | None => let '(r, err) := DEL r (member_key (rm_Prefix rm) memberName) in (rm, r, err)
      end
  end.

(** The keys that are sent, and the error.  The fuel is the number of commands that begin before the
    time is up. *)
Fixpoint scan (in_time : nat) r (cursor pattern : string) : R * list string * option string :=
  match in_time with
  | O => (r, [], Some "redis scan timeout")
  | S in_time =>
      match SCAN r cursor pattern redisScanBatchSize with
      | (r, Err e) => (r, [], Some e)
      | (r, Ok None) => (r, [], Some "unexpected response format from redis")
      | (r, Ok (Some (cursor, keys))) =>
          if String.eqb cursor "0" then (r, keys, None)
          else let '(r, more, err) := scan in_time r cursor pattern in (r, keys ++ more, err)
      end
  end.

(** The third part of a key; a key of fewer parts panics.  Errors of a scan are logged. *)
Definition key_member (key : string) : option string := split_text (String.length key) bullet key !! 2%nat.
Definition getMembersOnce rm (in_time : nat) r : R * option (res (list string)) :=
  match GetContext r with
  | Some e => (r, Some (Err e))
  | None =>
      let '(r, keys, _) := scan in_time r "0" (member_key (rm_Prefix rm) "*") in
      (r, Ok <$> mapM key_member keys)
  end.

(** Sorted, with equal neighbours dropped; the first one is compared with a blank. *)
Fixpoint compact (prevMember : string) (l : list string) : list string :=
  match l with
  | [] => []
  | member :: l => if String.eqb member prevMember then compact prevMember l else member :: compact member l
  end.

(** The results of asking so many times; [in_time] says how far each scan comes. *)
Fixpoint ask (rm : RedisMembership) (in_time : nat → nat) (times : nat) r : R * option (res (list string)) :=
  match times with
  | O => (r, Some (Ok []))
  | S times =>
      match getMembersOnce rm (in_time times) r with
      | (r, Some (Ok mems)) =>
          match ask rm in_time times r with
          | (r, Some (Ok more)) => (r, Some (Ok (mems ++ more)))
          | x => x
          end
      | x => x
      end
  end.
Definition GetMembers rm (in_time : nat → nat) r : RedisMembership * R * option (res (list string)) :=
  let '(rm, err) := validateDefaults rm in
  match err with
  | Some e => (rm, r, Some (Err e))
  | None =>
      match ask rm in_time (rm_RepeatCount rm) r with
      | (r, Some (Ok allMembers)) => (rm, r, Some (Ok (compact "" (sort_strings allMembers))))
      | (r, x) => (rm, r, x)
      end
  end.

(** ** The members are the union of what is found *)

Lemma compact_in prev l x : StronglySorted str_le (prev :: l) → x ∈ compact prev l ↔ x ∈ l ∧ x ≠ prev.
Proof.
  revert prev. induction l as [|y l IH]; intros prev Hs; cbn [compact]; [split; [intros Hx; by apply elem_of_nil in Hx|by intros [Hx%elem_of_nil _]]|].
  apply StronglySorted_inv in Hs as [Hs Hle]. apply Forall_cons in Hle as [Hpy Hle].
  destruct (String.eqb_spec y prev) as [->|Hne].
  - rewrite IH, elem_of_cons by done. intuition congruence.
  - rewrite elem_of_cons, IH by done. rewrite elem_of_cons. apply StronglySorted_inv in Hs as [Hs Hyl]. split.
    + intros [->|[Hin Hxy]]; [by split; [left|]|]. split; [by right|]. intros ->.
      apply Hne, (anti_symm str_le); [|done]. rewrite Forall_forall in Hyl. by apply Hyl.
    + intros [[->|Hin] Hxp]; [by left|]. destruct (decide (x = y)); [by left|by right].
Qed.

Lemma compact_sorted prev l : StronglySorted str_le (prev :: l) → StronglySorted str_le (compact prev l) ∧ NoDup (compact prev l).
Proof.
  revert prev. induction l as [|y l IH]; intros prev Hs; cbn [compact]; [split; constructor|].
  assert (Hs' := Hs). apply StronglySorted_inv in Hs' as [Hs' Hle]. apply Forall_cons in Hle as [_ Hle].
  destruct (String.eqb_spec y prev) as [->|Hne]; [by apply IH|]. destruct (IH y Hs') as [H1 H2].
  split; constructor; try done.
  - apply Forall_forall. intros x Hx. apply compact_in in Hx as [Hx _]; [|done]. apply StronglySorted_inv in Hs' as [_ Hyl].
    rewrite Forall_forall in Hyl. by apply Hyl.
  - intros Hx. by apply compact_in in Hx as [_ ?].
Qed.

Lemma blank_le s : str_le "" s.
Proof. by destruct s. Qed.

(** *** The member of a key *)

Definition no_bullet (s : string) : Prop := str_contains s bullet = false.

(** Inside a text without a bullet none begins, whatever follows it. *)
Lemma no_bullet_begins c s t : no_bullet (String c s) → HasPrefix (String c s +:+ bullet +:+ t) bullet = false.
Proof.
  unfold no_bullet. change (str_contains (String c s) bullet) with (HasPrefix (String c s) bullet || str_contains s bullet). intros [Hp _]%orb_false_iff.
  unfold bullet in *. change (String c s +:+ ?x) with (String c (s +:+ x)). rewrite HasPrefix_cons in *. destruct (Ascii.eqb _ c); [|done].
  destruct s as [|d s]; [done|]. change (String d s +:+ ?x) with (String d (s +:+ x)). rewrite HasPrefix_cons in *. destruct (Ascii.eqb _ d); [|done].
  destruct s as [|e s]; [done|]. change (String e s +:+ ?x) with (String e (s +:+ x)). rewrite HasPrefix_cons in *. destruct (Ascii.eqb _ e); [|done].
  by destruct s.
Qed.

Lemma no_bullet_tail c s : no_bullet (String c s) → no_bullet s.
Proof. unfold no_bullet. change (str_contains (String c s) bullet) with (HasPrefix (String c s) bullet || str_contains s bullet). by intros [_ ?]%orb_false_iff. Qed.

Lemma split_first s t fuel : no_bullet s → (String.length (s +:+ bullet +:+ t) ≤ fuel)%nat →
  ∃ fuel', (String.length t ≤ fuel')%nat ∧ split_text fuel bullet (s +:+ bullet +:+ t) = s :: split_text fuel' bullet t.
Proof.
  revert fuel. induction s as [|c s IH]; intros fuel Hs Hf.
  - rewrite !str_length_app in Hf. change (String.length bullet) with 3%nat in Hf. destruct fuel as [|fuel]; [cbn in Hf; lia|].
    exists fuel. split; [lia|]. pose proof (HasPrefix_app bullet t) as Hb. change ("" +:+ ?x) with x. unfold bullet in *.
    change ("•" +:+ t) with (String "226" (String "128" (String "162" t))) in *. cbn [split_text]. by rewrite Hb.
  - pose proof (no_bullet_begins c s t Hs) as Hb. change (String c s +:+ bullet +:+ t) with (String c (s +:+ bullet +:+ t)) in *.
    destruct fuel as [|fuel]; [cbn in Hf; lia|]. cbn [split_text]. rewrite Hb. cbn [String.length] in Hf.
    destruct (IH fuel (no_bullet_tail c s Hs) ltac:(lia)) as (fuel' & Hf' & ->). by exists fuel'.
Qed.

Lemma split_last s fuel : no_bullet s → split_text fuel bullet s = [s].
Proof.
  revert fuel. induction s as [|c s IH]; intros [|fuel] Hs; try done. cbn [split_text].
  assert (Hb : HasPrefix (String c s) bullet = false).
  { unfold no_bullet in Hs. change (str_contains (String c s) bullet) with (HasPrefix (String c s) bullet || str_contains s bullet) in Hs. by apply orb_false_iff in Hs as [? _]. }
  by rewrite Hb, (IH fuel (no_bullet_tail c s Hs)).
Qed.

Lemma key_member_key prefix name : no_bullet prefix → no_bullet name → key_member (member_key prefix name) = Some name.
Proof.
  intros Hp Hn. unfold key_member, member_key.
  destruct (split_first globalPrefix (prefix +:+ bullet +:+ name) _ eq_refl (le_n _)) as (f1 & H1 & ->).
  destruct (split_first prefix name f1 Hp H1) as (f2 & H2 & ->). by rewrite split_last.
Qed.

(** The keys that all the scans send. *)
Fixpoint scanned rm (in_time : nat → nat) (times : nat) r : list string :=
  match times with
  | O => []
  | S times => let '(r, keys, _) := scan (in_time times) r "0" (member_key (rm_Prefix rm) "*") in keys ++ scanned rm in_time times r
  end.

Lemma mapM_app_Some {A B} (f : A → option B) l1 l2 l :
  mapM f (l1 ++ l2) = Some l → ∃ k1 k2, mapM f l1 = Some k1 ∧ mapM f l2 = Some k2 ∧ l = k1 ++ k2.
Proof.
  intros (k1 & k2 & ? & ? & ->)%mapM_Some%Forall2_app_inv_l. exists k1, k2. split_and!; [by apply mapM_Some..|done].
Qed.

Lemma ask_scanned rm in_time times r names :
  (∀ r, GetContext r = None) → mapM key_member (scanned rm in_time times r) = Some names →
  ∃ r', ask rm in_time times r = (r', Some (Ok names)).
Proof.
  intros Hc. revert r names. induction times as [|times IH]; intros r names; cbn [scanned ask].
  - intros [= <-]. by eexists.
  - unfold getMembersOnce. rewrite Hc. destruct (scan _ r "0" _) as [[r1 keys] e]. intros (names1 & names2 & E1 & E2 & ->)%mapM_app_Some; rewrite E1.
    cbn [fmap option_fmap option_map]. destruct (IH r1 names2 E2) as [r' ->]. by eexists.
Qed.

(** Asking for the members gives the members.  In a group whose members' names hold no bullet and
    are not blank, asked over connections that are there: if every key that a scan sends is one of
    the group and every member is sent by one of the scans (which SCAN promises for members that stay,
    of a scan that comes to its end), the answer is the members, each once, in order. *)
Theorem members_listed rm (in_time : nat → nat) r (members : gset string) :
  rm_hasPool rm = true → (∀ r, GetContext r = None) → no_bullet (rm_Prefix rm) → (∀ name, name ∈ members → name ≠ "" ∧ no_bullet name) →
  (let '(rm, _) := validateDefaults rm in ∀ key, key ∈ scanned rm in_time (rm_RepeatCount rm) r ↔ ∃ name, name ∈ members ∧ key = member_key (rm_Prefix rm) name) →
  ∃ r' l, GetMembers rm in_time r = ((validateDefaults rm).1, r', Some (Ok l)) ∧
    StronglySorted str_le l ∧ NoDup l ∧ ∀ name, name ∈ l ↔ name ∈ members.
Proof.
  intros Hpool Hc Hp Hm Hs. unfold GetMembers. assert (Ev : (validateDefaults rm).2 = None) by (unfold validateDefaults; by rewrite Hpool).
  assert (Epre : rm_Prefix (validateDefaults rm).1 = rm_Prefix rm) by done.
  destruct (validateDefaults rm) as [rm' err]. cbn [fst snd] in *. subst err. rewrite Epre in Hs.
  set (keys := scanned rm' in_time (rm_RepeatCount rm') r) in Hs.
  assert (Hk : ∀ key, key ∈ keys → ∃ name, name ∈ members ∧ key_member key = Some name).
  { intros key Hkey. apply Hs in Hkey as (name & Hn & ->). exists name. split; [done|]. apply key_member_key; [done|]. by apply Hm. }
  destruct (mapM key_member keys) as [names|] eqn:En.
  2: { apply mapM_None, Exists_exists in En as (key & Hkey & E). apply Hk in Hkey as (name & _ & E'). congruence. }
  destruct (ask_scanned rm' in_time (rm_RepeatCount rm') r names Hc En) as [r' ->]. exists r', (compact "" (sort_strings names)).
  assert (Hsorted : StronglySorted str_le ("" :: sort_strings names)).
  { constructor; [apply sort_strings_sorted|]. apply Forall_forall. intros x _. apply blank_le. }
  destruct (compact_sorted "" (sort_strings names) Hsorted) as [H1 H2]. split_and!; [done..|].
  intros name. rewrite (compact_in "" (sort_strings names) name Hsorted), sort_strings_perm.
  apply mapM_Some in En. split.
  - intros [Hin _]. apply list_elem_of_lookup in Hin as [i Hi]. destruct (Forall2_lookup_r _ _ _ _ _ En Hi) as (key & Hkey & E).
    apply list_elem_of_lookup_2, Hk in Hkey as (name' & Hn & E'). congruence.
  - intros Hn. split; [|by apply Hm]. assert (Hkey : member_key (rm_Prefix rm) name ∈ keys) by (apply Hs; by exists name).
    apply list_elem_of_lookup in Hkey as [i Hi]. destruct (Forall2_lookup_l _ _ _ _ _ En Hi) as (x & Hx & E).
    rewrite key_member_key in E; [|done|by apply Hm]. injection E as <-. by eapply list_elem_of_lookup_2.
Qed.
End Redimem.

(** ** On a concrete server *)

Module RedimemExample.
(** A server that sends its keys in two parts, the second of them with one of the first again. *)
#[export] Instance server : RedisPool (list string) := {|
  GetContext _ := None;
  SET_EX r key _ ex := if ex <=? 0 then (r, Some "ERR invalid expire time in 'set' command") else (key :: r, None);
  DEL r key := (filter (λ k, k ≠ key) r, None);
  SCAN r cursor _ _ := (r, Ok (Some (if String.eqb cursor "0" then ("7", r) else ("0", take 1 r)))) |}.
Definition group : RedisMembership := mkMembership "prod" true 0.
Definition registered : list string := (Register group (Register group [] "b" (3 * 10 ^ 9)).1.2 "a" (3 * 10 ^ 9)).1.2.

Lemma members_listed_witness : ∃ r' l,
  GetMembers group (λ _, 5%nat) registered = ((validateDefaults group).1, r', Some (Ok l)) ∧ NoDup l ∧ (∀ name, name ∈ l ↔ name ∈ ({["a"; "b"]} : gset string)).
Proof.
  assert (Hs : let '(rm, _) := validateDefaults group in ∀ key, key ∈ scanned rm (λ _, 5%nat) (rm_RepeatCount rm) registered ↔
      ∃ name, name ∈ ({["a"; "b"]} : gset string) ∧ key = member_key (rm_Prefix rm) name).
  { intros key. change (key ∈ ["refinery•prod•a"; "refinery•prod•b"; "refinery•prod•a"; "refinery•prod•a"; "refinery•prod•b"; "refinery•prod•a"] ↔
      ∃ name, name ∈ ({["a"; "b"]} : gset string) ∧ key = member_key "prod" name). split.
    - rewrite !elem_of_cons, elem_of_nil. intros Hk.
      assert (key = "refinery•prod•a" ∨ key = "refinery•prod•b") as [-> | ->] by tauto; [exists "a"|exists "b"]; (split; [set_solver|reflexivity]).
    - intros (name & Hn & ->). assert (name = "a" ∨ name = "b") as [-> | ->] by set_solver; [left; reflexivity|right; left; reflexivity]. }
  assert (Hc : ∀ r, GetContext r = None) by reflexivity.
  destruct (members_listed group (λ _, 5%nat) registered {["a"; "b"]} eq_refl Hc eq_refl) as (r' & l & E & _ & Hn & Hin); [|exact Hs|].
  - intros name Hname. assert (name = "a" ∨ name = "b") as [-> | ->] by set_solver; split; done.
  - exists r', l. split_and!; [exact E|exact Hn|exact Hin].
Defined.

(** A registration for less than a second is sent with an expiry of zero. *)
Lemma short_registration_refused : (Register group [] "a" 999999999).2 = Some "ERR invalid expire time in 'set' command".
Proof. by vm_compute. Qed.
End RedimemExample.
