(* ===== verification/PubSubRedis.v ===== *)
(** pubsub/pubsub_goredis.go: messages between the nodes of a cluster, over Redis.

    The client keeps what it is given: which client, and with which options.  What Redis brings to a
    subscription's channel is a step of its own, [Arrives]; that it brings only what is published on
    the topic, each message at most once and in order, is a hypothesis of the theorem.  The goroutine
    of a subscription makes a step of its select at a time; the callbacks it starts are listed, and run
    on their own. *)
From Stdlib Require Import Ascii.
From S2P Require Import Prelude GoValue Metrics SamplerConfig Config MemorySize Validate ValidateFacts Settings Load Accessors.

(** ** The client *)

Record UniversalOptions := mkOptions {
  uo_Addrs : list string; uo_Username : string; uo_Password : string; uo_DB : Z;
  uo_TLSConfig : option bool   (** with TLS 1.2 at least: InsecureSkipVerify *) }.
Inductive redis_client := ClusterClient (o : UniversalOptions) | UniversalClient (o : UniversalOptions).

Definition options_of (redisCfg : RedisPeerManagementConfig) : UniversalOptions :=
  let hosts := if (0 <? length (rd_ClusterHosts redisCfg))%nat then rd_ClusterHosts redisCfg else [rd_Host redisCfg] in
  mkOptions hosts (rd_Username redisCfg) (rd_Password redisCfg) (rd_Database redisCfg)
    (if rd_UseTLS redisCfg then Some (rd_UseTLSInsecure redisCfg) else None).

Definition client_of (cfg : option RedisPeerManagementConfig) : redis_client :=
  match cfg with
  | None => UniversalClient (mkOptions [] "" "" 0 None)
  | Some redisCfg =>
      if (0 <? length (rd_ClusterHosts redisCfg))%nat then ClusterClient (options_of redisCfg) else UniversalClient (options_of redisCfg)
  end.

Definition goredisPubSubMetrics : list metric_op :=
  [MRegister "redis_pubsub_published" Counter; MRegister "redis_pubsub_received" Counter].

Section PubSub.
Context {C : Type}.

(** A subscription with the messages that wait in the channel of its connection: [None] is a nil.
    [sb_returned] is set when its goroutine has closed the connection and returned. *)
Record Subscription := mkSub {
  sb_topic : string; sb_cb : C; sb_channel : list (option string); sb_done : bool; sb_returned : bool }.

(** [gr_subs] points into [gr_made], all that were ever made. *)
Record GoRedisPubSub := mkPubSub {
  gr_client : redis_client; gr_closed : bool; gr_subs : list nat; gr_made : list Subscription }.
Implicit Types (ps : GoRedisPubSub) (sb : Subscription).

(** [auth] is what Redis answers to AUTH with that code. *)
Definition Start (cfg : option RedisPeerManagementConfig) (auth : redis_client → string → option string)
  : (GoRedisPubSub * list metric_op) + string :=
  let client := client_of cfg in
  let authcode := match cfg with Some redisCfg => rd_AuthCode redisCfg | None => "" end in
  match (if String.eqb authcode "" then None else auth client authcode) with
  | Some err => inr err
  | None => inl (mkPubSub client false [] [], goredisPubSubMetrics)
  end.

Definition FormatTopic (ClusterName topic : string) : string :=
  if String.eqb ClusterName "" then topic else ClusterName +:+ ":" +:+ topic.

(** What is asked of Redis: PUBLISH on the topic. *)
Definition Publish (topic message : string) : (string * string) * list metric_op :=
  ((topic, message), [MCount "redis_pubsub_published" 1]).

Definition Subscribe ps (topic : string) (callback : C) : GoRedisPubSub * nat :=
  let sub := length (gr_made ps) in
  (mkPubSub (gr_client ps) (gr_closed ps) (gr_subs ps ++ [sub])
     (gr_made ps ++ [mkSub topic callback [] false false]), sub).

Definition with_channel sb (l : list (option string)) : Subscription := mkSub (sb_topic sb) (sb_cb sb) l (sb_done sb) (sb_returned sb).
(** [once]: closing it again does nothing. *)
Definition close_sub sb : Subscription := mkSub (sb_topic sb) (sb_cb sb) (sb_channel sb) true (sb_returned sb).
Definition on_sub ps (sub : nat) (f : Subscription → Subscription) : GoRedisPubSub :=
  mkPubSub (gr_client ps) (gr_closed ps) (gr_subs ps) (alter f sub (gr_made ps)).

Definition Subscription_Close ps (sub : nat) : GoRedisPubSub := on_sub ps sub close_sub.

Definition Close ps : GoRedisPubSub :=
  mkPubSub (gr_client ps) true [] (gr_made (foldl Subscription_Close ps (gr_subs ps))).
Definition Stop := Close.

(** The goroutine's [case msg := <-redisch]; [None]: nothing waits there. *)
Definition receive sb : option (Subscription * list string * list metric_op) :=
  if sb_returned sb then None
  else match sb_channel sb with
       | [] => None
       | None :: rest => Some (with_channel sb rest, [], [])
       | Some payload :: rest => Some (with_channel sb rest, [payload], [MCount "redis_pubsub_received" 1])
       end.
(** Its [case <-sub.done]. *)
Definition return_ sb : option Subscription :=
  if sb_done sb && negb (sb_returned sb) then Some (mkSub (sb_topic sb) (sb_cb sb) (sb_channel sb) true true) else None.

(** ** The steps *)

Inductive op :=
| Subscribes (topic : string) (callback : C)
| Arrives (sub : nat) (msg : option string)
| Receives (sub : nat)
| Returns (sub : nat)
| SubCloses (sub : nat)
| Closes.

(** The callbacks started: of which subscription, and with which message. *)
Definition step ps (o : op) : option (GoRedisPubSub * list (nat * C * string) * list metric_op) :=
  match o with
  | Subscribes topic callback => Some ((Subscribe ps topic callback).1, [], [])
  | Arrives sub msg =>
      match gr_made ps !! sub with
      | Some sb => Some (on_sub ps sub (λ sb, with_channel sb (sb_channel sb ++ [msg])), [], [])
      | None => None
      end
  | Receives sub =>
      match gr_made ps !! sub with
      | Some sb =>
          match receive sb with
          | Some (sb', payloads, ms) =>
              Some (on_sub ps sub (λ _, sb'), (λ payload, (sub, sb_cb sb, payload)) <$> payloads, ms)
          | None => None
          end
      | None => None
      end
  | Returns sub =>
      match gr_made ps !! sub with
      | Some sb => match return_ sb with Some sb' => Some (on_sub ps sub (λ _, sb'), [], []) | None => None end
      | None => None
      end
  | SubCloses sub => Some (Subscription_Close ps sub, [], [])
  | Closes => Some (Close ps, [], [])
  end.

Fixpoint run ps (l : list op) : option (GoRedisPubSub * list (nat * C * string) * list metric_op) :=
  match l with
  | [] => Some (ps, [], [])
  | o :: l =>
      match step ps o with
      | Some (ps, started, ms) =>
          match run ps l with
          | Some (ps, started', ms') => Some (ps, (started ++ started')%list, (ms ++ ms')%list)
          | None => None
          end
      | None => None
      end
  end.
End PubSub.
Arguments Subscription : clear implicits.
Arguments GoRedisPubSub : clear implicits.
Arguments op : clear implicits.

(** ** What a subscription's callback is called with *)

Section Facts.
Context {C : Type}.
Implicit Types (ps : GoRedisPubSub C) (sb : Subscription C) (l : list (op C)).

Definition payloads (l : list (option string)) : list string := omap id l.
Definition channel_of ps (sub : nat) : list (option string) := match gr_made ps !! sub with Some sb => sb_channel sb | None => [] end.
Definition launched (sub : nat) (started : list (nat * C * string)) : list string := snd <$> filter (λ x, x.1.1 = sub) started.
Definition arrival (sub : nat) (o : op C) : list string :=
  match o with Arrives s (Some m) => if decide (s = sub) then [m] else [] | _ => [] end.
Definition arrivals (sub : nat) l : list string := concat (arrival sub <$> l).

Lemma on_sub_channel ps s f sub : channel_of (on_sub ps s f) sub =
  match gr_made ps !! sub with Some sb => if decide (s = sub) then sb_channel (f sb) else sb_channel sb | None => [] end.
Proof.
  unfold channel_of, on_sub. cbn [gr_made]. destruct (decide (s = sub)) as [->|Hne].
  - rewrite list_lookup_alter_eq. by destruct (gr_made ps !! sub).
  - by rewrite list_lookup_alter_ne.
Qed.

(** Closing changes neither the channel nor the callback. *)
Definition same_sub sb sb' : Prop :=
  sb_topic sb' = sb_topic sb ∧ sb_cb sb' = sb_cb sb ∧ (sb_returned sb = true → sb_returned sb' = true).

Lemma on_sub_same ps s f sub sb : (∀ sb, gr_made ps !! s = Some sb → same_sub sb (f sb)) → gr_made ps !! sub = Some sb →
  ∃ sb', gr_made (on_sub ps s f) !! sub = Some sb' ∧ same_sub sb sb'.
Proof.
  intros Hf Hsub. unfold on_sub. cbn [gr_made]. destruct (decide (s = sub)) as [->|Hne].
  - exists (f sb). rewrite list_lookup_alter_eq, Hsub. split; [done|]. by apply Hf.
  - exists sb. rewrite list_lookup_alter_ne by done. by repeat split.
Qed.

Lemma closes_channel subs ps sub : channel_of (foldl Subscription_Close ps subs) sub = channel_of ps sub.
Proof.
  revert ps. induction subs as [|s subs IH]; intros ps; [done|]. cbn [foldl]. rewrite IH. unfold Subscription_Close.
  rewrite on_sub_channel. unfold channel_of. destruct (gr_made ps !! sub); [|done]. by case_decide.
Qed.
Lemma closes_same subs ps sub sb : gr_made ps !! sub = Some sb →
  ∃ sb', gr_made (foldl Subscription_Close ps subs) !! sub = Some sb' ∧ same_sub sb sb'.
Proof.
  revert ps sb. induction subs as [|s subs IH]; intros ps sb Hsub; [exists sb; by repeat split|]. cbn [foldl].
  destruct (on_sub_same ps s close_sub sub sb) as (sb1 & Hsb1 & E1 & E2 & E3); [by intros ? _; repeat split|done|].
  destruct (IH _ _ Hsb1) as (sb2 & Hsb2 & E4 & E5 & E6). exists sb2. split; [done|]. repeat split; [congruence|congruence|auto].
Qed.

Lemma receive_spec sb sb' pl ms : receive sb = Some (sb', pl, ms) →
  same_sub sb sb' ∧ sb_returned sb = false ∧ pl ++ payloads (sb_channel sb') = payloads (sb_channel sb) ∧
  ms = replicate (length pl) (MCount "redis_pubsub_received" 1).
Proof.
  unfold receive. destruct (sb_returned sb) eqn:Er; [done|]. destruct (sb_channel sb) as [|[m|] rest]; intros E; simplify_eq; repeat split; done.
Qed.

Lemma launched_of sub s (cb : C) (pl : list string) :
  launched sub ((λ payload, (s, cb, payload)) <$> pl) = if decide (s = sub) then pl else [].
Proof.
  unfold launched. induction pl as [|m pl IH]; [by case_decide|]. rewrite fmap_cons. destruct (decide (s = sub)) as [E|E].
  - rewrite filter_cons_True by done. rewrite fmap_cons. by f_equal.
  - by rewrite filter_cons_False.
Qed.

(** A step: what it starts for a subscription comes from the channel, or from what has just arrived. *)
Lemma step_queue ps o ps' st ms sub : step ps o = Some (ps', st, ms) →
  launched sub st ++ payloads (channel_of ps' sub) = payloads (channel_of ps sub) ++ arrival sub o.
Proof.
  destruct o as [topic cb|s msg|s|s|s|]; cbn [step]; intros E.
  - simplify_eq. unfold Subscribe, channel_of. cbn. rewrite app_nil_r. f_equal.
    destruct (decide (sub < length (gr_made ps))%nat) as [Hlt|Hge]; [by rewrite lookup_app_l|].
    rewrite lookup_app_r by lia. rewrite (lookup_ge_None_2 (gr_made ps)) by lia. by destruct (sub - length (gr_made ps))%nat as [|[]].
  - destruct (gr_made ps !! s) as [sb|] eqn:Es; [|done]. simplify_eq. rewrite on_sub_channel. unfold channel_of. cbn [launched filter fmap list_fmap app].
    destruct (decide (s = sub)) as [->|Hne]; [rewrite Es|]; cbn.
    + unfold payloads. rewrite omap_app. destruct msg; cbn; [by rewrite decide_True|done].
    + destruct msg; cbn; [rewrite decide_False by done|]; by rewrite app_nil_r.
  - destruct (gr_made ps !! s) as [sb|] eqn:Es; [|done]. destruct (receive sb) as [[[sb' pl] ms']|] eqn:Er; [|done]. simplify_eq.
    apply receive_spec in Er as (_ & _ & Hq & _). rewrite on_sub_channel, app_nil_r, launched_of. unfold channel_of.
    destruct (decide (s = sub)) as [->|Hne]; [by rewrite Es, <- Hq|done].
  - destruct (gr_made ps !! s) as [sb|] eqn:Es; [|done]. unfold return_ in E. destruct (_ && _); [|done]. simplify_eq. rewrite on_sub_channel, app_nil_r.
    unfold channel_of. destruct (decide (s = sub)) as [->|Hne]; [by rewrite Es|done].
  - simplify_eq. rewrite app_nil_r. exact (f_equal payloads (closes_channel [s] ps sub)).
  - simplify_eq. rewrite app_nil_r. unfold Close. exact (f_equal payloads (closes_channel (gr_subs ps) ps sub)).
Qed.

Lemma step_same ps o ps' st ms sub sb : step ps o = Some (ps', st, ms) → gr_made ps !! sub = Some sb →
  ∃ sb', gr_made ps' !! sub = Some sb' ∧ same_sub sb sb' ∧ (sb_returned sb = true → launched sub st = []).
Proof.
  destruct o as [topic cb|s msg|s|s|s|]; cbn [step]; intros E Hsub.
  - simplify_eq. exists sb. cbn. rewrite lookup_app_l by by eapply lookup_lt_Some. by repeat split.
  - destruct (gr_made ps !! s) as [sb0|] eqn:Es; [|done]. simplify_eq.
    destruct (on_sub_same ps s (λ sb, with_channel sb (sb_channel sb ++ [msg])) sub sb) as (sb' & ? & ?); [by intros ? _; repeat split|done|].
    by exists sb'.
  - destruct (gr_made ps !! s) as [sb0|] eqn:Es; [|done]. destruct (receive sb0) as [[[sb0' pl] ms']|] eqn:Er; [|done]. simplify_eq.
    apply receive_spec in Er as (Hsame & Hnot & _).
    destruct (on_sub_same ps s (λ _, sb0') sub sb) as (sb' & ? & ?); [by intros ? ?; simplify_eq|done|]. exists sb'. repeat split_and; try done.
    intros Hr. rewrite launched_of. destruct (decide (s = sub)) as [->|Hne]; [congruence|done].
  - destruct (gr_made ps !! s) as [sb0|] eqn:Es; [|done]. unfold return_ in E. destruct (_ && _); [|done]. simplify_eq.
    destruct (on_sub_same ps s (λ _, mkSub (sb_topic sb0) (sb_cb sb0) (sb_channel sb0) true true) sub sb) as (sb' & ? & ?);
      [by intros ? ?; simplify_eq; repeat split|done|]. by exists sb'.
  - simplify_eq. destruct (closes_same [s] ps sub sb Hsub) as (sb' & ? & ?). by exists sb'.
  - simplify_eq. destruct (closes_same (gr_subs ps) ps sub sb Hsub) as (sb' & ? & ?). by exists sb'.
Qed.

Lemma run_cons ps o l ps' st ms : run ps (o :: l) = Some (ps', st, ms) → ∃ ps1 st1 ms1 st2 ms2,
  step ps o = Some (ps1, st1, ms1) ∧ run ps1 l = Some (ps', st2, ms2) ∧ st = st1 ++ st2 ∧ ms = ms1 ++ ms2.
Proof.
  cbn [run]. destruct (step ps o) as [[[ps1 st1] ms1]|]; [|done]. destruct (run ps1 l) as [[[ps2 st2] ms2]|] eqn:E2; [|done].
  intros E. simplify_eq. by exists ps1, st1, ms1, st2, ms2.
Qed.

Lemma launched_app sub (st1 st2 : list (nat * C * string)) : launched sub (st1 ++ st2) = launched sub st1 ++ launched sub st2.
Proof. unfold launched. by rewrite filter_app, fmap_app. Qed.

Lemma run_queue l ps ps' st ms sub : run ps l = Some (ps', st, ms) →
  launched sub st ++ payloads (channel_of ps' sub) = payloads (channel_of ps sub) ++ arrivals sub l.
Proof.
  revert ps st ms. induction l as [|o l IH]; intros ps st ms E.
  - injection E as <- <- <-. by rewrite app_nil_r.
  - apply run_cons in E as (ps1 & st1 & ms1 & st2 & ms2 & E1 & E2 & -> & ->). apply (step_queue _ _ _ _ _ sub) in E1. apply IH in E2.
    rewrite launched_app, <- app_assoc, E2, app_assoc, E1, <- app_assoc. done.
Qed.

Lemma run_same l ps ps' st ms sub sb : run ps l = Some (ps', st, ms) → gr_made ps !! sub = Some sb →
  ∃ sb', gr_made ps' !! sub = Some sb' ∧ same_sub sb sb' ∧ (sb_returned sb = true → launched sub st = []).
Proof.
  revert ps sb st ms. induction l as [|o l IH]; intros ps sb st ms E Hsub.
  - injection E as <- <- <-. exists sb. by repeat split.
  - apply run_cons in E as (ps1 & st1 & ms1 & st2 & ms2 & E1 & E2 & -> & ->).
    destruct (step_same _ _ _ _ _ _ _ E1 Hsub) as (sb1 & Hsb1 & (T1 & C1 & R1) & N1).
    destruct (IH _ _ _ _ E2 Hsb1) as (sb2 & Hsb2 & (T2 & C2 & R2) & N2).
    exists sb2. repeat split_and; [done|repeat split; [congruence|congruence|auto]|].
    intros Hr. rewrite launched_app, N1, N2; auto.
Qed.

(** Every callback started is that of its subscription. *)
Lemma step_callbacks ps o ps' st ms : step ps o = Some (ps', st, ms) →
  Forall (λ x : nat * C * string, ∃ sb, gr_made ps' !! x.1.1 = Some sb ∧ sb_cb sb = x.1.2) st.
Proof.
  destruct o as [topic cb|s msg|s|s|s|]; cbn [step]; intros E; repeat case_match; simplify_eq; try (by apply Forall_nil).
  match goal with H : receive _ = Some _ |- _ => apply receive_spec in H as ((_ & Hcb & _) & _) end.
  apply Forall_fmap, Forall_true. intros m. cbn. rewrite list_lookup_alter_eq.
  match goal with H : gr_made _ !! _ = Some _ |- _ => rewrite H end. by eexists.
Qed.
Lemma run_callbacks l ps ps' st ms : run ps l = Some (ps', st, ms) →
  Forall (λ x : nat * C * string, ∃ sb, gr_made ps' !! x.1.1 = Some sb ∧ sb_cb sb = x.1.2) st.
Proof.
  revert ps st ms. induction l as [|o l IH]; intros ps st ms E; [injection E as <- <- <-; by apply Forall_nil|].
  apply run_cons in E as (ps1 & st1 & ms1 & st2 & ms2 & E1 & E2 & -> & ->). apply Forall_app. split; [|by eapply IH].
  eapply Forall_impl; [by eapply step_callbacks|]. intros x (sb & Hsb & Hcb).
  destruct (run_same _ _ _ _ _ _ _ E2 Hsb) as (sb' & Hsb' & (_ & Hcb' & _) & _). exists sb'. split; [done|congruence].
Qed.

(** A message is counted when its callback is started. *)
Lemma run_counts l ps ps' st ms : run ps l = Some (ps', st, ms) → ms = replicate (length st) (MCount "redis_pubsub_received" 1).
Proof.
  revert ps st ms. induction l as [|o l IH]; intros ps st ms E; [by injection E as <- <- <-|].
  apply run_cons in E as (ps1 & st1 & ms1 & st2 & ms2 & E1 & E2 & -> & ->). apply IH in E2 as ->. rewrite length_app, replicate_add. f_equal.
  destruct o; cbn [step] in E1; repeat case_match; simplify_eq; try done.
  rewrite length_fmap. by eapply receive_spec.
Qed.

(** ** Topics *)

Definition plain_name (s : string) : Prop := str_forallb (λ c, negb (Ascii.eqb ":" c)) s = true.

Lemma plain_no_index s : plain_name s → index_char ":" s = None.
Proof.
  unfold plain_name. induction s as [|c s IH]; [done|]. cbn [str_forallb index_char]. intros [Hc Hs]%andb_prop.
  rewrite IH by done. by destruct (Ascii.eqb ":" c).
Qed.

Lemma drop_app_length s t : str_drop (String.length s) (s +:+ t) = t.
Proof. induction s; [by destruct t|done]. Qed.
Lemma take_app_length s t : str_take (String.length s) (s +:+ t) = s.
Proof. induction s as [|c s IH]; [by destruct t|]. cbn. f_equal. apply IH. Qed.

Lemma FormatTopic_inj c1 t1 c2 t2 : plain_name c1 → plain_name t1 → plain_name c2 → plain_name t2 →
  FormatTopic c1 t1 = FormatTopic c2 t2 → c1 = c2 ∧ t1 = t2.
Proof.
  intros P1 Q1 P2 Q2 E.
  assert (Hi : ∀ c t, plain_name c → plain_name t →
    index_char ":" (FormatTopic c t) = if String.eqb c "" then None else Some (String.length c)).
  { intros c t P Q. unfold FormatTopic. destruct (String.eqb c ""); [by apply plain_no_index|]. by apply index_char_app. }
  pose proof (Hi c1 t1 P1 Q1) as I1. pose proof (Hi c2 t2 P2 Q2) as I2. rewrite E, I2 in I1. unfold FormatTopic in E.
  destruct (String.eqb_spec c1 "") as [->|], (String.eqb_spec c2 "") as [->|]; [done|done|done|]. injection I1 as I1.
  assert (c1 = c2) as ->.
  { apply (f_equal (str_take (String.length c1))) in E. rewrite take_app_length in E. rewrite <- I1, take_app_length in E. done. }
  split; [done|]. apply (f_equal (str_drop (String.length c2))) in E. rewrite !drop_app_length in E. by injection E.
Qed.

(** What a cluster of that name publishes on a topic of that name. *)
Definition of_cluster (cluster topic : string) (pubs : list (string * string * string)) : list string :=
  omap (λ x : string * string * string, if decide (x.1 = (cluster, topic)) then Some x.2 else None) pubs.
(** What Redis is asked to publish, and what of it is on a topic. *)
Definition asked (pubs : list (string * string * string)) : list (string * string) :=
  (λ x : string * string * string, (Publish (FormatTopic x.1.1 x.1.2) x.2).1) <$> pubs.
Definition on_topic (topic : string) (l : list (string * string)) : list string := snd <$> filter (λ x : string * string, x.1 = topic) l.

Lemma asked_on_topic cluster topic pubs : plain_name cluster → plain_name topic →
  Forall (λ x : string * string * string, plain_name x.1.1 ∧ plain_name x.1.2) pubs →
  on_topic (FormatTopic cluster topic) (asked pubs) = of_cluster cluster topic pubs.
Proof.
  intros Pc Pt Hall. unfold on_topic, asked, of_cluster. induction Hall as [|[[c t] m] pubs [P Q] _ IH]; [done|]. cbn [fst snd] in P, Q.
  rewrite fmap_cons. cbn [omap list_omap fst snd Publish]. destruct (decide ((c, t) = (cluster, topic))) as [E|E].
  - simplify_eq. rewrite filter_cons_True by done. rewrite fmap_cons. by f_equal.
  - rewrite filter_cons_False; [done|]. cbn. intros E'. apply FormatTopic_inj in E'; [|done..]. by destruct E' as [-> ->].
Qed.

(** C31: clusters share one Redis and do not hear each other.  Whatever the order of subscriptions,
    arrivals, receptions and closings, the callbacks started for a subscription are its own, and their
    messages are, in order, those that arrived there, except for what still waits in its channel; so if
    Redis brings to a channel some of what is published on its topic, each message at most once and in
    order, then every callback of a subscription to a topic of a cluster is for a message that a node
    of that cluster published on that topic, at most once each and in order - provided no name of a
    cluster or of a topic contains a colon.  A subscription whose goroutine has returned is silent, and
    every message received is counted. *)
Theorem messages_stay_in_cluster cfg auth ps reg l ps' started ms sub sb cluster topic pubs :
  Start cfg auth = inl (ps, reg) → run ps l = Some (ps', started, ms) →
  gr_made ps' !! sub = Some sb → sb_topic sb = FormatTopic cluster topic →
  plain_name cluster → plain_name topic → Forall (λ x : string * string * string, plain_name x.1.1 ∧ plain_name x.1.2) pubs →
  sublist (arrivals sub l) (on_topic (sb_topic sb) (asked pubs)) →
  launched sub started ++ payloads (sb_channel sb) = arrivals sub l ∧
  sublist (launched sub started) (of_cluster cluster topic pubs) ∧
  Forall (λ x : nat * C * string, x.1.1 = sub → x.1.2 = sb_cb sb) started ∧
  (sb_returned sb = true → ∀ l' ps'' started' ms', run ps' l' = Some (ps'', started', ms') → launched sub started' = []) ∧
  ms = replicate (length started) (MCount "redis_pubsub_received" 1).
Proof.
  intros Hstart Hrun Hsb Htopic Pc Pt Hall Hredis.
  assert (Hq : launched sub started ++ payloads (sb_channel sb) = arrivals sub l).
  { apply (run_queue _ _ _ _ _ sub) in Hrun. unfold channel_of in Hrun. rewrite Hsb in Hrun. rewrite Hrun.
    unfold Start in Hstart. repeat case_match; by simplify_eq. }
  repeat split_and; [done| | | |by eapply run_counts].
  - rewrite Htopic, asked_on_topic in Hredis by done. etrans; [|exact Hredis]. rewrite <- Hq. by apply sublist_inserts_r.
  - eapply Forall_impl; [by eapply run_callbacks|]. intros x (sb' & Hsb' & <-) <-. congruence.
  - intros Hr l' ps'' started' ms' Hrun'. destruct (run_same _ _ _ _ _ _ _ Hrun' Hsb) as (sb' & _ & _ & Hn). auto.
Qed.
End Facts.

(** ** A node of one cluster, on the Redis of two *)

Module PubSubExample.
Definition redisCfg : RedisPeerManagementConfig := mkRedis "redis:6379" [] "" "" "secret" "blue" "" 0 true false (5 * 10 ^ 9).
Definition asks (client : redis_client) (authcode : string) : option string := if String.eqb authcode "secret" then None else Some "WRONGPASS".
Definition ready : GoRedisPubSub nat := mkPubSub (client_of (Some redisCfg)) false [] [].
Definition steps : list (op nat) :=
  [Subscribes (FormatTopic "blue" "peers") 7%nat; Arrives 0 (Some "R1"); Arrives 0 None; Receives 0; Receives 0;
   Arrives 0 (Some "R3"); Closes; Returns 0].
Definition pubs : list (string * string * string) :=
  [("blue", "peers", "R1"); ("green", "peers", "R2"); ("", "peers", "R2"); ("blue", "peers", "R3"); ("blue", "cfg_update", "now")].
Definition after : GoRedisPubSub nat := mkPubSub (client_of (Some redisCfg)) true [] [mkSub "blue:peers" 7%nat [Some "R3"] true true].

Lemma messages_stay_in_cluster_witness :
  run ready steps = Some (after, [(0%nat, 7%nat, "R1")], [MCount "redis_pubsub_received" 1]) ∧
  sublist (launched 0 [(0%nat, 7%nat, "R1")]) (of_cluster "blue" "peers" pubs).
Proof.
  assert (Hrun : run ready steps = Some (after, [(0%nat, 7%nat, "R1")], [MCount "redis_pubsub_received" 1])) by reflexivity.
  split; [exact Hrun|].
  eapply (messages_stay_in_cluster (Some redisCfg) asks ready goredisPubSubMetrics steps after _ _ 0 (mkSub "blue:peers" 7%nat [Some "R3"] true true)
            "blue" "peers" pubs); [reflexivity|exact Hrun|reflexivity..| |].
  - repeat constructor.
  - vm_compute. repeat constructor.
Defined.

(** The hypothesis on names matters: cluster "a" on the topic "b:peers" is cluster "a:b" on "peers". *)
Lemma colon_confuses : FormatTopic "a" "b:peers" = FormatTopic "a:b" "peers".
Proof. reflexivity. Qed.
End PubSubExample.
