(* ===== verification/Health.v ===== *)
(** internal/health/health.go: the health of the subsystems.

    [Health] is the object under its lock; the specification is one small automaton per
    subsystem, [sub], and the refinement theorem says the object is their product. *)
From S2P Require Import Prelude GoValue Metrics.

Definition TickerTime : Z := 500 * 1000000.

Record Health := mkHealth {
  h_timeouts : gmap string Z;
  h_timeLeft : gmap string Z;
  h_readies : gmap string bool;
  h_alives : gmap string bool }.

Implicit Types (h : Health) (s : string).

Definition Health_Start : Health * list metric_op :=
  (mkHealth ∅ ∅ ∅ ∅, [MRegister "is_ready" Gauge; MRegister "is_alive" Gauge]).

Definition count_down (timeLeft : Z) : Z := if 0 <? timeLeft then Z.max (timeLeft - TickerTime) 0 else timeLeft.

(** One tick. *)
Definition Health_tick h : Health := mkHealth (h_timeouts h) (count_down <$> h_timeLeft h) (h_readies h) (h_alives h).

Definition Health_Register h s (timeout : Z) : Health :=
  mkHealth (<[s := timeout]> (h_timeouts h)) (<[s := -1]> (h_timeLeft h)) (<[s := false]> (h_readies h)) (h_alives h).

Definition Unregister h s : Health :=
  mkHealth (delete s (h_timeouts h)) (delete s (h_timeLeft h)) (<[s := false]> (h_readies h)) (delete s (h_alives h)).

(** The first dead subsystem found, in an unspecified order, is marked. *)
Definition first_dead (timeLeft : list (string * Z)) : option string :=
  fst <$> head (filter (λ x, x.2 = 0) timeLeft).

Definition checkAlive h : bool * Health :=
  match first_dead (map_to_list (h_timeLeft h)) with
  | None => (true, h)
  | Some s =>
      (false, mkHealth (h_timeouts h) (h_timeLeft h) (h_readies h)
                (if default false (h_alives h !! s) then <[s := false]> (h_alives h) else h_alives h))
  end.
Definition IsAlive := checkAlive.

Definition checkReady h : bool :=
  if bool_decide (h_readies h = ∅) then false
  else if forallb (λ x : string * Z, 0 <? x.2) (map_to_list (h_timeLeft h))
       then forallb (λ x : string * bool, x.2) (map_to_list (h_readies h)) else false.
Definition IsReady := checkReady.

(** A report from a subsystem that is not registered is ignored. *)
Definition Health_Ready h s (ready : bool) : Health * list metric_op :=
  match h_timeouts h !! s with
  | None => (h, [])
  | Some timeout =>
      let h := mkHealth (h_timeouts h) (<[s := timeout]> (h_timeLeft h)) (<[s := ready]> (h_readies h))
                 (<[s := true]> (h_alives h)) in
      let isReady := checkReady h in
      let '(isAlive, h) := checkAlive h in
      (h, [MGauge "is_ready" (ConvertBoolToFloat isReady); MGauge "is_alive" (ConvertBoolToFloat isAlive)])
  end.

(** ** The specification: each subsystem on its own *)

Inductive report := Registered (s : string) (timeout : Z) | Unregistered (s : string) | Reported (s : string) (ready : bool) | Tick | Asked.

(** Never registered, registered and silent, reporting with this much time left, unregistered. *)
Inductive sub := Unknown | Silent (timeout : Z) | Reporting (timeout rest : Z) (ready : bool) | Gone.

Definition sub_step (me : string) (x : sub) (r : report) : sub :=
  match r with
  | Registered s timeout => if String.eqb s me then Silent timeout else x
  | Unregistered s => if String.eqb s me then Gone else x
  | Reported s ready =>
      if String.eqb s me then
        match x with
        | Silent timeout | Reporting timeout _ _ => Reporting timeout timeout ready
        | _ => x
        end
      else x
  | Tick => match x with Reporting timeout rest ready => Reporting timeout (count_down rest) ready | _ => x end
  | Asked => x
  end.

Definition sub_run (history : list report) (me : string) : sub := foldl (sub_step me) Unknown history.

Definition sub_dead (x : sub) : Prop := match x with Reporting _ rest _ => rest = 0 | _ => False end.
Definition sub_ready (x : sub) : Prop := match x with Reporting _ rest ready => 0 < rest ∧ ready = true | _ => False end.

Definition health_step h (r : report) : Health :=
  match r with
  | Registered s timeout => Health_Register h s timeout
  | Unregistered s => Unregister h s
  | Reported s ready => (Health_Ready h s ready).1
  | Tick => Health_tick h
  | Asked => (IsAlive h).2
  end.
Definition health_run (history : list report) : Health := foldl health_step (Health_Start).1 history.

(** ** The object is the product of the subsystems *)

Definition sub_of h s (x : sub) : Prop :=
  (h_timeouts h !! s, h_timeLeft h !! s, h_readies h !! s) =
  match x with
  | Unknown => (None, None, None)
  | Silent timeout => (Some timeout, Some (-1), Some false)
  | Reporting timeout rest ready => (Some timeout, Some rest, Some ready)
  | Gone => (None, None, Some false)
  end.

Lemma checkAlive_maps h :
  h_timeouts (checkAlive h).2 = h_timeouts h ∧ h_timeLeft (checkAlive h).2 = h_timeLeft h ∧ h_readies (checkAlive h).2 = h_readies h.
Proof. unfold checkAlive. by destruct (first_dead _). Qed.

Lemma sub_of_step h (x : string → sub) r :
  (∀ s, sub_of h s (x s)) → ∀ s, sub_of (health_step h r) s (sub_step s (x s) r).
Proof.
  intros Hx s. specialize (Hx s) as Hs. unfold sub_of in *. destruct r as [s' timeout|s'|s' ready| |]; cbn [health_step sub_step].
  - destruct (String.eqb_spec s' s) as [->|Hne]; simpl; [by rewrite !lookup_insert_eq|by rewrite !lookup_insert_ne].
  - destruct (String.eqb_spec s' s) as [->|Hne]; simpl.
    + by rewrite !lookup_delete_eq, lookup_insert_eq.
    + by rewrite !lookup_delete_ne, lookup_insert_ne.
  - unfold Health_Ready. destruct (h_timeouts h !! s') as [t|] eqn:Et.
    + set (h' := mkHealth _ _ _ _). pose proof (checkAlive_maps h') as (E1 & E2 & E3).
      destruct (checkAlive h') as [alive h2]. simpl in E1, E2, E3 |- *. rewrite E1, E2, E3.
      destruct (String.eqb_spec s' s) as [->|Hne].
      * rewrite !lookup_insert_eq, Et. destruct (x s); simplify_eq; congruence.
      * by rewrite !lookup_insert_ne.
    + simpl. destruct (String.eqb_spec s' s) as [->|Hne]; [|done]. rewrite Et in Hs. destruct (x s); congruence.
  - simpl. rewrite lookup_fmap. destruct (x s); simplify_eq; repeat match goal with H : _ = _ |- _ => rewrite H end; done.
  - unfold IsAlive. destruct (checkAlive_maps h) as (-> & -> & ->). done.
Qed.

Lemma run_sub_of history s : sub_of (health_run history) s (sub_run history s).
Proof.
  revert s. induction history as [|r history IH] using rev_ind; intros s; [done|].
  unfold health_run, sub_run. rewrite !foldl_app. cbn [foldl]. by apply (sub_of_step _ (sub_run history)).
Qed.

Lemma IsAlive_spec h : (IsAlive h).1 = true ↔ ∀ s rest, h_timeLeft h !! s = Some rest → rest ≠ 0.
Proof.
  unfold IsAlive, checkAlive, first_dead. destruct (filter _ _) as [|[s rest] l] eqn:E; simpl; split; try done.
  - intros _ s rest Hs ->. assert (Hin : (s, 0) ∈ filter (λ x : string * Z, x.2 = 0) (map_to_list (h_timeLeft h))).
    { apply list_elem_of_filter. split; [done|]. by apply elem_of_map_to_list. }
    rewrite E in Hin. by apply elem_of_nil in Hin.
  - intros Hall. assert (Hin : (s, rest) ∈ filter (λ x : string * Z, x.2 = 0) (map_to_list (h_timeLeft h))) by (rewrite E; by left).
    apply list_elem_of_filter in Hin as [H0 Hin]. apply elem_of_map_to_list in Hin. by apply Hall in Hin.
Qed.

Lemma forallb_map `{Countable K} {A} (f : K * A → bool) (m : gmap K A) :
  forallb f (map_to_list m) = true ↔ ∀ k a, m !! k = Some a → f (k, a) = true.
Proof.
  rewrite forallb_forall. split.
  - intros Hall k a Hk. apply Hall, list_elem_of_In. by apply elem_of_map_to_list.
  - intros Hall [k a] Hin. apply list_elem_of_In, elem_of_map_to_list in Hin. by apply Hall.
Qed.

Lemma IsReady_spec h :
  IsReady h = true ↔ h_readies h ≠ ∅ ∧ (∀ s rest, h_timeLeft h !! s = Some rest → 0 < rest) ∧
    (∀ s b, h_readies h !! s = Some b → b = true).
Proof.
  unfold IsReady, checkReady. case_bool_decide as E; [by split; [|intros [? _]]|].
  destruct (forallb (λ x : string * Z, 0 <? x.2) _) eqn:El.
  - rewrite forallb_map in El. split.
    + rewrite forallb_map. intros Hr. split; [done|]. split; [|done]. intros s rest Hs. apply El in Hs. simpl in Hs. lia.
    + intros (_ & _ & Hr). by apply forallb_map.
  - split; [done|]. intros (_ & Hl & _). rewrite <-El. apply forallb_map. intros s rest Hs. apply Hl in Hs. simpl. lia.
Qed.

(** What is left to a subsystem that has not reported for [n] ticks. *)
Lemma sub_ticks me (history : list report) timeout rest ready (n : nat) :
  sub_run history me = Reporting timeout rest ready → 0 ≤ rest →
  sub_run (history ++ replicate n Tick) me = Reporting timeout (Z.max (rest - Z.of_nat n * TickerTime) 0) ready.
Proof.
  intros Hr Hl. induction n as [|n IH].
  - rewrite app_nil_r, Hr. f_equal. lia.
  - rewrite replicate_S_end, (assoc_L (++)). unfold sub_run at 1. rewrite foldl_app.
    fold (sub_run (history ++ replicate n Tick) me). rewrite IH. cbn. f_equal. unfold count_down, TickerTime in *.
    destruct (Z.ltb_spec 0 (Z.max (rest - Z.of_nat n * (500 * 1000000)) 0)); lia.
Qed.

(** C39: the node is alive exactly when no subsystem that has reported has since been silent for its
      timeout, and ready exactly when some subsystem has been registered and every one there ever
      was is registered, has time left and last reported ready; each subsystem counts alone,
      whatever the others do.  A subsystem that reports and then falls silent is dead after
      [timeout / TickerTime] ticks, rounded up, and not before. *)
Theorem health_tracks_subsystems (history : list report) :
  let h := health_run history in
  ((IsAlive h).1 = true ↔ ∀ s, ¬ sub_dead (sub_run history s)) ∧
  (IsReady h = true ↔ (∃ s, sub_run history s ≠ Unknown) ∧
     ∀ s, sub_run history s ≠ Unknown → sub_ready (sub_run history s)) ∧
  (∀ s timeout ready n, sub_run history s = Reporting timeout timeout ready → 0 < timeout →
     (sub_dead (sub_run (history ++ replicate n Tick) s) ↔ timeout ≤ Z.of_nat n * TickerTime)).
Proof.
  cbn zeta. pose proof (run_sub_of history) as Hs. unfold sub_of in Hs. split_and!.
  - rewrite IsAlive_spec. split.
    + intros Hall s Hd. specialize (Hs s). destruct (sub_run history s); try done. simpl in Hd. subst.
      by apply (Hall s 0); [congruence|].
    + intros Hall s rest Hleft ->. specialize (Hs s). apply (Hall s). destruct (sub_run history s); simpl; congruence.
  - rewrite IsReady_spec. split.
    + intros (Hne & Hl & Hr). split.
      * apply map_choose in Hne as (s & b & Hb). exists s. specialize (Hs s). intros E. rewrite E in Hs. congruence.
      * intros s Hu. specialize (Hs s). specialize (Hl s). specialize (Hr s).
        destruct (sub_run history s) as [|timeout|timeout rest ready|]; [done| | |]; simplify_eq; simpl.
        -- by specialize (Hr false ltac:(congruence)).
        -- split; [apply Hl; congruence|apply Hr; congruence].
        -- by specialize (Hr false ltac:(congruence)).
    + intros [[s Hs1] Hall]. split_and!.
      * intros E. specialize (Hs s). rewrite E, lookup_empty in Hs. destruct (sub_run history s); congruence.
      * intros s' rest Hleft. specialize (Hs s'). specialize (Hall s').
        destruct (sub_run history s'); try congruence; simpl in Hall; try (by destruct Hall).
        destruct Hall as [? _]; [done|congruence].
      * intros s' b Hb. specialize (Hs s'). specialize (Hall s').
        destruct (sub_run history s'); try congruence; simpl in Hall; try (by destruct Hall).
        destruct Hall as [_ ?]; [done|congruence].
  - intros s timeout ready n Hr Ht. rewrite (sub_ticks s history timeout timeout ready n Hr) by lia. simpl. lia.
Qed.
