(* ===== verification/Agent.v ===== *)
(** agent/agent.go: the agent that speaks OpAMP with a remote server for a node.

    Its goroutines are steps: a tick of the health check (which also reads the usage counters), a tick
    of the usage reports, and a message from the server, which may bring a configuration to load.
    The OpAMP client is the class OpAMPClient: its calls change its state and may fail; what is told
    to the server are the calls.  A channel that a message has been sent on, or the agent's end, is
    waited for by [wait_sent]. *)
From S2P Require Import Prelude GoValue Metrics Usage Health SamplerConfig Config MemorySize Validate ValidateFacts Settings Load LoadFacts.

Inductive RemoteConfigStatuses := APPLYING | APPLIED | FAILED.
#[export] Instance RemoteConfigStatuses_eq_dec : EqDecision RemoteConfigStatuses.
Proof. solve_decision. Defined.

Record RemoteConfigStatus := mkStatus {
  LastRemoteConfigHash : string; Status : RemoteConfigStatuses; ErrorMessage : string }.

(** [None] is a message without a configuration map. *)
Record AgentRemoteConfig := mkRemote { ConfigMap : option (gmap string string); ConfigHash : string }.
Record MessageData := mkMessage { NewInstanceUid : option string; RemoteConfig : option AgentRemoteConfig }.

Inductive send_error := MessagePending | SendError (e : string).

(** github.com/open-telemetry/opamp-go's client, and the names of the two files in a configuration
    map (github.com/honeycombio/hpsf). *)
Class OpAMPClient (CL : Type) := {
  SetAgentDescription : CL → CL * option string;
  SetHealth : CL → bool → CL * option string;
  SetRemoteConfigStatus : CL → RemoteConfigStatus → CL * option string;
  UpdateEffectiveConfig : CL → fileConfig → CL * option string;
  SendCustomMessage : CL → string → CL * option send_error;
  wait_sent : CL → CL * bool;
}.
Class HPSF := { RefineryRulesType : string; RefineryConfigType : string }.

Definition serviceName := "refinery".

Section Agent.
Context {CL : Type} `{!OpAMPClient CL, !HPSF, !GoFloat, !GoMetricsJSON}.

Record Agent := mkAgent {
  ag_instanceId : string;
  ag_hostname : string;
  ag_version : string;
  ag_client : CL;
  ag_effectiveConfig : fileConfig;
  ag_remoteConfigStatus : option RemoteConfigStatus;
  ag_lastRemoteConfigReceived : option AgentRemoteConfig;
  ag_lastHealth : option bool;
  ag_usageTracker : usageTracker }.
Implicit Types (a : Agent).

Definition set_client a (cl : CL) : Agent :=
  mkAgent (ag_instanceId a) (ag_hostname a) (ag_version a) cl (ag_effectiveConfig a) (ag_remoteConfigStatus a)
    (ag_lastRemoteConfigReceived a) (ag_lastHealth a) (ag_usageTracker a).
Definition set_config a (f : fileConfig) : Agent :=
  mkAgent (ag_instanceId a) (ag_hostname a) (ag_version a) (ag_client a) f (ag_remoteConfigStatus a)
    (ag_lastRemoteConfigReceived a) (ag_lastHealth a) (ag_usageTracker a).
Definition set_status a (s : RemoteConfigStatus) : Agent :=
  mkAgent (ag_instanceId a) (ag_hostname a) (ag_version a) (ag_client a) (ag_effectiveConfig a) (Some s)
    (ag_lastRemoteConfigReceived a) (ag_lastHealth a) (ag_usageTracker a).
Definition set_received a (c : AgentRemoteConfig) : Agent :=
  mkAgent (ag_instanceId a) (ag_hostname a) (ag_version a) (ag_client a) (ag_effectiveConfig a) (ag_remoteConfigStatus a)
    (Some c) (ag_lastHealth a) (ag_usageTracker a).
Definition set_health a (h : bool) : Agent :=
  mkAgent (ag_instanceId a) (ag_hostname a) (ag_version a) (ag_client a) (ag_effectiveConfig a) (ag_remoteConfigStatus a)
    (ag_lastRemoteConfigReceived a) (Some h) (ag_usageTracker a).
Definition set_tracker a (u : usageTracker) : Agent :=
  mkAgent (ag_instanceId a) (ag_hostname a) (ag_version a) (ag_client a) (ag_effectiveConfig a) (ag_remoteConfigStatus a)
    (ag_lastRemoteConfigReceived a) (ag_lastHealth a) u.
Definition updateAgentIdentity a (instanceId : string) : Agent :=
  mkAgent instanceId (ag_hostname a) (ag_version a) (ag_client a) (ag_effectiveConfig a) (ag_remoteConfigStatus a)
    (ag_lastRemoteConfigReceived a) (ag_lastHealth a) (ag_usageTracker a).

(** Before it is connected. *)
Definition NewAgent (instanceId hostname version : string) (cl : CL) (currentConfig : fileConfig) : Agent :=
  mkAgent instanceId hostname version cl currentConfig None None None newUsageTracker.

(** ** Health *)

(** The report, when there is one, and what asking does to the node's health. *)
Definition calculateHealth a (h : Health) : option bool * Health :=
  let '(alive, h) := IsAlive h in
  let healthy := if alive then IsReady h else false in
  (if bool_decide (ag_lastHealth a = Some healthy) then None else Some healthy, h).

Definition report_health a (h : Health) : Agent * Health :=
  match calculateHealth a h with
  | (None, h) => (a, h)
  | (Some report, h) => (set_client (set_health a report) (SetHealth (ag_client a) report).1, h)
  end.

(** A metric that is missing reads as zero. *)
Definition record_usage a (RecordUsage : bool) (m : MultiMetrics.t) : Agent :=
  if RecordUsage then
    let traceUsage := default (f64_of_Z 0) (MultiMetrics.Get m "bytes_received_traces") in
    let logUsage := default (f64_of_Z 0) (MultiMetrics.Get m "bytes_received_logs") in
    set_tracker a (Add (Add (ag_usageTracker a) signal_traces traceUsage) signal_logs logUsage)
  else a.

(** One tick of [healthCheck]; once the agent is stopped, its loop goes round without waiting. *)
Definition healthCheck_tick a (h : Health) (RecordUsage : bool) (m : MultiMetrics.t) : Agent * Health :=
  let '(a, h) := report_health a h in (record_usage a RecordUsage m, h).

(** ** Usage *)

Definition cancelled := "context canceled".
Definition send_error_text (e : send_error) : string :=
  match e with MessagePending => "custom message already set" | SendError e => e end.

(** Waits for the message to be sent; the agent's end comes first when it does. *)
Definition await_report a (ut : usageTracker) : Agent * option string :=
  let '(cl, sent) := wait_sent (ag_client a) in
  if sent then (set_tracker (set_client a cl) (completeSend ut), None)
  else (set_tracker (set_client a cl) ut, Some cancelled).

Definition sendUsageReport a (now : Z) : Agent * option string :=
  match NewReport (ag_usageTracker a) serviceName (ag_version a) (ag_hostname a) now with
  | (Err e, ut) => (set_tracker a ut, Some e)
  | (Ok usageReport, ut) =>
      let a := set_tracker a ut in
      match SendCustomMessage (ag_client a) usageReport with
      | (cl, None) => await_report (set_client a cl) ut
      | (cl, Some MessagePending) =>
          let '(cl, sent) := wait_sent cl in
          if negb sent then (set_client a cl, Some cancelled)
          else
            match SendCustomMessage cl usageReport with
            | (cl, None) => await_report (set_client a cl) ut
            | (cl, Some e) => (set_client a cl, Some (send_error_text e))
            end
      | (cl, Some e) => (set_client a cl, Some (send_error_text e))
      end
  end.

(** ** Configurations from the server *)

Definition last_hash a : string := match ag_lastRemoteConfigReceived a with Some c => ConfigHash c | None => "" end.

Definition reportConfigStatus a (status : RemoteConfigStatuses) (errorMessage : string) : Agent :=
  let '(cl, _) := SetAgentDescription (ag_client a) in
  let remoteConfigstatus := mkStatus (last_hash a) status errorMessage in
  match SetRemoteConfigStatus cl remoteConfigstatus with
  | (cl, Some _) => set_client a cl
  | (cl, None) => set_status (set_client a cl) remoteConfigstatus
  end.

(** Of a status that is nil, the hash is empty and the state is none of these. *)
Definition isConfigChanged a (newConfigHash : string) : bool :=
  match ag_lastRemoteConfigReceived a with
  | None => true
  | Some _ =>
      let hash := match ag_remoteConfigStatus a with Some s => LastRemoteConfigHash s | None => "" end in
      if negb (String.eqb hash newConfigHash) then true
      else match ag_remoteConfigStatus a with Some s => negb (bool_decide (Status s = APPLIED)) | None => true end
  end.

(** A reload of the configuration with the contents that the message brings: the configuration, the
    calls of its callbacks, and the error's text. *)
Variable Reload : fileConfig → list configData * list configData → fileConfig * list (nat * string * string) * option string.

Definition brought (confMap : gmap string string) : list configData * list configData :=
  (match confMap !! RefineryConfigType with Some c => [NewConfigData c FormatYAML "opamp://config"] | None => [] end,
   match confMap !! RefineryRulesType with Some c => [NewConfigData c FormatYAML "opamp://rules"] | None => [] end).

Definition apply_config a (optData : list configData * list configData) : Agent * list (nat * string * string) :=
  let a := reportConfigStatus a APPLYING "" in
  match Reload (ag_effectiveConfig a) optData with
  | (f, calls, Some err) => (reportConfigStatus (set_config a f) FAILED err, calls)
  | (f, calls, None) =>
      let a := reportConfigStatus (set_config a f) APPLIED "" in
      (set_client a (UpdateEffectiveConfig (ag_client a) f).1, calls)
  end.

Definition updateRemoteConfig a (msg : MessageData) : Agent * list (nat * string * string) :=
  match RemoteConfig msg with
  | None => (a, [])
  | Some rc =>
      match ConfigMap rc with
      | None => (a, [])
      | Some confMap =>
          if negb (isConfigChanged a (ConfigHash rc)) then (a, [])
          else
            let a := set_received a rc in
            let optData := brought confMap in
            if (0 <? length optData.1 + length optData.2)%nat then apply_config a optData else (a, [])
      end
  end.

(** An identity is sixteen bytes. *)
Definition uuid_FromBytes (b : string) : option string := if (String.length b =? 16)%nat then Some b else None.

Definition onMessage a (msg : MessageData) : Agent * list (nat * string * string) :=
  match NewInstanceUid msg with
  | None => updateRemoteConfig a msg
  | Some b =>
      match uuid_FromBytes b with
      | None => (a, [])
      | Some uid => updateRemoteConfig (updateAgentIdentity a uid) msg
      end
  end.
End Agent.

(** ** Health is reported when it changes *)

Section HealthFacts.
Context {CL : Type} `{!OpAMPClient CL, !HPSF, !GoFloat, !GoMetricsJSON}.

(** Whether a node is healthy. *)
Definition healthy (h : Health) : bool := let '(alive, h) := IsAlive h in if alive then IsReady h else false.

(** After a tick, the last report is the node's health, and the client was called if it was another. *)
Lemma health_reported (a : Agent (CL := CL)) h :
  let '(a', _) := report_health a h in
  ag_lastHealth a' = Some (healthy h) ∧
  ag_client a' = if bool_decide (ag_lastHealth a = Some (healthy h)) then ag_client a else (SetHealth (ag_client a) (healthy h)).1.
Proof.
  unfold report_health, calculateHealth, healthy. destruct (IsAlive h) as [alive h']. case_bool_decide as E; by cbn.
Qed.
End HealthFacts.

(** ** What a configuration from the server becomes *)

Section RemoteConfigs.
Context {CL : Type} `{!OpAMPClient CL, !HPSF, !GoFloat, !GoMetricsJSON}.
Context `{!GoConfigText, !GoFetch, !GoDecode, !GoMetadata}.
Context (md rmd : Metadata) (opts : CmdEnv) (procs : Z) (cLocs rLocs : list string).
Implicit Types (a : Agent (CL := CL)).

Definition load_error_text (e : load_error (ValidationResult := ValidationResult)) : string :=
  match e with LoadFailed e => e | FileConfigError c r => report_Error (mkReport cLocs c rLocs r) end.

(** The reload of the node's configuration from its files, with what the message brings. *)
Definition agent_reload (f : fileConfig) (optData : list configData * list configData)
    : fileConfig * list (nat * string * string) * option string :=
  let '(f, calls, e) := reload_config opts false procs cLocs rLocs f optData in (f, calls, load_error_text <$> e).




End RemoteConfigs.

(** ** A server that sends rules *)

Module AgentExample.
Export LoadExample UsageExample.
#[local] Existing Instance example_float.

(** A client that remembers the statuses it was given. *)
#[export] Instance client : OpAMPClient (list RemoteConfigStatus) := {|
  SetAgentDescription cl := (cl, None); SetHealth cl _ := (cl, None); SetRemoteConfigStatus cl s := (cl ++ [s], None);
  UpdateEffectiveConfig cl _ := (cl, None); SendCustomMessage cl _ := (cl, None); wait_sent cl := (cl, true) |}.
#[export] Instance names : HPSF := {| RefineryRulesType := "refinery_rules"; RefineryConfigType := "refinery_config" |}.

Definition agent : Agent (CL := list RemoteConfigStatus) :=
  NewAgent "" "host" "v3.0.0" [] (mkFileConfig (contents_of zero_config) "" new_rules "" [7%nat]).
Definition new_rules_sent : gmap string string := {["refinery_rules" := "/rules.yaml"]}.
Definition sent : AgentRemoteConfig := mkRemote (Some new_rules_sent) "hash".
Definition reload := agent_reload no_options 4 ["/base.yaml"; "/over.yaml"] ["/rules.yaml"].

Lemma told : ag_client (onMessage reload agent (mkMessage None (Some sent))).1 = [mkStatus "hash" APPLYING ""; mkStatus "hash" APPLIED ""].
Proof. by vm_compute. Qed.

End AgentExample.
