(* ===== verification/AgentConnect.v ===== *)
(** agent/agent.go: how an agent comes to be connected, what it says of itself, and its periodic
    reports.

    Connecting is the calls of OpAMPClient with two more, of the class [OpAMPConnect]; the callbacks
    given to the client are the steps of Agent.v, and the effective configuration it asks for is that
    of Serializer.v. *)
From S2P Require Import Prelude Net GoValue Metrics Usage Health SamplerConfig Config MemorySize Validate ValidateFacts Settings.
From S2P Require Import Load LoadFacts Accessors Serializer Agent.

Inductive capability :=
| AcceptsRemoteConfig | ReportsRemoteConfig | ReportsEffectiveConfig | ReportsOwnMetrics | AcceptsOpAMPConnectionSettings | ReportsHealth.

Record AgentDescription := mkDescription { IdentifyingAttributes : list (string * string); NonIdentifyingAttributes : list (string * string) }.

Record StartSettings := mkStartSettings {
  ss_Header : list (string * list string); ss_OpAMPServerURL : string; ss_InstanceUid : string;
  ss_RemoteConfigStatus : option RemoteConfigStatus; ss_Capabilities : list capability }.

(** The description set by SetAgentDescription is what [describe] gives; a failure is its error. *)
Class OpAMPConnect (CL : Type) := {
  describe : CL → AgentDescription → CL * option string;
  SetCustomCapabilities : CL → list string → CL;
  client_Start : CL → StartSettings → CL * option string;
}.

Definition sendAgentTelemetryCapability := "io.honeycomb.capabilities.sendAgentTelemetry".

Section Connect.
Context {CL : Type} `{!OpAMPClient CL, !OpAMPConnect CL, !HPSF, !GoYAMLText, !GoFloat, !GoMetricsJSON}.
Implicit Types (a : Agent (CL := CL)).

(** The part of [createAgentIdentity] that is not the new identity itself. *)
Definition agentDescription (goos : string) a : AgentDescription :=
  mkDescription [("service.name", serviceName); ("service.version", ag_version a)] [("os.type", goos); ("host.name", ag_hostname a)].

Definition start_settings (endpoint : string) a : StartSettings :=
  mkStartSettings [("agent", ["refinery"])] endpoint (ag_instanceId a) (ag_remoteConfigStatus a)
    [AcceptsRemoteConfig; ReportsRemoteConfig; ReportsEffectiveConfig; ReportsOwnMetrics; AcceptsOpAMPConnectionSettings; ReportsHealth].

(** The agent and the error of the first call that failed; the goroutines run when there is none. *)
Definition connect (goos : string) (s : setting) a : Agent (CL := CL) * option string :=
  match describe (ag_client a) (agentDescription goos a) with
  | (cl, Some err) => (set_client a cl, Some err)
  | (cl, None) =>
      match SetHealth cl false with
      | (cl, Some err) => (set_client a cl, Some err)
      | (cl, None) =>
          let '(cl, err) := client_Start (SetCustomCapabilities cl [sendAgentTelemetryCapability]) (start_settings (oa_Endpoint (GetOpAMPConfig s)) a) in
          (set_client a cl, err)
      end
  end.

(** [NewAgent] to its end: no agent when it cannot be connected. *)
Definition connected (instanceId hostname version goos : string) (cl : CL) (s : setting) (f : fileConfig) : option (Agent (CL := CL)) :=
  match connect goos s (NewAgent instanceId hostname version cl f) with
  | (a, None) => Some a
  | (_, Some _) => None
  end.

(** What the client is told when it asks. *)
Definition composeEffectiveConfig (s : setting) a : option (gmap string string) :=
  match SerializeToYAML (ag_effectiveConfig a) s with
  | Ok (configYAML, rulesYAML) => Some (<[RefineryConfigType := configYAML]> {[RefineryRulesType := rulesYAML]})
  | Err _ => None
  end.

(** The goroutine of usage reports, tick after tick; an error is logged, but for the one that says
    there is nothing to report. *)
Fixpoint reportUsagePeriodically a (ticks : list Z) : Agent (CL := CL) * list string :=
  match ticks with
  | [] => (a, [])
  | now :: ticks =>
      let '(a, err) := sendUsageReport a now in
      let '(a, logged) := reportUsagePeriodically a ticks in
      (a, match err with Some e => if String.eqb e errNoData then logged else e :: logged | None => logged end)
  end.

(** A new agent has told the server that it is not healthy; its first health check tells it what its
    node's health is, whatever that is. *)
Lemma first_check_reports instanceId hostname version goos cl s f a h RecordUsage m :
  connected instanceId hostname version goos cl s f = Some a →
  ∃ healthy, ag_lastHealth (healthCheck_tick a h RecordUsage m).1 = Some healthy ∧
    (healthy = true ↔ (IsAlive h).1 = true ∧ IsReady h = true).
Proof.
  unfold connected. destruct (connect _ _ _) as [a' [err|]] eqn:E; [done|]. intros [= ->].
  assert (Hl : ag_lastHealth a = None).
  { unfold connect in E. destruct (describe _ _) as [? [?|]]; [done|]. destruct (SetHealth _ _) as [? [?|]]; [done|].
    destruct (client_Start _ _). by injection E as <- _. }
  unfold healthCheck_tick, report_health, calculateHealth. pose proof (checkAlive_maps h) as (_ & El & Er).
  assert (Hr : IsReady (checkAlive h).2 = IsReady h) by (unfold IsReady, checkReady; by rewrite El, Er).
  unfold IsAlive in *. destruct (checkAlive h) as [alive h']. cbn [fst snd] in *. rewrite Hl, Hr. rewrite bool_decide_false by done.
  exists (if alive then IsReady h else false). split; [unfold record_usage; by destruct RecordUsage|]. destruct alive; naive_solver.
Qed.
End Connect.
