(* ===== verification/App.v ===== *)
(** cmd/refinery/main.go, app/app.go and service/debug/debug_service.go: from a configuration to a
    running process, and its end.

    What is wired together is the choice of each implementation; the injection of dependencies is a
    library's.  A process ends with an exit code, or with a panic. *)
From Stdlib Require Import Ascii.
From S2P Require Import Prelude Net GoValue Metrics Usage Health SamplerConfig Config MemorySize Validate ValidateFacts Settings.
From S2P Require Import Load LoadFacts Accessors Agent.

(** ** The configuration at the start *)

Inductive startup := Exited (code : Z) | Panicked | Goes_on (c : fileConfig).

(** Options that only ask something end the process first.  An error that reports no errors of the
    configuration, or is no report, is printed; then the configuration is used, if there is one. *)
Definition main_configured (Version InterfaceNames Validate : bool)
    (loaded : option fileConfig * option (load_error (ValidationResult := ValidationResult))) : startup :=
  if Version then Exited 0
  else if InterfaceNames then Exited 0
  else
    let has_errors := match loaded.2 with Some (FileConfigError c r) => HasErrors c || HasErrors r | _ => false end in
    if has_errors then Exited 1
    else if Validate then Exited 0
    else match loaded.1 with Some c => Goes_on c | None => Panicked end.

Inductive logger_kind := HoneycombLogger | StdoutLogger | NullLogger.
Inductive peers_kind := FilePeers | RedisPubsubPeers.
Inductive pubsub_kind := LocalPubSub | GoRedisPubSub.

Definition GetLoggerImplementation (s : setting) : option logger_kind :=
  let t := GetLoggerType s in
  if String.eqb t "honeycomb" then Some HoneycombLogger
  else if String.eqb t "stdout" then Some StdoutLogger
  else if String.eqb t "none" then Some NullLogger else None.

(** File peers use nothing of Redis. *)
Definition peer_implementations (s : setting) : option (peers_kind * pubsub_kind) :=
  let t := GetPeerManagementType s in
  if String.eqb t "file" then Some (FilePeers, LocalPubSub)
  else if String.eqb t "redis" then Some (RedisPubsubPeers, GoRedisPubSub) else None.

(** Which of the two metrics backends are not the null one. *)
Definition metrics_backends (s : setting) : bool * bool := (pm_Enabled (GetPrometheusMetricsConfig s), om_Enabled (GetOTelMetricsConfig s)).

(** ** The App *)

Definition configHashMetrics : list metric_op := [MRegister "config_hash" Gauge; MRegister "rule_config_hash" Gauge].

Definition record_hashes (f : fileConfig) : list metric_op :=
  let '(cfgHash, rulesHash) := GetHashes f in
  [MGauge "config_hash" (f64_of_Z (ConfigHashMetrics cfgHash)); MGauge "rule_config_hash" (f64_of_Z (ConfigHashMetrics rulesHash))].

Section App.
Context {CL : Type} `{!OpAMPClient CL}.

(** Starting: the metrics, the callback registered under a number, and the agent, if OpAMP is
    enabled; connecting may fail, and then there is none. *)
Definition App_Start (s : setting) (f : fileConfig) (cb : nat) (connected : option (Agent (CL := CL)))
    : list metric_op * fileConfig * option (Agent (CL := CL)) :=
  (configHashMetrics ++ record_hashes f, RegisterReloadCallback f cb, if oa_Enabled (GetOpAMPConfig s) then connected else None).

(** What the callback does with the configuration that is in use then. *)
Definition App_reloaded (f : fileConfig) : list metric_op := record_hashes f.

(** Stopping: the agent tells the server that the node is down, stops its client and its goroutines.
    Without an agent that is a nil pointer. *)
Definition Agent_Stop (a : Agent (CL := CL)) : Agent (CL := CL) := set_client a (SetHealth (ag_client a) false).1.
Definition App_Stop (s : setting) (agent : option (Agent (CL := CL))) : option (option (Agent (CL := CL))) :=
  if oa_Enabled (GetOpAMPConfig s) then match agent with Some a => Some (Some (Agent_Stop a)) | None => None end
  else Some agent.
End App.

(** ** Signals *)

(** [forceExit] is set by the first signal. *)
Definition on_signal (alive forceExit : bool) : option Z * bool :=
  if negb alive then (Some 1, forceExit) else if forceExit then (Some 2, forceExit) else (None, true).

Fixpoint on_signals (alives : list bool) (forceExit : bool) : option Z * bool :=
  match alives with
  | [] => (None, forceExit)
  | alive :: alives => match on_signal alive forceExit with (Some code, b) => (Some code, b) | (None, b) => on_signals alives b end
  end.

(** How long a node still answers its peers after it has told them it leaves. *)
Definition drain_time (f : fileConfig) : Z := GetBatchTimeout (GetTracesConfig f) * 2.

(** ** The debug service *)

Definition debug_addr := "localhost:6060".

(** The addresses it tries in turn, while they are in use. *)
Definition debug_addresses (s : setting) : list string :=
  let configAddr := GetDebugServiceAddr s in
  if negb (String.eqb configAddr "") then
    match SplitHostPort configAddr with Ok (host, port) => [JoinHostPort host port] | Err _ => [JoinHostPort "" ""] end
  else
    match SplitHostPort debug_addr with
    | Ok (host, portStr) => (λ i, JoinHostPort host (format_int (default 0 (Atoi portStr) + Z.of_nat i))) <$> seq 0 10
    | Err _ => []
    end.

(** ** What runs *)

(** A process that goes on runs the configuration that was loaded, and that one has no errors. *)
Lemma goes_on_loaded Version InterfaceNames Validate loaded c :
  main_configured Version InterfaceNames Validate loaded = Goes_on c →
  loaded.1 = Some c ∧ Version = false ∧ InterfaceNames = false ∧ Validate = false.
Proof.
  unfold main_configured. destruct Version; [done|]. destruct InterfaceNames; [done|]. case_match; [done|]. destruct Validate; [done|].
  destruct loaded.1; [|done]. by intros [= ->].
Qed.

(** When the files cannot be read, asking for their validation says they are valid. *)
Lemma unreadable_validates e : main_configured false false true (None, Some (LoadFailed e)) = Exited 0.
Proof. done. Qed.
(** And running them ends in a panic. *)
Lemma unreadable_panics e : main_configured false false false (None, Some (LoadFailed e)) = Panicked.
Proof. done. Qed.

(** OpAMP enabled by a reload, or whose connection failed, makes stopping panic. *)
Lemma stop_without_agent {CL : Type} `{!OpAMPClient CL} s : oa_Enabled (GetOpAMPConfig s) = true → App_Stop (CL := CL) s None = None.
Proof. unfold App_Stop. by intros ->. Qed.

(** One signal, while the node is alive, never ends the process at once, and a second always does. *)
Lemma second_signal_ends b alives : on_signals (true :: b :: alives) false ≠ (None, true).
Proof. by destruct b. Qed.

(** Ten addresses, or the configured one. *)
Lemma debug_default s : GetDebugServiceAddr s = "" → debug_addresses s = (λ i, "localhost:" +:+ format_int (6060 + Z.of_nat i)) <$> seq 0 10.
Proof. unfold debug_addresses. intros ->. by vm_compute. Qed.
Lemma debug_configured s host port :
  has_char lbracket host = false → has_char rbracket host = false → has_char colon port = false → has_char lbracket port = false →
  has_char rbracket port = false → text s "Debugging" "DebugServiceAddr" = JoinHostPort host port →
  debug_addresses s = [JoinHostPort host port].
Proof.
  intros Hl Hr Hpc Hpl Hpr E. unfold debug_addresses, GetDebugServiceAddr. rewrite E, joined_usable by done.
  destruct (String.eqb_spec (JoinHostPort host port) "") as [Ex|_].
  - exfalso. unfold JoinHostPort in Ex. destruct (has_char colon host); [done|]. by destruct host.
  - cbn [negb]. by rewrite join_split.
Qed.
