(* ===== verification/Router.v ===== *)
(** route/route.go: where an event goes.

    The router is used with any collector ([CollectorOps], the interface collect.Collector, with
    InMemCollector's instance) and any sharder.  An event is a pointer that the transmissions
    keep while the router and the collector go on writing to it: events are in the store
    [ro_store], and the transmissions hold their locations. *)
From S2P Require Import Prelude GoValue Metrics Generics Event SamplerConfig Config TraceKey Rules Samplers StressRelief TraceCache SentCache Collector Worker InMemCollector Sharder.

(** ** The interface of a collector *)

Class CollectorOps (C P : Type) := {
  col_Stressed : C → bool;
  (** the span as it is left, and (processed, keep); a kept span is in the upstream transmission *)
  col_ProcessSpanImmediately : Z → C → Span P → option (C * Span P * bool * bool);
  col_AddSpan : C → Span P → option (res C);
  col_AddSpanFromPeer : C → Span P → option (res C);
}.

#[export] Instance in_mem_collector {D Q F L P} `{GoWyhash, KPQ Q, GoCuckoo F, GoLRU L} `{!PayloadOps P} :
    CollectorOps (InMemCollector D Q F L P) P := {|
  col_Stressed := InMemCollector.Stressed;
  col_ProcessSpanImmediately := ProcessSpanImmediately;
  col_AddSpan := InMemCollector.AddSpan;
  col_AddSpanFromPeer := AddSpanFromPeer |}.

(** ** The router *)

Definition RouterType_String (incoming : bool) : string := if incoming then "incoming" else "peer".

Definition routerMetrics : list (string * MetricType) :=
  [("_router_proxied", Counter); ("_router_event", Counter); ("_router_event_bytes", Histogram); ("_router_span", Counter);
   ("_router_dropped", Counter); ("_router_nonspan", Counter); ("_router_peer", Counter); ("_router_batch", Counter);
   ("_router_batch_events", Counter); ("_router_otlp_events", Counter); ("_router_otlp_log_http_proto", Counter);
   ("_router_otlp_log_http_json", Counter); ("_router_otlp_log_grpc", Counter); ("_router_otlp_trace_http_proto", Counter);
   ("_router_otlp_trace_http_json", Counter); ("_router_otlp_trace_grpc", Counter); ("bytes_received_traces", Counter);
   ("bytes_received_logs", Counter)].

Definition registerMetricNames (incoming : bool) : list metric_op :=
  (λ m, MRegister (RouterType_String incoming +:+ m.1) m.2) <$> routerMetrics.

Record Router (C T P : Type) := mkRouter {
  ro_incoming : bool;                  (** routerType *)
  ro_recordUsage : bool;               (** OpAMP is enabled and records usage *)
  ro_Collector : C;
  ro_Sharder : T;
  ro_store : list (Event P);
  ro_upstream : list nat;              (** enqueued in UpstreamTransmission, in order *)
  ro_peer : list nat;                  (** enqueued in PeerTransmission *)
  ro_metrics : list metric_op }.
Arguments mkRouter {C T P}. Arguments ro_incoming {C T P}. Arguments ro_recordUsage {C T P}.
Arguments ro_Collector {C T P}. Arguments ro_Sharder {C T P}. Arguments ro_store {C T P}.
Arguments ro_upstream {C T P}. Arguments ro_peer {C T P}. Arguments ro_metrics {C T P}.

Section Router.
Context {C T P : Type} `{!CollectorOps C P, !Sharder T, !PayloadOps P, !MetaOps P}.
Implicit Types (r : Router C T P) (ev : Event P) (now : Z).

Definition metric r (name : string) : string := RouterType_String (ro_incoming r) +:+ name.
Definition counted r (ops : list metric_op) : Router C T P :=
  mkRouter (ro_incoming r) (ro_recordUsage r) (ro_Collector r) (ro_Sharder r) (ro_store r) (ro_upstream r) (ro_peer r)
    (ro_metrics r ++ ops).
Definition to_upstream r (loc : nat) : Router C T P :=
  mkRouter (ro_incoming r) (ro_recordUsage r) (ro_Collector r) (ro_Sharder r) (ro_store r) (ro_upstream r ++ [loc])
    (ro_peer r) (ro_metrics r).
Definition to_peer r (loc : nat) : Router C T P :=
  mkRouter (ro_incoming r) (ro_recordUsage r) (ro_Collector r) (ro_Sharder r) (ro_store r) (ro_upstream r)
    (ro_peer r ++ [loc]) (ro_metrics r).
Definition write r (loc : nat) ev : Router C T P :=
  mkRouter (ro_incoming r) (ro_recordUsage r) (ro_Collector r) (ro_Sharder r) (<[loc := ev]> (ro_store r)) (ro_upstream r)
    (ro_peer r) (ro_metrics r).
Definition set_collector r (c : C) : Router C T P :=
  mkRouter (ro_incoming r) (ro_recordUsage r) c (ro_Sharder r) (ro_store r) (ro_upstream r) (ro_peer r) (ro_metrics r).
Definition alloc r ev : Router C T P :=
  mkRouter (ro_incoming r) (ro_recordUsage r) (ro_Collector r) (ro_Sharder r) (ro_store r ++ [ev]) (ro_upstream r)
    (ro_peer r) (ro_metrics r).

Definition span_of ev : Span P :=
  mkSpan ev (p_MetaTraceID (ev_Data ev)) 0 (p_MetaRefineryRoot (ev_Data ev)) SpanAnnotationTypeUnSet.

(** The collector's only error is that its queue is full. *)
Inductive route_error := ErrWouldBlock | ErrMessage (e : string).

(** "Figure out if we should handle this span locally or pass on to a peer": the shard is that of
    the trace ID the payload has now. *)
Definition route_span r (loc : nat) ev (span : Span P) (isProbe : bool) : option (Router C T P * option route_error) :=
  match WhichShard (ro_Sharder r) (p_MetaTraceID (ev_Data ev)) with
  | None => None
  | Some targetShard =>
      if negb (Shard_Equals targetShard (MyShard (ro_Sharder r))) then
        let r := counted r [MIncrement (metric r "_router_peer")] in
        Some (to_peer (write r loc (ev_set_APIHost ev (GetAddress targetShard))) loc, None)
      else if isProbe then Some (r, None)
      else
        match (if ro_incoming r then col_AddSpan (ro_Collector r) span else col_AddSpanFromPeer (ro_Collector r) span) with
        | None => None
        | Some (Ok c) => Some (set_collector r c, None)
        | Some (Err _) => Some (counted r [MIncrement (metric r "_router_dropped")], Some ErrWouldBlock)
        end
  end.

(** The event is stored at [loc]; the result is the error, if any. *)
Definition processEvent now r (loc : nat) ev : option (Router C T P * option route_error) :=
  let '(size, ev) := GetDataSize ev in
  let r := counted (write r loc ev) [MHistogram (metric r "_router_event_bytes") (f64_of_Z size)] in
  match p_ExtractMetadata (ev_Data ev) with
  | Err e => Some (r, Some (ErrMessage e))
  | Ok data =>
      let ev := ev_set_Data ev data in
      let r := write r loc ev in
      if p_MetaRefineryProbe data then Some (r, None)
      else if String.eqb (p_MetaTraceID data) "" then
        Some (to_upstream (counted r [MIncrement (metric r "_router_nonspan")]) loc, None)
      else
        let span := span_of ev in
        let r :=
          if ro_incoming r && ro_recordUsage r then
            counted r [MCount (if String.eqb (p_MetaSignalType data) "log" then "bytes_received_logs" else "bytes_received_traces")
                         (Span_GetDataSize span).1]
          else r in
        let r := counted r [MIncrement (metric r "_router_span")] in
        if col_Stressed (ro_Collector r) then
          match col_ProcessSpanImmediately now (ro_Collector r) span with
          | None => None
          | Some (c, span, processed, kept) =>
              let ev := sp_Event span in
              let r := write (set_collector r c) loc ev in
              if processed then
                if negb kept then Some (r, None)
                else
                  let ev := ev_set_Data ev (p_SetProbe (ev_Data ev)) in
                  let r := write (to_upstream r loc) loc ev in
                  route_span r loc ev (sp_set_Event span ev) true
              else route_span r loc ev span false
          end
        else route_span r loc ev span false
  end.

(** ** A batch *)

Definition addIncomingUserAgent ev (userAgent : string) : Event P :=
  if negb (String.eqb userAgent "") && String.eqb (p_MetaUserAgent (ev_Data ev)) ""
  then ev_set_Data ev (p_SetUserAgent (ev_Data ev) userAgent) else ev.

(** An event of a batch after it is unmarshalled; a missing sample rate is 1. *)
Record batchedEvent := mkBatched { be_SampleRate : Z; be_time : Z; be_Data : P }.

Definition getSampleRate (b : batchedEvent) : Z := if be_SampleRate b =? 0 then 1 else u64 (be_SampleRate b).

Definition StatusAccepted : Z := 202.
Definition StatusBadRequest : Z := 400.
Definition StatusTooManyRequests : Z := 429.

Definition status_of (err : option route_error) : Z :=
  match err with
  | Some ErrWouldBlock => StatusTooManyRequests
  | Some (ErrMessage _) => StatusBadRequest
  | None => StatusAccepted
  end.

(** The loop over the events of a batch: the error of each, in order; its response has the status
    of it. *)
Fixpoint process_batch now (apiHost apiKey dataset environment userAgent : string) r (events : list batchedEvent)
    : option (Router C T P * list (option route_error)) :=
  match events with
  | [] => Some (r, [])
  | bev :: events =>
      let next r err :=
        match process_batch now apiHost apiKey dataset environment userAgent r events with
        | None => None
        | Some (r, errs) => Some (r, err :: errs)
        end in
      if p_IsEmpty (be_Data bev) then next r (Some (ErrMessage "empty event data"))
      else
        let ev := addIncomingUserAgent (mkEvent apiHost apiKey dataset environment (getSampleRate bev) (be_time bev)
                                          (be_Data bev) 0 0) userAgent in
        match processEvent now (alloc r ev) (length (ro_store r)) ev with
        | None => None
        | Some (r, err) => next r err
        end
  end.
End Router.

(** ** Where an event goes *)

Section Disposition.
Context {C T P : Type} `{!CollectorOps C P, !Sharder T, !PayloadOps P, !MetaOps P, !MetaLaws P}.
Implicit Types (r : Router C T P) (ev : Event P) (now : Z).

Inductive disposition :=
| Rejected (e : string)
| DroppedProbe
| SentUpstream
| SentToPeer (address : string)
| Collected (c : C)
| QueueFull
| StressDropped (c : C)
| StressKept (c : C) (peer : option string).

(** The specification: what to do with an event, by the state of the node. *)
Definition target r (traceID : string) : option (option string) :=
  (λ s, if Shard_Equals s (MyShard (ro_Sharder r)) then None else Some (GetAddress s)) <$> WhichShard (ro_Sharder r) traceID.

Definition stress_disposition now r (span : Span P) : option disposition :=
  match col_ProcessSpanImmediately now (ro_Collector r) span with
  | Some (c, _, true, false) => Some (StressDropped c)
  | Some (c, span', true, true) => StressKept c <$> target r (p_MetaTraceID (ev_Data (sp_Event span')))
  | _ => None
  end.

Definition collect_disposition r (span : Span P) : option disposition :=
  match (if ro_incoming r then col_AddSpan (ro_Collector r) span else col_AddSpanFromPeer (ro_Collector r) span) with
  | Some (Ok c) => Some (Collected c)
  | Some (Err _) => Some QueueFull
  | None => None
  end.

Definition route_spec now r ev : option disposition :=
  match p_ExtractMetadata (ev_Data ev) with
  | Err e => Some (Rejected e)
  | Ok data =>
      let span := span_of (ev_set_Data (GetDataSize ev).2 data) in
      if p_MetaRefineryProbe data then Some DroppedProbe
      else if String.eqb (p_MetaTraceID data) "" then Some SentUpstream
      else if col_Stressed (ro_Collector r) then stress_disposition now r span
      else
        match target r (p_MetaTraceID data) with
        | None => None
        | Some (Some address) => Some (SentToPeer address)
        | Some None => collect_disposition r span
        end
  end.

(** What each disposition means for the transmissions, the collector and the event. *)
Definition placed r r' (loc : nat) (err : option route_error) (d : disposition) : Prop :=
  let queues up peer := ro_upstream r' = ro_upstream r ++ up ∧ ro_peer r' = ro_peer r ++ peer in
  match d with
  | Rejected e => err = Some (ErrMessage e) ∧ queues [] [] ∧ ro_Collector r' = ro_Collector r
  | DroppedProbe => err = None ∧ queues [] [] ∧ ro_Collector r' = ro_Collector r
  | SentUpstream => err = None ∧ queues [loc] [] ∧ ro_Collector r' = ro_Collector r
  | SentToPeer address => err = None ∧ queues [] [loc] ∧ ro_Collector r' = ro_Collector r ∧
      ∃ ev, ro_store r' !! loc = Some ev ∧ ev_APIHost ev = address
  | Collected c => err = None ∧ queues [] [] ∧ ro_Collector r' = c
  | QueueFull => err = Some ErrWouldBlock ∧ queues [] [] ∧ ro_Collector r' = ro_Collector r
  | StressDropped c => err = None ∧ queues [] [] ∧ ro_Collector r' = c
  | StressKept c None => err = None ∧ queues [loc] [] ∧ ro_Collector r' = c
  | StressKept c (Some address) => err = None ∧ queues [loc] [loc] ∧ ro_Collector r' = c ∧
      ∃ ev, ro_store r' !! loc = Some ev ∧ ev_APIHost ev = address ∧ p_MetaRefineryProbe (ev_Data ev) = true
  end.

Lemma route_span_spec r loc ev span isProbe r' err :
  (loc < length (ro_store r))%nat →
  route_span r loc ev span isProbe = Some (r', err) →
  match target r (p_MetaTraceID (ev_Data ev)) with
  | None => False
  | Some (Some address) => err = None ∧ ro_upstream r' = ro_upstream r ∧ ro_peer r' = ro_peer r ++ [loc] ∧
      ro_Collector r' = ro_Collector r ∧ ro_store r' !! loc = Some (ev_set_APIHost ev address)
  | Some None =>
      ro_upstream r' = ro_upstream r ∧ ro_peer r' = ro_peer r ∧
      if isProbe then err = None ∧ ro_Collector r' = ro_Collector r
      else match collect_disposition r span with
           | Some (Collected c) => err = None ∧ ro_Collector r' = c
           | Some QueueFull => err = Some ErrWouldBlock ∧ ro_Collector r' = ro_Collector r
           | _ => False
           end
  end.
Proof.
  intros Hloc. unfold route_span, target. destruct (WhichShard _ _) as [s|]; [|done]. cbn [fmap option_fmap option_map].
  destruct (Shard_Equals s _); cbn [negb].
  - destruct isProbe; [by intros [= <- <-]|]. unfold collect_disposition.
    destruct (if ro_incoming r then _ else _) as [[c|e]|]; [..|done]; by intros [= <- <-].
  - intros [= <- <-]. simpl. split_and!; try done. by apply list_lookup_insert_eq.
Qed.

Lemma event_disposed now r loc ev r' err :
  (∀ (c : C) (span : Span P) c' span' processed kept, col_ProcessSpanImmediately now c span = Some (c', span', processed, kept) → processed = true) →
  (loc < length (ro_store r))%nat →
  processEvent now r loc ev = Some (r', err) →
  ∃ d, route_spec now r ev = Some d ∧ placed r r' loc err d.
Proof.
  intros Hproc Hloc. unfold processEvent, route_spec.
  assert (Edata : ev_Data (GetDataSize ev).2 = ev_Data ev) by (unfold GetDataSize; by case_match).
  destruct (GetDataSize ev) as [size ev1]. cbn [snd] in *. rewrite Edata.
  set (r1 := counted (write r loc ev1) _).
  assert (Hl1 : (loc < length (ro_store r1))%nat) by (simpl; by rewrite length_insert).
  assert (Hsame : ro_upstream r1 = ro_upstream r ∧ ro_peer r1 = ro_peer r ∧ ro_Collector r1 = ro_Collector r ∧
                  ro_Sharder r1 = ro_Sharder r ∧ ro_incoming r1 = ro_incoming r) by done.
  clearbody r1. destruct Hsame as (U1 & P1 & C1 & S1 & I1).
  destruct (p_ExtractMetadata (ev_Data ev)) as [data|e].
  2: { intros [= <- <-]. eexists. split; [reflexivity|]. simpl. by rewrite U1, P1, !app_nil_r. }
  destruct (p_MetaRefineryProbe data).
  { intros [= <- <-]. eexists. split; [reflexivity|]. simpl. by rewrite U1, P1, !app_nil_r. }
  destruct (String.eqb (p_MetaTraceID data) "").
  { intros [= <- <-]. eexists. split; [reflexivity|]. simpl. by rewrite U1, P1, !app_nil_r. }
  set (ev2 := ev_set_Data ev1 data). set (span := span_of ev2).
  set (r2 := counted _ [MIncrement (metric _ "_router_span")]).
  assert (Hr2 : ro_upstream r2 = ro_upstream r ∧ ro_peer r2 = ro_peer r ∧ ro_Collector r2 = ro_Collector r ∧
                ro_Sharder r2 = ro_Sharder r ∧ ro_incoming r2 = ro_incoming r ∧ (loc < length (ro_store r2))%nat).
  { unfold r2. simpl. destruct (ro_incoming _ && _); simpl; by rewrite length_insert. }
  clearbody r2. destruct Hr2 as (U2 & P2 & C2 & S2 & I2 & Hl2). rewrite C2.
  assert (Htarget : ∀ r3 id, ro_Sharder r3 = ro_Sharder r → target r3 id = target r id) by (intros r3 id E; unfold target; by rewrite E).
  destruct (col_Stressed (ro_Collector r)).
  - unfold stress_disposition. destruct (col_ProcessSpanImmediately now (ro_Collector r) span) as [[[[c span'] processed] kept]|] eqn:Ep; [|done].
    rewrite (Hproc _ _ _ _ _ _ Ep) in *. destruct kept; cbn [negb].
    + intros E. apply route_span_spec in E; [|simpl; by rewrite !length_insert]. rewrite Htarget in E by done.
      cbn [ev_Data ev_set_Data] in E. rewrite (p_set_probe_trace (ev_Data (sp_Event span'))) in E.
      destruct (target r _) as [[address|]|]; [..|done]; eexists; (split; [reflexivity|]); simpl in E |- *.
      * destruct E as (-> & E2 & E3 & E4 & E5). rewrite E2, E3, U2, P2. split_and!; try done.
        eexists. split; [exact E5|]. split; [done|]. apply p_set_probe.
      * destruct E as (E1 & E2 & -> & E4). by rewrite E1, E2, U2, P2, app_nil_r.
    + intros [= <- <-]. eexists. split; [reflexivity|]. simpl. by rewrite U2, P2, !app_nil_r.
  - intros E. apply route_span_spec in E; [|done]. rewrite Htarget in E by done. cbn [ev_Data ev2 ev_set_Data] in E.
    destruct (target r _) as [[address|]|]; [..|done].
    + eexists. split; [reflexivity|]. destruct E as (-> & E2 & E3 & E4 & E5). simpl. rewrite E2, E3, U2, P2, app_nil_r.
      split_and!; try done; [congruence|]. eexists. by split; [exact E5|].
    + destruct E as (E1 & E2 & E3). assert (Ec : collect_disposition r2 span = collect_disposition r span)
        by (unfold collect_disposition; by rewrite I2, C2).
      rewrite Ec in E3. exists (default QueueFull (collect_disposition r span)).
      destruct (collect_disposition r span) as [[]|]; try done; (split; [done|]); simpl; destruct E3 as [-> ->];
        by rewrite E1, E2, U2, P2, !app_nil_r.
Qed.

(** C3: every event is disposed of in exactly one way, the one the specification names: probes and
    unparsable events go nowhere, events outside a trace go upstream, a span goes to the peer that
    owns its trace or to this node's collector, never both, and a full queue is reported.  Under
    stress a kept span is in the upstream transmission, and when a peer owns its trace the very
    same event is also in the peer transmission: by then it is marked as a probe and addressed to
    the peer, in both. *)
Theorem event_disposition now r loc ev r' err :
  (∀ (c : C) (span : Span P) c' span' processed kept, col_ProcessSpanImmediately now c span = Some (c', span', processed, kept) → processed = true) →
  (loc < length (ro_store r))%nat →
  processEvent now r loc ev = Some (r', err) →
  ∃ d, route_spec now r ev = Some d ∧ placed r r' loc err d.
Proof. apply event_disposed. Qed.
End Disposition.

(** ** The cache of environment names *)

Record environmentCache := mkEnvCache { ec_items : gmap string (string * Z); ec_ttl : Z }.

Section EnvCache.
(** [getFn]: the lookup in the API. *)
Variable getFn : string → res string.
Implicit Types (c : environmentCache) (now : Z).

Definition newEnvironmentCache (ttl : Z) : environmentCache := mkEnvCache ∅ ttl.

Definition addItem now c (key value : string) (ttl : Z) : environmentCache :=
  mkEnvCache (<[key := (value, now + ttl)]> (ec_items c)) (ec_ttl c).

(** The result and the number of lookups made. *)
Definition env_get now c (key : string) : res string * environmentCache * nat :=
  let fresh := match ec_items c !! key with Some (v, expiresAt) => if now <? expiresAt then Some v else None | None => None end in
  match fresh with
  | Some val => (Ok val, c, 0%nat)
  | None =>
      match getFn key with
      | Err e => (Err e, c, 1%nat)
      | Ok val => (Ok val, addItem now c key val (ec_ttl c), 1%nat)
      end
  end.

Definition getEnvironmentName now c (apiKey : string) : res string * environmentCache * nat :=
  if String.eqb apiKey "" || IsLegacyAPIKey apiKey then (Ok "", c, 0%nat)
  else env_get now c apiKey.

(** Environment names are looked up at most once per key and TTL: a name is answered from the
    cache, without a lookup, exactly during [ttl] from the lookup that found it, whatever other
    keys are asked for meanwhile; an error is not cached, and a legacy key is never looked up. *)
Theorem environment_cached now c apiKey env c' n later others :
  apiKey ≠ "" → IsLegacyAPIKey apiKey = false →
  getEnvironmentName now c apiKey = (Ok env, c', n) →
  now ≤ later → 0 < ec_ttl c → Forall (λ k, k ≠ apiKey) others →
  let c2 := foldl (λ c k, (getEnvironmentName later c k).1.2) c' others in
  (n = 0%nat ∧ c' = c ∧ (∃ expiresAt, ec_items c !! apiKey = Some (env, expiresAt) ∧ now < expiresAt) ∨
   n = 1%nat ∧ getFn apiKey = Ok env ∧
   (later < now + ec_ttl c → getEnvironmentName later c2 apiKey = (Ok env, c2, 0%nat)) ∧
   (now + ec_ttl c ≤ later → (getEnvironmentName later c2 apiKey).2 = 1%nat)).
Proof.
  intros Hk Hl E Ht Httl Ho. cbn zeta.
  assert (Hother : ∀ l c0, Forall (λ k, k ≠ apiKey) l →
    ec_items (foldl (λ c k, (getEnvironmentName later c k).1.2) c0 l) !! apiKey = ec_items c0 !! apiKey).
  { induction l as [|k l IH]; intros c0 Hf; [done|]. apply Forall_cons in Hf as [Hne Hf]. cbn [foldl]. rewrite IH by done.
    unfold getEnvironmentName, env_get, addItem.
    repeat (case_match; simpl; try done); by rewrite lookup_insert_ne. }
  specialize (Hother others c' Ho). set (c2 := foldl _ c' others) in *.
  assert (Eg : ∀ t c0, getEnvironmentName t c0 apiKey = env_get t c0 apiKey).
  { intros t c0. unfold getEnvironmentName. rewrite (proj2 (String.eqb_neq _ _) Hk), Hl. done. }
  rewrite Eg in E. rewrite !Eg. unfold env_get in E.
  destruct (match ec_items c !! apiKey with Some _ => _ | None => _ end) as [v|] eqn:Ef.
  - injection E as -> <- <-. left. split_and!; [done|done|].
    destruct (ec_items c !! apiKey) as [[v e]|]; [|done]. destruct (Z.ltb_spec now e); [|done].
    injection Ef as ->. by exists e.
  - destruct (getFn apiKey) as [val|e] eqn:Eget; [|done]. injection E as -> <- <-. right.
    simpl in Hother. rewrite lookup_insert_eq in Hother. unfold env_get. rewrite Hother, Eget.
    split_and!; [done|done| |]; intros Hlt.
    + by rewrite (proj2 (Z.ltb_lt _ _)) by lia.
    + by rewrite (proj2 (Z.ltb_ge _ _)) by lia.
Qed.
End EnvCache.

(** The collector of this package always processes. *)
Lemma in_mem_processed {D Q F L P} `{GoWyhash, KPQ Q, GoCuckoo F, GoLRU L} `{!PayloadOps P} now
    (c : InMemCollector D Q F L P) (span : Span P) c' span' processed kept :
  col_ProcessSpanImmediately now c span = Some (c', span', processed, kept) → processed = true.
Proof.
  cbn. unfold ProcessSpanImmediately. destruct (getWorkerIDForTrace _ _); [|done]. destruct (_ !! _); [|done].
  destruct (immediate_decision _ _ _ _) as [[[[[? ?] ?] []] ?] ?]; by intros [= _ _ <- _].
Qed.

Module RouterExamples.
Import WorkerExamples CollectorExamples.

(** The metadata fields kept under their own names. *)
#[local] Instance map_meta : MetaOps (gmap string value) := {|
  p_ExtractMetadata := λ m, Ok m;
  p_MetaTraceID := λ m, match m !! "trace.trace_id" with Some (VString s) => s | _ => "" end;
  p_MetaRefineryRoot := λ m, match m !! "meta.refinery.root" with Some (VBool b) => b | _ => false end;
  p_MetaRefineryProbe := λ m, match m !! "meta.refinery.probe" with Some (VBool b) => b | _ => false end;
  p_SetProbe := λ m, <["meta.refinery.probe" := VBool true]> m;
  p_MetaSignalType := λ m, match m !! "meta.signal_type" with Some (VString s) => s | _ => "" end;
  p_MetaUserAgent := λ m, match m !! "meta.refinery.incoming_user_agent" with Some (VString s) => s | _ => "" end;
  p_SetUserAgent := λ m s, <["meta.refinery.incoming_user_agent" := VString s]> m;
  p_IsEmpty := λ m, bool_decide (m = ∅) |}.
#[local] Instance map_meta_laws : MetaLaws (gmap string value).
Proof.
  split; intros p; unfold p_SetProbe, p_MetaRefineryProbe, p_MetaTraceID; simpl.
  - by rewrite lookup_insert_eq.
  - by rewrite lookup_insert_ne.
Qed.

(** A node of a cluster of one peer it is not. *)
Definition elsewhere : DeterministicSharder := mkSharder "me" ["other"] (build_hashes ["other"]).
Definition stressed_system := set_parent (system false)
  (set_stress (shared false 4) (mkStress Always "me" 90 75 1 0 0 "" "" true 0 10 ∅)).
Definition the_event : Event (gmap string value) := EventExamples.event [("trace.trace_id", VString "t1")].
Definition router := mkRouter true false stressed_system elsewhere [the_event] [] [] [].

(** Under stress a kept span of another peer's trace is in both transmissions, as a probe. *)
Lemma event_disposition_witness :
  ∃ r' err, processEvent 0 router 0 the_event = Some (r', err) ∧ ro_upstream r' = [0%nat] ∧ ro_peer r' = [0%nat] ∧
    ∃ d, route_spec 0 router the_event = Some d ∧ placed router r' 0 err d.
Proof.
  assert (Eq : (λ x, (ro_upstream x.1, ro_peer x.1)) <$> processEvent 0 router 0 the_event = Some ([0%nat], [0%nat]))
    by by vm_compute.
  destruct (processEvent 0 router 0 the_event) as [[r' err]|] eqn:E; [|discriminate].
  exists r', err. split; [reflexivity|]. injection Eq as E1 E2. split; [exact E1|]. split; [exact E2|].
  refine (event_disposition 0 router 0%nat the_event r' err (in_mem_processed (P := gmap string value) 0) _ E).
  apply Nat.lt_0_succ.
Defined.

Lemma environment_cached_witness :
  let getFn := λ _ : string, Ok "production" in
  getEnvironmentName getFn 5 (newEnvironmentCache 10) "abcdefghijklmnopqrstuv"
    = (Ok "production", addItem 5 (newEnvironmentCache 10) "abcdefghijklmnopqrstuv" "production" 10, 1%nat) ∧
  (getEnvironmentName getFn 6 (addItem 5 (newEnvironmentCache 10) "abcdefghijklmnopqrstuv" "production" 10)
     "abcdefghijklmnopqrstuv").2 = 0%nat.
Proof.
  assert (E : getEnvironmentName (λ _, Ok "production") 5 (newEnvironmentCache 10) "abcdefghijklmnopqrstuv"
    = (Ok "production", addItem 5 (newEnvironmentCache 10) "abcdefghijklmnopqrstuv" "production" 10, 1%nat))
    by by vm_compute.
  split; [exact E|].
  destruct (environment_cached (λ _, Ok "production") 5 (newEnvironmentCache 10) "abcdefghijklmnopqrstuv" "production"
              _ 1%nat 6 [] ltac:(discriminate) ltac:(by vm_compute) E ltac:(lia) ltac:(done) ltac:(constructor))
    as [(Hn & _)|(_ & _ & Hin & _)]; [discriminate Hn|].
  exact (f_equal snd (Hin ltac:(vm_compute; reflexivity))).
Defined.
End RouterExamples.
