(* ===== verification/Handlers.v ===== *)
(** route/route.go: the handlers of HTTP requests.

    A node as its handlers see it is its configuration, the router and the cache of environment names;
    the request's way through gorilla/mux is not modelled, but for the variables of its path.  The
    handler of a batch and that of an event are given with the check of the API key in front of
    them, as the route table has them.  The panics that panicCatcher turns into a response are
    [None]. *)
From Stdlib Require Import Ascii.
From S2P Require Import Prelude GoValue Metrics TraceKey Rules Samplers StressRelief TraceCache SentCache Collector Worker InMemCollector.
From S2P Require Import Msgp Event SamplerConfig Config Payload PayloadFacts Transmit Http BatchedEvents Sharder Health Router.

(** encoding/json on the responses of a batch (a status and an error, left out when empty) and on the
    answer of the API's auth endpoint; the URL of that endpoint; the client's GET with the key. *)
Class GoWeb := {
  json_Marshal_responses : list (Z * string) → string;
  json_AuthInfo : string → option string;
  auth_URL : string → res string;
  client_Get : string → string → res (Z * string);
}.

(** The request the proxy makes for a method and a URL, or the error of making it, and its answer:
    a status, headers and a body. *)
Class GoProxy := {
  proxy_NewRequest : string → string → option string;
  client_Do : httpRequest → res (Z * gmap string (list string) * string);
}.

Record node (C T : Type) := mkNode {
  nd_Config : fileConfig;
  nd_Router : Router C T Payload;
  nd_envs : environmentCache }.
Arguments mkNode {C T}. Arguments nd_Config {C T}. Arguments nd_Router {C T}. Arguments nd_envs {C T}.

(** The text of an error of the router. *)
Definition route_error_text (e : route_error) : string :=
  match e with
  | ErrWouldBlock => "Dropping span as channel buffer is full. Span will not be processed and will be lost."
  | ErrMessage e => e
  end.

Definition BatchResponse (err : option route_error) : Z * string :=
  (status_of err, match err with Some e => route_error_text e | None => "" end).

Section Handlers.
Context {C T : Type} `{!CollectorOps C Payload, !Sharder T}.
Context `{!Msgp, !GoFloat, !GoJSON, !GoRegexp, !GoTime, !GoFastJSON, !GoBody, !GoHTTP, !GoWeb}.
Implicit Types (nd : node C T) (now : Z) (req : httpRequest) (w : writer).

Definition set_router nd (r : Router C T Payload) : node C T := mkNode (nd_Config nd) r (nd_envs nd).
Definition set_envs nd (c : environmentCache) : node C T := mkNode (nd_Config nd) (nd_Router nd) c.
Definition tallied nd (ops : list metric_op) : node C T := set_router nd (counted (nd_Router nd) ops).

(** ** Environment names *)

Definition lookupEnvironment (f : fileConfig) (apiKey : string) : res string :=
  match auth_URL (GetHoneycombAPI f) with
  | Err e => Err ("failed to parse Honeycomb API URL config value. " +:+ e)
  | Ok url =>
      if negb (NewRequest_ok url) then Err "failed to create AuthInfo request. "
      else match client_Get url apiKey with
           | Err e => Err ("failed sending AuthInfo request to Honeycomb API. " +:+ e)
           | Ok (code, body) =>
               if code =? StatusUnauthorized then
                 Err "received 401 response for AuthInfo request from Honeycomb API - check your API key"
               else if 299 <? code then
                 Err ("received " +:+ format_int code +:+ " response for AuthInfo request from Honeycomb API")
               else match json_AuthInfo body with
                    | Some name => Ok name
                    | None => Err "failed to JSON decode of AuthInfo response from Honeycomb API"
                    end
           end
  end.

(** The name, and the node with its cache as the lookup leaves it. *)
Definition environment_of now nd (apiKey : string) : res string * node C T :=
  let '(r, c, _) := getEnvironmentName (lookupEnvironment (nd_Config nd)) now (nd_envs nd) apiKey in (r, set_envs nd c).

(** ** One event *)

Definition requestToEvent now nd req (reqBod : string) : res (Event Payload) * node C T :=
  let apiKey := request_key req in
  let sampleRate := default 1 (Atoi (Header_Get (hq_Header req) SampleRateHeader)) in
  let eventTime := getEventTime (Header_Get (hq_Header req) TimestampHeader) in
  match getDatasetFromRequest req with
  | Err e => (Err e, nd)
  | Ok dataset =>
      let apiHost := GetHoneycombAPI (nd_Config nd) in
      let '(env, nd) := environment_of now nd apiKey in
      (let! environment := env in
       let! data := unmarshal_map req reqBod in
       if bool_decide (data = ∅) then Err "empty event data"
       else Ok (mkEvent apiHost apiKey dataset environment (u64 sampleRate) eventTime (NewPayload (Some (nd_Config nd)) data) 0 0),
       nd)
  end.

Definition event_handler now nd req w : option (node C T * writer) :=
  let nd := tallied nd [MIncrement (metric (nd_Router nd) "_router_event")] in
  match readAndCloseMaybeCompressedBody req with
  | Err e => Some (nd, handlerReturnWithError w ErrPostBody e)
  | Ok body =>
      let '(r, nd) := requestToEvent now nd req body in
      match r with
      | Err e => Some (nd, handlerReturnWithError w ErrReqToEvent e)
      | Ok ev =>
          let ev := addIncomingUserAgent ev (getUserAgentFromRequest req) in
          let r := nd_Router nd in
          match processEvent now (alloc r ev) (length (ro_store r)) ev with
          | None => None
          | Some (r, Some e) => Some (set_router nd r, handlerReturnWithError w ErrReqToEvent (route_error_text e))
          | Some (r, None) => Some (set_router nd r, w)
          end
      end
  end.

(** ** A batch *)

(** [unmarshal] into the events of a batch, which have unmarshalers of their own. *)
Definition unmarshal_batch (cu : CoreFieldsUnmarshaler) (cfg : option fileConfig) req (data : string)
    : res (list BatchedEvents.batchedEvent) :=
  if is_msgpack req then let! (evs, _) := events_UnmarshalMsg cu cfg data in Ok evs
  else events_UnmarshalJSON cu cfg data.

(** The event as the loop of the handler reads it. *)
Definition batched (b : BatchedEvents.batchedEvent) : Router.batchedEvent :=
  Router.mkBatched (bt_SampleRate b) (getBatchedEventTime b) (bt_Data b).

(** An error that the handler reports without stopping, and the value it goes on with. *)
Definition reported (w : writer) (r : res string) : string * writer :=
  match r with Ok s => (s, w) | Err e => ("", handlerReturnWithError w ErrReqToEvent e) end.

Definition batch_handler now nd req w : option (node C T * writer) :=
  let nd := tallied nd [MIncrement (metric (nd_Router nd) "_router_batch")] in
  match readAndCloseMaybeCompressedBody req with
  | Err e => Some (nd, handlerReturnWithError w ErrPostBody e)
  | Ok body =>
      let '(dataset, w) := reported w (getDatasetFromRequest req) in
      let apiKey := request_key req in
      let '(env, nd) := environment_of now nd apiKey in
      let '(environment, w) := reported w env in
      match NewCoreFieldsUnmarshaler (nd_Config nd) apiKey environment dataset with
      | None => None
      | Some cu =>
          match unmarshal_batch cu (Some (nd_Config nd)) req body with
          | Err e => Some (nd, handlerReturnWithError w ErrBatchToEvent e)
          | Ok events =>
              let nd := tallied nd [MCount (metric (nd_Router nd) "_router_batch_events") (Z.of_nat (length events))] in
              match process_batch now (GetHoneycombAPI (nd_Config nd)) apiKey dataset environment
                      (getUserAgentFromRequest req) (nd_Router nd) (batched <$> events) with
              | None => None
              | Some (r, errs) => Some (set_router nd r, Write w (json_Marshal_responses (BatchResponse <$> errs)))
              end
          end
      end
  end.

(** The two as the route table has them, behind the check of the key. *)
Definition serve_event now nd req w := apiKeyProcessor (nd_Config nd) (event_handler now) nd req w.
Definition serve_batch now nd req w := apiKeyProcessor (nd_Config nd) (batch_handler now) nd req w.

(** ** Queries *)

Definition alive_handler (h : Health) nd w (body : string → res string) : node C T * writer * Health :=
  let '(alive, h) := IsAlive h in
  let nd := tallied nd [MGauge "is_alive" (ConvertBoolToFloat alive)] in
  (nd, if alive then marshalToFormat w (body "yes") (Err "") (Err "") "json"
       else marshalToFormat (WriteHeader w StatusServiceUnavailable) (body "no") (Err "") (Err "") "json", h).

Definition ready_handler (h : Health) nd w (body : string → res string) : node C T * writer :=
  let ready := IsReady h in
  let nd := tallied nd [MGauge "is_ready" (ConvertBoolToFloat ready)] in
  (nd, if ready then marshalToFormat w (body "yes") (Err "") (Err "") "json"
       else marshalToFormat (WriteHeader w StatusServiceUnavailable) (body "no") (Err "") (Err "") "json").

(** package html's EscapeString. *)
Definition html_escape_char (c : ascii) : string :=
  if Ascii.eqb c "&" then "&amp;"
  else if Ascii.eqb c "'" then "&#39;"
  else if Ascii.eqb c "<" then "&lt;"
  else if Ascii.eqb c ">" then "&gt;"
  else if Ascii.eqb c (ascii_of_nat 34) then "&#34;"
  else String c "".
Definition EscapeString (s : string) : string := str_concat (html_escape_char <$> String.list_ascii_of_string s).

Definition debugTrace nd req w : option writer :=
  let traceID := default "" (hq_Vars req !! "traceID") in
  (λ shard, Write w ("{" +:+ quoted "traceID" +:+ ":" +:+ quoted (EscapeString traceID) +:+ "," +:+
                     quoted "node" +:+ ":" +:+ quoted (GetAddress shard) +:+ "}")) <$>
    WhichShard (ro_Sharder (nd_Router nd)) traceID.

Definition version_handler (versionStr : string) w : writer :=
  Write w ("{" +:+ quoted "source" +:+ ":" +:+ quoted "refinery" +:+ "," +:+ quoted "version" +:+ ":" +:+ quoted versionStr +:+ "}").

(** ** Everything else *)

Definition joined (h : gmap string (list string)) : list (string * string) :=
  (λ kv, (kv.1, str_join "," kv.2)) <$> map_to_list h.

(** The headers of the upstream request; an error of reading the body is ignored. *)
Definition upstream_headers req : gmap string (list string) :=
  let h := foldl (λ h kv, <[CanonicalHeaderKey kv.1 := [kv.2]]> h) ∅ (joined (hq_Header req)) in
  let forwarded := Header_Get (hq_Header req) "X-Forwarded-For" in
  <["X-Forwarded-For" := [if negb (String.eqb forwarded "") then forwarded +:+ ", " +:+ hq_RemoteAddr req
                          else hq_RemoteAddr req]]> h.

Definition proxy `{!GoProxy} nd req w : node C T * writer :=
  let nd := tallied nd [MIncrement (metric (nd_Router nd) "_router_proxied")] in
  let url := GetHoneycombAPI (nd_Config nd) +:+ hq_URL req in
  (nd,
   match proxy_NewRequest (hq_Method req) url with
   | Some e => handlerReturnWithError w ErrUpstreamFailed e
   | None =>
       match client_Do (mkHttp (hq_Method req) url ∅ (upstream_headers req) "" (mkBody (bd_bytes (hq_Body req)) None)) with
       | Err e => handlerReturnWithError w ErrUpstreamUnavailable e
       | Ok (code, hdr, body) =>
           let w := foldl (λ w kv, set_header w kv.1 kv.2) w (joined hdr) in
           let w := WriteHeader w code in
           if String.eqb body "" then w else Write w body
       end
   end).
End Handlers.

(** ** What the handlers answer *)

Section Answers.
Context {C T : Type} `{!CollectorOps C Payload, !Sharder T}.
Context `{!Msgp, !GoFloat, !GoJSON, !GoRegexp, !GoTime, !GoFastJSON, !GoBody, !GoHTTP, !GoWeb}.
Implicit Types (nd : node C T) (now : Z) (req : httpRequest) (w : writer) (r : Router C T Payload).

Lemma status_error w he e : w_sent w = None → status (handlerReturnWithError w he e) = he_status he.
Proof. intros Hw. unfold handlerReturnWithError, Write, WriteHeader, status. by rewrite Hw. Qed.

Lemma write_ok w b : w_sent w = None → status (Write w b) = 200 ∧ w_Body (Write w b) = w_Body w +:+ b.
Proof. intros Hw. unfold Write, WriteHeader, status. by rewrite Hw. Qed.

(** A key that is not accepted, or that none may replace, is refused before anything is done. *)
Lemma key_refused (f : fileConfig) (next : node C T → httpRequest → writer → option (node C T * writer)) nd req w :
  (IsAccepted (GetAccessKeyConfig f) (request_key req) ≠ None ∨ ∃ e, GetReplaceKey (GetAccessKeyConfig f) (request_key req) = Err e) →
  w_sent w = None →
  ∃ w', apiKeyProcessor f next nd req w = Some (nd, w') ∧ status w' = StatusUnauthorized.
Proof.
  intros Href Hw. unfold apiKeyProcessor. destruct (IsAccepted _ _) as [e|].
  - eexists. split; [reflexivity|]. by rewrite status_error.
  - destruct Href as [Hne|[e ->]]; [done|]. eexists. split; [reflexivity|]. by rewrite status_error.
Qed.

(** The request as the handler behind the check gets it. *)
Definition keyed req (key : string) : httpRequest :=
  if negb (String.eqb key (request_key req)) then with_header req APIKeyHeader key else req.

Lemma request_key_keyed req key : key ≠ "" → request_key (keyed req key) = key.
Proof.
  intros Hk. unfold keyed. destruct (String.eqb_spec key (request_key req)) as [->|Hne]; [done|]. cbn [negb].
  unfold request_key. rewrite Header_Get_set. by apply String.eqb_neq in Hk as ->.
Qed.

Lemma keyed_header req key name :
  CanonicalHeaderKey name ≠ CanonicalHeaderKey APIKeyHeader →
  Header_Get (hq_Header (keyed req key)) name = Header_Get (hq_Header req) name.
Proof. intros Hne. unfold keyed. destruct (negb _); [|done]. by apply Header_Get_set_ne. Qed.

Lemma keyed_body req key : readAndCloseMaybeCompressedBody (keyed req key) = readAndCloseMaybeCompressedBody req.
Proof.
  unfold readAndCloseMaybeCompressedBody. rewrite keyed_header by by vm_compute. unfold keyed. by destruct (negb _).
Qed.
Lemma keyed_dataset req key : getDatasetFromRequest (keyed req key) = getDatasetFromRequest req.
Proof. unfold getDatasetFromRequest, keyed. by destruct (negb _). Qed.
Lemma keyed_agent req key : getUserAgentFromRequest (keyed req key) = getUserAgentFromRequest req.
Proof. apply keyed_header. by vm_compute. Qed.
Lemma keyed_unmarshal cu cfg req key body : unmarshal_batch cu cfg (keyed req key) body = unmarshal_batch cu cfg req body.
Proof. unfold unmarshal_batch, is_msgpack. by rewrite keyed_header by by vm_compute. Qed.

(** The lookup of an environment depends on the configuration and the cache alone. *)
Lemma environment_tallied now nd ops key :
  ∃ c, environment_of now (tallied nd ops) key = ((environment_of now nd key).1, mkNode (nd_Config nd) (counted (nd_Router nd) ops) c).
Proof.
  unfold environment_of. cbn [tallied set_router nd_Config nd_envs].
  destruct (getEnvironmentName _ now (nd_envs nd) key) as [[r c] n]. by exists c.
Qed.

Lemma replace_nonblank a key k : GetReplaceKey a key = Ok k → k ≠ "".
Proof. unfold GetReplaceKey. case_match eqn:E; [done|]. intros [= <-]. by apply String.eqb_neq. Qed.

(** ** The events of a batch *)

(** The event of a batch, as the loop makes it. *)
Definition event_of (apiHost apiKey dataset environment userAgent : string) (b : Router.batchedEvent) : Event Payload :=
  addIncomingUserAgent (mkEvent apiHost apiKey dataset environment (Router.getSampleRate b) (be_time b) (be_Data b) 0 0) userAgent.

(** The events one after the other: each is refused for being empty, or disposed of as the router's
    specification says in the state the ones before it left. *)
Inductive batch_run now (make : Router.batchedEvent → Event Payload) :
    Router C T Payload → list (Router.batchedEvent (P := Payload)) → Router C T Payload →
    list (option route_error) → list (option (disposition (C := C))) → Prop :=
| run_done r : batch_run now make r [] r [] []
| run_empty r b bs r' errs ds :
    isEmpty (be_Data b) = true → batch_run now make r bs r' errs ds →
    batch_run now make r (b :: bs) r' (Some (ErrMessage "empty event data") :: errs) (None :: ds)
| run_event r b bs r1 err d r' errs ds :
    isEmpty (be_Data b) = false → route_spec now (alloc r (make b)) (make b) = Some d →
    placed (alloc r (make b)) r1 (length (ro_store r)) err d → batch_run now make r1 bs r' errs ds →
    batch_run now make r (b :: bs) r' (err :: errs) (Some d :: ds).

(** Every span of the collector is processed at once when the node is stressed. *)
Definition always_processes : Prop := ∀ now (c : C) (span : Span Payload) c' span' processed kept,
  col_ProcessSpanImmediately now c span = Some (c', span', processed, kept) → processed = true.

Lemma process_batch_run now apiHost apiKey dataset environment userAgent r bs r' errs :
  always_processes → process_batch now apiHost apiKey dataset environment userAgent r bs = Some (r', errs) →
  ∃ ds, batch_run now (event_of apiHost apiKey dataset environment userAgent) r bs r' errs ds.
Proof.
  intros Hproc. revert r errs. induction bs as [|b bs IH]; intros r errs; cbn [process_batch].
  - intros [= <- <-]. exists []. constructor.
  - change (p_IsEmpty (be_Data b)) with (isEmpty (be_Data b)). destruct (isEmpty (be_Data b)) eqn:Eb.
    + destruct (process_batch _ _ _ _ _ _ r bs) as [[r2 es]|] eqn:E; [|done]. intros [= <- <-].
      destruct (IH _ _ E) as [ds Hds]. exists (None :: ds). by constructor.
    + fold (event_of apiHost apiKey dataset environment userAgent b). set (ev := event_of _ _ _ _ _ b).
      destruct (processEvent now (alloc r ev) _ ev) as [[r1 err]|] eqn:Ep; [|done].
      destruct (process_batch _ _ _ _ _ _ r1 bs) as [[r2 es]|] eqn:E; [|done]. intros [= <- <-].
      destruct (IH _ _ E) as [ds Hds]. apply event_disposed in Ep as (d & Ed & Hd).
      * exists (Some d :: ds). by apply (run_event _ _ _ _ _ r1).
      * intros c span c' span' processed kept. apply Hproc.
      * simpl. rewrite length_app. simpl. lia.
Qed.

(** The status of the response to an event, by what became of it. *)
Definition answer (d : option (disposition (C := C))) : Z :=
  match d with
  | None | Some (Rejected _) => StatusBadRequest
  | Some QueueFull => StatusTooManyRequests
  | Some _ => StatusAccepted
  end.

Lemma run_statuses now make r bs r' errs ds :
  batch_run now make r bs r' errs ds →
  length errs = length bs ∧
  status_of <$> errs = answer <$> ds.
Proof.
  induction 1 as [|r b bs r' errs ds He _ [IH1 IH2]|r b bs r1 err d r' errs ds He Hd Hp _ [IH1 IH2]]; [done|..].
  - rewrite !fmap_cons, IH2. split; [by f_equal/=|done].
  - rewrite !fmap_cons, IH2. split; [by f_equal/=|]. f_equal.
    destruct d as [e| | |a|c| |c|c [a|]]; simpl in Hp; by destruct Hp as [-> _].
Qed.

(** The handler behind the check, when everything the batch needs is there. *)
Lemma batch_handled now nd req key w nd' w' body dataset environment cu bevs :
  always_processes → key ≠ "" → readAndCloseMaybeCompressedBody req = Ok body → getDatasetFromRequest req = Ok dataset →
  (environment_of now nd key).1 = Ok environment →
  NewCoreFieldsUnmarshaler (nd_Config nd) key environment dataset = Some cu →
  unmarshal_batch cu (Some (nd_Config nd)) req body = Ok bevs →
  batch_handler now nd (keyed req key) w = Some (nd', w') →
  ∃ ops errs ds,
    batch_run now (event_of (GetHoneycombAPI (nd_Config nd)) key dataset environment (getUserAgentFromRequest req))
      (counted (nd_Router nd) ops) (batched <$> bevs) (nd_Router nd') errs ds ∧
    w' = Write w (json_Marshal_responses (BatchResponse <$> errs)) ∧ length errs = length bevs ∧
    status_of <$> errs = answer <$> ds.
Proof.
  intros Hproc Hk Hb Hd He Hcu Hu E. unfold batch_handler in E.
  rewrite keyed_body, keyed_dataset, request_key_keyed, Hb, Hd in E by done. cbn [reported] in E.
  destruct (environment_tallied now nd [MIncrement (metric (nd_Router nd) "_router_batch")] key) as (c & En).
  rewrite En, He in E. cbn [reported] in E. cbn in E. rewrite Hcu in E. rewrite keyed_unmarshal, Hu, keyed_agent in E.
  destruct (process_batch _ _ _ _ _ _ _ _) as [[r errs]|] eqn:Ep; [|done]. injection E as <- <-.
  apply process_batch_run in Ep as [ds Hds]; [|done]. exists ([MIncrement (metric (nd_Router nd) "_router_batch")] ++
    [MCount (metric (nd_Router nd) "_router_batch_events") (Z.of_nat (length bevs))]), errs, ds.
  destruct (run_statuses _ _ _ _ _ _ _ Hds) as [Hl Hs]. rewrite length_fmap in Hl. split_and!; try done.
  unfold counted. rewrite app_assoc. exact Hds.
Qed.

(** C7: a batch is answered event by event.  When the key is accepted and its body decodes, under a
    dataset and an environment that could be found, the answer is a 200 with one response for each
    event, in order.  Each event, made with the key the configuration puts in place of the
    request's, is disposed of as the router specifies in the state the events before it left; its
    response is 202, or 400 if it is empty or cannot be parsed, or 429 if the queue is full.  A key
    that is not accepted is answered 401, and nothing is done. *)
Theorem batch_answered now nd req w nd' w' :
  always_processes → w_sent w = None → serve_batch now nd req w = Some (nd', w') →
  (∀ e, IsAccepted (GetAccessKeyConfig (nd_Config nd)) (request_key req) = Some e ∨
        GetReplaceKey (GetAccessKeyConfig (nd_Config nd)) (request_key req) = Err e →
     nd' = nd ∧ status w' = StatusUnauthorized) ∧
  (∀ key body dataset environment cu bevs,
     IsAccepted (GetAccessKeyConfig (nd_Config nd)) (request_key req) = None →
     GetReplaceKey (GetAccessKeyConfig (nd_Config nd)) (request_key req) = Ok key →
     readAndCloseMaybeCompressedBody req = Ok body → getDatasetFromRequest req = Ok dataset →
     (environment_of now nd key).1 = Ok environment →
     NewCoreFieldsUnmarshaler (nd_Config nd) key environment dataset = Some cu →
     unmarshal_batch cu (Some (nd_Config nd)) req body = Ok bevs →
     let make := event_of (GetHoneycombAPI (nd_Config nd)) key dataset environment (getUserAgentFromRequest req) in
     ∃ ops errs ds, batch_run now make (counted (nd_Router nd) ops) (batched <$> bevs) (nd_Router nd') errs ds ∧
       status w' = 200 ∧ w_Body w' = w_Body w +:+ json_Marshal_responses (BatchResponse <$> errs) ∧
       length errs = length bevs ∧ status_of <$> errs = answer <$> ds).
Proof.
  intros Hproc Hw. unfold serve_batch, apiKeyProcessor. intros E. split.
  - intros e He. destruct (IsAccepted _ _) as [err|]; [injection E as <- <-; split; [done|by apply status_error]|].
    destruct He as [|He]; [done|]. rewrite He in E. injection E as <- <-. split; [done|by apply status_error].
  - intros key body dataset environment cu bevs Ha Hk Hb Hd He Hcu Hu. rewrite Ha, Hk in E. fold (keyed req key) in E. cbn zeta.
    destruct (batch_handled now nd req key w nd' w' body dataset environment cu bevs) as (ops & errs & ds & Hr & -> & Hl & Hs);
      [done|by eapply replace_nonblank|done..|].
    destruct (write_ok w (json_Marshal_responses (BatchResponse <$> errs)) Hw) as [-> ->]. by exists ops, errs, ds.
Qed.
End Answers.

(** ** A node on concrete requests *)

Module HandlersExample.
#[export] Existing Instances example_float ExampleMsgp.codec ExampleMsgp.codec_laws TraceKeyExamples.encode_hash
  SamplerExamples.no_regexp.
#[export] Instance json : GoJSON := {| json_Marshal _ := None; json_Unmarshal _ := Err "" |}.
#[export] Instance time : GoTime := {| time_Parse _ := None; ParseInt _ := None |}.
#[export] Instance fastjson : GoFastJSON := {| fastjson_Parse _ := Err "" |}.
#[export] Instance body : GoBody := {|
  gzip_NewReader b := Ok b; zstd_DecodeAll s := Ok s; msgpack_Decode_map _ := Err ""; jsoniter_Unmarshal_map _ := Err "" |}.

(** Responses as digits, and back. *)
Fixpoint digits (p : positive) : string :=
  match p with xH => "" | xO p => String "0"%char (digits p) | xI p => String "1"%char (digits p) end.
Fixpoint undigits (s : string) : positive :=
  match s with EmptyString => xH | String c s => if Ascii.eqb c "0"%char then xO (undigits s) else xI (undigits s) end.
Lemma undigits_digits p : undigits (digits p) = p.
Proof. induction p as [p IH|p IH|]; cbn; by rewrite ?IH. Qed.

#[export] Instance http : GoHTTP := {|
  url_JoinPath host elems := Some (host +:+ str_concat elems);
  NewRequest_ok _ := true;
  ParseDuration _ := None;
  ParseTime _ := None;
  msgpack_responses _ := ([], true);
  json_responses s := (default [] (decode (undigits s)), false);
  msgpack_body_err _ := true;
  zstd_EncodeAll s := s |}.
#[export] Instance web : GoWeb := {|
  json_Marshal_responses l := digits (encode l.*1);
  json_AuthInfo _ := None;
  auth_URL _ := Err "";
  client_Get _ _ := Err "" |}.

(** A collector that keeps the spans it is given. *)
#[export] Instance keeper : CollectorOps (list (Span Payload)) Payload := {|
  col_Stressed _ := false;
  col_ProcessSpanImmediately _ c span := Some (c, span, true, false);
  col_AddSpan c span := Some (Ok (c ++ [span]));
  col_AddSpanFromPeer c span := Some (Ok (c ++ [span])) |}.
Lemma keeper_processes : always_processes (C := list (Span Payload)).
Proof. by intros now c span c' span' processed kept [= _ _ <- _]. Qed.

Definition key := "0123456789abcdef0123456789abcdef".

(** A node that accepts one key. *)
Definition guarded : fileConfig :=
  let c := WorkerExamples.contents false in
  mkFileConfig
    {| General := General c; Network := Network c;
       AccessKeys := {| ak_ReceiveKeys := [key]; ak_SendKey := "sendkey"; ak_SendKeyMode := "all"; ak_AcceptOnlyListedKeys := true |};
       Telemetry := Telemetry c; Traces := Traces c; Debugging := Debugging c; Collection := Collection c;
       Specialized := Specialized c; IDFieldNames := IDFieldNames c; SampleCache := SampleCache c;
       Config.StressRelief := Config.StressRelief c |} "" (rulesConfig (WorkerExamples.config false 1)) "" [].
Definition node_with (f : fileConfig) : node (list (Span Payload)) unit :=
  mkNode f (mkRouter true false [] tt [] [] [] []) (newEnvironmentCache 10).
Definition post (key body : string) : httpRequest :=
  mkHttp "POST" "" {["datasetName" := "data"]}
    {["X-Honeycomb-Team" := [key]; "Content-Type" := ["application/msgpack"]]} "" (mkBody body None).
End HandlersExample.

Section Witnesses.
Import HandlersExample.

(** An empty batch, and a key that is not listed. *)
Lemma batch_answered_witness :
  (∃ nd' w', serve_batch 0 (node_with (WorkerExamples.config false 1)) (post key (AppendArrayHeader 0)) new_writer = Some (nd', w') ∧
    status w' = 200 ∧ w_Body w' = json_Marshal_responses []) ∧
  ∃ nd' w', serve_batch 0 (node_with guarded) (post "other" "") new_writer = Some (nd', w') ∧
    nd' = node_with guarded ∧ status w' = StatusUnauthorized.
Proof.
  split.
  - destruct (serve_batch 0 (node_with (WorkerExamples.config false 1)) (post key (AppendArrayHeader 0)) new_writer)
      as [[nd' w']|] eqn:E; [|by vm_compute in E]. exists nd', w'. split; [done|].
    destruct (batch_answered 0 _ _ new_writer nd' w' keeper_processes eq_refl E) as [_ Hb].
    destruct (Hb key (AppendArrayHeader 0) "data" "" (mkCore ["trace.trace_id"] ["trace.parent_id"] []) [])
      as (ops & errs & ds & _ & Hs & Hw & Hl & _); [by vm_compute..|]. destruct errs; [|done]. by split.
  - destruct (serve_batch 0 (node_with guarded) (post "other" "") new_writer) as [[nd' w']|] eqn:E; [|by vm_compute in E].
    exists nd', w'. split; [done|]. eapply (batch_answered 0 _ _ new_writer nd' w' keeper_processes eq_refl E).
    left. by vm_compute.
Defined.
End Witnesses.
