(* ===== verification/Otlp.v ===== *)
(** route/otlp_trace.go, route/otlp_logs.go and the OTLP part of route/route.go: traces and logs in
    OpenTelemetry's protocol, over HTTP and gRPC.

    The translation of a request into batches of events is husky's, a third-party library: the class
    [GoHusky].  Tracing is left out; a gRPC interceptor calls its handler. *)
From S2P Require Import Prelude GoValue Metrics Collector Worker.
From S2P Require Import Msgp Event SamplerConfig Config Payload PayloadFacts Transmit Http BatchedEvents Sharder Router Handlers.

(** ** husky *)

Inductive husky_error :=
| ErrInvalidContentType
| ErrMissingAPIKeyHeader
| ErrMissingDatasetHeader
| ErrFailedParseBody
| ErrOther (text : string).
#[export] Instance husky_error_eq_dec : EqDecision husky_error.
Proof. solve_decision. Defined.

(** An event of a batch: its attributes are a map, or that map in MessagePack. *)
Record otlpEvent (A : Type) := mkOtlp { oe_Attributes : A; oe_SampleRate : Z; oe_Timestamp : Z }.
Arguments mkOtlp {A}. Arguments oe_Attributes {A}. Arguments oe_SampleRate {A}. Arguments oe_Timestamp {A}.
Record otlpBatch (A : Type) := mkOtlpBatch { ob_Dataset : string; ob_Events : list (otlpEvent A) }.
Arguments mkOtlpBatch {A}. Arguments ob_Dataset {A}. Arguments ob_Events {A}.

(** [RI] is husky's RequestInfo.  A failure response is given a status and a message. *)
Class GoHusky (RI : Type) := {
  GetRequestInfoFromHttpHeaders : gmap string (list string) → RI;
  GetRequestInfoFromGrpcMetadata : gmap string (list string) → RI;
  ri_ApiKey : RI → string;
  ri_UserAgent : RI → string;
  ri_ContentType : RI → string;
  ri_set_ApiKey : RI → string → RI;
  ValidateTracesHeaders : RI → option husky_error;
  ValidateLogsHeaders : RI → option husky_error;
  TranslateTraceRequestFromReaderSizedWithMsgp : httpBody → RI → Z → list (otlpBatch string) + husky_error;
  UnmarshalTraceRequestDirectMsgp : string → RI → list (otlpBatch string) + husky_error;
  TranslateLogsRequestFromReader : httpBody → RI → list (otlpBatch (gmap string value)) + husky_error;
  TranslateLogsRequest : string → RI → list (otlpBatch (gmap string value)) + husky_error;
  husky_text : husky_error → string;
  husky_status : husky_error → Z;
  WriteOtlpHttpFailureResponse : writer → httpRequest → Z → string → writer * option string;
  WriteOtlpHttpTraceSuccessResponse : writer → httpRequest → writer * option string;
}.

(** What it documents, and refinery relies on: a key set is the key; a failure response that could
    be written has the status it was given. *)
Class GoHuskyLaws RI `{GoHusky RI} := {
  ri_key_set r k : ri_ApiKey (ri_set_ApiKey r k) = k;
  failure_status w req code msg w' :
    w_sent w = None → WriteOtlpHttpFailureResponse w req code msg = (w', None) → status w' = code;
  failure_unsent w req code msg w' e :
    WriteOtlpHttpFailureResponse w req code msg = (w', Some e) → w_sent w' = w_sent w;
}.

(** The outcome of a gRPC call. *)
Inductive grpc_result := GrpcOk | GrpcError (code : Z) (message : string).
Definition codes_Internal : Z := 13.
Definition codes_Unauthenticated : Z := 16.

Section Otlp.
Context {C T RI : Type} `{!CollectorOps C Payload, !Sharder T, !GoHusky RI}.
Context `{!Msgp, !GoFloat, !GoJSON, !GoRegexp, !GoHTTP, !GoWeb}.
Implicit Types (nd : node C T) (now : Z) (req : httpRequest) (w : writer) (ri : RI).

(** ** The batches *)

(** An error of the router is logged, no more. *)
Definition process_otlp_event now nd (ev : Event Payload) : option (node C T) :=
  let r := nd_Router nd in
  match processEvent now (alloc r ev) (length (ro_store r)) ev with
  | None => None
  | Some (r, _) => Some (set_router nd r)
  end.

Fixpoint process_each {A} (f : node C T → A → option (node C T)) nd (l : list A) : option (node C T) :=
  match l with [] => Some nd | x :: l => match f nd x with None => None | Some nd => process_each f nd l end end.

Definition otlp_event nd (apiKey environment dataset userAgent : string) (rate time : Z) (data : Payload) : Event Payload :=
  addIncomingUserAgent (mkEvent (GetHoneycombAPI (nd_Config nd)) apiKey dataset environment (u64 rate) time data 0 0) userAgent.

Definition total_events {A} (batches : list (otlpBatch A)) : Z :=
  foldr (λ b n, Z.of_nat (length (ob_Events b)) + n) 0 batches.

Definition processOTLPRequest now nd (batches : list (otlpBatch (gmap string value))) (apiKey userAgent : string)
    : option (node C T) :=
  let '(env, nd) := environment_of now nd apiKey in
  match env with
  | Err _ => Some nd
  | Ok environment =>
      let one (dataset : string) nd (ev : otlpEvent (gmap string value)) :=
        process_otlp_event now nd
          (otlp_event nd apiKey environment dataset userAgent (oe_SampleRate ev) (oe_Timestamp ev)
             (NewPayload (Some (nd_Config nd)) (oe_Attributes ev))) in
      (λ nd, tallied nd [MCount (metric (nd_Router nd) "_router_otlp_events") (total_events batches)]) <$>
        process_each (λ nd b, process_each (one (ob_Dataset b)) nd (ob_Events b)) nd batches
  end.

Definition processOTLPRequestBatchMsgp now nd (batches : list (otlpBatch string)) (apiKey userAgent : string)
    : option (node C T) :=
  let '(env, nd) := environment_of now nd apiKey in
  match env with
  | Err _ => Some nd
  | Ok environment =>
      let one (cu : CoreFieldsUnmarshaler) (dataset : string) nd (ev : otlpEvent string) :=
        match UnmarshalMsgpEventMetadataOnly cu (oe_Attributes ev) (NewPayload (Some (nd_Config nd)) ∅) with
        | Err _ => Some nd
        | Ok payload =>
            process_otlp_event now nd
              (otlp_event nd apiKey environment dataset userAgent (oe_SampleRate ev) (oe_Timestamp ev) payload)
        end in
      let batch nd (b : otlpBatch string) :=
        match NewCoreFieldsUnmarshaler (nd_Config nd) apiKey environment (ob_Dataset b) with
        | None => None
        | Some cu => process_each (one cu (ob_Dataset b)) nd (ob_Events b)
        end in
      (λ nd, tallied nd [MCount (metric (nd_Router nd) "_router_otlp_events") (total_events batches)]) <$>
        process_each batch nd batches
  end.

(** ** HTTP *)

Definition handleOTLPFailureResponse w req (code : Z) (msg : string) : writer :=
  match WriteOtlpHttpFailureResponse w req code msg with
  | (w, None) => w
  | (w, Some e) =>
      Write (WriteHeader (set_header w "Content-Type" "text/plain") StatusInternalServerError)
        ("failed to write otlp http response, " +:+ e)
  end.

(** A replaced key; its error is ignored, and leaves the key blank. *)
Definition key_to_use nd (key : string) : string :=
  match GetReplaceKey (GetAccessKeyConfig (nd_Config nd)) key with Ok k => k | Err _ => "" end.

(** What the check of the headers makes of a request: the response to end it with. *)
Definition refuse_headers (err : option husky_error) (keyToUse : string) : option (Z * string) :=
  match err with
  | None => None
  | Some ErrInvalidContentType => Some (husky_status ErrInvalidContentType, husky_text ErrInvalidContentType)
  | Some ErrMissingAPIKeyHeader as e | Some ErrMissingDatasetHeader as e =>
      if (String.length keyToUse =? 0)%nat
      then Some (StatusUnauthorized, husky_text (default ErrInvalidContentType e)) else None
  | Some e => Some (StatusUnauthorized, husky_text e)
  end.

Definition defaultMaxRequestBodySize : Z := 20 * 1024 * 1024.

(** The errors of the trace handler: those of husky it names, any other joined to
    ErrTranslateTraceRequest, and its own. *)
Inductive trace_error := HuskyError (e : husky_error) | ErrTranslate (e : husky_error) | ErrUnsupported.

Definition translate_error (e : husky_error) : trace_error :=
  match e with ErrOther _ => ErrTranslate e | _ => HuskyError e end.

Definition processOTLPRequestWithMsgp now nd req ri (keyToUse : string) : option (node C T * option trace_error) :=
  match TranslateTraceRequestFromReaderSizedWithMsgp (hq_Body req) ri defaultMaxRequestBodySize with
  | inr e => Some (nd, Some (translate_error e))
  | inl batches => (λ nd, (nd, None)) <$> processOTLPRequestBatchMsgp now nd batches keyToUse (ri_UserAgent ri)
  end.

Definition trace_failure (e : trace_error) : Z * string :=
  match e with
  | HuskyError ErrFailedParseBody => (husky_status ErrFailedParseBody, husky_text ErrFailedParseBody)
  | HuskyError ErrInvalidContentType => (husky_status ErrInvalidContentType, husky_text ErrInvalidContentType)
  | HuskyError e => (StatusUnauthorized, husky_text e)
  | ErrTranslate e => (StatusBadRequest, "failed to translate trace request
" +:+ husky_text e)
  | ErrUnsupported => (StatusInternalServerError, "unsupported content type")
  end.

Definition is_protobuf (t : string) : bool := String.eqb t "application/x-protobuf" || String.eqb t "application/protobuf".

Definition postOTLPTrace now nd req w : option (node C T * writer) :=
  let ri := GetRequestInfoFromHttpHeaders (hq_Header req) in
  let fail w e := handleOTLPFailureResponse w req e.1 e.2 in
  match IsAccepted (GetAccessKeyConfig (nd_Config nd)) (ri_ApiKey ri) with
  | Some err => Some (nd, fail w (StatusUnauthorized, err))
  | None =>
      let keyToUse := key_to_use nd (ri_ApiKey ri) in
      match refuse_headers (ValidateTracesHeaders ri) keyToUse with
      | Some e => Some (nd, fail w e)
      | None =>
          let ri := ri_set_ApiKey ri keyToUse in
          let counted name := tallied nd [MIncrement (metric (nd_Router nd) name)] in
          match
            if String.eqb (ri_ContentType ri) "application/json"
            then processOTLPRequestWithMsgp now (counted "_router_otlp_trace_http_json") req ri keyToUse
            else if is_protobuf (ri_ContentType ri)
            then processOTLPRequestWithMsgp now (counted "_router_otlp_trace_http_proto") req ri keyToUse
            else Some (nd, Some ErrUnsupported)
          with
          | None => None
          | Some (nd, Some e) => Some (nd, fail w (trace_failure e))
          | Some (nd, None) => Some (nd, (WriteOtlpHttpTraceSuccessResponse w req).1)
          end
      end
  end.

Definition postOTLPLogs now nd req w : option (node C T * writer) :=
  let ri := GetRequestInfoFromHttpHeaders (hq_Header req) in
  let fail w e := handleOTLPFailureResponse w req e.1 e.2 in
  match IsAccepted (GetAccessKeyConfig (nd_Config nd)) (ri_ApiKey ri) with
  | Some err => Some (nd, fail w (StatusUnauthorized, err))
  | None =>
      let keyToUse := key_to_use nd (ri_ApiKey ri) in
      match refuse_headers (ValidateLogsHeaders ri) keyToUse with
      | Some e => Some (nd, fail w e)
      | None =>
          let nd :=
            if String.eqb (ri_ContentType ri) "application/json"
            then tallied nd [MIncrement (metric (nd_Router nd) "_router_otlp_log_http_json")]
            else if is_protobuf (ri_ContentType ri)
            then tallied nd [MIncrement (metric (nd_Router nd) "_router_otlp_log_http_proto")] else nd in
          let ri := ri_set_ApiKey ri keyToUse in
          match TranslateLogsRequestFromReader (hq_Body req) ri with
          | inr e => Some (nd, fail w (StatusInternalServerError, husky_text e))
          | inl batches =>
              (λ nd, (nd, (WriteOtlpHttpTraceSuccessResponse w req).1)) <$>
                processOTLPRequest now nd batches keyToUse (ri_UserAgent ri)
          end
      end
  end.

(** ** gRPC *)

(** husky's AsGRPCError: its own code for an error; and what gRPC answers when decoding fails. *)
Variables (AsGRPCError decode_failure : husky_error → grpc_result).

Definition ExportTraceData now nd (batches : list (otlpBatch string)) ri : option (node C T * grpc_result) :=
  let nd := tallied nd [MIncrement (metric (nd_Router nd) "_router_otlp_trace_grpc")] in
  match IsAccepted (GetAccessKeyConfig (nd_Config nd)) (ri_ApiKey ri) with
  | Some err => Some (nd, GrpcError codes_Unauthenticated err)
  | None => (λ nd, (nd, GrpcOk)) <$> processOTLPRequestBatchMsgp now nd batches (ri_ApiKey ri) (ri_UserAgent ri)
  end.

(** [data] is the message; decoding it calls the wrapper's [Unmarshal]. *)
Definition customTraceExportHandler now nd (md : gmap string (list string)) (data : string)
    : option (node C T * grpc_result) :=
  let ri := GetRequestInfoFromGrpcMetadata md in
  match GetReplaceKey (GetAccessKeyConfig (nd_Config nd)) (ri_ApiKey ri) with
  | Err err => Some (nd, GrpcError codes_Unauthenticated err)
  | Ok keyToUse =>
      let ri := ri_set_ApiKey ri keyToUse in
      match UnmarshalTraceRequestDirectMsgp data ri with
      | inr e => Some (nd, decode_failure e)
      | inl batches => ExportTraceData now nd batches ri
      end
  end.

Definition logs_Export now nd (md : gmap string (list string)) (data : string) : option (node C T * grpc_result) :=
  let nd := tallied nd [MIncrement (metric (nd_Router nd) "_router_otlp_log_grpc")] in
  let ri := GetRequestInfoFromGrpcMetadata md in
  match IsAccepted (GetAccessKeyConfig (nd_Config nd)) (ri_ApiKey ri) with
  | Some err => Some (nd, GrpcError codes_Unauthenticated err)
  | None =>
      let keyToUse := key_to_use nd (ri_ApiKey ri) in
      let validated := ValidateLogsHeaders ri in
      if bool_decide (is_Some validated) && negb (bool_decide (validated = Some ErrMissingAPIKeyHeader))
      then Some (nd, AsGRPCError (default ErrMissingAPIKeyHeader validated))
      else
        let ri := ri_set_ApiKey ri keyToUse in
        match TranslateLogsRequest data ri with
        | inr e => Some (nd, AsGRPCError e)
        | inl batches => (λ nd, (nd, GrpcOk)) <$> processOTLPRequest now nd batches keyToUse (ri_UserAgent ri)
        end
  end.
End Otlp.

(** ** Every event reaches the router *)

Section Runs.
Context {C T : Type} `{!CollectorOps C Payload, !Sharder T}.
Context `{!Msgp, !GoFloat, !GoJSON, !GoRegexp, !GoHTTP, !GoWeb}.
Implicit Types (nd : node C T) (now : Z) (r : Router C T Payload).

(** Events one after the other, each disposed of as the router specifies in the state the ones before
    it left. *)
Inductive events_run now : Router C T Payload → list (Event Payload) → Router C T Payload → list (disposition (C := C)) → Prop :=
| events_done r : events_run now r [] r []
| events_next r ev evs r1 err d r' ds :
    route_spec now (alloc r ev) ev = Some d → placed (alloc r ev) r1 (length (ro_store r)) err d →
    events_run now r1 evs r' ds → events_run now r (ev :: evs) r' (d :: ds).

Lemma events_run_app now r evs1 r1 ds1 evs2 r2 ds2 :
  events_run now r evs1 r1 ds1 → events_run now r1 evs2 r2 ds2 → events_run now r (evs1 ++ evs2) r2 (ds1 ++ ds2).
Proof. induction 1 as [|r ev evs r0 err d r' ds He Hp _ IH]; intros Hr; [done|]. cbn [app]. eapply events_next; eauto. Qed.

(** A node and the one it becomes: only the router changes, by a run of the events. *)
Definition ran now (evs : list (Event Payload)) nd nd' : Prop :=
  nd_Config nd' = nd_Config nd ∧ nd_envs nd' = nd_envs nd ∧ ∃ ds, events_run now (nd_Router nd) evs (nd_Router nd') ds.

Lemma ran_nil now nd : ran now [] nd nd.
Proof. split_and!; [done..|]. exists []. constructor. Qed.

Lemma ran_app now evs1 evs2 nd nd1 nd2 : ran now evs1 nd nd1 → ran now evs2 nd1 nd2 → ran now (evs1 ++ evs2) nd nd2.
Proof.
  intros (E1 & E2 & ds1 & R1) (E3 & E4 & ds2 & R2). split_and!; [by rewrite E3|by rewrite E4|].
  exists (ds1 ++ ds2). by eapply events_run_app.
Qed.

Lemma process_otlp_event_ran now nd ev nd' :
  always_processes (C := C) → process_otlp_event now nd ev = Some nd' → ran now [ev] nd nd'.
Proof.
  intros Hproc. unfold process_otlp_event. destruct (processEvent _ _ _ ev) as [[r err]|] eqn:E; [|done]. intros [= <-].
  apply event_disposed in E as (d & Ed & Hd).
  - split_and!; [done..|]. exists [d]. eapply events_next; [exact Ed|exact Hd|constructor].
  - intros c span c' span' processed kept. apply Hproc.
  - simpl. rewrite length_app. simpl. lia.
Qed.

(** What each item of a list contributes may depend on the configuration, which does not change. *)
Lemma process_each_ran {A} now (f : node C T → A → option (node C T)) (evs : fileConfig → A → list (Event Payload)) nd l nd' :
  (∀ nd x nd', f nd x = Some nd' → ran now (evs (nd_Config nd) x) nd nd') →
  process_each f nd l = Some nd' → ran now (concat (evs (nd_Config nd) <$> l)) nd nd'.
Proof.
  intros Hf. revert nd. induction l as [|x l IH]; intros nd; cbn [process_each]; [intros [= <-]; apply ran_nil|].
  destruct (f nd x) as [nd1|] eqn:E; [|done]. intros El. apply Hf in E. pose proof E as (Ec & _).
  apply IH in El. rewrite Ec in El. cbn. by eapply ran_app.
Qed.

Definition otlp_event_of (f : fileConfig) (apiKey environment dataset userAgent : string) (rate time : Z) (data : Payload) : Event Payload :=
  addIncomingUserAgent (mkEvent (GetHoneycombAPI f) apiKey dataset environment (u64 rate) time data 0 0) userAgent.

(** The events of a request of logs, and those of a request of traces that can be decoded. *)
Definition log_events (apiKey environment userAgent : string) (f : fileConfig) (b : otlpBatch (gmap string value)) : list (Event Payload) :=
  (λ ev, otlp_event_of f apiKey environment (ob_Dataset b) userAgent (oe_SampleRate ev) (oe_Timestamp ev)
           (NewPayload (Some f) (oe_Attributes ev))) <$> ob_Events b.

Definition trace_event (f : fileConfig) (apiKey environment dataset userAgent : string) (cu : CoreFieldsUnmarshaler)
    (ev : otlpEvent string) : option (Event Payload) :=
  match UnmarshalMsgpEventMetadataOnly cu (oe_Attributes ev) (NewPayload (Some f) ∅) with
  | Err _ => None
  | Ok payload => Some (otlp_event_of f apiKey environment dataset userAgent (oe_SampleRate ev) (oe_Timestamp ev) payload)
  end.
Definition trace_events (apiKey environment userAgent : string) (f : fileConfig) (b : otlpBatch string) : list (Event Payload) :=
  match NewCoreFieldsUnmarshaler f apiKey environment (ob_Dataset b) with
  | None => []
  | Some cu => omap (trace_event f apiKey environment (ob_Dataset b) userAgent cu) (ob_Events b)
  end.

Lemma concat_singletons {A B} (f : A → B) l : concat ((λ x, [f x]) <$> l) = f <$> l.
Proof. induction l as [|x l IH]; [done|]. cbn. by rewrite IH. Qed.
Lemma concat_options {A B} (f : A → option B) l : concat ((λ x, option_list (f x)) <$> l) = omap f l.
Proof. induction l as [|x l IH]; [done|]. cbn. destruct (f x); cbn; by rewrite IH. Qed.

(** The environment's lookup first, then the events, then their count. *)
Definition otlp_outcome now nd (apiKey : string) (events : string → list (Event Payload)) (total : Z) nd' : Prop :=
  let '(env, nd0) := environment_of now nd apiKey in
  match env with
  | Err _ => nd' = nd0
  | Ok environment => ∃ nd1, ran now (events environment) nd0 nd1 ∧
      nd' = tallied nd1 [MCount (metric (nd_Router nd1) "_router_otlp_events") total]
  end.

Lemma logs_outcome now nd batches apiKey ua nd' :
  always_processes (C := C) → processOTLPRequest now nd batches apiKey ua = Some nd' →
  otlp_outcome now nd apiKey (λ env, concat (log_events apiKey env ua (nd_Config nd) <$> batches)) (total_events batches) nd'.
Proof.
  intros Hproc. unfold processOTLPRequest, otlp_outcome.
  assert (Hcfg : nd_Config (environment_of now nd apiKey).2 = nd_Config nd).
  { unfold environment_of. by destruct (getEnvironmentName _ _ _ _) as [[]]. }
  destruct (environment_of now nd apiKey) as [[environment|e] nd0]; [|by intros [= <-]]. cbn in Hcfg.
  destruct (process_each _ _ batches) as [nd1|] eqn:E; [|done]. intros [= <-]. exists nd1. split; [|done]. rewrite <-Hcfg.
  eapply process_each_ran; [|exact E]. intros nd2 b nd2' Eb. unfold log_events. rewrite <-concat_singletons.
  apply (process_each_ran now _ (λ f ev, [otlp_event_of f apiKey environment (ob_Dataset b) ua (oe_SampleRate ev)
    (oe_Timestamp ev) (NewPayload (Some f) (oe_Attributes ev))])) in Eb; [done|].
  intros nd3 ev nd3' Ee. by apply process_otlp_event_ran in Ee.
Qed.

Lemma traces_outcome now nd batches apiKey ua nd' :
  always_processes (C := C) → processOTLPRequestBatchMsgp now nd batches apiKey ua = Some nd' →
  otlp_outcome now nd apiKey (λ env, concat (trace_events apiKey env ua (nd_Config nd) <$> batches)) (total_events batches) nd'.
Proof.
  intros Hproc. unfold processOTLPRequestBatchMsgp, otlp_outcome.
  assert (Hcfg : nd_Config (environment_of now nd apiKey).2 = nd_Config nd).
  { unfold environment_of. by destruct (getEnvironmentName _ _ _ _) as [[]]. }
  destruct (environment_of now nd apiKey) as [[environment|e] nd0]; [|by intros [= <-]]. cbn in Hcfg.
  destruct (process_each _ _ batches) as [nd1|] eqn:E; [|done]. intros [= <-]. exists nd1. split; [|done]. rewrite <-Hcfg.
  eapply process_each_ran; [|exact E]. intros nd2 b nd2' Eb. cbv beta in Eb. unfold trace_events.
  destruct (NewCoreFieldsUnmarshaler _ _ _ _) as [cu|]; [|done]. rewrite <-concat_options.
  apply (process_each_ran now _ (λ f ev, option_list (trace_event f apiKey environment (ob_Dataset b) ua cu ev))) in Eb; [done|].
  intros nd3 ev nd3' Ee. unfold trace_event. destruct (UnmarshalMsgpEventMetadataOnly _ _ _).
  - by apply process_otlp_event_ran in Ee.
  - injection Ee as <-. apply ran_nil.
Qed.
End Runs.

(** ** Keys *)

Section Keys.
Context {C T RI : Type} `{!CollectorOps C Payload, !Sharder T, !GoHusky RI, !GoHuskyLaws RI}.
Context `{!Msgp, !GoFloat, !GoJSON, !GoRegexp, !GoHTTP, !GoWeb}.
Context (AsGRPCError decode_failure : husky_error → grpc_result).
Implicit Types (nd : node C T) (now : Z) (req : httpRequest) (w : writer).

Lemma failure_response w req code msg :
  w_sent w = None →
  status (handleOTLPFailureResponse w req code msg) = code ∨
  status (handleOTLPFailureResponse w req code msg) = StatusInternalServerError.
Proof.
  intros Hw. unfold handleOTLPFailureResponse. destruct (WriteOtlpHttpFailureResponse w req code msg) as [w1 [e|]] eqn:E.
  - right. apply failure_unsent in E. rewrite Hw in E. unfold Write, WriteHeader, status, set_header. cbn [w_sent]. by rewrite E.
  - left. by eapply failure_status.
Qed.

(** C20: who may send OTLP.  Over HTTP, traces and logs under a key that is not accepted are refused
    with a 401 (a 500 if the refusal cannot be written) and nothing else happens; over gRPC, logs
    are refused as unauthenticated.  But traces over gRPC have their key replaced before it is
    checked: when the configuration replaces all keys, the traces of anyone, with any key or none,
    are accepted and processed under the configured key, although only listed keys are to be
    accepted. *)
Theorem otlp_keys now nd req md data w :
  let a := GetAccessKeyConfig (nd_Config nd) in
  (IsAccepted a (ri_ApiKey (GetRequestInfoFromHttpHeaders (hq_Header req))) ≠ None → w_sent w = None →
   ∀ nd' w', postOTLPTrace now nd req w = Some (nd', w') ∨ postOTLPLogs now nd req w = Some (nd', w') →
     nd' = nd ∧ (status w' = StatusUnauthorized ∨ status w' = StatusInternalServerError)) ∧
  (∀ err, IsAccepted a (ri_ApiKey (GetRequestInfoFromGrpcMetadata md)) = Some err →
     logs_Export AsGRPCError now nd md data =
       Some (tallied nd [MIncrement (metric (nd_Router nd) "_router_otlp_log_grpc")], GrpcError codes_Unauthenticated err)) ∧
  (ak_SendKey a ≠ "" → ak_SendKeyMode a = "all" →
   ∀ batches, let ri := ri_set_ApiKey (GetRequestInfoFromGrpcMetadata md) (ak_SendKey a) in
     UnmarshalTraceRequestDirectMsgp data ri = inl batches →
     customTraceExportHandler decode_failure now nd md data =
       (λ nd, (nd, GrpcOk)) <$>
         processOTLPRequestBatchMsgp now (tallied nd [MIncrement (metric (nd_Router nd) "_router_otlp_trace_grpc")])
           batches (ak_SendKey a) (ri_UserAgent ri)).
Proof.
  cbn zeta. split_and!.
  - intros Hr Hw nd' w'. unfold postOTLPTrace, postOTLPLogs. destruct (IsAccepted _ _) as [err|]; [|done].
    intros [[= <- <-]|[= <- <-]]; (split; [done|]); by apply failure_response.
  - intros err He. unfold logs_Export. cbn [tallied set_router nd_Config]. by rewrite He.
  - intros Hs Hm batches Hb. unfold customTraceExportHandler.
    assert (Hk : GetReplaceKey (GetAccessKeyConfig (nd_Config nd)) (ri_ApiKey (GetRequestInfoFromGrpcMetadata md)) =
      Ok (ak_SendKey (GetAccessKeyConfig (nd_Config nd)))).
    { unfold GetReplaceKey. apply String.eqb_neq in Hs. rewrite Hs, Hm. cbn. rewrite Hs. cbn. by rewrite Hs. }
    rewrite Hk, Hb. unfold ExportTraceData. cbn [tallied set_router nd_Config]. rewrite ri_key_set.
    assert (Ha : IsAccepted (GetAccessKeyConfig (nd_Config nd)) (ak_SendKey (GetAccessKeyConfig (nd_Config nd))) = None).
    { unfold IsAccepted. destruct (ak_AcceptOnlyListedKeys _); [|done]. rewrite String.eqb_refl.
      by destruct (ak_SendKey (GetAccessKeyConfig (nd_Config nd))). }
    by rewrite Ha.
Qed.

(** What is counted for a request of traces in a format that is taken. *)
Definition trace_counter (contentType : string) : option string :=
  if decide (contentType = "application/json") then Some "_router_otlp_trace_http_json"
  else if decide (contentType ∈ ["application/x-protobuf"; "application/protobuf"]) then Some "_router_otlp_trace_http_proto"
  else None.

(** The headers are in order: a missing key or dataset does not matter once there is a key to use. *)
Definition headers_pass (err : option husky_error) (keyToUse : string) : Prop :=
  match err with
  | None => True
  | Some ErrMissingAPIKeyHeader | Some ErrMissingDatasetHeader => keyToUse ≠ ""
  | Some _ => False
  end.

Lemma refuse_headers_none err key : refuse_headers err key = None ↔ headers_pass err key.
Proof. destruct err as [[]|]; cbn; try done; by destruct key. Qed.

Lemma trace_formats {A} (ct : string) (json proto other : A) :
  (if String.eqb ct "application/json" then json else if is_protobuf ct then proto else other) =
  match trace_counter ct with
  | Some name => if String.eqb name "_router_otlp_trace_http_json" then json else proto
  | None => other
  end.
Proof.
  unfold trace_counter, is_protobuf. destruct (String.eqb_spec ct "application/json") as [->|]; [done|].
  rewrite decide_False by done. destruct (String.eqb_spec ct "application/x-protobuf") as [->|]; [done|].
  destruct (String.eqb_spec ct "application/protobuf") as [->|]; [done|]. rewrite decide_False by set_solver. done.
Qed.

(** C19: what becomes of a request of traces whose key is accepted.  Over HTTP, when its headers are in
    order, and it is in JSON or in either name of protobuf, and husky can translate it, it is counted
    under its format and answered with success whatever becomes of its events; and every event of it
    that can be decoded, in order, under the key the configuration puts in place of the request's, is
    disposed of as the router specifies in the state the ones before it left.  (When the environment
    of the key cannot be looked up nothing is processed, and the answer is the same success.)
    Otherwise nothing of it is processed, and it is answered with the failure that says why.  Over
    gRPC, a request that can be decoded and whose replaced key is accepted is treated alike. *)
Theorem otlp_traces_processed now nd req md data w :
  always_processes (C := C) →
  let a := GetAccessKeyConfig (nd_Config nd) in
  let outcome nd0 ri key batches nd' :=
    otlp_outcome now nd0 key (λ env, concat (trace_events key env (ri_UserAgent ri) (nd_Config nd) <$> batches))
      (total_events batches) nd' in
  let counted name := tallied nd [MIncrement (metric (nd_Router nd) name)] in
  (∀ nd' w', let ri := GetRequestInfoFromHttpHeaders (hq_Header req) in
   IsAccepted a (ri_ApiKey ri) = None → postOTLPTrace now nd req w = Some (nd', w') →
   let key := default "" (match GetReplaceKey a (ri_ApiKey ri) with Ok k => Some k | Err _ => None end) in
   let ri' := ri_set_ApiKey ri key in
   let failed nd0 (e : Z * string) := nd' = nd0 ∧ w' = handleOTLPFailureResponse w req e.1 e.2 in
   (¬ headers_pass (ValidateTracesHeaders ri) key → ∃ e, refuse_headers (ValidateTracesHeaders ri) key = Some e ∧ failed nd e) ∧
   (headers_pass (ValidateTracesHeaders ri) key →
    match trace_counter (ri_ContentType ri') with
    | None => failed nd (trace_failure ErrUnsupported)
    | Some name =>
        match TranslateTraceRequestFromReaderSizedWithMsgp (hq_Body req) ri' defaultMaxRequestBodySize with
        | inr e => failed (counted name) (trace_failure (translate_error e))
        | inl batches => w' = (WriteOtlpHttpTraceSuccessResponse w req).1 ∧ outcome (counted name) ri' key batches nd'
        end
    end)) ∧
  (∀ nd' answer key batches, let ri := GetRequestInfoFromGrpcMetadata md in
   GetReplaceKey a (ri_ApiKey ri) = Ok key → IsAccepted a key = None →
   UnmarshalTraceRequestDirectMsgp data (ri_set_ApiKey ri key) = inl batches →
   customTraceExportHandler decode_failure now nd md data = Some (nd', answer) →
   answer = GrpcOk ∧ outcome (counted "_router_otlp_trace_grpc") (ri_set_ApiKey ri key) key batches nd').
Proof.
  intros Hproc. cbn zeta. split.
  - intros nd' w' Ha. unfold postOTLPTrace, key_to_use. rewrite Ha.
    assert (Ek : ∀ r : res string, match r with Ok k => k | Err _ => "" end = default "" (match r with Ok k => Some k | Err _ => None end))
      by by intros [].
    rewrite Ek. set (key := default "" _). destruct (refuse_headers (ValidateTracesHeaders _) key) as [e|] eqn:Er.
    { intros [= <- <-]. split; [intros _; by exists e|]. intros Hp%refuse_headers_none. congruence. }
    intros Hpost. split; [by intros []; apply refuse_headers_none|]. intros _. rewrite trace_formats in Hpost.
    destruct (trace_counter _) as [name|] eqn:Ec; [|by injection Hpost as <- <-]. revert Hpost.
    assert (name = "_router_otlp_trace_http_json" ∨ name = "_router_otlp_trace_http_proto") as [-> | ->]
      by (unfold trace_counter in Ec; repeat case_decide; naive_solver); cbn [String.eqb Ascii.eqb Bool.eqb];
      unfold processOTLPRequestWithMsgp; (destruct (TranslateTraceRequestFromReaderSizedWithMsgp _ _ _) as [batches|e]; [|by intros [= <- <-]]);
      (destruct (processOTLPRequestBatchMsgp _ _ _ _ _) as [nd1|] eqn:E; [|done]); intros [= <- <-]; (split; [done|]);
      by apply traces_outcome in E.
  - intros nd' answer key batches Hk Ha Hb. unfold customTraceExportHandler. rewrite Hk, Hb. unfold ExportTraceData.
    cbn [tallied set_router nd_Config]. rewrite ri_key_set, Ha.
    destruct (processOTLPRequestBatchMsgp _ _ _ _ _) as [nd1|] eqn:E; [|done]. intros [= <- <-]. split; [done|].
    by apply traces_outcome in E.
Qed.
End Keys.

(** ** Requests of one span *)

Module OtlpExample.
Export HandlersExample.
(** The request's information is its key; a request of traces has one span, whatever its body. *)
#[export] Instance husky : GoHusky string := {|
  GetRequestInfoFromHttpHeaders h := Header_Get h APIKeyHeader;
  GetRequestInfoFromGrpcMetadata h := Header_Get h APIKeyHeader;
  ri_ApiKey r := r;
  ri_UserAgent _ := "";
  ri_ContentType _ := "application/json";
  ri_set_ApiKey _ k := k;
  ValidateTracesHeaders _ := None;
  ValidateLogsHeaders _ := None;
  TranslateTraceRequestFromReaderSizedWithMsgp _ _ _ := inl [mkOtlpBatch "data" [mkOtlp PayloadFacts.Example.data 1 0]];
  UnmarshalTraceRequestDirectMsgp _ _ := inl [mkOtlpBatch "data" [mkOtlp PayloadFacts.Example.data 1 0]];
  TranslateLogsRequestFromReader _ _ := inl [];
  TranslateLogsRequest _ _ := inl [];
  husky_text _ := "";
  husky_status _ := 415;
  WriteOtlpHttpFailureResponse w _ code msg := (Write (WriteHeader w code) msg, None);
  WriteOtlpHttpTraceSuccessResponse w _ := (Write w "", None) |}.
#[export] Instance husky_laws : GoHuskyLaws string.
Proof.
  split; [done| |done]. intros w req code msg w' Hw [= <-]. unfold Write, WriteHeader, status. by rewrite Hw.
Qed.
Definition ungranted (_ : husky_error) : grpc_result := GrpcError 2 "".
End OtlpExample.

Section Witnesses.
Import OtlpExample.

(** A node that accepts one key only: over HTTP it refuses another, over gRPC it takes it. *)
Lemma otlp_keys_witness :
  (∃ nd' w', postOTLPTrace 0 (node_with guarded) (post "other" "") new_writer = Some (nd', w') ∧
     nd' = node_with guarded ∧ ro_Collector (nd_Router nd') = []) ∧
  ∃ nd', customTraceExportHandler ungranted 0 (node_with guarded) {["X-Honeycomb-Team" := ["other"]]} "" = Some (nd', GrpcOk).
Proof.
  pose proof (otlp_keys ungranted ungranted 0 (node_with guarded) (post "other" "") {["X-Honeycomb-Team" := ["other"]]} "" new_writer)
    as (Hhttp & _ & Hgrpc). split.
  - destruct (postOTLPTrace 0 (node_with guarded) (post "other" "") new_writer) as [[nd' w']|] eqn:E; [|by vm_compute in E].
    exists nd', w'. split; [done|].
    destruct (Hhttp ltac:(intros Ha; by vm_compute in Ha) eq_refl nd' w' ltac:(by left)) as [-> _]. split; reflexivity.
  - rewrite (Hgrpc ltac:(done) ltac:(done) _ eq_refl).
    destruct (processOTLPRequestBatchMsgp _ _ _ _ _) as [nd'|] eqn:E; [by exists nd'|by vm_compute in E].
Defined.

Lemma otlp_traces_processed_witness :
  ∃ nd' w', postOTLPTrace 0 (node_with (WorkerExamples.config false 1)) (post key "") new_writer = Some (nd', w') ∧
    w' = Write new_writer "".
Proof.
  destruct (postOTLPTrace 0 (node_with (WorkerExamples.config false 1)) (post key "") new_writer) as [[nd' w']|] eqn:E; [|by vm_compute in E].
  exists nd', w'. split; [done|].
  destruct (otlp_traces_processed ungranted 0 (node_with (WorkerExamples.config false 1)) (post key "") ∅ "" new_writer
    keeper_processes) as [Hp _].
  destruct (Hp nd' w' ltac:(by vm_compute) E) as [_ Hs]. exact (proj1 (Hs I)).
Defined.
End Witnesses.
