(* ===== verification/Routes.v ===== *)
(** route/route.go: the table of routes, from a request to the handler that answers it.

    gorilla/mux is the class GoMux: whether a path is to be redirected to a cleaner one, and the
    variables of a template that a path matches.  The routes are tried in the order they were added;
    a route of a subrouter matches with its method alone; the last one takes what is left.  A panic
    is [None]; the logging of requests is left out. *)
From Stdlib Require Import Ascii.
From S2P Require Import Prelude MemorySize GoValue Metrics TraceKey Rules Samplers StressRelief TraceCache SentCache Collector Worker InMemCollector.
From S2P Require Import Msgp Event SamplerConfig Config Payload PayloadFacts Transmit Http BatchedEvents Sharder Health Router Handlers Otlp.

(** What [url_path] names is the path with its escapes undone; [encoded] is UseEncodedPath. *)
Class GoMux := {
  url_path : string → string;
  mux_clean : string → option string;
  mux_match : ∀ encoded : bool, string → string → option (gmap string string);
}.

(** A template up to its first variable. *)
Fixpoint literal (template : string) : string :=
  match template with
  | EmptyString => ""
  | String c t => if Ascii.eqb c "{" then "" else String c (literal t)
  end.

Class GoMuxLaws `{GoMux} := {
  mux_literal encoded template url vars :
    mux_match encoded template url = Some vars → HasPrefix (url_path url) (literal template) = true;
}.

(** What the queries show, as each format has it. *)
Record ConfigMetadata := mkMetadata { cm_Type : string; cm_ID : string; cm_Hash : string; cm_LoadedAt : string }.
Inductive shown :=
| Health_shown (what answer : string)
| Rules_shown (name : string) (cfg : option SamplerConfig)
| All_rules_shown (rules : V2SamplerConfig)
| Metadata_shown (l : list ConfigMetadata).
Class GoMarshal := { marshal_json : shown → res string; marshal_toml : shown → res string; marshal_yaml : shown → res string }.

(** ** The table *)

Inductive handler :=
| H_alive | H_ready | H_panic | H_version
| H_debugTrace | H_getSamplerRules | H_getAllSamplerRules | H_getConfigMetadata
| H_event | H_batch
| H_postOTLPTrace | H_postOTLPLogs
| H_proxy.
#[export] Instance handler_eq_dec : EqDecision handler.
Proof. solve_decision. Defined.

(** Which subrouter a route is of, if any: it fixes the method and what is checked first. *)
Inductive subrouter := Main | Query | Authed | OTLPRouter.
#[export] Instance subrouter_eq_dec : EqDecision subrouter.
Proof. solve_decision. Defined.

Definition sub_method (s : subrouter) : option string :=
  match s with Main => None | Query => Some "GET" | Authed => Some "POST" | OTLPRouter => Some "POST" end.
Definition sub_encoded (s : subrouter) : bool := match s with Authed => true | _ => false end.

Record route := mkRoute { rt_sub : subrouter; rt_template : string; rt_handler : handler; rt_name : string }.

Definition AddOTLPMuxxer : list route := [
  mkRoute OTLPRouter "/v1/traces" H_postOTLPTrace "otlp_traces";
  mkRoute OTLPRouter "/v1/traces/" H_postOTLPTrace "otlp_traces";
  mkRoute OTLPRouter "/v1/logs" H_postOTLPLogs "otlp_logs";
  mkRoute OTLPRouter "/v1/logs/" H_postOTLPLogs "otlp_logs"].

(** A template of a subrouter has its prefix in front. *)
Definition routes : list route := [
  mkRoute Main "/alive" H_alive "local health";
  mkRoute Main "/ready" H_ready "local readiness";
  mkRoute Main "/panic" H_panic "intentional panic";
  mkRoute Main "/version" H_version "report version info";
  mkRoute Query "/query/trace/{traceID}" H_debugTrace "get debug information for given trace ID";
  mkRoute Query "/query/rules/{format}/{dataset}" H_getSamplerRules "get formatted sampler rules for given dataset";
  mkRoute Query "/query/allrules/{format}" H_getAllSamplerRules "get formatted sampler rules for all datasets";
  mkRoute Query "/query/configmetadata" H_getConfigMetadata "get configuration metadata";
  mkRoute Authed "/1/events/{datasetName}" H_event "event";
  mkRoute Authed "/1/batch/{datasetName}" H_batch "batch"] ++ AddOTLPMuxxer.

Section Routes.
Context {C T RI : Type} `{!CollectorOps C Payload, !Sharder T, !GoHusky RI}.
Context `{!Msgp, !GoFloat, !GoJSON, !GoRegexp, !GoTime, !GoFastJSON, !GoBody, !GoHTTP, !GoWeb, !GoProxy, !GoMux, !GoMarshal}.

(** A node with its health and its version, and the locations of its files. *)
Record server := mkServer {
  sv_node : node C T; sv_Health : Health; sv_version : string; sv_ConfigLocations : list string; sv_RulesLocations : list string }.
Implicit Types (sv : server) (req : httpRequest) (w : writer).
Definition set_node sv (nd : node C T) : server := mkServer nd (sv_Health sv) (sv_version sv) (sv_ConfigLocations sv) (sv_RulesLocations sv).

Definition with_vars req (vars : gmap string string) : httpRequest :=
  mkHttp (hq_Method req) (hq_URL req) vars (hq_Header req) (hq_RemoteAddr req) (hq_Body req).

Definition route_match req (rt : route) : option (gmap string string) :=
  if match sub_method (rt_sub rt) with Some m => String.eqb (hq_Method req) m | None => true end
  then mux_match (sub_encoded (rt_sub rt)) (rt_template rt) (hq_URL req) else None.

(** The first route that matches; what none of them takes is the proxy's. *)
Fixpoint find_route req (rts : list route) : route * gmap string string :=
  match rts with
  | [] => (mkRoute Main "/" H_proxy "proxy", ∅)
  | rt :: rts => match route_match req rt with Some vars => (rt, vars) | None => find_route req rts end
  end.

(** ** Queries *)

Definition marshal w (x : shown) (format : string) : writer := marshalToFormat w (marshal_json x) (marshal_toml x) (marshal_yaml x) format.

Definition getSamplerRules (f : fileConfig) req w : writer :=
  let format := ToLower (default "" (hq_Vars req !! "format")) in
  let dataset := default "" (hq_Vars req !! "dataset") in
  let '(cfg, name) := GetSamplerConfigForDestName f dataset in marshal w (Rules_shown name cfg) format.
Definition GetAllSamplerRules (f : fileConfig) : V2SamplerConfig := rulesConfig f.
Definition getAllSamplerRules (f : fileConfig) req w : writer :=
  marshal w (All_rules_shown (GetAllSamplerRules f)) (ToLower (default "" (hq_Vars req !! "format"))).
(** The time of the last load is never set: it is the first of January of the year 1. *)
Definition zero_time := "0001-01-01T00:00:00Z".
Definition GetConfigMetadata sv : list ConfigMetadata :=
  let f := nd_Config (sv_node sv) in
  [mkMetadata "config" (str_join ", " (sv_ConfigLocations sv)) (mainHash f) zero_time;
   mkMetadata "rules" (str_join ", " (sv_RulesLocations sv)) (rulesHash f) zero_time].
Definition getConfigMetadata sv w : writer := marshal w (Metadata_shown (GetConfigMetadata sv)) "json".

(** ** A request answered *)

Definition on_node sv (r : option (node C T * writer)) : option (server * writer) :=
  (λ x, (set_node sv x.1, x.2)) <$> r.

Definition handle now (h : handler) sv req w : option (server * writer) :=
  let nd := sv_node sv in
  let f := nd_Config nd in
  match h with
  | H_alive =>
      let '(nd, w, he) := alive_handler (sv_Health sv) nd w (λ a, marshal_json (Health_shown "alive" a)) in
      Some (mkServer nd he (sv_version sv) (sv_ConfigLocations sv) (sv_RulesLocations sv), w)
  | H_ready => let '(nd, w) := ready_handler (sv_Health sv) nd w (λ a, marshal_json (Health_shown "ready" a)) in Some (set_node sv nd, w)
  | H_panic => None
  | H_version => Some (sv, version_handler (sv_version sv) w)
  | H_debugTrace => (λ w, (sv, w)) <$> debugTrace nd req w
  | H_getSamplerRules => Some (sv, getSamplerRules f req w)
  | H_getAllSamplerRules => Some (sv, getAllSamplerRules f req w)
  | H_getConfigMetadata => Some (sv, getConfigMetadata sv w)
  | H_event => on_node sv (event_handler now nd req w)
  | H_batch => on_node sv (batch_handler now nd req w)
  | H_postOTLPTrace => on_node sv (postOTLPTrace now nd req w)
  | H_postOTLPLogs => on_node sv (postOTLPLogs now nd req w)
  | H_proxy => let '(nd, w) := proxy nd req w in Some (set_node sv nd, w)
  end.

(** The check of the route's subrouter, and the handler behind it. *)
Definition guarded_handle now (rt : route) sv req w : option (server * writer) :=
  let f := nd_Config (sv_node sv) in
  match rt_sub rt with
  | Query => queryTokenChecker f (handle now (rt_handler rt)) sv req w
  | Authed => apiKeyProcessor f (handle now (rt_handler rt)) sv req w
  | Main | OTLPRouter => handle now (rt_handler rt) sv req w
  end.

Definition StatusMovedPermanently : Z := 301.

Definition ServeHTTP now sv req : option (server * writer) :=
  match mux_clean (hq_URL req) with
  | Some url => Some (sv, WriteHeader (set_header new_writer "Location" url) StatusMovedPermanently)
  | None =>
      let '(rt, vars) := find_route req routes in
      setResponseHeaders (λ req w, guarded_handle now rt sv req w) (with_vars req vars) new_writer
  end.

(** ** Which handler *)

Section Which.
Context `{!GoMuxLaws}.

Definition proxy_route : route := mkRoute Main "/" H_proxy "proxy".

Lemma found_route req rts rt vars :
  find_route req rts = (rt, vars) → (rt ∈ rts ∧ route_match req rt = Some vars) ∨ (rt = proxy_route ∧ vars = ∅).
Proof.
  induction rts as [|rt' rts IH]; cbn [find_route]; [intros [= <- <-]; by right|].
  destruct (route_match req rt') as [v|] eqn:E.
  - intros [= <- <-]. left. split; [by left|done].
  - intros Hf. destruct (IH Hf) as [[Hin Hm]|?]; [left; split; [by right|done]|by right].
Qed.

(** Two prefixes of a path: one is a prefix of the other. *)
Lemma prefixes_compare s p q : HasPrefix s p = true → HasPrefix s q = true → HasPrefix p q || HasPrefix q p = true.
Proof.
  revert p q. induction s as [|c s IH]; intros [|d p] [|e q]; try done.
  rewrite !HasPrefix_cons, !andb_true_iff, !Ascii.eqb_eq. intros [-> Hp] [-> Hq]. rewrite !Ascii.eqb_refl. cbn. by apply IH.
Qed.

Definition could_match (p : string) (rt : route) : bool :=
  HasPrefix (literal (rt_template rt)) p || HasPrefix p (literal (rt_template rt)).

(** Only the routes whose literal part fits the path can match. *)
Lemma find_among req p rts :
  HasPrefix (url_path (hq_URL req)) p = true → find_route req rts = find_route req (List.filter (could_match p) rts).
Proof.
  intros Hp. induction rts as [|rt rts IH]; [done|]. cbn [find_route List.filter]. destruct (route_match req rt) as [vars|] eqn:E.
  - assert (Hc : could_match p rt = true).
    { apply (prefixes_compare (url_path (hq_URL req))); [|done]. unfold route_match in E.
      destruct (match sub_method (rt_sub rt) with Some m => _ | None => _ end); [|done]. by eapply mux_literal. }
    rewrite Hc. cbn [find_route]. by rewrite E.
  - rewrite IH. destruct (could_match p rt); [|done]. cbn [find_route]. by rewrite E.
Qed.

Lemma sub_handlers rt : rt ∈ routes →
  match rt_sub rt with
  | Main => rt_handler rt ∈ [H_alive; H_ready; H_panic; H_version]
  | Query => rt_handler rt ∈ [H_debugTrace; H_getSamplerRules; H_getAllSamplerRules; H_getConfigMetadata]
  | Authed => rt_handler rt ∈ [H_event; H_batch]
  | OTLPRouter => rt_handler rt ∈ [H_postOTLPTrace; H_postOTLPLogs]
  end.
Proof.
  revert rt. apply Forall_forall. unfold routes, AddOTLPMuxxer. cbn [app].
  repeat constructor; cbn; set_solver.
Qed.

Lemma queries_read now rt sv req w sv' w' :
  rt ∈ routes → rt_sub rt = Query → handle now (rt_handler rt) sv req w = Some (sv', w') → sv' = sv.
Proof.
  intros Hin Hs. pose proof (sub_handlers rt Hin) as Hh. rewrite Hs in Hh.
  repeat (apply elem_of_cons in Hh as [->|Hh]); [..|by apply elem_of_nil in Hh]; cbn [handle]; try (by intros [= <- _]).
  destruct (debugTrace (sv_node sv) req w) as [w1|]; [|done]. cbn. by intros [= <- _].
Qed.

Lemma other_method req rt vars m :
  find_route req routes = (rt, vars) → sub_method (rt_sub rt) = Some m → hq_Method req = m ∧ rt ∈ routes.
Proof.
  intros [[Hin Hm]|[-> _]]%found_route Hs; [|done]. split; [|done]. unfold route_match in Hm. rewrite Hs in Hm.
  by destruct (String.eqb_spec (hq_Method req) m).
Qed.

(** The two templates of events. *)
Definition event_routes : list (string * handler) := [("/1/events/{datasetName}", H_event); ("/1/batch/{datasetName}", H_batch)].

Lemma events_found req template h vars :
  (template, h) ∈ event_routes → hq_Method req = "POST" → mux_match true template (hq_URL req) = Some vars →
  ∃ name, find_route req routes = (mkRoute Authed template h name, vars).
Proof.
  intros Hin Hm Hv. pose proof (mux_literal _ _ _ _ Hv) as Hp. rewrite (find_among req _ routes Hp).
  repeat (apply elem_of_cons in Hin as [[= -> ->]|Hin]); [..|by apply elem_of_nil in Hin];
    vm_compute List.filter; cbn [find_route]; unfold route_match; cbn [rt_sub sub_method sub_encoded rt_template];
    rewrite Hm, Hv; by eexists.
Qed.

Lemma left_to_proxy req p m :
  HasPrefix (url_path (hq_URL req)) p = true → hq_Method req ≠ m →
  forallb (λ rt, bool_decide (sub_method (rt_sub rt) = Some m)) (List.filter (could_match p) routes) = true →
  find_route req routes = (proxy_route, ∅).
Proof.
  intros Hp Hm Hall. rewrite (find_among req p routes Hp). induction (List.filter _ routes) as [|rt rts IH]; [done|].
  cbn [forallb] in Hall. apply andb_true_iff in Hall as [Hs%bool_decide_eq_true Hall]. cbn [find_route]. unfold route_match. rewrite Hs.
  destruct (String.eqb_spec (hq_Method req) m); [done|]. by apply IH.
Qed.

Lemma query_guarded now rt sv req sv' w w' :
  rt ∈ routes → rt_sub rt = Query → w_sent w = None → guarded_handle now rt sv req w = Some (sv', w') →
  let f := nd_Config (sv_node sv) in
  sv' = sv ∧ (GetQueryAuthToken f = "" ∨ Header_Get (hq_Header req) QueryTokenHeader ≠ GetQueryAuthToken f →
              status w' = StatusBadRequest ∧ ∃ why, w_Body w' = w_Body w +:+ error_body ErrAuthNeeded why).
Proof.
  intros Hin Hs Hw. unfold guarded_handle. rewrite Hs. unfold queryTokenChecker.
  assert (Hrefused : ∀ why, status (handlerReturnWithError w ErrAuthNeeded why) = StatusBadRequest ∧
    ∃ why', w_Body (handlerReturnWithError w ErrAuthNeeded why) = w_Body w +:+ error_body ErrAuthNeeded why').
  { intros why. split; [by apply status_error|]. exists why. unfold handlerReturnWithError, Write, WriteHeader. by rewrite Hw. }
  destruct (String.eqb_spec (GetQueryAuthToken (nd_Config (sv_node sv))) "") as [Et|Hne]; [intros [= <- <-]; by split|].
  destruct (String.eqb_spec (Header_Get (hq_Header req) QueryTokenHeader) (GetQueryAuthToken (nd_Config (sv_node sv)))) as [Et|Hne'].
  - intros E. split; [by eapply queries_read|]. by intros [?|?].
  - intros [= <- <-]. by split.
Qed.

Lemma authed_guarded now rt sv req sv' w w' :
  rt_sub rt = Authed → w_sent w = None → guarded_handle now rt sv req w = Some (sv', w') →
  let a := GetAccessKeyConfig (nd_Config (sv_node sv)) in
  IsAccepted a (request_key req) ≠ None ∨ (∃ e, GetReplaceKey a (request_key req) = Err e) → sv' = sv ∧ status w' = StatusUnauthorized.
Proof.
  intros Hs Hw. unfold guarded_handle. rewrite Hs. cbn zeta. unfold apiKeyProcessor. intros E Href.
  destruct (IsAccepted _ _) as [e|]; [injection E as <- <-; split; [done|by apply status_error]|].
  destruct Href as [?|[e He]]; [done|]. rewrite He in E. injection E as <- <-. split; [done|by apply status_error].
Qed.

(** C21: what stands in front of the handlers.  A query is a GET and changes nothing; without the
    configured token, and always when none is configured, it is answered 400 with an error and no
    data.  An event or a batch is a POST; under a key that is not accepted or cannot be replaced it is
    answered 401 and nothing is done.  A POST whose path is that of events or of a batch reaches
    their handler, behind that check; anything else below these paths goes upstream, as does all that
    no route takes, and leaves no trace in the node but a count. *)
Theorem requests_guarded now sv req sv' w' :
  mux_clean (hq_URL req) = None → ServeHTTP now sv req = Some (sv', w') →
  let nd := sv_node sv in let f := nd_Config nd in let path := url_path (hq_URL req) in
  let '(rt, vars) := find_route req routes in
  (rt_sub rt = Query → hq_Method req = "GET" ∧ sv' = sv ∧
     (GetQueryAuthToken f = "" ∨ Header_Get (hq_Header req) QueryTokenHeader ≠ GetQueryAuthToken f →
      status w' = StatusBadRequest ∧ ∃ why, w_Body w' = error_body ErrAuthNeeded why)) ∧
  (rt_sub rt = Authed → hq_Method req = "POST" ∧
     (IsAccepted (GetAccessKeyConfig f) (request_key req) ≠ None ∨
      (∃ e, GetReplaceKey (GetAccessKeyConfig f) (request_key req) = Err e) → sv' = sv ∧ status w' = StatusUnauthorized)) ∧
  (rt = proxy_route → sv' = set_node sv (tallied nd [MIncrement (metric (nd_Router nd) "_router_proxied")])) ∧
  (∀ template h v, (template, h) ∈ event_routes → hq_Method req = "POST" → mux_match true template (hq_URL req) = Some v →
     rt_sub rt = Authed ∧ rt_handler rt = h ∧ vars = v) ∧
  (HasPrefix path "/1/" = true ∧ hq_Method req ≠ "POST" ∨ HasPrefix path "/query/" = true ∧ hq_Method req ≠ "GET" → rt = proxy_route).
Proof.
  intros Hc. unfold ServeHTTP. rewrite Hc. destruct (find_route req routes) as [rt vars] eqn:E. unfold setResponseHeaders. intros Es.
  cbn zeta. set (w := set_header _ _ _) in Es. assert (Hw : w_sent w = None ∧ w_Body w = "") by done. destruct Hw as [Hw Hb]. clearbody w.
  split_and!.
  - intros Hs. destruct (other_method req rt vars "GET" E) as [Hm Hin]; [by rewrite Hs|]. split; [done|].
    destruct (query_guarded _ _ _ _ _ _ _ Hin Hs Hw Es) as [-> Href]. split; [done|]. rewrite Hb in Href. exact Href.
  - intros Hs. destruct (other_method req rt vars "POST" E) as [Hm Hin]; [by rewrite Hs|]. split; [done|].
    exact (authed_guarded _ _ _ _ _ _ _ Hs Hw Es).
  - intros ->. cbn in Es. by injection Es as <- _.
  - intros template h v Hin Hm Hv. destruct (events_found req template h v Hin Hm Hv) as [name Ef]. rewrite E in Ef. by injection Ef as -> ->.
  - intros Hp. assert (Ef : find_route req routes = (proxy_route, ∅)).
    { destruct Hp as [[Hp Hm]|[Hp Hm]]; by eapply left_to_proxy. }
    rewrite E in Ef. by injection Ef as -> ->.
Qed.
End Which.
End Routes.

(** ** Requests on a concrete table *)

Module RoutesExample.
Export OtlpExample.
#[export] Instance mux : GoMux := {|
  url_path url := url; mux_clean _ := None;
  mux_match _ t url := if HasPrefix url (literal t) then Some {["datasetName" := "data"]} else None |}.
#[export] Instance mux_laws : GoMuxLaws.
Proof. split. intros encoded t url vars. cbn. intros E. by case_match. Qed.
#[export] Instance marshaler : GoMarshal := {| marshal_json _ := Ok ""; marshal_toml _ := Ok ""; marshal_yaml _ := Ok "" |}.
#[export] Instance upstream : GoProxy := {| proxy_NewRequest _ _ := None; client_Do _ := Ok (404, ∅, "") |}.

Definition host : server (C := list (Span Payload)) (T := unit) := mkServer (node_with guarded) (mkHealth ∅ ∅ ∅ ∅) "v3" [] [].
Definition ask (method url key : string) : httpRequest := mkHttp method url ∅ {["X-Honeycomb-Team" := [key]]} "" (mkBody "" None).

(** What each of three requests becomes: a query without a token, an event under a key that is not
    listed, and a path of events that is not posted to. *)
Definition asked := ask "GET" "/query/allrules/json" key.
Definition refused := ask "POST" "/1/events/data" "other".
Definition passed_on := ask "GET" "/1/events/data" key.
End RoutesExample.

Section Witness.
Import RoutesExample.

Lemma requests_guarded_witness :
  (∃ w', ServeHTTP (RI := string) 0 host asked = Some (host, w') ∧ status w' = StatusBadRequest) ∧
  (∃ w', ServeHTTP (RI := string) 0 host refused = Some (host, w') ∧ status w' = StatusUnauthorized) ∧
  (find_route passed_on routes).1 = proxy_route.
Proof.
  assert (Hc : ∀ url, mux_clean url = None) by done. split_and!.
  - destruct (ServeHTTP (RI := string) 0 host asked) as [[sv' w']|] eqn:E; [|by vm_compute in E].
    destruct (requests_guarded 0 host asked sv' w' (Hc _) E) as [Hq _]. destruct (Hq eq_refl) as (_ & -> & Hr).
    exists w'. split; [done|]. apply Hr. left. by vm_compute.
  - destruct (ServeHTTP (RI := string) 0 host refused) as [[sv' w']|] eqn:E; [|by vm_compute in E].
    destruct (requests_guarded 0 host refused sv' w' (Hc _) E) as (_ & Ha & _). destruct (Ha eq_refl) as [_ Hr].
    destruct Hr as [-> Hs]; [left; by vm_compute|]. exists w'. exact (conj eq_refl Hs).
  - destruct (ServeHTTP (RI := string) 0 host passed_on) as [[sv' w']|] eqn:E; [|by vm_compute in E].
    pose proof (requests_guarded 0 host passed_on sv' w' (Hc _) E) as Hg. cbn zeta in Hg.
    destruct (find_route passed_on routes) as [rt vars]. destruct Hg as (_ & _ & _ & _ & Hp). apply Hp. left. by split.
Defined.
End Witness.
