(* ===== verification/Serving.v ===== *)
(** route/middleware.go and route/route.go: what is around the handlers - the catching of panics, the
    log of requests, and the gRPC health service - and the end of a router.

    A handler's run is what it does to its writer, in order, and what it panics with, if it does;
    [setResponseHeaders], [requestLogger] and [panicCatcher] are around it in this order. *)
From S2P Require Import Prelude GoValue Metrics SamplerConfig Config Health Http.

(** ** Around a handler *)

Inductive write_op := Sets (key v : string) | Sends (code : Z) | Writes (b : string).
Definition write_step (w : writer) (o : write_op) : writer :=
  match o with Sets key v => set_header w key v | Sends code => WriteHeader w code | Writes b => Write w b end.
Definition write_all (w : writer) (ops : list write_op) : writer := foldl write_step w ops.

Record handled := mkHandled { hd_ops : list write_op; hd_panic : option string }.

(** [handlerReturnWithError], as what it does to the writer. *)
Definition error_ops (he : handlerError) (err : string) : list write_op := [Sends (he_status he); Writes (error_body he err)].

Definition panicCatcher (next : handled) : handled :=
  match hd_panic next with None => next | Some err => mkHandled (hd_ops next ++ error_ops ErrCaughtPanic err) None end.

(** [statusRecorder]: the last status that was set, and 200 before any is. *)
Definition recorded (ops : list write_op) : Z := foldl (λ status o, match o with Sends code => code | _ => status end) 200 ops.

(** What the request is logged with: route, method, URL and status; a panic passes it by.  The
    request's number, its duration and the caller's address are left out. *)
Definition requestLogger (route method url : string) (next : handled) : handled * list (string * string * string * Z) :=
  (next, match hd_panic next with None => [(route, method, url, recorded (hd_ops next))] | Some _ => [] end).

Definition response_headers : list write_op := [Sets "Content-Type" "application/json"; Sets "Access-Control-Allow-Origin" "*"].

(** What the client gets, what is logged, and whether a panic is left. *)
Definition served (route method url : string) (next : handled) : writer * list (string * string * string * Z) * option string :=
  let '(h, lines) := requestLogger route method url (panicCatcher next) in
  (write_all new_writer (response_headers ++ hd_ops h), lines, hd_panic h).

(** randStringBytes: the characters drawn, by their numbers. *)
Definition letterBytes : string := "abcdefghijklmnopqrstuvwxyzABCDEFGHIJKLMNOPQRSTUVWXYZ0123456789".
Definition randStringBytes (draws : list Z) : string :=
  str_concat (map (λ d, match String.get (Z.to_nat (d mod Z.of_nat (String.length letterBytes))) letterBytes with
                        | Some c => String c "" | None => "" end) draws).

(** ** The gRPC health service *)

Inductive ServingStatus := SERVING | NOT_SERVING.
Definition serving (stat : bool) : ServingStatus := if stat then SERVING else NOT_SERVING.

(** A tick of the monitor: what it sets in the library's health server. *)
Definition monitor_tick (h : Health) : Health * list (string * ServingStatus) :=
  let '(alive, h) := IsAlive h in
  let ready := IsReady h in
  (h, [("ready", serving ready); ("alive", serving alive); ("", serving (ready && alive))]).

(** The router's own Check and Watch, which no server is given. *)
Definition Check : ServingStatus := SERVING.
Definition Watch {E : Type} (Send : ServingStatus → option E) : option E := Send SERVING.

(** ** The end of a router: what is stopped *)

Inductive stopped := HTTPServer | GRPCServer | Monitor.
Definition Router_Stop (has_grpc : bool) (shutdown : option string) : list stopped * option string :=
  match shutdown with
  | Some err => ([], Some err)
  | None => (HTTPServer :: (if has_grpc then [GRPCServer] else []) ++ [Monitor], None)
  end.

(** ** What a client sees of a panic *)

Lemma error_ops_spec w he err : write_all w (error_ops he err) = handlerReturnWithError w he err.
Proof. done. Qed.

(** The first status counts. *)
Definition sends (o : write_op) : option Z := match o with Sets _ _ => None | Sends code => Some code | Writes _ => Some 200 end.
Definition body_of (o : write_op) : string := match o with Writes b => b | _ => "" end.

Lemma write_all_status ops w : status (write_all w ops) =
  match w_sent w with Some (code, _) => code | None => default 200 (head (omap sends ops)) end.
Proof.
  revert w. induction ops as [|o ops IH]; intros w; [done|]. unfold write_all in *. cbn [foldl]. rewrite IH.
  destruct o, w as [[[sent hs]|] hdr body]; done.
Qed.

Definition written (ops : list write_op) : string := str_concat (map body_of ops).
Lemma write_all_body ops w : w_Body (write_all w ops) = w_Body w +:+ written ops.
Proof.
  revert w. induction ops as [|o ops IH]; intros w; [by rewrite str_app_nil_r|]. unfold write_all, written in *. cbn [foldl map str_concat foldr]. rewrite IH.
  destruct o, w as [[[sent hs]|] hdr body]; cbn [body_of write_step set_header WriteHeader Write w_Body w_sent]; by rewrite ?str_app_assoc.
Qed.

(** At most one status is set, and before anything is written, as net/http wants it. *)
Definition orderly (ops : list write_op) : Prop := ∀ before o after, ops = before ++ o :: after →
  match o with Sends _ => omap sends before = [] | _ => True end.

Lemma orderly_recorded ops : orderly ops → recorded ops = default 200 (head (omap sends ops)).
Proof.
  intros Ho. induction ops as [|o ops IH] using rev_ind; [done|]. unfold recorded. rewrite foldl_app. cbn [foldl].
  specialize (IH ltac:(intros before o' after E; apply (Ho before o' (after ++ [o])); by rewrite E, <- app_assoc)).
  rewrite omap_app. pose proof (Ho ops o [] eq_refl) as Hl. unfold recorded in IH. destruct o as [|sent|]; cbn in Hl |- *.
  - by rewrite app_nil_r.
  - by rewrite Hl.
  - rewrite IH. by destruct (omap sends ops).
Qed.

(** C40: every request is answered and logged once, whatever its handler does.  A handler that returns
    is answered with its own first status and with all it wrote, and the log has that status when the
    handler is orderly.  A handler that panics adds to what it wrote the body of a general error, which
    is the same whatever it panicked with; the log has 500, and the client has 500 when nothing had
    been sent, and the status already sent otherwise; no panic is left. *)
Theorem panics_answered route method url (next : handled) :
  let '(w, lines, left_) := served route method url next in
  left_ = None ∧
  ∃ logged, lines = [(route, method, url, logged)] ∧
    match hd_panic next with
    | None => status w = default 200 (head (omap sends (hd_ops next))) ∧ w_Body w = written (hd_ops next) ∧
              (orderly (hd_ops next) → logged = status w)
    | Some _ => logged = 500 ∧ status w = default 500 (head (omap sends (hd_ops next))) ∧
              w_Body w = written (hd_ops next) +:+ error_body ErrCaughtPanic ""
    end.
Proof.
  unfold served, requestLogger, panicCatcher. destruct next as [ops [err|]]; cbn [hd_panic hd_ops]; split; try done.
  - exists 500. split; [unfold recorded; by rewrite foldl_app|]. rewrite write_all_status, write_all_body. split; [done|]. split.
    + cbn [w_sent new_writer]. rewrite omap_app. change (omap sends response_headers) with (@nil Z). rewrite app_nil_l, omap_app.
      by destruct (omap sends ops).
    + unfold written, error_ops. rewrite !map_app, !str_concat_app. cbn [map body_of response_headers str_concat foldr w_Body new_writer].
      by rewrite str_app_nil_r.
  - exists (recorded ops). split; [done|]. rewrite write_all_status, write_all_body. split; [done|]. split; [done|].
    intros Ho. by rewrite orderly_recorded.
Qed.

(** Under a format that is not known the client gets 200 and the log says 400: the message is written
    before the status is set. *)
Lemma refused_format_logged w json toml yaml :
  let ops := [Writes "invalid format 'xml' when marshaling
"; Sends StatusBadRequest] in
  marshalToFormat w json toml yaml "xml" = write_all w ops ∧ status (write_all new_writer ops) = 200 ∧ recorded ops = 400.
Proof. done. Qed.

(** The whole system is reported as serving exactly when its node answers both that it is alive and
    that it is ready. *)
Lemma system_serving h :
  (("", SERVING) ∈ (monitor_tick h).2 ↔ (IsAlive h).1 = true ∧ IsReady h = true) ∧
  h_timeLeft (monitor_tick h).1 = h_timeLeft h ∧ h_readies (monitor_tick h).1 = h_readies h.
Proof.
  pose proof (checkAlive_maps h) as (_ & El & Er). unfold monitor_tick, IsAlive in *.
  assert (Hr : IsReady (checkAlive h).2 = IsReady h) by (unfold IsReady, checkReady; by rewrite El, Er).
  destruct (checkAlive h) as [alive h']. cbn [fst snd] in *. split; [|done]. rewrite Hr.
  rewrite !elem_of_cons, elem_of_nil. destruct alive, (IsReady h); cbn; naive_solver.
Qed.

(** ** A handler that panics after it has begun its answer *)

Module ServingExample.
Definition half_way : handled := mkHandled [Sends 202; Writes "{"] (Some "nil map").
Lemma half_way_served : (status (served "batch" "POST" "/1/batch/data" half_way).1.1, (served "batch" "POST" "/1/batch/data" half_way).1.2) =
  (202, [("batch", "POST", "/1/batch/data", 500)]).
Proof. reflexivity. Qed.

Lemma panics_answered_witness : hd_panic half_way = Some "nil map" ∧
  w_Body (served "batch" "POST" "/1/batch/data" half_way).1.1 = "{" +:+ error_body ErrCaughtPanic "".
Proof.
  split; [reflexivity|]. pose proof (panics_answered "batch" "POST" "/1/batch/data" half_way) as Hp.
  destruct (served "batch" "POST" "/1/batch/data" half_way) as [[w lines] p]. destruct Hp as (_ & logged & _ & _ & _ & Hb). exact Hb.
Defined.
End ServingExample.
