(* ===== verification/Cluster.v ===== *)
(** A cluster: one node's transmission and another's router, end to end.

    A request of the transmission (Transmit.v) arrives at the handler of batches of another node
    (Handlers.v), behind the check of the key; the answer goes back to the transmission.  The
    theorems: a group of events sent this way is disposed of, event by event, by the router that
    receives it, and accounted for by the one that sent it according to the answers; and a span
    sent to the node that owns its trace stays there. *)
From Stdlib Require Import Ascii.
From S2P Require Import Prelude GoValue Metrics TraceKey Rules Samplers StressRelief TraceCache SentCache Collector Worker InMemCollector.
From S2P Require Import Msgp Event SamplerConfig Config Payload PayloadFacts PayloadWire PayloadSend Transmit TransmitSend.
From S2P Require Import Http BatchedEvents Sharder Router Handlers.

(** encoding/json reads back the statuses it wrote; the decoder of zstd what its encoder wrote. *)
Class WireLaws `{!GoHTTP, !GoBody, !GoWeb} := {
  responses_back l : json_responses (json_Marshal_responses l) = (l.*1, false);
  zstd_back s : zstd_DecodeAll (zstd_EncodeAll s) = Ok s;
}.

(** What the server and gorilla/mux make of a request of the transmission: the segment of the path
    that names the dataset is the variable, still escaped. *)
Definition arrives (rq : request) (dataset : string) (req : httpRequest) : Prop :=
  hq_Header req = (λ v, [v]) <$> rq_Header rq ∧ hq_Vars req !! "datasetName" = Some (PathEscape dataset) ∧
  hq_Body req = mkBody (rq_Body rq) None.

(** The answer as the client has it. *)
Definition reply (w : writer) : response :=
  mkResponse (status w) (default "" (match w_sent w with Some (_, h) => h !! "Content-Type" | None => None end)) ""
    (Some (w_Body w)).

(** ** The request as the handler sees it *)

Section Request.
Context `{!Msgp, !GoHTTP, !GoBody, !GoWeb, !WireLaws}.
Implicit Types (d : DirectTransmission) (dest : event) (g : list event).

Lemma Header_Get_single (h : gmap string string) key :
  Header_Get ((λ v, [v]) <$> h) key = default "" (h !! CanonicalHeaderKey key).
Proof. unfold Header_Get. rewrite lookup_fmap. by destruct (h !! _). Qed.

Lemma header_set_eq (h : gmap string string) key v : Header_Set h key v !! CanonicalHeaderKey key = Some v.
Proof. apply lookup_insert_eq. Qed.
Lemma header_set_ne (h : gmap string string) key key' v :
  CanonicalHeaderKey key ≠ CanonicalHeaderKey key' → Header_Set h key v !! CanonicalHeaderKey key' = h !! CanonicalHeaderKey key'.
Proof. apply lookup_insert_ne. Qed.

Ltac headers :=
  unfold headers; cbv zeta;
  repeat first [rewrite header_set_eq | rewrite header_set_ne by by vm_compute | case_match]; try done.

Lemma sent_headers d key :
  headers d key !! CanonicalHeaderKey "Content-Type" = Some "application/msgpack" ∧
  headers d key !! CanonicalHeaderKey APIKeyHeader = Some key ∧
  headers d key !! CanonicalHeaderKey "User-Agent" = Some (dt_userAgent d).
Proof. split_and!; headers. Qed.

(** The configured headers do not say the body is encoded when it is not. *)
Definition honest d : Prop :=
  dt_enableCompression d = true ∨ Forall (λ kv, CanonicalHeaderKey kv.1 ≠ "Content-Encoding") (dt_additionalHeaders d).

Lemma honest_encoding d key :
  honest d → default "" (headers d key !! CanonicalHeaderKey "Content-Encoding") = if dt_enableCompression d then "zstd" else "".
Proof.
  intros Hd. unfold headers. cbv zeta. destruct (dt_enableCompression d) eqn:E.
  - by rewrite header_set_eq.
  - destruct Hd as [|Hd]; [congruence|]. rewrite !header_set_ne by by vm_compute.
    change (CanonicalHeaderKey "Content-Encoding") with "Content-Encoding".
    assert (Hn : (∅ : gmap string string) !! "Content-Encoding" = None) by apply lookup_empty.
    revert Hn. generalize (∅ : gmap string string). induction Hd as [|kv l Hkv _ IH]; intros h Hn; cbn [foldl]; [by rewrite Hn|].
    apply IH. unfold Header_Set. by rewrite lookup_insert_ne.
Qed.

Lemma arrived_body d dest u g dataset req :
  arrives (request_of d dest u g) dataset req → honest d →
  Z.of_nat (String.length (rq_Body (request_of d dest u g))) ≤ HTTPMessageSizeMax →
  readAndCloseMaybeCompressedBody req = Ok (AppendArrayHeader (Z.of_nat (length g)) +:+ body_of g).
Proof.
  intros (Hh & _ & Hb) Hd Hlen. unfold readAndCloseMaybeCompressedBody. rewrite Hh, Header_Get_single.
  cbn [request_of mk_request rq_Header] in *. rewrite honest_encoding by done. rewrite Hb.
  assert (Hread : readBodyToBuffer (mkBody (rq_Body (request_of d dest u g)) None) = Ok (rq_Body (request_of d dest u g))).
  { unfold readBodyToBuffer. cbn [bd_bytes bd_err]. destruct (Z.leb_spec HTTPMessageSizeMax (Z.of_nat (String.length (rq_Body (request_of d dest u g))))); [|done].
    replace (Z.to_nat HTTPMessageSizeMax) with (String.length (rq_Body (request_of d dest u g))) by lia.
    f_equal. rewrite <-(str_app_nil_r (rq_Body _)) at 2. apply str_take_app. }
  cbn [request_of mk_request rq_Body] in *. destruct (dt_enableCompression d); cbn [String.eqb Ascii.eqb Bool.eqb].
  - unfold readZstdBody. rewrite Hread. apply zstd_back.
  - exact Hread.
Qed.

Lemma arrived_dataset d dest u g dataset req :
  arrives (request_of d dest u g) dataset req → dataset ≠ "" → getDatasetFromRequest req = Ok dataset.
Proof.
  intros (_ & Hv & _) Hne. unfold getDatasetFromRequest. rewrite Hv. change (default "" (Some ?s)) with s. cbv zeta.
  assert (He : String.eqb (PathEscape dataset) "" = false).
  { destruct dataset as [|c s]; [done|]. cbn [PathEscape]. by destruct (path_unescaped c). }
  by rewrite He, path_roundtrip.
Qed.

Lemma arrived_key d dest u g dataset req :
  arrives (request_of d dest u g) dataset req → ev_APIKey dest ≠ "" → request_key req = ev_APIKey dest.
Proof.
  intros (Hh & _) Hne. unfold request_key. rewrite Hh, Header_Get_single. cbn [request_of mk_request rq_Header].
  destruct (sent_headers d (ev_APIKey dest)) as (_ & -> & _). change (default "" (Some ?s)) with s. cbv zeta. by apply String.eqb_neq in Hne as ->.
Qed.

Lemma arrived_agent d dest u g dataset req :
  arrives (request_of d dest u g) dataset req → getUserAgentFromRequest req = dt_userAgent d.
Proof.
  intros (Hh & _). unfold getUserAgentFromRequest. rewrite Hh, Header_Get_single. cbn [request_of mk_request rq_Header].
  by destruct (sent_headers d (ev_APIKey dest)) as (_ & _ & ->).
Qed.

Lemma arrived_msgpack d dest u g dataset req : arrives (request_of d dest u g) dataset req → is_msgpack req = true.
Proof.
  intros (Hh & _). unfold is_msgpack. rewrite Hh, Header_Get_single. cbn [request_of mk_request rq_Header].
  by destruct (sent_headers d (ev_APIKey dest)) as (-> & _).
Qed.
End Request.

(** ** A group of events handed over *)

Section HandOver.
Context {C T : Type} `{!CollectorOps C Payload, !Sharder T}.
Context `{!Msgp, !MsgpLaws, !GoFloat, !GoJSON, !GoRegexp, !GoTime, !GoFastJSON, !GoBody, !GoHTTP, !GoWeb, !WireLaws}.
Implicit Types (d : DirectTransmission) (dest : event) (g : list event) (B : node C T).

Lemma served_sent now (B : node C T) req w B' w' key :
  serve_batch now B req w = Some (B', w') → IsAccepted (GetAccessKeyConfig (nd_Config B)) (request_key req) = None →
  GetReplaceKey (GetAccessKeyConfig (nd_Config B)) (request_key req) = Ok key → batch_handler now B (keyed req key) w = Some (B', w').
Proof. unfold serve_batch, apiKeyProcessor. intros E Ea Ek. by rewrite Ea, Ek in E. Qed.

Lemma json_answers d t g w errs :
  status w = 200 → w_Body w = json_Marshal_responses (BatchResponse <$> errs) →
  match w_sent w with Some (_, h) => h !! "Content-Type" | None => None end = Some "application/json" →
  length errs = length g →
  accounted d (handle_response d t g (reply w)) (length g) ∧
  delivered d (handle_response d t g (reply w)) = length (filter (λ s, s = StatusAccepted) (status_of <$> errs)).
Proof.
  intros Hs Hb Hc Hl. split; [apply accounted_response|].
  rewrite json_error_not_counted by (unfold reply; cbn [rs_StatusCode rs_ContentType]; by rewrite ?Hs, ?Hc).
  unfold reply at 1. cbn [rs_Body]. rewrite Hb, responses_back. cbn [fst]. unfold delivered. rewrite tally_app.
  fold (delivered d). rewrite answer_delivered. rewrite <-list_fmap_compose, take_ge by by rewrite length_fmap, Hl.
  assert (E0 : delivered d
    [MIncrement (fullName d "_batches_sent"); MCount (fullName d "_messages_sent") (Z.of_nat (length g))] = 0%nat) by tally_names.
  rewrite E0. done.
Qed.

(** C6: events handed over are disposed of by the node that receives them, and accounted for by the
    one that sent them.  A group of events that fits in a request, sent to a node that accepts
    their key, arrives there as as many events, in order, with the same time, rate and fields; each is
    disposed of as the router there specifies; and the sender counts as delivered exactly those that
    were not refused, and the others as errors. *)
Theorem group_handed_over now d dest u g dataset B req B' w' key environment cu :
  arrives (request_of d dest u g) dataset req → honest d →
  Z.of_nat (String.length (rq_Body (request_of d dest u g))) ≤ HTTPMessageSizeMax → Z.of_nat (length g) < 2 ^ 32 →
  Forall crossable g → Forall (λ ev, packable ev = true) g → dataset ≠ "" → ev_APIKey dest ≠ "" →
  IsAccepted (GetAccessKeyConfig (nd_Config B)) (ev_APIKey dest) = None →
  GetReplaceKey (GetAccessKeyConfig (nd_Config B)) (ev_APIKey dest) = Ok key →
  (environment_of now B key).1 = Ok environment →
  NewCoreFieldsUnmarshaler (nd_Config B) key environment dataset = Some cu →
  names_ok (cu_traceIdFieldNames cu) (cu_parentIdFieldNames cu) → always_processes (C := C) →
  setResponseHeaders (serve_batch now B) req new_writer = Some (B', w') →
  ∃ bevs ops errs ds, Forall2 (crossed cu) g bevs ∧
    batch_run now (event_of (GetHoneycombAPI (nd_Config B)) key dataset environment (dt_userAgent d))
      (counted (nd_Router B) ops) (batched <$> bevs) (nd_Router B') errs ds ∧
    ∀ t, let answers := handle_response d t g (reply w') in
      delivered d answers = length (filter (λ s, s = StatusAccepted) (answer <$> ds)) ∧
      (delivered d answers + failed d answers)%nat = length g ∧ downs d answers = length g.
Proof.
  intros Harr Hd Hlen Hn Hc Hp Hds Hkey Hacc Hrep Henv Hcu Hnames Hproc E. unfold setResponseHeaders in E.
  set (w0 := set_header _ _ _) in E. pose proof (arrived_key _ _ _ _ _ _ Harr Hkey) as Hrk.
  rewrite <-Hrk in Hacc, Hrep. pose proof (served_sent _ _ _ _ _ _ _ E Hacc Hrep) as Eh.
  destruct (body_crosses cu (Some (nd_Config B)) g Hnames Hc Hp Hn) as (bevs & Eb & Hcr).
  destruct (batch_handled now B req key w0 B' w' (AppendArrayHeader (Z.of_nat (length g)) +:+ body_of g) dataset environment cu bevs)
    as (ops & errs & ds & Hrun & -> & Hle & Hst).
  - done.
  - by eapply replace_nonblank.
  - by eapply arrived_body.
  - by eapply arrived_dataset.
  - done.
  - done.
  - unfold unmarshal_batch. rewrite (arrived_msgpack _ _ _ _ _ _ Harr), Eb. done.
  - exact Eh.
  - rewrite (arrived_agent _ _ _ _ _ _ Harr) in Hrun. exists bevs, ops, errs, ds. split_and!; [done..|].
    intros t. cbn zeta. destruct (json_answers d t g (Write w0 (json_Marshal_responses (BatchResponse <$> errs))) errs)
      as [[Hdown Hsum] Hdel]; [done..|by rewrite Hle, (Forall2_length _ _ _ Hcr)|].
    split_and!; [by rewrite Hdel, Hst|done..].
Qed.
End HandOver.

(** ** A span sent to its owner *)

Section Owner.
Context {C : Type} `{!CollectorOps C Payload, !GoWyhash}.
Context `{!Msgp, !MsgpLaws, !GoFloat, !GoJSON, !GoTime}.
Implicit Types (A B : Router C DeterministicSharder Payload) (ev : event).

(** Two nodes that have last loaded the same peers, in whatever order. *)
Definition same_cluster A B : Prop :=
  ∃ dA dB lA lB, sharder_wf dA ∧ sharder_wf dB ∧ lA ≡ₚ lB ∧ lA ≠ [] ∧
    ro_Sharder A = reload dA (Ok lA) ∧ ro_Sharder B = reload dB (Ok lB).

Lemma same_target A B traceID : same_cluster A B → WhichShard (ro_Sharder A) traceID = WhichShard (ro_Sharder B) traceID.
Proof. intros (dA & dB & lA & lB & WA & WB & Hp & Hne & -> & ->). by apply reload_agree. Qed.

(** The peer a span is sent to takes the trace for its own. *)
Lemma owner_keeps A B traceID address :
  same_cluster A B → d_myShard (ro_Sharder B) = address → target A traceID = Some (Some address) →
  target B traceID = Some None.
Proof.
  intros Hc Hmy. unfold target. rewrite (same_target A B) by done. cbn [WhichShard MyShard det_Sharder].
  unfold det_WhichShard. destruct (d_peers (ro_Sharder B) !! _) as [p|]; [|done].
  cbn [fmap option_fmap option_map Shard_Equals GetAddress]. rewrite Hmy.
  destruct (String.eqb_spec p (d_myShard (ro_Sharder A))) as [|_]; [done|]. intros [= ->]. by rewrite String.eqb_refl.
Qed.

Lemma ExtractMetadata_settled p : settled p → ExtractMetadata p = Ok p.
Proof. intros [He _]. unfold ExtractMetadata. by rewrite He. Qed.

(** The user agent is all that is added to an event on its arrival. *)
Lemma agent_keeps api key ds env ua (b : BatchedEvents.batchedEvent) :
  let ev := event_of api key ds env ua (batched b) in
  hasExtractedMetadata (ev_Data ev) = hasExtractedMetadata (bt_Data b) ∧
  f_TraceID (pl_meta (ev_Data ev)) = f_TraceID (pl_meta (bt_Data b)) ∧
  f_RefineryProbe (pl_meta (ev_Data ev)) = f_RefineryProbe (pl_meta (bt_Data b)).
Proof.
  cbn zeta. unfold event_of, addIncomingUserAgent. destruct (_ && _); [|done]. cbn. by destruct (pl_meta (bt_Data b)).
Qed.

(** A flag the sender had not set is not set on arrival. *)
Lemma probe_crosses cu p es q es' : same_fields cu p es q es' → p_MetaRefineryProbe p = false → p_MetaRefineryProbe q = false.
Proof.
  intros (Hf & _). cbn. assert (Hp : metadataFields !! MetaRefineryProbe = Some (boolField f_RefineryProbe set_RefineryProbe)) by by vm_compute.
  specialize (Hf _ _ Hp ltac:(done) ltac:(done)). unfold fields in Hf. rewrite Hp in Hf. cbn [field_get] in Hf.
  destruct (f_RefineryProbe (pl_meta p)) as [hp vp], (f_RefineryProbe (pl_meta q)) as [hq vq]. cbn [nb_HasValue nb_Value] in *.
  destruct hp, hq; try done. by injection Hf as ->.
Qed.

(** C4: a span travels at most once.  When a node's router sends a span to a peer, then on the peer it
    is addressed to, having loaded the same list of peers, the event that arrives is not empty and
    not a probe, it is of the same trace, and, unless the peer is under stress, it goes to that
    peer's collector: it is collected or refused because the queue is full, never sent on. *)
Theorem forwarded_span_settles nowA nowB A B evA data address cu sent b api key ds env ua :
  same_cluster A B → d_myShard (ro_Sharder B) = address →
  route_spec nowA A evA = Some (SentToPeer address) → p_ExtractMetadata (ev_Data evA) = Ok data →
  ev_Data sent = data → crossed cu sent b → col_Stressed (ro_Collector B) = false →
  let ev := event_of api key ds env ua (batched b) in
  isEmpty (bt_Data b) = false ∧
  ∃ span, sp_TraceID span = f_TraceID (pl_meta data) ∧ sp_Event span = (GetDataSize ev).2 ∧
    route_spec nowB B ev = collect_disposition B span.
Proof.
  intros Hc Hmy Hr He Hsent (_ & _ & Hset & es & es' & _ & _ & Hsame) Hst. cbn zeta.
  set (ev := event_of api key ds env ua (batched b)). destruct (agent_keeps api key ds env ua b) as (Hx & Ht & Hp).
  fold ev in Hx, Ht, Hp. clearbody ev. rewrite Hsent in Hsame.
  unfold route_spec in Hr. rewrite He in Hr. destruct (p_MetaRefineryProbe data) eqn:Epr; [done|].
  destruct (String.eqb_spec (p_MetaTraceID data) "") as [|Hid]; [done|].
  pose proof Hsame as (_ & Htr & _). specialize (Htr Hid). cbn in Hid.
  assert (Htarget : target A (f_TraceID (pl_meta data)) = Some (Some address)).
  { destruct (col_Stressed _).
    - unfold stress_disposition in Hr. repeat case_match; try done; by destruct (target _ _).
    - change (p_MetaTraceID data) with (f_TraceID (pl_meta data)) in Hr.
      destruct (target A _) as [[a|]|]; [by injection Hr as ->| |done].
      unfold collect_disposition in Hr. by repeat case_match. }
  apply owner_keeps with (B := B) in Htarget; [|done|done]. split.
  { destruct (isEmpty (bt_Data b)) eqn:Ee; [|done]. destruct Hset as [_ Hse]. rewrite (Hse Ee) in Htr. by rewrite <-Htr in Hid. }
  exists (span_of (ev_set_Data (GetDataSize ev).2 (ev_Data ev))). split; [by rewrite <-Htr, <-Ht|].
  assert (Ed : ev_Data (GetDataSize ev).2 = ev_Data ev) by (unfold GetDataSize; by destruct (ev_dataSize ev =? 0)).
  split; [rewrite <-Ed; by destruct (GetDataSize ev) as [? []]|].
  assert (Eex : p_ExtractMetadata (ev_Data ev) = Ok (ev_Data ev)).
  { destruct Hset as [Hset _]. cbn. unfold ExtractMetadata. by rewrite Hx, Hset. }
  unfold route_spec. rewrite Eex, Hst. apply (probe_crosses _ _ _ _ _ Hsame) in Epr.
  change (p_MetaRefineryProbe (bt_Data b)) with (nb_HasValue (f_RefineryProbe (pl_meta (bt_Data b))) && nb_Value (f_RefineryProbe (pl_meta (bt_Data b)))) in Epr.
  rewrite <-Hp in Epr.
  change (p_MetaRefineryProbe (ev_Data ev)) with (nb_HasValue (f_RefineryProbe (pl_meta (ev_Data ev))) && nb_Value (f_RefineryProbe (pl_meta (ev_Data ev)))).
  change (p_MetaTraceID (ev_Data ev)) with (f_TraceID (pl_meta (ev_Data ev))).
  rewrite Epr, Ht, Htr, Htarget. apply String.eqb_neq in Hid. by rewrite Hid.
Qed.
End Owner.

(** ** Two nodes *)

Module ClusterExample.
Export HandlersExample.
#[export] Instance wire : WireLaws.
Proof. split; [|done]. intros l. cbn. by rewrite undigits_digits, decode_encode. Qed.

Definition ev : event := mkEvent "http://other" key "data" "" 4 1000 PayloadSend.Example.event 0 0.
Definition d : DirectTransmission := NewDirectTransmission TransmitTypePeer 50 100 false [] "refinery".
Definition req : httpRequest :=
  mkHttp "POST" "" {["datasetName" := "data"]} ((λ v, [v]) <$> headers d key) "" (mkBody (rq_Body (request_of d ev "" [ev])) None).
Definition B : node (list (Span Payload)) unit :=
  mkNode (WorkerExamples.config false 1) (mkRouter false false [] tt [] [] [] []) (newEnvironmentCache 10).

Lemma crossable_ev : crossable ev.
Proof. split_and!; [done..|]. eexists. exact PayloadSend.Example.event_sending. Qed.

(** The event as the first node's router leaves it. *)
Definition extracted : Payload :=
  Eval vm_compute in match ExtractMetadata PayloadSend.Example.event with Ok p => p | Err _ => PayloadSend.Example.event end.
Definition routed : event := mkEvent "http://other" key "data" "" 4 1000 extracted 0 0.
Lemma extracted_sending : sending metadata_table (map_to_list (memoizedFields extracted)) extracted PayloadFacts.Example.es.
Proof.
  assert (Em : msgpData extracted = PayloadFacts.Example.data) by by vm_compute.
  split_and!; [done|done|rewrite Em; exact PayloadFacts.Example.es_holds|exact PayloadFacts.Example.es_decodable|exact PayloadFacts.Example.es_nodup|].
  split_and!.
  - repeat (apply Forall_cons; split; [by vm_compute|]). constructor.
  - intros k v Hk. assert (E : memoizedFields extracted = {["service" := VString "web"]}) by by vm_compute.
    rewrite E in Hk. apply lookup_singleton_Some in Hk as [<- <-]. by vm_compute.
  - repeat (apply Forall_cons; split; [by vm_compute|]). constructor.
Qed.
Lemma crossable_routed : crossable routed.
Proof. split_and!; [done..|]. eexists. exact extracted_sending. Qed.

(** A sharder that has loaded one peer. *)
Definition node_of (my : string) (incoming : bool) : Router (list (Span Payload)) DeterministicSharder Payload :=
  mkRouter incoming false [] (reload (mkSharder my [] []) (Ok ["http://other"])) [] [] [] [].
Lemma cluster_of_two : same_cluster (node_of "http://me" true) (node_of "http://other" false).
Proof.
  exists (mkSharder "http://me" [] []), (mkSharder "http://other" [] []), ["http://other"], ["http://other"].
  split_and!; try done; by left.
Qed.
End ClusterExample.

Section Witnesses.
Import ClusterExample.

Lemma group_handed_over_witness :
  ∃ B' w', setResponseHeaders (serve_batch 0 B) req new_writer = Some (B', w') ∧ status w' = 200 ∧
    downs d (handle_response d 5 [ev] (reply w')) = 1%nat.
Proof.
  assert (Ew : (λ x, status x.2) <$> setResponseHeaders (serve_batch 0 B) req new_writer = Some 200) by by vm_compute.
  destruct (setResponseHeaders (serve_batch 0 B) req new_writer) as [[B' w']|] eqn:E; [|discriminate]. exists B', w'.
  destruct (group_handed_over 0 d ev "" [ev] "data" B req B' w' key "" (mkCore ["trace.trace_id"] ["trace.parent_id"] []))
    as (bevs & ops & errs & ds & _ & _ & Ht).
  - split_and!; [done|by vm_compute|done].
  - by right.
  - by vm_compute.
  - done.
  - apply Forall_singleton. exact crossable_ev.
  - apply Forall_singleton. by vm_compute.
  - done.
  - done.
  - by vm_compute.
  - by vm_compute.
  - by vm_compute.
  - by vm_compute.
  - Transparent metadataFields. split; apply (bool_decide_unpack (Forall _ _)); by vm_compute.
  - exact keeper_processes.
  - exact E.
  - split_and!; [done|by injection Ew|]. by destruct (Ht 5) as (_ & _ & Hd).
Defined.
Opaque metadataFields.

Lemma forwarded_span_settles_witness :
  ∃ b span, sp_TraceID span = "t1" ∧
    route_spec 0 (node_of "http://other" false) (event_of "" key "data" "" "refinery" (batched b)) =
      Some (Collected [span]).
Proof.
  destruct (marshal_event (packEvent routed)) as [bytes|err] eqn:Em; [|by vm_compute in Em].
  destruct (event_crosses PayloadWire.Example.core None routed bytes "" PayloadWire.Example.core_names crossable_routed Em) as (b & _ & Hc).
  destruct (forwarded_span_settles 0 0 (node_of "http://me" true) (node_of "http://other" false)
    ev extracted "http://other" PayloadWire.Example.core routed b "" key "data" "" "refinery") as (_ & span & Ht & _ & Er).
  - exact cluster_of_two.
  - done.
  - by vm_compute.
  - by vm_compute.
  - done.
  - exact Hc.
  - done.
  - exists b, span. split; [rewrite Ht; by vm_compute|]. rewrite Er. done.
Defined.
End Witnesses.
